(* ===== verification/_CoqProject ===== *)
-Q . S2P
Prelude.v
Items.v
Inventory.v
Transport.v
Geometry.v
MapData.v
Combat.v
Container.v
Buffers.v
Protocol.v
Session.v
Room.v
Handlers.v
Calm.v
Safety.v
Goods.v
Thrift.v
Rooms.v
Stores.v
Sockets.v
Main.v
Matchmaker.v
DBProxy.v
Manager.v
Service.v
Process.v
Groups.v
Tasks.v
Ipc.v
Server.v
Startup.v
Deployment.v
Entry.v
Home.v
