(* ===== verification/Prelude.v ===== *)
(** * ExtractionServer: a verification development

    The server of a multiplayer extraction shooter, in C++ (src/src/): one main process
    that matches players and starts dedicated processes, and the dedicated processes,
    which run game rooms and speak a reliable/unreliable protocol over UDP with the
    clients.  This library models the logic of both and proves what makes it correct.

    ** The program and its model

    A player's way through the program is also the way through the files.  An HTTP
    server (not C++, not modelled) asks the main process to queue a ticket; the
    matchmaker of the map forms groups by aggression and waiting time, marks the tickets in
    Redis and hands a group to a dedicated process with room for it, which is started when there
    is none; the process makes a room, registers a session per player and sends back
    entry tokens, which the main process writes to Redis; a client that presents a token
    has its address bound to its session and then talks UDP to the room; a player who
    leaves is reported to the main process, which writes the inventory to MySQL; an
    empty room is destroyed and its places go back to the main process.

    - Prelude: machine integers, the state monad [ST], lists and maps, automation.
    - The dedicated process, bottom up, all from src/src/DedicateProcess/:
      Items (Items.h, ItemDataManager.h, enum.h), Inventory (PlayerInventory), Transport (the
      channel half of PlayerSession), Geometry (UnityGameObject), MapData (MapDataManager.h),
      Combat (CombatObject, PlayerObject, HostileNPC), Container (Container and its
      kinds), Protocol (the header and messages of ClientPacketHandler.h), Session (Player and the
      other half of PlayerSession), Room (GameRoom), Handlers (ClientPacketHandler.cpp), Rooms (the
      constructors of the two maps' rooms), Service (DediServerService, TimerExecuter and
      the loop of DedicateMain).
    - Shared by both processes: Buffers (SendBuffer, RecvBuffer and the read loop of the
      IPC sessions), Tasks (ObjectPool, the requests of IoUringWrapper, the tasks of IOTask and
      UDPTask with their callbacks) and Ipc (the messages, ids and handler table of PacketHandler, the
      sessions' reads of DediSessions and M2DSessions, M2DTempSession).
    - The main process, from src/src/: Stores (exceptions, Redis and MySQL as
      interfaces), Sockets (SocketWrapper's listeners and HTTPserver.cpp), Main (DediManager,
      M2DSessions and the tickets), Matchmaker (Matchmaker.cpp),
      DBProxy (PacketHandler.cpp, DBProxyRequest, MysqlHandle), Server (the globals, the callbacks
      of IOTask.cpp and the loop of main.cpp), Startup (EnvSetter, RedisHandler, main.cpp
      up to its loop, and the start of a dedicated process).
    - Files of theorems over whole runs: Calm, Safety, Goods and Thrift (a room), Process and
      Groups (a dedicated process), Manager (the processes in the hands of the main process),
      Deployment (the main process and a dedicated one, with the messages between them),
      Entry and Home (a player's way into a room and home again, across both).

    State is a [Record] per class with the source's field names; a method is a
    definition of its name on that record, in [ST] where it calls others that
    change the same state, in [EX] of Stores.v where it can throw.  A pointer to a shared
    object is the key of the object in the store that owns it (a session id, an object id,
    a ticket's key, a room's id, a [SlotRef]), so that aliases stay aliases.  A room with
    its clock and what it has put out is a [World]; a step of it is a [Label] of
    Calm.v, and a run is any list of them.  The service of Service.v holds the worlds of its
    rooms and gives each only such steps ([rooms_only_run]), which carries what is
    proved of one room's runs over to the process.

    ** What the theorems show

    - Rooms (Safety, Thrift, Room): over every run of datagrams, timers, updates and
      retransmissions the main process hears of each departure exactly once, no item is
      duplicated among bags, containers and the rows reported, detached players
      are powerless, a container has one user (unless a client has itself spawned anew with
      it open), a room past its lifetime is
      destroyed; a death leaves what the player carried; a snapshot is complete.
    - Dedicated process (Process, Groups, Rooms): session ids, places and rooms stay
      in step over every history; a group gets a room and tokens that admit once; a
      room's end gives back ids and capacity; updates and retransmissions take turns; timers
      run once and in order; the loot of a new room meets its quotas.
    - Transport, Session, Protocol: the receive window refines its abstract
      specification and accepted packets are distinct; acknowledgements release only
      what was delivered, and all of it within their reach (all this but for a jump of exactly
      32, which the window does not track: [jump_of_32_accepts_duplicate],
      [jump_of_32_withholds_ack]); packets decode to what was sent, the timeout is bounded.
    - Inventory, Container, Combat, Geometry: operations neither duplicate nor lose
      items, reloading moves exactly the rounds that fit, NPC authority is held by one
      player at a time, rotations survive compression.
    - Main process (Matchmaker, Manager, DBProxy): groups are disjoint and obey the
      rule, the memo of the search changes nothing, a ticket is in one place,
      processes are given groups in order, none lost, and within capacity, tokens lead to their
      process, an inventory is written completely or not at all.
    - A player's way in (Entry): from the order to make a room over the rows in Redis and the
      client's address to the first datagram, which is answered.  And home (Home): from the last
      tick of the recall over the room's update to the rows in MySQL and the lock in Redis.
    - Between the processes (Ipc): what a dedicated process reports reaches the main
      process, and what it is told reaches it, each once and in order whatever the chunks, for
      the first 64 KiB of their connection; a new
      connection becomes the session of the process that names itself.  In any interleaving of
      the two (Deployment) the places counted as taken cover the players that are in rooms,
      reported gone but not heard of, or in groups under way, so a process never runs out of
      session ids.
    - The main process as a whole (Startup, Server, Sockets): it starts from a clean Redis with
      both its ears open, always when what it needs answers, and from then on, whatever its peers and stores do, it never leaves its arrays nor
      follows a dangling ticket; an exception may end it, nothing else.
    - Buffers, Tasks: send buffers never overlap; a task or a buffer is in one place, and
      none is lost while the kernel takes requests; what the process needs to go on
      hearing its clients.

    ** Bounds and fuel

    An unsigned integer of w bits is a [Z] reduced modulo 2^w wherever the source can wrap;
    conversions between widths are written [u32], [i16] and so on.  Signed arithmetic on
    quantities, hit points and counters is exact: C++ leaves its overflow undefined, and the
    bounds are theorems where they matter.  Floats are IEEE binary32 ([spec_float]),
    each operation rounded once.  Loops that are not structural take fuel, with a
    theorem that it suffices: the read loop of Buffers by the bytes in the buffer, the
    matchmaker's loops by the tickets, the search for a token by the tokens in use plus one
    ([GetUniqueToken_total]), a tick of the timers by the timers plus one ([Tick_spec]: a timer set
    during a tick is for later).

    ** What is taken from outside

    Code that is not in src/ is a parameter of the model, with its documented laws as
    hypotheses and a concrete instance that satisfies them: protobuf on UDP, XXH64 and the
    iteration order of absl::flat_hash_map ([External]), protobuf between the processes
    ([Ipc], with the law that a message in range is parsed from its bytes), the random generators ([Rng],
    [System]), the heap of the standard library ([System]), Redis and MySQL ([Redis],
    [Mysql]) with any pattern of failures, fork, the JSON parser and the environment
    ([MainEnv]).  A clock does not advance within a call; times are in milliseconds.
    Arguments C++ evaluates in no fixed order are evaluated from left to right.  A send
    buffer can always be had, except in Buffers, where running out is modelled.  An exception
    that no handler catches ends its process: [in_process] of Ipc keeps it and handles
    nothing more.  The theorems of Ipc ask ([arrived]) that what has come of a stream, which may be
    any beginning of it, came in chunks of at least a byte; they say what
    happens within the 64 KiB a connection reads in its life, and that beyond them nothing is
    read.  A pipeline to Redis may break after any of its commands; a transaction of MySQL
    whose rollback is lost stays open on its connection, and the theorem on departures
    says what the next one then publishes.  Those of
    Server and Startup ask ([polite]) that the peers send messages in range, that the
    HTTP server keeps the aggression of a ticket within 0 to 20, and that the clock does not
    go back and stays below 2^31 seconds; those of Deployment that fork returns the id of
    no process there is, and that a player is once in a group.

    ** Not modelled

    - The kernel: which request completes when, and with what, is an argument of the
      steps of Server and Tasks; the sockets of a dedicated process are made or not.  Only
      Sockets has a table of descriptors, for the listeners and the HTTP server's process.
      NetAddress is used nowhere.  A pass of the dedicated process takes its
      completions as a list.
    - Client libraries: the connection to MySQL is a flag with what the server keeps of a
      session; parsing the address of Redis is a parameter.
    - The memory of released objects, except in Tasks, where addresses are reused; elsewhere
      a released object is simply gone.
    - src/src/sample.h is notes that do not compile; src/database/ItemDataManager.h is a copy
      of the file that is modelled.
    - The HTTP server in JavaScript, the database scripts, generated protobuf code. *)

From Stdlib Require Export ZArith Lia.
From stdpp Require Export base gmap sets list fin_maps.

#[export] Set Default Goal Selector "!".

(** ** Machine integers

    Every C++ integer is a [Z] kept in the range of its width; the arithmetic
    of the source is written out with the wrap-around of that width. *)

Declare Scope width_scope.
Delimit Scope width_scope with W.

Definition u16 (z : Z) : Z := Z.modulo z (2 ^ 16).
Definition u32 (z : Z) : Z := Z.modulo z (2 ^ 32).
Definition u64 (z : Z) : Z := Z.modulo z (2 ^ 64).
Definition i16 (z : Z) : Z := Z.modulo (z + 2 ^ 15) (2 ^ 16) - 2 ^ 15.
Definition i32 (z : Z) : Z := Z.modulo (z + 2 ^ 31) (2 ^ 32) - 2 ^ 31.

Notation "x -%u32 y" := (u32 (x - y)) (at level 50, left associativity) : width_scope.
Notation "x +%u32 y" := (u32 (x + y)) (at level 50, left associativity) : width_scope.
Notation "x *%u32 y" := (u32 (x * y)) (at level 40, left associativity) : width_scope.

Definition is_u16 (z : Z) : Prop := (0 <= z < 2 ^ 16)%Z.
Definition is_u32 (z : Z) : Prop := (0 <= z < 2 ^ 32)%Z.
Definition is_i32 (z : Z) : Prop := (- 2 ^ 31 <= z < 2 ^ 31)%Z.

Create HintDb width discriminated.
Create HintDb slots discriminated.

(** [width] normalises the powers of two of the integer widths and calls [lia]. *)
Ltac width :=
  unfold is_u16, is_u32, is_i32, u16, u32, u64, i16, i32 in *;
  change (2 ^ 15)%Z with 32768%Z in *; change (2 ^ 16)%Z with 65536%Z in *;
  change (2 ^ 31)%Z with 2147483648%Z in *; change (2 ^ 32)%Z with 4294967296%Z in *;
  change (2 ^ 64)%Z with 18446744073709551616%Z in *;
  Z.to_euclidean_division_equations; lia.

(** Closed comparisons of integers, by evaluation. *)
Ltac zcompute := vm_compute; repeat split; (reflexivity || discriminate).

Section widths.
Local Open Scope Z_scope.

Lemma u16_range z : is_u16 (u16 z).
Proof. width. Qed.
Lemma u32_range z : is_u32 (u32 z).
Proof. width. Qed.
Lemma i32_range z : is_i32 (i32 z).
Proof. width. Qed.
Lemma u16_id z : is_u16 z -> u16 z = z.
Proof. intros; width. Qed.
Lemma u32_id z : is_u32 z -> u32 z = z.
Proof. intros; width. Qed.
Lemma i32_id z : is_i32 z -> i32 z = z.
Proof. intros; width. Qed.
Lemma i16_pos_iff z : is_u16 z -> 0 < i16 z <-> 0 < z < 2 ^ 15.
Proof. intros; width. Qed.

(** The serial comparison [static_cast<int32_t>(a - b) <= 0]. *)
Lemma i32_sub_le0 a b :
  is_u32 a -> is_u32 b ->
  i32 (u32 (a - b)) <= 0 <-> a = b \/ u32 (b - a) <= 2 ^ 31 /\ a <> b.
Proof. intros; width. Qed.
End widths.

#[export] Hint Resolve u16_range u32_range i32_range : width.

(** ** Record update

    [r <| f := v |>] is the record [r] with field [f] set to [v].  A record type
    gives its eta expansion once; the setter of each field is found from it. *)

Class Eta (R : Type) := eta : R -> R.
Class Setter {R T : Type} (proj : R -> T) := setf : (T -> T) -> R -> R.
Arguments setf {R T} proj {_} f r /.

Ltac derive_setter :=
  lazymatch goal with
  | |- @Setter ?R ?T ?proj =>
      let inst := constr:(_ : Eta R) in
      let inst' := eval hnf in inst in
      let f := fresh "f" in
      let r := fresh "r" in
      intros f r;
      let body := eval cbv beta in (inst' r) in
      match body with
      | context C [proj r] => let t := context C [f (proj r)] in exact t
      end
  end.
#[export] Hint Extern 1 (@Setter _ _ _) => derive_setter : typeclass_instances.

Notation "r <| proj := v |>" := (setf proj (fun _ => v) r)
  (at level 1, left associativity, proj constr at level 0).
Notation "r <| proj ::= f |>" := (setf proj f r)
  (at level 1, left associativity, proj constr at level 0).

(** ** State-passing code

    Code that threads one state through calls, written with stdpp's monad
    notations ([x <- m ; k]). *)

Definition ST (W A : Type) : Type := W -> A * W.
#[export] Instance ST_ret W : MRet (ST W) := fun A a w => (a, w).
#[export] Instance ST_bind W : MBind (ST W) :=
  fun A B f m w => let '(a, w') := m w in f a w'.
Definition gets {W A} (f : W -> A) : ST W A := fun w => (f w, w).
Definition modify {W} (f : W -> W) : ST W unit := fun w => (tt, f w).
Definition exec {W A} (m : ST W A) (w : W) : W := snd (m w).
Definition eval {W A} (m : ST W A) (w : W) : A := fst (m w).

(** The loop [for (x : xs) body(x)] over a state. *)
Fixpoint for_each {W A} (xs : list A) (body : A -> ST W unit) : ST W unit :=
  match xs with
  | [] => mret tt
  | x :: xs' => body x ≫= fun _ => for_each xs' body
  end.

Section st.
Context {W A : Type}.
Implicit Types (w : W).

Lemma exec_for_each_nil (body : A -> ST W unit) w : exec (for_each [] body) w = w.
Proof. reflexivity. Qed.

Lemma exec_for_each_cons x xs (body : A -> ST W unit) w :
  exec (for_each (x :: xs) body) w = exec (for_each xs body) (exec (body x) w).
Proof. unfold exec; simpl; unfold mbind, ST_bind. by destruct (body x w) as [[] w']. Qed.

(** An invariant that every iteration keeps holds after the loop. *)
Lemma for_each_inv (I : W -> Prop) xs (body : A -> ST W unit) w :
  (forall x w, x ∈ xs -> I w -> I (exec (body x) w)) -> I w -> I (exec (for_each xs body) w).
Proof.
  revert w; induction xs as [|x xs IH]; intros w Hstep Hw; [done|].
  rewrite exec_for_each_cons. apply IH.
  - intros y w' Hy. apply Hstep. by right.
  - apply Hstep; [by left|done].
Qed.

(** The world in which a loop visits one of its elements. *)
Lemma for_each_visit (T : relation W) `{!PreOrder T} xs (body : A -> ST W unit) x w :
  (forall y w, T w (exec (body y) w)) -> x ∈ xs ->
  exists w1, T w w1 /\ T (exec (body x) w1) (exec (for_each xs body) w).
Proof.
  intros Hb. revert w; induction xs as [|y xs IH]; intros w Hx; [by apply elem_of_nil in Hx|].
  rewrite exec_for_each_cons.
  assert (Hrest : forall w, T w (exec (for_each xs body) w)).
  { intros w1. apply (for_each_inv (T w1)); [|reflexivity]. intros z w2 _ H. etrans; [exact H|apply Hb]. }
  apply elem_of_cons in Hx as [->|Hx].
  - exists w. split; [reflexivity|apply Hrest].
  - destruct (IH (exec (body y) w) Hx) as (w1 & H1 & H2). exists w1. split; [|done]. etrans; [apply Hb|done].
Qed.
End st.
