(* ===== verification/Items.v ===== *)
(** * Items, slots and the item tables

    Models src/src/DedicateProcess/Items.h, ItemDataManager.h and the deny bits of
    enum.h: the item types, the slot and its emptiness test, the weapon and armor
    specifications. *)

From S2P Require Import Prelude.
From stdpp Require Import strings.
Local Open Scope Z_scope.

Inductive ItemType := NONE | WEAPON | ARMOR | AMMO | MISC.
#[export] Instance ItemType_eq_dec : EqDecision ItemType.
Proof. solve_decision. Defined.

(** [static_cast<uint32_t>(ItemType)]. *)
Definition ItemType_code (t : ItemType) : Z :=
  match t with NONE => 0 | WEAPON => 1 | ARMOR => 2 | AMMO => 3 | MISC => 4 end.

Definition WORLD_ITEM_UID_BASE : Z := Z.shiftl 1 62.

Record Item := mk_item { instanceUid : Z; blueprintId : Z }.
#[export] Instance eta_Item : Eta Item := fun r => mk_item (instanceUid r) (blueprintId r).
Definition item_default : Item := mk_item 0 0.

Record Slot := mk_slot { item : Item; slotIndex : Z; quantity : Z }.
#[export] Instance eta_Slot : Eta Slot := fun r => mk_slot (item r) (slotIndex r) (quantity r).
Definition slot_default : Slot := mk_slot item_default (-1) 0.

Definition IsEmpty (s : Slot) : bool := (quantity s <=? 0) && (blueprintId (item s) =? 0).
Definition Clear (s : Slot) : Slot := s <| item := item_default |> <| quantity := 0 |>.

Record WeaponSpec := mk_weapon_spec {
  baseDamage : Z; RPM : Z; maxAmmo : Z; MOA : Z;
  vRecoilMin : Z; vRecoilMax : Z; hRecoilMax : Z;
  spreadBase : Z; spreadMax : Z; spreadIncreasePerShot : Z; spreadRecoveryRate : Z;
  ammoType : Z }.

Record ArmorSpec := mk_armor_spec {
  maxShieldPoint : Z; DamageReductionRate : Z; regenerationPerSecond : Z }.

(** The tables of [ItemDataManager]. *)
Definition typeMap : gmap Z ItemType := list_to_map
  [(1, WEAPON); (2, WEAPON); (3, WEAPON); (4, ARMOR); (5, AMMO); (6, AMMO); (7, MISC); (8, ARMOR)].

Definition weaponSpecs : gmap Z WeaponSpec := list_to_map
  [(1, mk_weapon_spec 4800 600 30 0 200 220 50 30 800 120 600 6);
   (2, mk_weapon_spec 4000 700 30 0 150 165 40 30 800 100 600 5);
   (3, mk_weapon_spec 4200 650 30 0 200 220 50 30 800 120 600 5)].

Definition armorSpecs : gmap Z ArmorSpec := list_to_map
  [(4, mk_armor_spec 10000 5000 800); (8, mk_armor_spec 16000 5000 800)].

(** [GetType(int32_t)]: the callers pass a [uint32_t] blueprint, converted. *)
Definition GetType (id : Z) : ItemType := default NONE (typeMap !! i32 id).
Definition GetWeaponSpec (itemId : Z) : option WeaponSpec := weaponSpecs !! itemId.
Definition GetArmorSpec (itemId : Z) : option ArmorSpec := armorSpecs !! itemId.

(** Reasons for refusing an item operation (enum [DenyReason]). *)
Definition DENY_VERSION_MISMATCH       : Z := 1.
Definition DENY_SLOT_EMPTY             : Z := 2.
Definition DENY_SLOT_NOT_EMPTY         : Z := 4.
Definition DENY_SLOT_ALREADY_EMPTY     : Z := 8.
Definition DENY_INVALID_QUANTITY       : Z := 16.
Definition DENY_BLUEPRINT_MISMATCH     : Z := 32.
Definition DENY_ITEM_TYPE_MISMATCH     : Z := 64.
Definition DENY_BARE_HANDED            : Z := 128.
Definition DENY_MAGAZINE_UNLOAD_FAILED : Z := 256.
Definition DENY_SERVER_INTERNAL        : Z := 512.
Definition DENY_CONTAINER_NOT_OPEN     : Z := 1024.
Definition DENY_OUT_OF_RANGE           : Z := 2048.

(** An [InventorySlot] message, as [FillSlotProto] fills it. *)
Record InventorySlotMsg := mk_slot_msg {
  m_slot_index : Z; m_blueprint_id : Z; m_instance_uid : Z; m_item_type : Z; m_quantity : Z }.

Definition FillSlotProto (s : Slot) : InventorySlotMsg :=
  mk_slot_msg (slotIndex s) (blueprintId (item s)) (instanceUid (item s))
    (ItemType_code (GetType (blueprintId (item s)))) (quantity s).

(** ** Counting items

    [count bp s] is how many of blueprint [bp] the slot holds. *)

Definition count (bp : Z) (s : Slot) : Z :=
  if blueprintId (item s) =? bp then quantity s else 0.
Definition total (bp : Z) (l : list Slot) : Z := foldr (fun s n => count bp s + n) 0 l.

(** A slot is well formed when it is vacant or holds a positive quantity. *)
Definition slot_wf (s : Slot) : Prop :=
  (item s = item_default /\ quantity s = 0) \/ (blueprintId (item s) <> 0 /\ 0 < quantity s).

(** Copying the content of a slot leaves its index alone. *)
Definition put (from to : Slot) : Slot :=
  to <| item := item from |> <| quantity := quantity from |>.

(** ** Lemmas *)

Lemma IsEmpty_wf s : slot_wf s -> IsEmpty s = true <-> item s = item_default /\ quantity s = 0.
Proof.
  unfold IsEmpty. rewrite andb_true_iff, Z.leb_le, Z.eqb_eq.
  intros [[-> ->]|[Hb Hq]]; [simpl; naive_solver lia|]. split; [lia|]. intros [Hi _]. by rewrite Hi in Hb.
Qed.

Lemma not_IsEmpty_wf s : slot_wf s -> IsEmpty s = false <-> blueprintId (item s) <> 0 /\ 0 < quantity s.
Proof.
  intros Hs. rewrite <- not_true_iff_false, IsEmpty_wf by done.
  destruct Hs as [[-> ->]|[Hb Hq]]; simpl; [naive_solver lia|]. split; [done|]. intros _ [Hi _].
  by rewrite Hi in Hb.
Qed.

Lemma IsEmpty_Clear s : IsEmpty (Clear s) = true.
Proof. reflexivity. Qed.

Lemma slot_wf_Clear s : slot_wf (Clear s).
Proof. by left. Qed.

Lemma slot_wf_put a b : slot_wf a -> slot_wf (put a b).
Proof. by intros [?|?]; [left|right]. Qed.

Lemma slot_wf_default : slot_wf slot_default.
Proof. by left. Qed.

Lemma count_Clear bp s : bp <> 0 -> count bp (Clear s) = 0.
Proof.
  intros. unfold count. change (blueprintId (item (Clear s))) with 0.
  destruct (Z.eqb_spec 0 bp); [congruence|done].
Qed.

Lemma count_put bp a b : count bp (put a b) = count bp a.
Proof. reflexivity. Qed.

Lemma count_nonneg bp s : slot_wf s -> 0 <= count bp s.
Proof. intros [[_ Hq]|[_ Hq]]; unfold count; destruct (_ =? bp); lia. Qed.

Lemma count_empty bp s : bp <> 0 -> IsEmpty s = true -> count bp s = 0.
Proof.
  unfold IsEmpty, count. rewrite andb_true_iff, Z.leb_le, Z.eqb_eq. intros Hbp [_ ->].
  destruct (Z.eqb_spec 0 bp); [congruence|done].
Qed.

Lemma total_app bp l1 l2 : total bp (l1 ++ l2) = total bp l1 + total bp l2.
Proof. induction l1; simpl; lia. Qed.

Lemma total_nonneg bp l : Forall slot_wf l -> 0 <= total bp l.
Proof. induction 1; simpl; [lia|]. pose proof (count_nonneg bp x H). lia. Qed.

(** Writing one slot changes the total by the difference of the two counts. *)
Lemma total_insert bp (l : list Slot) i s s' :
  l !! i = Some s -> total bp (<[i := s']> l) = total bp l - count bp s + count bp s'.
Proof.
  revert i; induction l as [|x l IH]; intros [|i] H; simplify_eq/=; [lia|]. rewrite (IH _ H). lia.
Qed.

Lemma count_le_total bp (l : list Slot) i s :
  Forall slot_wf l -> l !! i = Some s -> count bp s <= total bp l.
Proof.
  revert i; induction l as [|x l IH]; intros [|i] Hwf Hi; simplify_eq/=;
    apply Forall_cons in Hwf as [Hx Hl].
  - pose proof (total_nonneg bp l Hl). lia.
  - pose proof (IH _ Hl Hi). pose proof (count_nonneg bp x Hx). lia.
Qed.

#[export] Hint Resolve slot_wf_Clear slot_wf_put slot_wf_default IsEmpty_Clear : slots.
