(* ===== verification/Inventory.v ===== *)
(** * The in-match inventory of a player

    Models src/src/DedicateProcess/PlayerInventory.h and .cpp: 25 slots, two weapon
    slots with their magazines and an armor slot; loading and unloading magazines,
    equipping and unequipping, serialisation.

    The equip operations of the source take a [Slot&] that refers either to one
    of the player's own slots or to a slot of an open container.  The model keeps
    the aliasing: [SlotRef] names the slot, and reads and writes go through it. *)

From S2P Require Import Prelude Items.
Local Open Scope Z_scope.

Definition INVENTORY_SLOT_COUNT : Z := 25.

Record PlayerInventory := mk_inventory {
  _primaryWeaponSlot : Slot; _secondaryWeaponSlot : Slot; _armorSlot : Slot;
  _primaryWeaponMagazineSlot : Slot; _secondaryWeaponMagazineSlot : Slot;
  _inventorySlots : list Slot;
  _inventoryVersion : Z; _firstEmptySlotIndex : Z }.
#[export] Instance eta_PlayerInventory : Eta PlayerInventory := fun r =>
  mk_inventory (_primaryWeaponSlot r) (_secondaryWeaponSlot r) (_armorSlot r)
    (_primaryWeaponMagazineSlot r) (_secondaryWeaponMagazineSlot r) (_inventorySlots r)
    (_inventoryVersion r) (_firstEmptySlotIndex r).

(** [isPrimary ? _primary... : _secondary...] *)
Definition weaponOf (isPrimary : bool) (inv : PlayerInventory) : Slot :=
  if isPrimary then _primaryWeaponSlot inv else _secondaryWeaponSlot inv.
Definition magazineOf (isPrimary : bool) (inv : PlayerInventory) : Slot :=
  if isPrimary then _primaryWeaponMagazineSlot inv else _secondaryWeaponMagazineSlot inv.
Definition set_weapon (isPrimary : bool) (s : Slot) (inv : PlayerInventory) : PlayerInventory :=
  if isPrimary then inv <| _primaryWeaponSlot := s |> else inv <| _secondaryWeaponSlot := s |>.
Definition set_magazine (isPrimary : bool) (s : Slot) (inv : PlayerInventory) : PlayerInventory :=
  if isPrimary then inv <| _primaryWeaponMagazineSlot := s |>
  else inv <| _secondaryWeaponMagazineSlot := s |>.

(** ** Free slots and versions *)

Fixpoint first_empty (i : Z) (l : list Slot) : Z :=
  match l with
  | [] => -1
  | s :: l' => if IsEmpty s then i else first_empty (i + 1) l'
  end.

Definition UpdateFirstEmptySlotIndex (inv : PlayerInventory) : PlayerInventory :=
  inv <| _firstEmptySlotIndex := first_empty 0 (_inventorySlots inv) |>.

Definition IncrementInventoryVersion (inv : PlayerInventory) : PlayerInventory :=
  inv <| _inventoryVersion ::= fun v => u32 (v + 1) |>.

(** [nullptr] out of range. *)
Definition GetSlotMutable (slotIndex : Z) : option nat :=
  if (slotIndex <? 0) || (INVENTORY_SLOT_COUNT <=? slotIndex) then None
  else Some (Z.to_nat slotIndex).

(** ** Magazines *)

(** What a step of the loading loop does to a slot and the magazine. *)
Definition load_into (mag s : Slot) (take : Z) : Slot :=
  if IsEmpty mag then mag <| item := item s |> <| quantity := take |>
  else mag <| quantity ::= fun q => q + take |>.
Definition take_from (s : Slot) (take : Z) : Slot :=
  let s' := s <| quantity ::= fun q => q - take |> in
  if quantity s' <=? 0 then Clear s' else s'.

(** The loop over the slots while [remaining > 0]; returns the slots, the
    magazine, what remains to load and whether anything moved. *)
Fixpoint load_loop (ammo remaining : Z) (mag : Slot) (changed : bool) (slots : list Slot)
    : list Slot * Slot * Z * bool :=
  match slots with
  | [] => ([], mag, remaining, changed)
  | s :: rest =>
      if remaining <=? 0 then (slots, mag, remaining, changed)
      else if IsEmpty s || negb (blueprintId (item s) =? u32 ammo) then
        let '(rest', mag', r, c) := load_loop ammo remaining mag changed rest in
        (s :: rest', mag', r, c)
      else
        let take := Z.min (quantity s) remaining in
        let '(rest', mag', r, c) :=
          load_loop ammo (remaining - take) (load_into mag s take) true rest in
        (take_from s take :: rest', mag', r, c)
  end.

Definition LoadMagazineFromInventory (isPrimary : bool) (inv : PlayerInventory) : PlayerInventory :=
  let weaponSlot := weaponOf isPrimary inv in
  let magazineSlot := magazineOf isPrimary inv in
  if IsEmpty weaponSlot then inv
  else match GetWeaponSpec (blueprintId (item weaponSlot)) with
  | None => inv
  | Some spec =>
      let remaining := maxAmmo spec - quantity magazineSlot in
      if remaining <=? 0 then inv
      else
        let '(slots, mag, _, changed) :=
          load_loop (ammoType spec) remaining magazineSlot false (_inventorySlots inv) in
        let inv' := set_magazine isPrimary mag (inv <| _inventorySlots := slots |>) in
        if changed then IncrementInventoryVersion (UpdateFirstEmptySlotIndex inv') else inv'
  end.

(** Success is the change of the version. *)
Definition ReloadMagazine (isPrimary : bool) : ST PlayerInventory bool := fun inv =>
  let inv' := LoadMagazineFromInventory isPrimary inv in
  (negb (_inventoryVersion inv' =? _inventoryVersion inv), inv').

(** The search for a slot holding the blueprint of the magazine. *)
Fixpoint find_same (bp : Z) (i : nat) (l : list Slot) : option nat :=
  match l with
  | [] => None
  | s :: l' => if negb (IsEmpty s) && (blueprintId (item s) =? bp) then Some i
               else find_same bp (S i) l'
  end.

(** Always [true]: with neither a slot of the same blueprint nor an empty one
    the magazine is cleared.  The second result is [outSlotIdx]. *)
Definition UnloadMagazineToInventory (isPrimary : bool) (inv : PlayerInventory)
    : bool * Z * PlayerInventory :=
  let magSlot := magazineOf isPrimary inv in
  if IsEmpty magSlot then (true, -1, inv)
  else match find_same (blueprintId (item magSlot)) 0 (_inventorySlots inv) with
  | Some i =>
      (true, Z.of_nat i,
       set_magazine isPrimary (Clear magSlot)
         (inv <| _inventorySlots ::= alter (fun s => s <| quantity ::= fun q => q + quantity magSlot |>) i |>))
  | None =>
      if _firstEmptySlotIndex inv =? -1 then
        (true, -1, set_magazine isPrimary (Clear magSlot) inv)
      else
        let emptyIdx := _firstEmptySlotIndex inv in
        (true, emptyIdx,
         UpdateFirstEmptySlotIndex (set_magazine isPrimary (Clear magSlot)
           (inv <| _inventorySlots ::= alter (put magSlot) (Z.to_nat emptyIdx) |>)))
  end.

(** ** Construction *)

Definition empty_slots : list Slot :=
  map (fun i => slot_default <| slotIndex := Z.of_nat i |>) (seq 0 25).

Definition place_slots (inventorySlots slots : list Slot) : list Slot :=
  foldl (fun acc s => if (0 <=? slotIndex s) && (slotIndex s <? INVENTORY_SLOT_COUNT)
                      then <[ Z.to_nat (slotIndex s) := s ]> acc else acc) slots inventorySlots.

(** [equipmentSlotId]: 0 primary weapon, 1 secondary weapon, 2 armor. *)
Definition equip_slot (s : Slot) (inv : PlayerInventory) : PlayerInventory :=
  if slotIndex s =? 0 then inv <| _primaryWeaponSlot := s |>
  else if slotIndex s =? 1 then inv <| _secondaryWeaponSlot := s |>
  else if slotIndex s =? 2 then inv <| _armorSlot := s |> else inv.

Definition new_PlayerInventory (inventorySlots equipmentSlots : list Slot) : PlayerInventory :=
  let inv0 := mk_inventory slot_default slot_default slot_default slot_default slot_default
                (place_slots inventorySlots empty_slots) 0 (-1) in
  let inv1 := foldl (fun inv s => equip_slot s inv) inv0 equipmentSlots in
  UpdateFirstEmptySlotIndex
    (LoadMagazineFromInventory false (LoadMagazineFromInventory true inv1)).

Definition Clear_inventory (inv : PlayerInventory) : PlayerInventory :=
  UpdateFirstEmptySlotIndex (IncrementInventoryVersion
    (mk_inventory (Clear (_primaryWeaponSlot inv)) (Clear (_secondaryWeaponSlot inv))
       (Clear (_armorSlot inv)) (Clear (_primaryWeaponMagazineSlot inv))
       (Clear (_secondaryWeaponMagazineSlot inv)) (map Clear (_inventorySlots inv))
       (_inventoryVersion inv) (_firstEmptySlotIndex inv))).

(** ** Equipping *)

(** A [Slot&] argument: a slot of this inventory, or a slot of a container. *)
Inductive SlotRef := OwnSlot (i : nat) | ContainerSlot.

(** The inventory and the container slot the reference may point to. *)
Record Equip := mk_equip { e_inv : PlayerInventory; e_ext : Slot }.
#[export] Instance eta_Equip : Eta Equip := fun r => mk_equip (e_inv r) (e_ext r).

Definition deref (r : SlotRef) (e : Equip) : Slot :=
  match r with
  | OwnSlot i => default slot_default (_inventorySlots (e_inv e) !! i)
  | ContainerSlot => e_ext e
  end.
Definition assign (r : SlotRef) (s : Slot) (e : Equip) : Equip :=
  match r with
  | OwnSlot i => e <| e_inv ::= fun inv => inv <| _inventorySlots ::= <[ i := s ]> |> |>
  | ContainerSlot => e <| e_ext := s |>
  end.

Definition updated (e : Equip) : Equip :=
  e <| e_inv ::= fun inv => IncrementInventoryVersion (UpdateFirstEmptySlotIndex inv) |>.

(** Result of an equip operation: success, [outDenyReason], [outUnloadedSlotIdx]. *)
Definition EquipResult : Type := bool * Z * Z.

Definition EquipWeaponFromSlot (src : SlotRef) (isPrimary : bool) (deny unloaded : Z)
    : ST Equip EquipResult := fun e =>
  if IsEmpty (deref src e) then ((false, Z.lor deny DENY_SLOT_EMPTY, unloaded), e)
  else if negb (bool_decide (GetType (blueprintId (item (deref src e))) = WEAPON)) then
    ((false, Z.lor deny DENY_ITEM_TYPE_MISMATCH, unloaded), e)
  else
    let '(ok, unloaded', inv1) := UnloadMagazineToInventory isPrimary (e_inv e) in
    let e1 := e <| e_inv := inv1 |> in
    if negb ok then ((false, Z.lor deny DENY_MAGAZINE_UNLOAD_FAILED, unloaded'), e1)
    else
      let weaponSlot := weaponOf isPrimary inv1 in
      let srcSlot := deref src e1 in
      let e2 :=
        if IsEmpty weaponSlot then
          assign src (Clear srcSlot)
            (e1 <| e_inv ::= set_weapon isPrimary (put srcSlot weaponSlot) |>)
        else
          assign src (put weaponSlot srcSlot)
            (e1 <| e_inv ::= set_weapon isPrimary (put srcSlot weaponSlot) |>) in
      ((true, deny, unloaded'), updated e2).

Definition UnequipWeaponToSlot (dst : SlotRef) (isPrimary : bool) (deny unloaded : Z)
    : ST Equip EquipResult := fun e =>
  let weaponSlot := weaponOf isPrimary (e_inv e) in
  let dstSlot := deref dst e in
  if IsEmpty weaponSlot then ((false, Z.lor deny DENY_SLOT_EMPTY, unloaded), e)
  else
    let dstWasEmpty := IsEmpty dstSlot in
    if dstWasEmpty && IsEmpty (weaponOf (negb isPrimary) (e_inv e)) then
      ((false, Z.lor deny DENY_BARE_HANDED, unloaded), e)
    else if negb dstWasEmpty &&
            negb (bool_decide (GetType (blueprintId (item dstSlot)) = WEAPON)) then
      ((false, Z.lor deny DENY_ITEM_TYPE_MISMATCH, unloaded), e)
    else
      let e1 :=
        if dstWasEmpty then
          assign dst (put weaponSlot dstSlot) (e <| e_inv ::= set_weapon isPrimary (Clear weaponSlot) |>)
        else
          assign dst (put weaponSlot dstSlot) (e <| e_inv ::= set_weapon isPrimary (put dstSlot weaponSlot) |>) in
      let e2 := e1 <| e_inv ::= UpdateFirstEmptySlotIndex |> in
      let '(ok, unloaded', inv3) := UnloadMagazineToInventory isPrimary (e_inv e2) in
      let e3 := e2 <| e_inv := inv3 |> in
      if negb ok then ((false, Z.lor deny DENY_MAGAZINE_UNLOAD_FAILED, unloaded'), e3)
      else ((true, deny, unloaded'), e3 <| e_inv ::= IncrementInventoryVersion |>).

Definition EquipArmorFromSlot (src : SlotRef) (deny : Z) : ST Equip (bool * Z) := fun e =>
  let srcSlot := deref src e in
  let armor := _armorSlot (e_inv e) in
  if IsEmpty srcSlot then ((false, Z.lor deny DENY_SLOT_EMPTY), e)
  else if negb (bool_decide (GetType (blueprintId (item srcSlot)) = ARMOR)) then
    ((false, Z.lor deny DENY_ITEM_TYPE_MISMATCH), e)
  else
    let e1 := e <| e_inv ::= fun inv => inv <| _armorSlot := put srcSlot armor |> |> in
    let e2 := if IsEmpty armor then assign src (Clear srcSlot) e1
              else assign src (put armor srcSlot) e1 in
    ((true, deny), updated e2).

Definition UnequipArmorToSlot (dst : SlotRef) (deny : Z) : ST Equip (bool * Z) := fun e =>
  let dstSlot := deref dst e in
  let armor := _armorSlot (e_inv e) in
  if IsEmpty armor then ((false, Z.lor deny DENY_SLOT_EMPTY), e)
  else if IsEmpty dstSlot then
    ((true, deny), updated (assign dst (put armor dstSlot)
       (e <| e_inv ::= fun inv => inv <| _armorSlot := Clear armor |> |>)))
  else if negb (bool_decide (GetType (blueprintId (item dstSlot)) = ARMOR)) then
    ((false, Z.lor deny DENY_ITEM_TYPE_MISMATCH), e)
  else
    ((true, deny), updated (assign dst (put armor dstSlot)
       (e <| e_inv ::= fun inv => inv <| _armorSlot := put dstSlot armor |> |>))).

(** ** Serialisation *)

Definition SerializeSlot (slotIndex : Z) (inv : PlayerInventory) : option InventorySlotMsg :=
  if (slotIndex <? 0) || (INVENTORY_SLOT_COUNT <=? slotIndex) then None
  else FillSlotProto <$> _inventorySlots inv !! Z.to_nat slotIndex.

(** [D2CFullInventorySync]; an unset submessage is [None]. *)
Record FullInventorySync := mk_sync {
  fi_version : Z; fi_slots : list InventorySlotMsg;
  fi_primary : option InventorySlotMsg; fi_secondary : option InventorySlotMsg;
  fi_armor : option InventorySlotMsg; fi_primary_magazine : option InventorySlotMsg;
  fi_secondary_magazine : option InventorySlotMsg }.

Definition fill_if_any (s : Slot) : option InventorySlotMsg :=
  if IsEmpty s then None else Some (FillSlotProto s).

Definition SerializeFullInventory (inv : PlayerInventory) : FullInventorySync :=
  mk_sync (_inventoryVersion inv)
    (map FillSlotProto (List.filter (fun s => negb (IsEmpty s)) (_inventorySlots inv)))
    (fill_if_any (_primaryWeaponSlot inv)) (fill_if_any (_secondaryWeaponSlot inv))
    (fill_if_any (_armorSlot inv)) (fill_if_any (_primaryWeaponMagazineSlot inv))
    (fill_if_any (_secondaryWeaponMagazineSlot inv)).

(** ** Invariant and measures *)

(** A magazine is empty or holds ammunition of its weapon, at most its capacity. *)
Definition mag_ok (weapon mag : Slot) : Prop :=
  slot_wf mag /\
  (IsEmpty mag = true \/
   exists spec, GetWeaponSpec (blueprintId (item weapon)) = Some spec /\
     blueprintId (item mag) = ammoType spec /\ quantity mag <= maxAmmo spec).

(** The slots keep their positions. *)
Definition indexed (l : list Slot) : Prop :=
  length l = 25%nat /\ forall i s, l !! i = Some s -> slotIndex s = Z.of_nat i.

Record inv_core (inv : PlayerInventory) : Prop := {
  ok_indexed : indexed (_inventorySlots inv);
  ok_slots : Forall slot_wf (_inventorySlots inv);
  ok_weapon : forall p, slot_wf (weaponOf p inv);
  ok_armor : slot_wf (_armorSlot inv);
  ok_mag : forall p, mag_ok (weaponOf p inv) (magazineOf p inv) }.

(** ... and the cached index of the first empty slot is right. *)
Record inv_ok (inv : PlayerInventory) : Prop := {
  ok_core : inv_core inv;
  ok_first : _firstEmptySlotIndex inv = first_empty 0 (_inventorySlots inv) }.

(** A reference that points into this inventory is in range. *)
Definition ref_ok (r : SlotRef) : Prop :=
  match r with OwnSlot i => (i < 25)%nat | ContainerSlot => True end.

(** All the player holds of a blueprint, and that plus the container slot. *)
Definition grand (bp : Z) (inv : PlayerInventory) : Z :=
  total bp (_inventorySlots inv) + count bp (_primaryWeaponSlot inv)
  + count bp (_secondaryWeaponSlot inv) + count bp (_armorSlot inv)
  + count bp (_primaryWeaponMagazineSlot inv) + count bp (_secondaryWeaponMagazineSlot inv).
Definition held (bp : Z) (e : Equip) : Z := grand bp (e_inv e) + count bp (e_ext e).

(** The magazine has nowhere to go: no slot of its blueprint, no empty slot. *)
Definition unload_drops (isPrimary : bool) (inv : PlayerInventory) : bool :=
  let mag := magazineOf isPrimary inv in
  negb (IsEmpty mag) && (_firstEmptySlotIndex inv =? -1)
  && match find_same (blueprintId (item mag)) 0 (_inventorySlots inv) with Some _ => false | None => true end.
Definition unload_loss (bp : Z) (isPrimary : bool) (inv : PlayerInventory) : Z :=
  if unload_drops isPrimary inv then count bp (magazineOf isPrimary inv) else 0.

(** The player-driven operations, as one step function. *)
Inductive EquipOp :=
| OpReload (isPrimary : bool)
| OpEquipWeapon (src : SlotRef) (isPrimary : bool)
| OpUnequipWeapon (dst : SlotRef) (isPrimary : bool)
| OpEquipArmor (src : SlotRef)
| OpUnequipArmor (dst : SlotRef).

Definition op_ref_ok (op : EquipOp) : Prop :=
  match op with
  | OpReload _ => True
  | OpEquipWeapon r _ | OpUnequipWeapon r _ | OpEquipArmor r | OpUnequipArmor r => ref_ok r
  end.

(** Success, deny mask (from 0) and the state after. *)
Definition run_op (op : EquipOp) (e : Equip) : bool * Z * Equip :=
  match op with
  | OpReload p =>
      let '(ok, inv') := ReloadMagazine p (e_inv e) in
      (ok, if ok then 0 else DENY_SLOT_EMPTY, e <| e_inv := inv' |>)
  | OpEquipWeapon r p => let '((ok, d, _), e') := EquipWeaponFromSlot r p 0 (-1) e in (ok, d, e')
  | OpUnequipWeapon r p => let '((ok, d, _), e') := UnequipWeaponToSlot r p 0 (-1) e in (ok, d, e')
  | OpEquipArmor r => let '((ok, d), e') := EquipArmorFromSlot r 0 e in (ok, d, e')
  | OpUnequipArmor r => let '((ok, d), e') := UnequipArmorToSlot r 0 e in (ok, d, e')
  end.

(** The ammunition an operation destroys, from the inventory in which the
    magazine is unloaded. *)
Definition op_loss (bp : Z) (op : EquipOp) (e : Equip) : Z :=
  match op with
  | OpEquipWeapon _ p => unload_loss bp p (e_inv e)
  | OpUnequipWeapon r p =>
      let w := weaponOf p (e_inv e) in
      let e1 := assign r (put w (deref r e)) e in
      unload_loss bp p (UpdateFirstEmptySlotIndex (e_inv e1))
  | _ => 0
  end.

Definition armed (inv : PlayerInventory) : Prop :=
  exists p, IsEmpty (weaponOf p inv) = false.

(** ** Lemmas *)

Lemma first_empty_spec i l :
  0 <= i ->
  (first_empty i l = -1 /\ Forall (fun s => IsEmpty s = false) l) \/
  (exists k s, first_empty i l = i + Z.of_nat k /\ l !! k = Some s /\ IsEmpty s = true /\
     forall j s', (j < k)%nat -> l !! j = Some s' -> IsEmpty s' = false).
Proof.
  revert i; induction l as [|s l IH]; intros i Hi; simpl; [left; auto|].
  destruct (IsEmpty s) eqn:E.
  - right. exists 0%nat, s. split_and!; [lia|done|done|lia].
  - destruct (IH (i + 1) ltac:(lia)) as [[-> Hl]|(k & s' & -> & Hk & Hs & Hbefore)].
    + left. auto.
    + right. exists (S k), s'. split_and!; [lia|done|done|].
      intros [|j] s'' Hj Hj'; simplify_eq/=; [done|]. eapply Hbefore; [|done]. lia.
Qed.

Lemma find_same_spec bp i l :
  match find_same bp i l with
  | Some k => exists j s, k = (i + j)%nat /\ l !! j = Some s /\ IsEmpty s = false /\
                          blueprintId (item s) = bp
  | None => Forall (fun s => IsEmpty s = true \/ blueprintId (item s) <> bp) l
  end.
Proof.
  revert i; induction l as [|s l IH]; intros i; simpl; [constructor|].
  destruct (IsEmpty s) eqn:E; simpl;
    [|destruct (Z.eqb_spec (blueprintId (item s)) bp); simpl].
  2:{ exists 0%nat, s. split_and!; [lia|done..]. }
  all: specialize (IH (S i)); destruct (find_same bp (S i) l) as [k|];
    [destruct IH as (j & s' & -> & ? & ? & ?); exists (S j), s'; split_and!; [lia|done..]|auto].
Qed.

Lemma load_into_spec mag s take ammo :
  slot_wf mag -> slot_wf s -> 0 < take -> ammo <> 0 -> blueprintId (item s) = ammo ->
  (IsEmpty mag = false -> blueprintId (item mag) = ammo) ->
  let m := load_into mag s take in
  slot_wf m /\ quantity m = quantity mag + take /\ blueprintId (item m) = ammo /\
  slotIndex m = slotIndex mag.
Proof.
  intros Hm Hs Ht Ha Hb Hmag. unfold load_into. destruct (IsEmpty mag) eqn:E; simpl.
  - apply IsEmpty_wf in E as [_ ->]; [|done]. split_and!; [right; simpl|..]; lia || done.
  - specialize (Hmag eq_refl). apply not_IsEmpty_wf in E as [? ?]; [|done].
    split_and!; [right; simpl|..]; lia || done.
Qed.

Lemma take_from_spec s take ammo :
  slot_wf s -> 0 < take <= quantity s -> ammo <> 0 -> blueprintId (item s) = ammo ->
  let s' := take_from s take in
  slot_wf s' /\ count ammo s' = quantity s - take /\
  (forall bp, bp <> 0 -> bp <> ammo -> count bp s' = 0) /\ slotIndex s' = slotIndex s.
Proof.
  intros Hs Ht Ha Hb s'. unfold s', take_from, setf; cbn [quantity].
  destruct (Z.leb_spec (quantity s - take) 0).
  - split_and!; [apply slot_wf_Clear|rewrite count_Clear by done; lia| |done].
    intros. by apply count_Clear.
  - split_and!; [right; simpl; lia| | |done]; unfold count; simpl; rewrite Hb.
    + by rewrite Z.eqb_refl.
    + intros bp ? ?. destruct (Z.eqb_spec ammo bp); [congruence|done].
Qed.

(** What the loading loop guarantees; [moved] rounds change places. *)
Record loaded (ammo moved : Z) (mag mag' : Slot) (slots slots' : list Slot) : Prop := {
  ld_slots : Forall slot_wf slots';
  ld_mag : slot_wf mag';
  ld_quantity : quantity mag' = quantity mag + moved;
  ld_blueprint : IsEmpty mag' = false -> blueprintId (item mag') = ammo;
  ld_total : total ammo slots' = total ammo slots - moved;
  ld_other : forall bp, bp <> 0 -> bp <> ammo -> total bp slots' = total bp slots;
  ld_length : length slots' = length slots;
  ld_index : forall i s', slots' !! i = Some s' ->
    exists s, slots !! i = Some s /\ slotIndex s' = slotIndex s;
  ld_none : moved = 0 -> slots' = slots /\ mag' = mag }.

Lemma loaded_refl ammo mag slots :
  Forall slot_wf slots -> slot_wf mag -> (IsEmpty mag = false -> blueprintId (item mag) = ammo) ->
  loaded ammo 0 mag mag slots slots.
Proof. intros; constructor; try done; try lia; eauto. Qed.

Lemma loaded_skip ammo moved mag mag' s slots slots' :
  slot_wf s -> loaded ammo moved mag mag' slots slots' ->
  loaded ammo moved mag mag' (s :: slots) (s :: slots').
Proof.
  intros Hs []. constructor; simpl; auto; [lia| | |].
  - intros bp ? ?. rewrite ld_other0 by done. done.
  - intros [|i] s' Hi; simplify_eq/=; eauto.
  - intros Hm. by destruct (ld_none0 Hm) as [-> ->].
Qed.

Lemma loaded_take ammo take moved mag mag' s slots slots' :
  slot_wf s -> slot_wf mag -> 0 < take <= quantity s -> 0 <= moved -> ammo <> 0 ->
  blueprintId (item s) = ammo -> (IsEmpty mag = false -> blueprintId (item mag) = ammo) ->
  loaded ammo moved (load_into mag s take) mag' slots slots' ->
  loaded ammo (take + moved) mag mag' (s :: slots) (take_from s take :: slots').
Proof.
  intros Hs Hm Ht Hmv Ha Hb Hmag [].
  destruct (load_into_spec mag s take ammo Hm Hs ltac:(lia) Ha Hb Hmag) as (_ & Hq & _ & _).
  destruct (take_from_spec s take ammo Hs Ht Ha Hb) as (Hwf & Hc & Ho & Hi).
  assert (Hcs : count ammo s = quantity s) by (unfold count; by rewrite Hb, Z.eqb_refl).
  constructor; simpl; auto; [lia|lia| | |lia].
  - intros bp ? ?. rewrite ld_other0, Ho by done. unfold count. rewrite Hb.
    destruct (Z.eqb_spec ammo bp); [congruence|done].
  - intros [|i] s' Hi'; simplify_eq/=; eauto.
Qed.

Lemma load_loop_spec ammo remaining mag c slots :
  0 < ammo < 2 ^ 31 -> 0 <= remaining -> Forall slot_wf slots -> slot_wf mag ->
  (IsEmpty mag = false -> blueprintId (item mag) = ammo) ->
  let moved := Z.min remaining (total ammo slots) in
  let '(slots', mag', r, c') := load_loop ammo remaining mag c slots in
  r = remaining - moved /\ c' = c || (0 <? moved) /\ loaded ammo moved mag mag' slots slots'.
Proof.
  intros Ha. revert remaining mag c; induction slots as [|s slots IH];
    intros remaining mag c Hr Hwf Hm Hmag; simpl.
  { rewrite Z.min_r by lia. rewrite orb_false_r. split_and!; [lia|done|by apply loaded_refl]. }
  apply Forall_cons in Hwf as Hwf'. destruct Hwf' as [Hs Hslots].
  pose proof (total_nonneg ammo slots Hslots) as Ht. pose proof (count_nonneg ammo s Hs) as Hc.
  destruct (Z.leb_spec remaining 0).
  { rewrite Z.min_l by lia. replace remaining with 0 by lia. rewrite orb_false_r.
    split_and!; [lia|done|by apply loaded_refl]. }
  rewrite (u32_id ammo) by width.
  destruct (IsEmpty s || negb (blueprintId (item s) =? ammo)) eqn:E.
  - assert (count ammo s = 0) as ->.
    { apply orb_true_iff in E as [E|E%negb_true_iff]; [apply count_empty; [lia|done]|].
      unfold count. by rewrite E. }
    specialize (IH remaining mag c Hr Hslots Hm Hmag). simpl in IH.
    destruct (load_loop _ _ _ _ _) as [[[slots' mag'] r] c'].
    destruct IH as (-> & -> & IH). split_and!; [done|done|by apply loaded_skip].
  - apply orb_false_iff in E as [E Hb%negb_false_iff%Z.eqb_eq].
    apply not_IsEmpty_wf in E as [_ Hq]; [|done].
    assert (Hcs : count ammo s = quantity s) by (unfold count; by rewrite Hb, Z.eqb_refl).
    set (take := Z.min (quantity s) remaining).
    destruct (load_into_spec mag s take ammo Hm Hs ltac:(lia) ltac:(lia) Hb Hmag) as (Hm' & _ & Hb' & _).
    specialize (IH (remaining - take) (load_into mag s take) true ltac:(lia) Hslots Hm' (fun _ => Hb')).
    simpl in IH. destruct (load_loop _ _ _ _ _) as [[[slots' mag'] r] c'].
    destruct IH as (-> & -> & IH).
    replace (Z.min remaining (count ammo s + total ammo slots))
      with (take + Z.min (remaining - take) (total ammo slots)) by lia.
    split_and!; [lia| |apply loaded_take; done || lia].
    destruct (Z.ltb_spec 0 (take + Z.min (remaining - take) (total ammo slots))); [by rewrite orb_true_r|lia].
Qed.

(** *** Weapon slots and magazines *)

Lemma weapon_spec_facts id spec :
  GetWeaponSpec id = Some spec -> 0 < ammoType spec < 2 ^ 31 /\ 0 < maxAmmo spec.
Proof.
  unfold GetWeaponSpec, weaponSpecs. cbn [list_to_map foldr uncurry fst snd].
  rewrite !lookup_insert, lookup_empty.
  repeat case_decide; intros [= <-]; simpl; lia.
Qed.

Lemma weaponOf_set_magazine p q m inv : weaponOf p (set_magazine q m inv) = weaponOf p inv.
Proof. by destruct p, q. Qed.
Lemma weaponOf_set_weapon p q s inv :
  weaponOf p (set_weapon q s inv) = if eqb p q then s else weaponOf p inv.
Proof. by destruct p, q. Qed.
Lemma magazineOf_set_magazine p q m inv :
  magazineOf p (set_magazine q m inv) = if eqb p q then m else magazineOf p inv.
Proof. by destruct p, q. Qed.
Lemma magazineOf_set_weapon p q s inv : magazineOf p (set_weapon q s inv) = magazineOf p inv.
Proof. by destruct p, q. Qed.
Lemma slots_set_magazine q m inv : _inventorySlots (set_magazine q m inv) = _inventorySlots inv.
Proof. by destruct q. Qed.
Lemma slots_set_weapon q s inv : _inventorySlots (set_weapon q s inv) = _inventorySlots inv.
Proof. by destruct q. Qed.
Lemma armor_set_magazine q m inv : _armorSlot (set_magazine q m inv) = _armorSlot inv.
Proof. by destruct q. Qed.
Lemma armor_set_weapon q s inv : _armorSlot (set_weapon q s inv) = _armorSlot inv.
Proof. by destruct q. Qed.
Lemma first_set_magazine q m inv :
  _firstEmptySlotIndex (set_magazine q m inv) = _firstEmptySlotIndex inv.
Proof. by destruct q. Qed.
Lemma version_set_magazine q m inv :
  _inventoryVersion (set_magazine q m inv) = _inventoryVersion inv.
Proof. by destruct q. Qed.

Lemma grand_set_magazine bp p m inv :
  grand bp (set_magazine p m inv) = grand bp inv - count bp (magazineOf p inv) + count bp m.
Proof. destruct p; unfold grand; simpl; lia. Qed.
Lemma grand_set_weapon bp p s inv :
  grand bp (set_weapon p s inv) = grand bp inv - count bp (weaponOf p inv) + count bp s.
Proof. destruct p; unfold grand; simpl; lia. Qed.
Lemma grand_update_first bp inv : grand bp (UpdateFirstEmptySlotIndex inv) = grand bp inv.
Proof. reflexivity. Qed.
Lemma grand_update_version bp inv : grand bp (IncrementInventoryVersion inv) = grand bp inv.
Proof. reflexivity. Qed.

Lemma slots_update_first inv : _inventorySlots (UpdateFirstEmptySlotIndex inv) = _inventorySlots inv.
Proof. reflexivity. Qed.

Lemma core_update_first inv : inv_core inv -> inv_ok (UpdateFirstEmptySlotIndex inv).
Proof. intros []. repeat (constructor; try done). Qed.
Lemma core_update_version inv : inv_core inv -> inv_core (IncrementInventoryVersion inv).
Proof. intros []. by constructor. Qed.
Lemma ok_update_version inv : inv_ok inv -> inv_ok (IncrementInventoryVersion inv).
Proof. intros [[] ?]. repeat (constructor; try done). Qed.

Lemma indexed_same (l l' : list Slot) :
  length l' = length l ->
  (forall i s', l' !! i = Some s' -> exists s, l !! i = Some s /\ slotIndex s' = slotIndex s) ->
  indexed l -> indexed l'.
Proof.
  intros Hlen Hidx [Hl Hi]. split; [by rewrite Hlen|].
  intros i s' Hs'. destruct (Hidx _ _ Hs') as (s & Hs & ->). by apply Hi.
Qed.

Lemma core_slots inv l :
  inv_core inv -> indexed l -> Forall slot_wf l -> inv_core (inv <| _inventorySlots := l |>).
Proof. intros [] ? ?. by constructor. Qed.

Lemma core_set_magazine p m inv :
  inv_core inv -> mag_ok (weaponOf p inv) m -> inv_core (set_magazine p m inv).
Proof.
  intros [] Hm. constructor; rewrite ?slots_set_magazine, ?armor_set_magazine; try done.
  - intros q. by rewrite weaponOf_set_magazine.
  - intros q. rewrite weaponOf_set_magazine, magazineOf_set_magazine.
    destruct (eqb q p) eqn:E; [|done]. by apply eqb_prop in E as ->.
Qed.

Lemma mag_ok_empty w s : mag_ok w (Clear s).
Proof. split; [apply slot_wf_Clear|by left]. Qed.

(** What loading does: the number of rounds moved, and everything else kept. *)
Definition load_amount (isPrimary : bool) (inv : PlayerInventory) : Z :=
  if IsEmpty (weaponOf isPrimary inv) then 0
  else match GetWeaponSpec (blueprintId (item (weaponOf isPrimary inv))) with
  | None => 0
  | Some spec => Z.min (maxAmmo spec - quantity (magazineOf isPrimary inv))
                       (total (ammoType spec) (_inventorySlots inv))
  end.

Record load_effect (p : bool) (n : Z) (inv inv' : PlayerInventory) : Prop := {
  le_core : inv_core inv';
  le_ok : inv_ok inv -> inv_ok inv';
  le_grand : forall bp, bp <> 0 -> grand bp inv' = grand bp inv;
  le_quantity : quantity (magazineOf p inv') = quantity (magazineOf p inv) + n;
  le_weapon : forall q, weaponOf q inv' = weaponOf q inv;
  le_other : magazineOf (negb p) inv' = magazineOf (negb p) inv;
  le_armor : _armorSlot inv' = _armorSlot inv;
  le_version : _inventoryVersion inv' = if 0 <? n then u32 (_inventoryVersion inv + 1)
                                        else _inventoryVersion inv;
  le_stock : forall bp spec, bp <> 0 -> GetWeaponSpec (blueprintId (item (weaponOf p inv))) = Some spec ->
    total bp (_inventorySlots inv') = total bp (_inventorySlots inv) - if bp =? ammoType spec then n else 0;
  le_none : n = 0 -> inv' = inv }.

Lemma load_effect_refl p inv : inv_core inv -> load_effect p 0 inv inv.
Proof. intros. constructor; try done; [lia|]. intros. destruct (_ =? _); lia. Qed.

Lemma set_magazine_self p inv :
  set_magazine p (magazineOf p inv) (inv <| _inventorySlots := _inventorySlots inv |>) = inv.
Proof. by destruct p, inv. Qed.

(** Loading moves what it adds to the magazine, whatever the blueprint. *)
Lemma loaded_conserves p spec n mag' slots' inv bp :
  inv_core inv -> GetWeaponSpec (blueprintId (item (weaponOf p inv))) = Some spec ->
  0 < n -> loaded (ammoType spec) n (magazineOf p inv) mag' (_inventorySlots inv) slots' -> bp <> 0 ->
  total bp slots' + count bp mag' = total bp (_inventorySlots inv) + count bp (magazineOf p inv).
Proof.
  intros Hc Hspec Hn [] Hbp. destruct (ok_mag _ Hc p) as [Hwf Hok].
  destruct (Z.eq_dec bp (ammoType spec)) as [->|Hne].
  - assert (count (ammoType spec) mag' = quantity mag') as ->.
    { unfold count. rewrite ld_blueprint0; [by rewrite Z.eqb_refl|].
      apply not_IsEmpty_wf; [done|]. destruct ld_mag0 as [[_ Hq]|?]; [|done].
      destruct Hwf as [[_ ?]|[_ ?]]; lia. }
    assert (count (ammoType spec) (magazineOf p inv) = quantity (magazineOf p inv)) as ->; [|lia].
    destruct Hok as [E|(spec' & Hs' & Hb & _)].
    + rewrite count_empty by (lia || done). by apply IsEmpty_wf in E as [_ ->].
    + unfold count. assert (spec' = spec) as -> by congruence. by rewrite Hb, Z.eqb_refl.
  - rewrite ld_other0 by done.
    assert (count bp mag' = 0) as ->.
    { destruct (IsEmpty mag') eqn:E; [by apply count_empty|]. unfold count.
      rewrite ld_blueprint0 by done. by destruct (Z.eqb_spec (ammoType spec) bp). }
    assert (count bp (magazineOf p inv) = 0) as ->; [|lia].
    destruct Hok as [E|(spec' & Hs' & Hb & _)]; [by apply count_empty|].
    assert (spec' = spec) as -> by congruence. unfold count. rewrite Hb.
    by destruct (Z.eqb_spec (ammoType spec) bp).
Qed.

(** The state after a loading loop that moved [n > 0] rounds. *)
Lemma load_effect_moved p spec n mag' slots' inv :
  inv_core inv -> IsEmpty (weaponOf p inv) = false ->
  GetWeaponSpec (blueprintId (item (weaponOf p inv))) = Some spec ->
  0 < n <= maxAmmo spec - quantity (magazineOf p inv) ->
  loaded (ammoType spec) n (magazineOf p inv) mag' (_inventorySlots inv) slots' ->
  load_effect p n inv (IncrementInventoryVersion (UpdateFirstEmptySlotIndex
    (set_magazine p mag' (inv <| _inventorySlots := slots' |>)))).
Proof.
  intros Hc Hw Hspec Hn Hl. pose proof (loaded_conserves p spec n mag' slots' inv) as Hcons. destruct Hl as [].
  destruct (weapon_spec_facts _ _ Hspec) as [Ha Hmax].
  assert (Hmag : mag_ok (weaponOf p inv) mag').
  { split; [done|]. destruct (IsEmpty mag') eqn:E; [by left|right].
    exists spec. split_and!; [done|by apply ld_blueprint0|lia]. }
  assert (Hcore : inv_core (set_magazine p mag' (inv <| _inventorySlots := slots' |>))).
  { apply core_set_magazine; [apply core_slots; [done| |done]|by destruct p].
    destruct Hc. by eapply indexed_same. }
  constructor.
  - apply core_update_version, core_update_first, Hcore.
  - intros _. apply ok_update_version, core_update_first, Hcore.
  - intros bp Hbp. rewrite grand_update_version, grand_update_first, grand_set_magazine.
    assert (Hm : magazineOf p (inv <| _inventorySlots := slots' |>) = magazineOf p inv) by by destruct p.
    rewrite Hm.
    assert (Hg : grand bp (inv <| _inventorySlots := slots' |>)
                 = grand bp inv - total bp (_inventorySlots inv) + total bp slots')
      by (unfold grand; simpl; lia).
    rewrite Hg. specialize (Hcons bp Hc Hspec (proj1 Hn)). lapply Hcons; [intros H; specialize (H Hbp); lia|by constructor].
  - by destruct p.
  - intros q. by destruct p, q.
  - by destruct p.
  - by destruct p.
  - destruct (Z.ltb_spec 0 n); [by destruct p|lia].
  - intros bp spec' Hbp Hspec'. assert (spec' = spec) as -> by congruence.
    trans (total bp slots'); [by destruct p|].
    destruct (Z.eqb_spec bp (ammoType spec)) as [->|?]; [done|]. rewrite ld_other0 by done. lia.
  - lia.
Qed.

Lemma LoadMagazine_effect p inv :
  inv_core inv -> 0 <= load_amount p inv /\
  load_effect p (load_amount p inv) inv (LoadMagazineFromInventory p inv).
Proof.
  intros Hc. unfold load_amount, LoadMagazineFromInventory.
  destruct (IsEmpty (weaponOf p inv)) eqn:Hw; [split; [done|by apply load_effect_refl]|].
  destruct (GetWeaponSpec _) as [spec|] eqn:Hspec; [|split; [done|by apply load_effect_refl]].
  destruct (weapon_spec_facts _ _ Hspec) as [Ha Hmax].
  pose proof (total_nonneg (ammoType spec) _ (ok_slots _ Hc)) as Ht.
  destruct (ok_mag _ Hc p) as [Hwf Hok].
  assert (Hq : quantity (magazineOf p inv) <= maxAmmo spec).
  { destruct Hok as [E|(spec' & Hs' & _ & ?)]; [apply IsEmpty_wf in E as [_ ->]; [lia|done]|].
    by assert (spec' = spec) as <- by congruence. }
  set (rem := maxAmmo spec - quantity (magazineOf p inv)).
  destruct (Z.leb_spec rem 0).
  { replace (Z.min rem _) with 0 by lia. split; [done|by apply load_effect_refl]. }
  split; [lia|].
  assert (Hb : IsEmpty (magazineOf p inv) = false -> blueprintId (item (magazineOf p inv)) = ammoType spec).
  { intros E. destruct Hok as [E'|(spec' & Hs' & ? & _)]; [congruence|].
    by assert (spec' = spec) as <- by congruence. }
  pose proof (load_loop_spec (ammoType spec) rem (magazineOf p inv) false _ Ha
                ltac:(lia) (ok_slots _ Hc) Hwf Hb) as Hl.
  set (n := Z.min rem _) in *. cbv zeta in Hl.
  destruct (load_loop _ _ _ _ _) as [[[slots' mag'] r] c'].
  destruct Hl as (_ & -> & Hl). simpl orb.
  destruct (Z.ltb_spec 0 n).
  - apply (load_effect_moved p spec); try done. lia.
  - assert (n = 0) as Hn by lia. destruct (ld_none _ _ _ _ _ _ Hl Hn) as [-> ->].
    rewrite set_magazine_self, Hn. by apply load_effect_refl.
Qed.

(** *** Unloading a magazine *)

Lemma total_alter bp (f : Slot -> Slot) (l : list Slot) i s :
  l !! i = Some s -> total bp (alter f i l) = total bp l - count bp s + count bp (f s).
Proof.
  revert i; induction l as [|x l IH]; intros [|i] Hi; simplify_eq/=; [lia|]. rewrite (IH _ Hi). lia.
Qed.

Lemma indexed_alter (f : Slot -> Slot) i l :
  (forall s, slotIndex (f s) = slotIndex s) -> indexed l -> indexed (alter f i l).
Proof.
  intros Hf. apply indexed_same; [apply length_alter|].
  intros j s' Hj. destruct (decide (i = j)) as [->|Hne].
  - rewrite list_lookup_alter_eq in Hj. destruct (l !! j) as [s|] eqn:E; simplify_eq/=. eauto.
  - rewrite list_lookup_alter_ne in Hj by done. eauto.
Qed.

Lemma Forall_alter_wf (f : Slot -> Slot) i l :
  (forall s, l !! i = Some s -> slot_wf s -> slot_wf (f s)) -> Forall slot_wf l ->
  Forall slot_wf (alter f i l).
Proof. intros Hf Hl. apply Forall_alter; [done|]. intros x Hx Hwf. eauto. Qed.

Lemma first_empty_alter_nonempty (f : Slot -> Slot) i k l :
  (forall s, l !! k = Some s -> IsEmpty (f s) = IsEmpty s) ->
  first_empty i (alter f k l) = first_empty i l.
Proof.
  revert i k; induction l as [|s l IH]; intros i [|k] Hf; simpl; try done.
  - by rewrite Hf.
  - destruct (IsEmpty s); [done|]. by apply IH.
Qed.

Record unload_effect (p : bool) (inv inv' : PlayerInventory) : Prop := {
  ue_ok : inv_ok inv';
  ue_grand : forall bp, bp <> 0 -> grand bp inv' = grand bp inv - unload_loss bp p inv;
  ue_empty : IsEmpty (magazineOf p inv') = true;
  ue_weapon : forall q, weaponOf q inv' = weaponOf q inv;
  ue_other : magazineOf (negb p) inv' = magazineOf (negb p) inv;
  ue_armor : _armorSlot inv' = _armorSlot inv;
  ue_version : _inventoryVersion inv' = _inventoryVersion inv;
  ue_keeps : forall i s, _inventorySlots inv !! i = Some s -> IsEmpty s = false ->
    blueprintId (item s) <> blueprintId (item (magazineOf p inv)) ->
    _inventorySlots inv' !! i = Some s }.

(** Rewriting one slot of the inventory and clearing the magazine. *)
Lemma unload_into (f : Slot -> Slot) p k s inv :
  inv_core inv -> _inventorySlots inv !! k = Some s ->
  (forall s, slotIndex (f s) = slotIndex s) -> slot_wf (f s) ->
  let inv' := set_magazine p (Clear (magazineOf p inv)) (inv <| _inventorySlots ::= alter f k |>) in
  inv_core inv' /\
  (forall bp, bp <> 0 -> grand bp inv' = grand bp inv - count bp s + count bp (f s)
                                        - count bp (magazineOf p inv)) /\
  IsEmpty (magazineOf p inv') = true /\ (forall q, weaponOf q inv' = weaponOf q inv) /\
  magazineOf (negb p) inv' = magazineOf (negb p) inv /\ _armorSlot inv' = _armorSlot inv /\
  _inventoryVersion inv' = _inventoryVersion inv /\
  _firstEmptySlotIndex inv' = _firstEmptySlotIndex inv /\
  _inventorySlots inv' = alter f k (_inventorySlots inv).
Proof.
  intros Hc Hk Hi Hwf inv'. split_and!; try by destruct p.
  - apply core_set_magazine; [|apply mag_ok_empty]. apply core_slots; [done|..].
    + apply indexed_alter; [done|apply Hc].
    + apply Forall_alter_wf; [|apply Hc]. intros. by simplify_eq.
  - intros bp Hbp. unfold inv'. rewrite grand_set_magazine, count_Clear by done.
    unfold grand. simpl. rewrite (total_alter _ _ _ _ _ Hk). destruct p; simpl; lia.
Qed.

Lemma unload_merge p i s inv :
  inv_ok inv -> IsEmpty (magazineOf p inv) = false ->
  find_same (blueprintId (item (magazineOf p inv))) 0 (_inventorySlots inv) = Some i ->
  _inventorySlots inv !! i = Some s -> IsEmpty s = false ->
  blueprintId (item s) = blueprintId (item (magazineOf p inv)) ->
  unload_effect p inv (set_magazine p (Clear (magazineOf p inv))
    (inv <| _inventorySlots ::=
       alter (fun s => s <| quantity ::= fun q => q + quantity (magazineOf p inv) |>) i |>)).
Proof.
  intros [Hc Hf] Em Ef Hi Hs Hb. destruct (ok_mag _ Hc p) as [Hwf _].
  apply not_IsEmpty_wf in Em as [_ Hmq]; [|done].
  assert (Hswf : slot_wf s) by (eapply Forall_lookup_1; [apply (ok_slots _ Hc)|done]).
  apply not_IsEmpty_wf in Hs as [Hs1 Hs2]; [|done].
  set (add := fun s : Slot => s <| quantity ::= _ |>).
  destruct (unload_into add p i s inv Hc Hi ltac:(done)) as (H1 & H2 & H3 & H4 & H5 & H6 & H7 & H8 & H9).
  { right. simpl. lia. }
  constructor; try done.
  - constructor; [done|]. rewrite H8, H9, Hf. symmetry. apply first_empty_alter_nonempty.
    intros s' Hs'. simplify_eq. unfold IsEmpty. simpl.
    destruct (Z.eqb_spec (blueprintId (item s)) 0); [done|]. by rewrite !andb_false_r.
  - intros bp Hbp. rewrite H2 by done. unfold unload_loss, unload_drops. rewrite Ef, andb_false_r.
    unfold count. simpl. rewrite Hb. destruct (_ =? bp); lia.
  - intros k s' Hk Hs' Hb'. rewrite H9, list_lookup_alter_ne; [done|]. intros ->. simplify_eq.
Qed.

Lemma unload_drop p inv :
  inv_ok inv -> unload_drops p inv = true ->
  unload_effect p inv (set_magazine p (Clear (magazineOf p inv)) inv).
Proof.
  intros [Hc Hf] Hd. constructor; try (by destruct p).
  - constructor; [apply core_set_magazine; [done|apply mag_ok_empty]|].
    by rewrite slots_set_magazine, first_set_magazine.
  - intros bp Hbp. rewrite grand_set_magazine, count_Clear by done.
    unfold unload_loss. rewrite Hd. lia.
Qed.

Lemma unload_place p k s inv :
  inv_ok inv -> _firstEmptySlotIndex inv <> -1 ->
  _inventorySlots inv !! k = Some s -> IsEmpty s = true ->
  unload_effect p inv (UpdateFirstEmptySlotIndex (set_magazine p (Clear (magazineOf p inv))
    (inv <| _inventorySlots ::= alter (put (magazineOf p inv)) k |>))).
Proof.
  intros [Hc Hf] Hne Hk Hs. destruct (ok_mag _ Hc p) as [Hwf _].
  destruct (unload_into (put (magazineOf p inv)) p k s inv Hc Hk ltac:(done))
    as (H1 & H2 & H3 & H4 & H5 & H6 & H7 & H8 & H9); [by apply slot_wf_put|].
  constructor; try done; [by apply core_update_first|..].
  - intros bp Hbp. rewrite grand_update_first, H2, count_put, (count_empty bp s) by done.
    unfold unload_loss, unload_drops.
    destruct (Z.eqb_spec (_firstEmptySlotIndex inv) (-1)); [done|]. rewrite andb_false_r. simpl. lia.
  - intros j s' Hj Hs' _. rewrite slots_update_first, H9, list_lookup_alter_ne; [done|]. intros ->. simplify_eq. congruence.
Qed.

Lemma UnloadMagazine_effect p inv :
  inv_ok inv ->
  let '(ok, idx, inv') := UnloadMagazineToInventory p inv in
  ok = true /\ unload_effect p inv inv'.
Proof.
  intros Hok. unfold UnloadMagazineToInventory.
  destruct (IsEmpty (magazineOf p inv)) eqn:Em.
  { split; [done|]. constructor; try done. intros bp _. unfold unload_loss, unload_drops.
    rewrite Em. simpl. lia. }
  pose proof (find_same_spec (blueprintId (item (magazineOf p inv))) 0 (_inventorySlots inv)) as Hfind.
  destruct (find_same _ _ _) as [i|] eqn:Ef.
  - destruct Hfind as (j & s & -> & Hj & Hs & Hb). split; [done|]. by eapply unload_merge.
  - destruct (Z.eqb_spec (_firstEmptySlotIndex inv) (-1)) as [E1|E1]; (split; [done|]).
    + apply unload_drop; [done|]. unfold unload_drops. by rewrite Em, Ef, E1.
    + destruct (first_empty_spec 0 (_inventorySlots inv) ltac:(lia)) as [[E _]|(k & s & E & Hk & Hs & _)];
        rewrite <- (ok_first _ Hok) in E; [congruence|].
      rewrite E. replace (Z.to_nat (0 + Z.of_nat k)) with k by lia. by eapply unload_place.
Qed.

(** *** Slot references *)

Definition equip_core (e : Equip) : Prop := inv_core (e_inv e) /\ slot_wf (e_ext e).
Definition equip_ok (e : Equip) : Prop := inv_ok (e_inv e) /\ slot_wf (e_ext e).

Lemma equip_ok_core e : equip_ok e -> equip_core e.
Proof. intros [[] ?]. by split. Qed.

Lemma deref_wf r e : equip_core e -> slot_wf (deref r e).
Proof.
  intros [Hc He]. destruct r as [i|]; [simpl|done].
  destruct (_ !! i) as [s|] eqn:E; [simpl|apply slot_wf_default].
  eapply Forall_lookup_1; [apply (ok_slots _ Hc)|done].
Qed.

Lemma deref_own i e :
  inv_core (e_inv e) -> (i < 25)%nat -> _inventorySlots (e_inv e) !! i = Some (deref (OwnSlot i) e).
Proof.
  intros Hc Hi. destruct (ok_indexed _ Hc) as [Hl _]. simpl.
  destruct (lookup_lt_is_Some_2 (_inventorySlots (e_inv e)) i) as [s Hs]; [lia|]. by rewrite Hs.
Qed.

Lemma assign_core r s e :
  equip_core e -> ref_ok r -> slot_wf s -> slotIndex s = slotIndex (deref r e) ->
  equip_core (assign r s e).
Proof.
  intros [Hc He] Hr Hs Hi. destruct r as [i|]; [|by split]. split; [|done].
  pose proof (deref_own _ _ Hc Hr) as Hd. apply core_slots; [done|..].
  - apply indexed_same with (l := _inventorySlots (e_inv e)); [apply length_insert| |apply Hc].
    intros j s' Hj. destruct (decide (i = j)) as [->|Hne].
    + rewrite list_lookup_insert_eq in Hj by (by eapply lookup_lt_Some). simplify_eq. eauto.
    + rewrite list_lookup_insert_ne in Hj by done. eauto.
  - by apply Forall_insert; [apply Hc|].
Qed.

Lemma assign_held bp r s e :
  inv_core (e_inv e) -> ref_ok r -> held bp (assign r s e) = held bp e - count bp (deref r e) + count bp s.
Proof.
  intros Hc Hr. destruct r as [i|]; [|unfold held; simpl; lia].
  pose proof (deref_own _ _ Hc Hr) as Hd. unfold held, grand. simpl.
  rewrite (total_insert _ _ _ _ _ Hd). simpl. lia.
Qed.

Lemma deref_set_weapon r p s e : deref r (e <| e_inv ::= set_weapon p s |>) = deref r e.
Proof. destruct r, p; reflexivity. Qed.
Lemma assign_weaponOf r s e q : weaponOf q (e_inv (assign r s e)) = weaponOf q (e_inv e).
Proof. by destruct r, q. Qed.
Lemma assign_magazineOf r s e q : magazineOf q (e_inv (assign r s e)) = magazineOf q (e_inv e).
Proof. by destruct r, q. Qed.

Lemma core_set_weapon p s inv :
  inv_core inv -> slot_wf s -> IsEmpty (magazineOf p inv) = true -> inv_core (set_weapon p s inv).
Proof.
  intros [] Hs Hm. constructor; rewrite ?slots_set_weapon, ?armor_set_weapon; try done.
  - intros q. rewrite weaponOf_set_weapon. by destruct (eqb q p).
  - intros q. rewrite magazineOf_set_weapon, weaponOf_set_weapon.
    destruct (eqb q p) eqn:E; [|done]. apply eqb_prop in E as ->. split; [apply ok_mag0|by left].
Qed.

Lemma core_set_armor s inv : inv_core inv -> slot_wf s -> inv_core (inv <| _armorSlot := s |>).
Proof. intros [] ?. by constructor. Qed.

Lemma updated_ok e : equip_core e -> equip_ok (updated e).
Proof. intros [Hc He]. split; [|done]. by apply ok_update_version, core_update_first. Qed.
Lemma held_updated bp e : held bp (updated e) = held bp e.
Proof. reflexivity. Qed.

(** Exchanging the content of a slot [w] with a referenced slot [d]: what [d]
    gets ([put w d], or nothing if [w] was empty) keeps the count. *)
Lemma count_exchange bp (w d : Slot) :
  bp <> 0 -> count bp (if IsEmpty w then Clear d else put w d) = count bp w.
Proof.
  intros Hbp. destruct (IsEmpty w) eqn:E; [|done].
  rewrite count_Clear by done. symmetry. by apply count_empty.
Qed.

Lemma wf_exchange (w d : Slot) : slot_wf w -> slot_wf (if IsEmpty w then Clear d else put w d).
Proof. intros. destruct (IsEmpty w); auto with slots. Qed.

(** *** The equip operations *)

(** What a player operation may do: keep the invariant, account for every item,
    and raise the version by one if it succeeds, or else change nothing. *)
Record op_effect (loss : Z -> Z) (ok : bool) (deny : Z) (e e' : Equip) : Prop := {
  oe_ok : equip_ok e';
  oe_held : forall bp, bp <> 0 -> held bp e' = held bp e - if ok then loss bp else 0;
  oe_deny : if ok then deny = 0 else deny <> 0 /\ e' = e;
  oe_version : ok = true -> _inventoryVersion (e_inv e') = u32 (_inventoryVersion (e_inv e) + 1);
  oe_armed : armed (e_inv e) -> armed (e_inv e') }.

Lemma op_effect_refused loss d e : equip_ok e -> d <> 0 -> op_effect loss false d e e.
Proof. intros He Hd. constructor; try done. intros bp _. lia. Qed.

Lemma armed_intro p inv : IsEmpty (weaponOf p inv) = false -> armed inv.
Proof. by exists p. Qed.

Lemma updated_weaponOf e q : weaponOf q (e_inv (updated e)) = weaponOf q (e_inv e).
Proof. by destruct q. Qed.

(** A weapon and the magazine's ammunition are different blueprints. *)
Lemma mag_not_weapon w m bp :
  mag_ok w m -> IsEmpty m = false -> GetType bp = WEAPON -> bp <> blueprintId (item m).
Proof.
  intros [_ [E|(spec & Hspec & -> & _)]] Hm Ht; [congruence|]. intros ->. revert Ht Hspec.
  unfold GetWeaponSpec, weaponSpecs. cbn [list_to_map foldr uncurry fst snd].
  rewrite !lookup_insert, lookup_empty. repeat case_decide; intros Ht [= <-]; by vm_compute in Ht.
Qed.

(** The source slot is not disturbed by unloading the magazine first. *)
Lemma deref_unloaded src p e inv1 :
  equip_ok e -> ref_ok src -> unload_effect p (e_inv e) inv1 ->
  IsEmpty (deref src e) = false -> GetType (blueprintId (item (deref src e))) = WEAPON ->
  IsEmpty (magazineOf p (e_inv e)) = false ->
  deref src (e <| e_inv := inv1 |>) = deref src e.
Proof.
  intros [Hok He] Hr Hu Hs Ht Hm. destruct src as [i|]; [|done].
  pose proof (deref_own _ _ (ok_core _ Hok) Hr) as Hd. simpl in Hd |- *.
  rewrite (ue_keeps _ _ _ Hu i _ Hd Hs); [done|].
  eapply mag_not_weapon; [apply (ok_mag _ (ok_core _ Hok) p)|done..].
Qed.

Lemma unload_empty_id p inv :
  IsEmpty (magazineOf p inv) = true -> UnloadMagazineToInventory p inv = (true, -1, inv).
Proof. unfold UnloadMagazineToInventory. by intros ->. Qed.

(** The exchange of a weapon slot, whose magazine is empty, with a referenced slot. *)
Definition exchange_weapon (r : SlotRef) (p : bool) (e : Equip) : Equip :=
  assign r (let w := weaponOf p (e_inv e) in
            if IsEmpty w then Clear (deref r e) else put w (deref r e))
    (e <| e_inv ::= set_weapon p (put (deref r e) (weaponOf p (e_inv e))) |>).

Lemma exchange_weapon_effect r p e :
  equip_core e -> ref_ok r -> IsEmpty (magazineOf p (e_inv e)) = true ->
  IsEmpty (deref r e) = false ->
  let e' := exchange_weapon r p e in
  equip_core e' /\ (forall bp, bp <> 0 -> held bp e' = held bp e) /\
  weaponOf p (e_inv e') = put (deref r e) (weaponOf p (e_inv e)) /\
  _inventoryVersion (e_inv e') = _inventoryVersion (e_inv e) /\ armed (e_inv e').
Proof.
  intros Hc Hr Hm Hd e'. pose proof (deref_wf r e Hc) as Hdwf. destruct Hc as [Hc He].
  pose proof (ok_weapon _ Hc p) as Hw.
  assert (Hc1 : equip_core (e <| e_inv ::= set_weapon p (put (deref r e) (weaponOf p (e_inv e))) |>))
    by (split; [apply core_set_weapon; auto with slots|done]).
  assert (Hwp : weaponOf p (e_inv e') = put (deref r e) (weaponOf p (e_inv e))).
  { unfold e', exchange_weapon. rewrite assign_weaponOf. cbn [setf e_inv].
    rewrite weaponOf_set_weapon. by rewrite eqb_reflx. }
  split_and!; [|..|done| |].
  - apply assign_core; [done|done|by apply wf_exchange|]. rewrite deref_set_weapon.
    cbv zeta. by destruct (IsEmpty (weaponOf p (e_inv e))).
  - intros bp Hbp. unfold e', exchange_weapon.
    rewrite assign_held, deref_set_weapon by (apply Hc1 || done).
    cbv zeta. rewrite count_exchange by done.
    unfold held. cbn [setf e_inv e_ext]. rewrite grand_set_weapon, count_put. lia.
  - by destruct r, p.
  - apply (armed_intro p). by rewrite Hwp.
Qed.

Lemma EquipWeapon_effect src p e :
  equip_ok e -> ref_ok src ->
  let '((ok, d, _), e') := EquipWeaponFromSlot src p 0 (-1) e in
  op_effect (fun bp => op_loss bp (OpEquipWeapon src p) e) ok d e e' /\
  (ok = true -> weaponOf p (e_inv e') = put (deref src e) (weaponOf p (e_inv e))).
Proof.
  intros Hok Hr. unfold EquipWeaponFromSlot.
  destruct (IsEmpty (deref src e)) eqn:Hs; [split; [by apply op_effect_refused|done]|].
  case_bool_decide as Ht; simpl negb; [|split; [by apply op_effect_refused|done]].
  pose proof (UnloadMagazine_effect p (e_inv e) (proj1 Hok)) as Hu.
  destruct (UnloadMagazineToInventory p (e_inv e)) as [[okU u] inv1] eqn:EU.
  destruct Hu as [-> Hu]. simpl negb. cbn iota.
  set (e1 := e <| e_inv := inv1 |>).
  assert (Hc1 : equip_core e1) by (split; [apply (ok_core _ (ue_ok _ _ _ Hu))|apply Hok]).
  assert (Hd1 : deref src e1 = deref src e).
  { destruct (IsEmpty (magazineOf p (e_inv e))) eqn:Em; [|by eapply deref_unloaded].
    rewrite unload_empty_id in EU by done. simplify_eq. by destruct src. }
  destruct (exchange_weapon_effect src p e1 Hc1 Hr (ue_empty _ _ _ Hu)) as (H1 & H2 & H3 & H4 & H5);
    [by rewrite Hd1|].
  assert (Heq : (if IsEmpty (weaponOf p inv1)
     then assign src (Clear (deref src e1)) (e1 <| e_inv ::= set_weapon p (put (deref src e1) (weaponOf p inv1)) |>)
     else assign src (put (weaponOf p inv1) (deref src e1))
            (e1 <| e_inv ::= set_weapon p (put (deref src e1) (weaponOf p inv1)) |>))
     = exchange_weapon src p e1).
  { unfold exchange_weapon. change (e_inv e1) with inv1. by destruct (IsEmpty (weaponOf p inv1)). }
  rewrite Heq. split.
  - constructor.
    + by apply updated_ok.
    + intros bp Hbp. rewrite held_updated, H2 by done. unfold held, op_loss.
      change (e_inv e1) with inv1. change (e_ext e1) with (e_ext e).
      rewrite (ue_grand _ _ _ Hu) by done. lia.
    + done.
    + intros _. unfold updated. cbn [setf e_inv]. unfold IncrementInventoryVersion.
      cbn [setf _inventoryVersion UpdateFirstEmptySlotIndex]. rewrite H4. by rewrite <- (ue_version _ _ _ Hu).
    + intros _. destruct H5 as [q Hq]. exists q. by rewrite updated_weaponOf.
  - intros _. rewrite updated_weaponOf, H3, Hd1. f_equal. apply (ue_weapon _ _ _ Hu).
Qed.

(** Unloading commutes with a change of a weapon slot: it does not read the weapons. *)
Lemma Unload_set_weapon p s inv :
  UnloadMagazineToInventory p (set_weapon p s inv) =
  let '(ok, u, inv') := UnloadMagazineToInventory p inv in (ok, u, set_weapon p s inv').
Proof.
  unfold UnloadMagazineToInventory. rewrite magazineOf_set_weapon.
  destruct (IsEmpty (magazineOf p inv)); [done|]. rewrite slots_set_weapon.
  destruct (find_same _ _ _); [by destruct p|].
  replace (_firstEmptySlotIndex (set_weapon p s inv)) with (_firstEmptySlotIndex inv) by by destruct p.
  destruct (_ =? -1); by destruct p.
Qed.

Lemma assign_set_weapon r p v s e :
  assign r v (e <| e_inv ::= set_weapon p s |>) = (assign r v e) <| e_inv ::= set_weapon p s |>.
Proof. by destruct r, p. Qed.
Lemma update_first_set_weapon p s inv :
  UpdateFirstEmptySlotIndex (set_weapon p s inv) = set_weapon p s (UpdateFirstEmptySlotIndex inv).
Proof. by destruct p. Qed.

Lemma ok_set_weapon p s inv :
  inv_ok inv -> slot_wf s -> IsEmpty (magazineOf p inv) = true -> inv_ok (set_weapon p s inv).
Proof. intros [Hc Hf] Hs Hm. split; [by apply core_set_weapon|by destruct p]. Qed.

(** The common end of [UnequipWeaponToSlot]: the weapon is already in the slot,
    [s] replaces it, the magazine is unloaded and the version raised. *)
Lemma unequip_finish dst p s inv' e :
  equip_ok e -> ref_ok dst -> slot_wf s ->
  (forall bp, bp <> 0 -> count bp s = count bp (deref dst e)) ->
  let e1 := assign dst (put (weaponOf p (e_inv e)) (deref dst e)) e in
  unload_effect p (UpdateFirstEmptySlotIndex (e_inv e1)) inv' ->
  (armed (e_inv e) -> armed (set_weapon p s inv')) ->
  op_effect (fun bp => unload_loss bp p (UpdateFirstEmptySlotIndex (e_inv e1))) true 0 e
    (e1 <| e_inv := IncrementInventoryVersion (set_weapon p s inv') |>).
Proof.
  intros Hok Hr Hs Hcnt e1 Hu Ha. pose proof (equip_ok_core _ Hok) as Hcore.
  pose proof (ok_weapon _ (proj1 Hcore) p) as Hw.
  assert (Hc1 : equip_core e1) by (apply assign_core; auto with slots).
  assert (Hw' : weaponOf p inv' = weaponOf p (e_inv e)).
  { rewrite (ue_weapon _ _ _ Hu). unfold e1. by destruct dst, p. }
  constructor; [| |done| |].
  - split; [|apply Hc1]. apply ok_update_version, ok_set_weapon; [apply Hu|done|apply Hu].
  - intros bp Hbp.
    assert (Hh : held bp e1 = held bp e - count bp (deref dst e) + count bp (weaponOf p (e_inv e))).
    { unfold e1. by rewrite assign_held by (apply Hcore || done). }
    unfold held in *. cbn [setf e_inv e_ext].
    rewrite grand_update_version, grand_set_weapon, (ue_grand _ _ _ Hu), grand_update_first, Hw', Hcnt by done.
    lia.
  - intros _. cbn [setf e_inv]. unfold IncrementInventoryVersion. cbn [setf _inventoryVersion].
    do 2 f_equal. trans (_inventoryVersion inv'); [by destruct p|].
    rewrite (ue_version _ _ _ Hu). by destruct dst.
  - intros He. destruct (Ha He) as [q Hq]. exists q. cbn [setf e_inv]. by destruct q.
Qed.

Lemma armed_other p inv : IsEmpty (weaponOf (negb p) inv) = false -> forall s, armed (set_weapon p s inv).
Proof. intros H s. exists (negb p). by destruct p. Qed.

Lemma unequip_exchange dst p (v w1 w2 : Slot) e :
  (if IsEmpty (deref dst e)
   then assign dst v (e <| e_inv ::= set_weapon p w1 |>)
   else assign dst v (e <| e_inv ::= set_weapon p w2 |>)) =
  (assign dst v e) <| e_inv ::= set_weapon p (if IsEmpty (deref dst e) then w1 else w2) |>.
Proof. destruct (IsEmpty (deref dst e)); apply assign_set_weapon. Qed.

Lemma UnequipWeapon_effect dst p e :
  equip_ok e -> ref_ok dst ->
  let '((ok, d, _), e') := UnequipWeaponToSlot dst p 0 (-1) e in
  op_effect (fun bp => op_loss bp (OpUnequipWeapon dst p) e) ok d e e' /\
  (ok = true -> IsEmpty (magazineOf p (e_inv e')) = true).
Proof.
  intros Hok Hr. unfold UnequipWeaponToSlot.
  destruct (IsEmpty (weaponOf p (e_inv e))) eqn:Hw; [split; [by apply op_effect_refused|done]|].
  set (s := if IsEmpty (deref dst e) then Clear (weaponOf p (e_inv e))
            else put (deref dst e) (weaponOf p (e_inv e))).
  destruct (IsEmpty (deref dst e) && IsEmpty (weaponOf (negb p) (e_inv e))) eqn:Hbare;
    [split; [by apply op_effect_refused|done]|].
  destruct (negb (IsEmpty (deref dst e)) && _) eqn:Hty; [split; [by apply op_effect_refused|done]|].
  set (e1 := assign dst (put (weaponOf p (e_inv e)) (deref dst e)) e).
  rewrite unequip_exchange. fold s e1.
  cbn [setf e_inv e_ext]. 
  rewrite update_first_set_weapon, Unload_set_weapon.
  pose proof (equip_ok_core _ Hok) as Hcore.
  assert (Hc1 : equip_core e1)
    by (apply assign_core; [done|done|apply slot_wf_put, (ok_weapon _ (proj1 Hcore))|done]).
  pose proof (UnloadMagazine_effect p (UpdateFirstEmptySlotIndex (e_inv e1))
                (core_update_first _ (proj1 Hc1))) as Hu.
  destruct (UnloadMagazineToInventory p _) as [[okU u] inv1] eqn:EU. destruct Hu as [-> Hu].
  simpl negb. cbn iota. split.
  - apply (unequip_finish dst p s inv1); try done.
    + unfold s. destruct (IsEmpty (deref dst e)); [apply slot_wf_Clear|]. by apply slot_wf_put, deref_wf.
    + intros bp Hbp. unfold s. destruct (IsEmpty (deref dst e)) eqn:E; [|done].
      rewrite count_Clear by done. symmetry. by apply count_empty.
    + intros _. unfold s. destruct (IsEmpty (deref dst e)) eqn:E.
      * apply armed_other. rewrite (ue_weapon _ _ _ Hu). simpl in Hbare. unfold e1. by destruct dst, p.
      * apply (armed_intro p). rewrite weaponOf_set_weapon, eqb_reflx. exact E.
  - intros _. cbn [setf e_inv].
    etrans; [|apply (ue_empty _ _ _ Hu)]. by destruct p.
Qed.

(** Giving the armor slot a slot's content [s] and writing [v] through the reference. *)
Lemma armor_effect r s v e :
  equip_ok e -> ref_ok r -> slot_wf s -> slot_wf v -> slotIndex v = slotIndex (deref r e) ->
  (forall bp, bp <> 0 ->
     count bp s + count bp v = count bp (_armorSlot (e_inv e)) + count bp (deref r e)) ->
  op_effect (fun _ => 0) true 0 e
    (updated (assign r v (e <| e_inv ::= fun inv => inv <| _armorSlot := s |> |>))).
Proof.
  intros Hok Hr Hs Hv Hi Hcnt. pose proof (equip_ok_core _ Hok) as Hcore.
  set (e1 := e <| e_inv ::= fun inv => inv <| _armorSlot := s |> |>).
  assert (Hc1 : equip_core e1) by (split; [apply core_set_armor, Hs; apply Hcore|apply Hcore]).
  assert (Hd : deref r e1 = deref r e) by by destruct r.
  constructor; [|..|done| |].
  - apply updated_ok, assign_core; try done.
  - intros bp Hbp. rewrite held_updated, assign_held, Hd by (apply Hc1 || done).
    specialize (Hcnt bp Hbp). unfold e1, held, grand. simpl. lia.
  - intros _. by destruct r.
  - intros [q Hq]. exists q. by destruct r, q.
Qed.

Lemma EquipArmor_effect src e :
  equip_ok e -> ref_ok src ->
  let '((ok, d), e') := EquipArmorFromSlot src 0 e in op_effect (fun _ => 0) ok d e e'.
Proof.
  intros Hok Hr. unfold EquipArmorFromSlot. pose proof (deref_wf src e (equip_ok_core _ Hok)) as Hdwf.
  pose proof (ok_armor _ (ok_core _ (proj1 Hok))) as Hawf.
  destruct (IsEmpty (deref src e)) eqn:Hs; [by apply op_effect_refused|].
  case_bool_decide as Ht; simpl negb; [|by apply op_effect_refused].
  destruct (IsEmpty (_armorSlot (e_inv e))) eqn:Ha; apply armor_effect; auto with slots.
  - intros bp Hbp. rewrite count_put, count_Clear, (count_empty bp (_armorSlot _)) by done. lia.
  - intros bp Hbp. rewrite !count_put. lia.
Qed.

Lemma UnequipArmor_effect dst e :
  equip_ok e -> ref_ok dst ->
  let '((ok, d), e') := UnequipArmorToSlot dst 0 e in op_effect (fun _ => 0) ok d e e'.
Proof.
  intros Hok Hr. unfold UnequipArmorToSlot. pose proof (deref_wf dst e (equip_ok_core _ Hok)) as Hdwf.
  pose proof (ok_armor _ (ok_core _ (proj1 Hok))) as Hawf.
  destruct (IsEmpty (_armorSlot (e_inv e))) eqn:Ha; [by apply op_effect_refused|].
  destruct (IsEmpty (deref dst e)) eqn:Hd.
  - apply armor_effect; auto with slots.
    intros bp Hbp. rewrite count_put, count_Clear, (count_empty bp (deref dst e)) by done. lia.
  - case_bool_decide as Ht; simpl negb; [|by apply op_effect_refused].
    apply armor_effect; auto with slots. intros bp Hbp. rewrite !count_put. lia.
Qed.

Lemma Reload_effect p e :
  equip_ok e -> is_u32 (_inventoryVersion (e_inv e)) ->
  let '(ok, inv') := ReloadMagazine p (e_inv e) in
  ok = (0 <? load_amount p (e_inv e)) /\
  op_effect (fun _ => 0) ok (if ok then 0 else DENY_SLOT_EMPTY) e (e <| e_inv := inv' |>).
Proof.
  intros Hok Hv. unfold ReloadMagazine. destruct Hok as [Hok He].
  destruct (LoadMagazine_effect p (e_inv e) (ok_core _ Hok)) as [Hn Hl].
  set (inv' := LoadMagazineFromInventory p (e_inv e)) in *.
  assert (Hk : negb (_inventoryVersion inv' =? _inventoryVersion (e_inv e))
               = (0 <? load_amount p (e_inv e))).
  { rewrite (le_version _ _ _ _ Hl). destruct (0 <? _); [|by rewrite Z.eqb_refl].
    apply negb_true_iff, Z.eqb_neq. width. }
  rewrite Hk. split; [done|]. destruct (Z.ltb_spec 0 (load_amount p (e_inv e))).
  - constructor; [|..|done| |].
    + split; [by apply Hl|done].
    + intros bp Hbp. unfold held. simpl. rewrite (le_grand _ _ _ _ Hl) by done. lia.
    + intros _. simpl. rewrite (le_version _ _ _ _ Hl). by destruct (Z.ltb_spec 0 (load_amount p (e_inv e))); [|lia].
    + intros [q Hq]. exists q. simpl. by rewrite (le_weapon _ _ _ _ Hl).
  - rewrite (le_none _ _ _ _ Hl) by lia. replace (e <| e_inv := e_inv e |>) with e by by destruct e.
    by apply op_effect_refused.
Qed.

(** *** Construction *)

Lemma place_slots_wf ss l :
  Forall slot_wf ss -> Forall slot_wf l -> indexed l ->
  Forall slot_wf (place_slots ss l) /\ indexed (place_slots ss l).
Proof.
  unfold place_slots. revert l; induction ss as [|s ss IH]; intros l Hss Hl Hi; [done|].
  apply Forall_cons in Hss as [Hs Hss]. simpl.
  destruct ((0 <=? slotIndex s) && (slotIndex s <? INVENTORY_SLOT_COUNT)) eqn:E; [|by apply IH].
  apply andb_true_iff in E as [E1%Z.leb_le E2%Z.ltb_lt]. unfold INVENTORY_SLOT_COUNT in E2.
  apply IH; [done|by apply Forall_insert|]. destruct Hi as [Hlen Hi].
  split; [by rewrite length_insert|]. intros i x Hx.
  destruct (decide (Z.to_nat (slotIndex s) = i)) as [<-|Hne].
  - rewrite list_lookup_insert_eq in Hx by lia. simplify_eq. lia.
  - rewrite list_lookup_insert_ne in Hx by done. by apply Hi.
Qed.

Lemma empty_slots_ok : Forall slot_wf empty_slots /\ indexed empty_slots.
Proof.
  split.
  - unfold empty_slots. apply Forall_forall. intros s (i & <- & _)%list_elem_of_In%in_map_iff. by left.
  - split; [done|]. intros i s Hs.
    unfold empty_slots in Hs. rewrite list_lookup_fmap in Hs.
    destruct (seq 0 25 !! i) as [k|] eqn:E; [|done].
    apply (lookup_seq 0 25 i) in E as [-> _]. by simplify_eq/=.
Qed.

Lemma equip_slots_core eqs inv :
  Forall slot_wf eqs -> inv_core inv -> (forall p, IsEmpty (magazineOf p inv) = true) ->
  let inv' := foldl (fun inv s => equip_slot s inv) inv eqs in
  inv_core inv' /\ (forall p, IsEmpty (magazineOf p inv') = true).
Proof.
  revert inv; induction eqs as [|s eqs IH]; intros inv Heqs Hc Hm; [done|].
  apply Forall_cons in Heqs as [Hs Heqs]. simpl. apply IH; [done|..]; unfold equip_slot.
  - repeat case_match; [apply (core_set_weapon true)|apply (core_set_weapon false)|apply core_set_armor|];
      done || apply (Hm true) || apply (Hm false).
  - intros p. specialize (Hm p). repeat case_match; by destruct p.
Qed.

(** The inventory of the constructor before its magazines are loaded. *)
Definition unloaded_inventory (inventorySlots equipmentSlots : list Slot) : PlayerInventory :=
  foldl (fun inv s => equip_slot s inv)
    (mk_inventory slot_default slot_default slot_default slot_default slot_default
       (place_slots inventorySlots empty_slots) 0 (-1)) equipmentSlots.

Lemma unloaded_inventory_core inventorySlots equipmentSlots :
  Forall slot_wf inventorySlots -> Forall slot_wf equipmentSlots ->
  inv_core (unloaded_inventory inventorySlots equipmentSlots) /\
  forall p, IsEmpty (magazineOf p (unloaded_inventory inventorySlots equipmentSlots)) = true.
Proof.
  intros Hi He. destruct empty_slots_ok as [Hw Hx].
  destruct (place_slots_wf inventorySlots empty_slots Hi Hw Hx) as [Hw' Hx'].
  apply equip_slots_core; [done| |by intros []].
  constructor; [done|done|by intros []; apply slot_wf_default|apply slot_wf_default|].
  intros []; (split; [apply slot_wf_default|by left]).
Qed.

(** At most one row for each of the slots [0..n). *)
Definition one_row_each (n : Z) (rows : list Slot) : Prop :=
  NoDup (map slotIndex rows) /\ Forall (fun s => 0 <= slotIndex s < n) rows.
Lemma one_row_each_cons n s rows :
  one_row_each n (s :: rows) ->
  0 <= slotIndex s < n /\ (forall s', s' ∈ rows -> slotIndex s' <> slotIndex s) /\ one_row_each n rows.
Proof.
  intros [[Hs Hnd]%NoDup_cons [Hr Hrs]%Forall_cons]. split_and!; [lia..| |done].
  intros s' Hs' E. apply Hs. rewrite <- E. by apply list_elem_of_fmap_2.
Qed.

Lemma place_slots_total bp ss l :
  one_row_each INVENTORY_SLOT_COUNT ss -> length l = 25%nat ->
  (forall s x, s ∈ ss -> l !! Z.to_nat (slotIndex s) = Some x -> count bp x = 0) ->
  total bp (place_slots ss l) = total bp l + total bp ss.
Proof.
  unfold place_slots, INVENTORY_SLOT_COUNT. revert l; induction ss as [|s ss IH]; intros l Hr Hl Hv; simpl; [lia|].
  apply one_row_each_cons in Hr as (Hs & Hne & Hr).
  destruct (Z.leb_spec 0 (slotIndex s)); [|lia]. destruct (Z.ltb_spec (slotIndex s) 25); [simpl|lia].
  destruct (lookup_lt_is_Some_2 l (Z.to_nat (slotIndex s))) as [x Hx]; [lia|].
  rewrite IH; [|done|by rewrite length_insert|].
  - rewrite (total_insert _ _ _ _ _ Hx), (Hv s x) by (done || constructor). lia.
  - intros s' x' Hs' Hx'. pose proof (Hne _ Hs'). pose proof (proj2 Hr) as Hin.
    rewrite Forall_forall in Hin. specialize (Hin _ Hs').
    rewrite list_lookup_insert_ne in Hx' by lia. by apply (Hv s'); [constructor|].
Qed.

Definition equipmentAt (i : Z) (inv : PlayerInventory) : Slot :=
  if i =? 0 then _primaryWeaponSlot inv else if i =? 1 then _secondaryWeaponSlot inv else _armorSlot inv.

Lemma equip_slots_total bp eqs inv :
  one_row_each 3 eqs -> (forall s, s ∈ eqs -> count bp (equipmentAt (slotIndex s) inv) = 0) ->
  grand bp (foldl (fun inv s => equip_slot s inv) inv eqs) = grand bp inv + total bp eqs.
Proof.
  revert inv; induction eqs as [|s eqs IH]; intros inv Hr Hv; simpl; [lia|].
  apply one_row_each_cons in Hr as (Hs & Hne & Hr).
  pose proof (Hv s ltac:(constructor)) as H0. rewrite IH; [|done|].
  - unfold equip_slot, equipmentAt, grand in *.
    revert H0. assert (slotIndex s = 0 \/ slotIndex s = 1 \/ slotIndex s = 2) as [-> | [-> | ->]] by lia; simpl; lia.
  - intros s' Hs'. pose proof (Hne _ Hs') as Hd. pose proof (proj2 Hr) as Hin.
    rewrite Forall_forall in Hin. specialize (Hin _ Hs'). specialize (Hv s' ltac:(by constructor)).
    revert Hd Hv. unfold equip_slot, equipmentAt.
    assert (slotIndex s = 0 \/ slotIndex s = 1 \/ slotIndex s = 2) as [-> | [-> | ->]] by lia;
    assert (slotIndex s' = 0 \/ slotIndex s' = 1 \/ slotIndex s' = 2) as [-> | [-> | ->]] by lia; simpl; lia.
Qed.

Lemma unloaded_inventory_grand bp inventorySlots equipmentSlots :
  bp <> 0 -> one_row_each INVENTORY_SLOT_COUNT inventorySlots -> one_row_each 3 equipmentSlots ->
  grand bp (unloaded_inventory inventorySlots equipmentSlots) = total bp inventorySlots + total bp equipmentSlots.
Proof.
  intros Hbp H1 H2. unfold unloaded_inventory. rewrite equip_slots_total; [|done|].
  - unfold grand. simpl. rewrite place_slots_total; [|done|done|].
    + assert (Hd : count bp slot_default = 0) by by apply count_empty. rewrite Hd.
      assert (He : forall l, Forall (fun s => IsEmpty s = true) l -> total bp l = 0).
      { induction 1; simpl; [done|]. rewrite count_empty by done. lia. }
      rewrite He by (unfold empty_slots; apply Forall_map, Forall_true; done). lia.
    + intros s x _ Hx. apply count_empty; [done|]. unfold empty_slots in Hx.
      rewrite list_lookup_fmap in Hx. by destruct (_ !! _); simplify_eq/=.
  - intros s _. apply count_empty; [done|]. unfold equipmentAt. by repeat case_match.
Qed.

Lemma new_inventory_inv_ok inventorySlots equipmentSlots :
  Forall slot_wf inventorySlots -> Forall slot_wf equipmentSlots ->
  inv_ok (new_PlayerInventory inventorySlots equipmentSlots).
Proof.
  intros Hi He. destruct (unloaded_inventory_core inventorySlots equipmentSlots Hi He) as [Hc _].
  destruct (LoadMagazine_effect true _ Hc) as [_ Ht].
  destruct (LoadMagazine_effect false _ (le_core _ _ _ _ Ht)) as [_ Hf].
  apply core_update_first, Hf.
Qed.

Lemma load_amount_update_first p inv :
  load_amount p (UpdateFirstEmptySlotIndex inv) = load_amount p inv.
Proof. by destruct p. Qed.

(** A magazine just loaded cannot be loaded further. *)
Lemma load_then_none p inv inv' :
  inv_core inv -> load_effect p (load_amount p inv) inv inv' -> load_amount p inv' = 0.
Proof.
  intros Hc Hl. pose proof (le_quantity _ _ _ _ Hl) as Hq. pose proof (le_stock _ _ _ _ Hl) as Hs.
  unfold load_amount in *. rewrite (le_weapon _ _ _ _ Hl).
  destruct (IsEmpty (weaponOf p inv)); [done|]. destruct (GetWeaponSpec _) as [spec|] eqn:E; [|done].
  destruct (weapon_spec_facts _ _ E). rewrite (Hs (ammoType spec) spec), Z.eqb_refl by (lia || done). lia.
Qed.

(** ... nor after loading the other one, which only takes from the stock. *)
Lemma load_other_none q inv inv' :
  inv_core inv -> load_effect q (load_amount q inv) inv inv' -> load_amount (negb q) inv = 0 ->
  load_amount (negb q) inv' = 0.
Proof.
  intros Hc Hl H0. destruct (GetWeaponSpec (blueprintId (item (weaponOf q inv)))) as [spec'|] eqn:E'.
  2:{ assert (load_amount q inv = 0) as H1
        by (unfold load_amount; rewrite E'; by destruct (IsEmpty (weaponOf q inv))).
      by rewrite (le_none _ _ _ _ Hl H1). }
  destruct (LoadMagazine_effect q inv Hc) as [Hn _].
  revert H0. unfold load_amount at 1 2. rewrite (le_weapon _ _ _ _ Hl), (le_other _ _ _ _ Hl).
  destruct (IsEmpty (weaponOf (negb q) inv)); [done|].
  destruct (GetWeaponSpec (blueprintId (item (weaponOf (negb q) inv)))) as [spec|] eqn:E; [|done].
  destruct (weapon_spec_facts _ _ E) as [Ha _].
  pose proof (le_stock _ _ _ _ Hl (ammoType spec) spec' ltac:(lia) E') as Hs.
  pose proof (total_nonneg (ammoType spec) _ (ok_slots _ (le_core _ _ _ _ Hl))).
  destruct (_ =? _); lia.
Qed.

(** *** Sequences of operations *)

Definition run_ops (ops : list EquipOp) (e : Equip) : Equip :=
  foldl (fun e op => snd (run_op op e)) e ops.

Lemma unload_loss_nonneg bp p inv : inv_ok inv -> 0 <= unload_loss bp p inv.
Proof.
  intros Hok. unfold unload_loss. destruct (unload_drops p inv); [|done].
  apply count_nonneg, (ok_mag _ (ok_core _ Hok)).
Qed.

Lemma op_loss_nonneg bp op e : equip_ok e -> op_ref_ok op -> 0 <= op_loss bp op e.
Proof.
  intros Hok Hr. destruct op as [|src p|dst p| |]; try done; [apply unload_loss_nonneg, Hok|].
  simpl. apply unload_loss_nonneg, core_update_first.
  pose proof (equip_ok_core _ Hok) as Hc.
  apply (assign_core dst); [done|done|apply slot_wf_put, (ok_weapon _ (proj1 Hc))|done].
Qed.

Lemma run_op_accounts op e :
  equip_ok e -> is_u32 (_inventoryVersion (e_inv e)) -> op_ref_ok op ->
  let '(ok, d, e') := run_op op e in op_effect (fun bp => op_loss bp op e) ok d e e'.
Proof.
  intros He Hv Hr. destruct op as [p|src p|dst p|src|dst]; unfold run_op.
  - pose proof (Reload_effect p e He Hv) as H. destruct (ReloadMagazine p (e_inv e)). apply H.
  - pose proof (EquipWeapon_effect src p e He Hr) as H.
    destruct (EquipWeaponFromSlot _ _ _ _ _) as [[[]]]. apply H.
  - pose proof (UnequipWeapon_effect dst p e He Hr) as H.
    destruct (UnequipWeaponToSlot _ _ _ _ _) as [[[]]]. apply H.
  - pose proof (EquipArmor_effect src e He Hr) as H. by destruct (EquipArmorFromSlot _ _ _) as [[]].
  - pose proof (UnequipArmor_effect dst e He Hr) as H. by destruct (UnequipArmorToSlot _ _ _) as [[]].
Qed.

Lemma op_effect_version loss ok d e e' :
  op_effect loss ok d e e' -> is_u32 (_inventoryVersion (e_inv e)) ->
  is_u32 (_inventoryVersion (e_inv e')).
Proof.
  intros H Hv. destruct ok.
  - rewrite (oe_version _ _ _ _ _ H) by done. apply u32_range.
  - by destruct (oe_deny _ _ _ _ _ H) as [_ ->].
Qed.

Lemma op_effect_le loss ok d e e' :
  op_effect loss ok d e e' -> (forall bp, 0 <= loss bp) ->
  forall bp, bp <> 0 -> held bp e' <= held bp e.
Proof. intros H Hl bp Hbp. rewrite (oe_held _ _ _ _ _ H) by done. specialize (Hl bp). destruct ok; lia. Qed.

(** ** Theorems *)

(** C18. Each equipment operation is all or nothing: it fails with a non-zero deny mask
    and changes nothing, or it succeeds with none, advances the version by one and
    keeps the quantity of every blueprint held in inventory and external slot, less
    the magazine overflow the source drops. The invariant is kept, and so is a weapon. *)
Theorem run_op_effect op e :
  equip_ok e -> is_u32 (_inventoryVersion (e_inv e)) -> op_ref_ok op ->
  let '(ok, d, e') := run_op op e in
  equip_ok e' /\
  (forall bp, bp <> 0 -> held bp e' = held bp e - if ok then op_loss bp op e else 0) /\
  (if ok then d = 0 /\ _inventoryVersion (e_inv e') = u32 (_inventoryVersion (e_inv e) + 1)
   else d <> 0 /\ e' = e) /\
  (armed (e_inv e) -> armed (e_inv e')).
Proof.
  intros He Hv Hr. pose proof (run_op_accounts op e He Hv Hr) as H.
  destruct (run_op op e) as [[ok d] e']. destruct H. split_and!; try done.
  destruct ok; auto.
Qed.

(** Items are never duplicated: whatever sequence of equipment operations a client
    asks for, over its own slots and a container's slot, the quantity held of no
    blueprint grows, the inventory stays well formed, and an armed player armed. *)
Theorem run_ops_never_duplicate ops e :
  equip_ok e -> is_u32 (_inventoryVersion (e_inv e)) -> Forall op_ref_ok ops ->
  equip_ok (run_ops ops e) /\ (armed (e_inv e) -> armed (e_inv (run_ops ops e))) /\
  forall bp, bp <> 0 -> held bp (run_ops ops e) <= held bp e.
Proof.
  unfold run_ops. revert e; induction ops as [|op ops IH]; intros e He Hv Hr; [by split_and!; try done|].
  apply Forall_cons in Hr as [Hop Hr]. simpl. pose proof (run_op_accounts op e He Hv Hop) as H.
  destruct (run_op op e) as [[ok d] e'] eqn:E. simpl.
  destruct (IH e') as (H1 & H2 & H3); [apply H|by eapply op_effect_version|done|].
  split_and!; [done|by intros ?; apply H2, H|]. intros bp Hbp. etrans; [by apply H3|].
  eapply op_effect_le; [exact H| |done]. intros b. by apply op_loss_nonneg.
Qed.

(** Reloading moves rounds, as many as the magazine takes and the inventory has:
    the magazine grows by that number, no quantity changes in total, nothing else of
    the equipment is touched, and the result says whether a round moved. *)
Theorem ReloadMagazine_correct isPrimary inv :
  inv_ok inv -> is_u32 (_inventoryVersion inv) ->
  let n := load_amount isPrimary inv in
  let '(ok, inv') := ReloadMagazine isPrimary inv in
  0 <= n /\ ok = (0 <? n) /\ inv_ok inv' /\
  quantity (magazineOf isPrimary inv') = quantity (magazineOf isPrimary inv) + n /\
  magazineOf (negb isPrimary) inv' = magazineOf (negb isPrimary) inv /\
  (forall q, weaponOf q inv' = weaponOf q inv) /\
  (forall bp, bp <> 0 -> grand bp inv' = grand bp inv) /\
  (ok = false -> inv' = inv).
Proof.
  intros Hok Hv n. destruct (LoadMagazine_effect isPrimary inv (ok_core _ Hok)) as [Hn Hl].
  pose proof (Reload_effect isPrimary (mk_equip inv slot_default) (conj Hok slot_wf_default) Hv) as H.
  unfold ReloadMagazine in *. simpl in H. destruct H as [H _]. rewrite H. fold n in Hl, Hn |- *.
  split_and!; try apply Hl; try done. intros E%Z.ltb_ge. apply (le_none _ _ _ _ Hl). lia.
Qed.

(** Unloading a magazine cannot fail and always empties it; the rounds are lost
    exactly when neither a slot of the same ammunition nor an empty slot exists. *)
Theorem UnloadMagazine_total isPrimary inv :
  inv_ok inv ->
  let '(ok, _, inv') := UnloadMagazineToInventory isPrimary inv in
  ok = true /\ inv_ok inv' /\ IsEmpty (magazineOf isPrimary inv') = true /\
  (forall bp, bp <> 0 ->
     grand bp inv' = grand bp inv -
       if unload_drops isPrimary inv then count bp (magazineOf isPrimary inv) else 0).
Proof.
  intros Hok. pose proof (UnloadMagazine_effect isPrimary inv Hok) as H.
  destruct (UnloadMagazineToInventory isPrimary inv) as [[ok u] inv']. destruct H as [-> []].
  by split_and!.
Qed.

(** C36. From rows that are vacant or name an item in a positive quantity, whatever their
    slots, the constructor builds a well-formed inventory whose magazines hold as much as
    the ammunition allows: nothing is left to load.  When there is at most one row for a
    slot and every slot exists, of each item the inventory holds exactly what the rows name. *)
Theorem new_PlayerInventory_ok inventorySlots equipmentSlots :
  Forall slot_wf inventorySlots -> Forall slot_wf equipmentSlots ->
  let inv := new_PlayerInventory inventorySlots equipmentSlots in
  inv_ok inv /\ (forall p, load_amount p inv = 0) /\
  (one_row_each INVENTORY_SLOT_COUNT inventorySlots -> one_row_each 3 equipmentSlots ->
   forall bp, bp <> 0 -> grand bp inv = total bp inventorySlots + total bp equipmentSlots).
Proof.
  intros Hi He. split; [by apply new_inventory_inv_ok|].
  destruct (unloaded_inventory_core inventorySlots equipmentSlots Hi He) as [Hc _].
  destruct (LoadMagazine_effect true _ Hc) as [_ Ht].
  destruct (LoadMagazine_effect false _ (le_core _ _ _ _ Ht)) as [_ Hf]. split.
  - intros p. unfold new_PlayerInventory. rewrite load_amount_update_first.
    destruct p; [|by eapply load_then_none; [apply Ht|]].
    eapply (load_other_none false); [apply Ht|apply Hf|]. by eapply load_then_none; [apply Hc|].
  - intros H1 H2 bp Hbp. rewrite <- (unloaded_inventory_grand bp) by done.
    rewrite <- (le_grand _ _ _ _ Ht), <- (le_grand _ _ _ _ Hf) by done. reflexivity.
Qed.

(** ** Witnesses *)

(** A player with an MP-type rifle (blueprint 2), 40 rounds of its ammunition
    (blueprint 5), a spare rifle (blueprint 3) and an armor in the bag. *)
Definition sample_slot (bp q i : Z) : Slot := mk_slot (mk_item (1000 + i) bp) i q.
Definition sample_bag : list Slot := [sample_slot 5 40 0; sample_slot 3 1 1; sample_slot 4 1 2].
Definition sample_equipment : list Slot := [sample_slot 2 1 0].
Definition sample : PlayerInventory := new_PlayerInventory sample_bag sample_equipment.

(** Three rounds were fired. *)
Definition sample_fired : PlayerInventory :=
  sample <| _primaryWeaponMagazineSlot ::= fun m => m <| quantity := 27 |> |>.

Lemma sample_wf : Forall slot_wf sample_bag /\ Forall slot_wf sample_equipment.
Proof. split; unfold sample_bag, sample_equipment; repeat (apply Forall_cons; split; [right; simpl; lia|]); apply Forall_nil_2. Qed.

Lemma sample_ok : inv_ok sample.
Proof. apply new_inventory_inv_ok; apply sample_wf. Qed.

Lemma sample_fired_ok : inv_ok sample_fired.
Proof.
  destruct sample_ok as [Hc Hf]. split; [|exact Hf].
  apply (core_set_magazine true); [done|]. split; [by right|]. right.
  eexists. split; [reflexivity|]. by vm_compute.
Qed.

Lemma run_op_effect_witness :
  let r := run_op (OpUnequipWeapon (OwnSlot 1) true) (mk_equip sample slot_default) in
  fst (fst r) = true /\ held 5 (snd r) = 40 /\ equip_ok (snd r).
Proof.
  intros r. split; [vm_compute; reflexivity|]. split; [vm_compute; reflexivity|].
  pose proof (run_op_effect (OpUnequipWeapon (OwnSlot 1) true) (mk_equip sample slot_default)
    (conj sample_ok slot_wf_default) ltac:(zcompute) ltac:(simpl; lia)) as H. fold r in H.
  destruct r as [[ok d] e']. exact (proj1 H).
Defined.

Lemma run_ops_never_duplicate_witness :
  let ops := [OpUnequipWeapon (OwnSlot 1) true; OpEquipArmor (OwnSlot 2); OpReload true] in
  held 5 (mk_equip sample slot_default) = 40 /\
  held 5 (run_ops ops (mk_equip sample slot_default)) <= held 5 (mk_equip sample slot_default).
Proof.
  intros ops. split; [vm_compute; reflexivity|].
  apply (run_ops_never_duplicate ops (mk_equip sample slot_default)).
  - exact (conj sample_ok slot_wf_default).
  - zcompute.
  - repeat (apply Forall_cons; split; [simpl; lia || exact I|]). apply Forall_nil_2.
  - lia.
Defined.

Lemma ReloadMagazine_correct_witness :
  let r := ReloadMagazine true sample_fired in
  fst r = true /\ quantity (magazineOf true (snd r)) = 30 /\ inv_ok (snd r).
Proof.
  intros r. split; [vm_compute; reflexivity|]. split; [vm_compute; reflexivity|].
  pose proof (ReloadMagazine_correct true sample_fired sample_fired_ok ltac:(zcompute)) as H.
  fold r in H. destruct r as [ok inv']. apply H.
Defined.

Lemma UnloadMagazine_total_witness :
  let r := UnloadMagazineToInventory true sample in
  fst (fst r) = true /\ grand 5 (snd r) = 40 /\ inv_ok (snd r).
Proof.
  intros r. split; [vm_compute; reflexivity|]. split; [vm_compute; reflexivity|].
  pose proof (UnloadMagazine_total true sample sample_ok) as H.
  fold r in H. destruct r as [[ok u] inv']. apply H.
Defined.

Lemma new_PlayerInventory_ok_witness :
  let inv := new_PlayerInventory sample_bag sample_equipment in
  quantity (magazineOf true inv) = 30 /\ inv_ok inv /\ grand 5 inv = 40.
Proof.
  intros inv. split; [vm_compute; reflexivity|].
  destruct (new_PlayerInventory_ok sample_bag sample_equipment (proj1 sample_wf) (proj2 sample_wf))
    as (Hok & _ & Hg). split; [exact Hok|]. refine (Hg _ _ 5 _); [| |discriminate]; split;
  [apply (bool_decide_unpack _); vm_compute; exact I| |apply (bool_decide_unpack _); vm_compute; exact I|];
  repeat (apply Forall_cons; split; [simpl; unfold INVENTORY_SLOT_COUNT; lia|]); apply Forall_nil_2.
Defined.
