(* ===== verification/Transport.v ===== *)
(** * The reliable/unreliable UDP channel of a player session

    Models the transport half of [PlayerSession] (src/src/DedicateProcess/PlayerSession.h
    and .cpp): the sequence counters, the receive window of the reliable channel,
    the serial filter of the unreliable one, the pending table of unacknowledged
    packets, the ACK processing, the RTT estimate and the retransmission timeout. *)

From S2P Require Import Prelude.
Local Open Scope Z_scope.

(** ** Data *)

(** [sockaddr_in], as far as the program reads it: address and port. *)
Record sockaddr_in := mk_sockaddr { sin_addr : Z; sin_port : Z }.

(** The object pools of pending packets: fixed arrays of 256, 512 and 1024
    bytes, and an unpooled packet that allocates its own array. *)
Inductive PendingClass := PendingPacket256 | PendingPacket512 | PendingPacket1024
                        | PendingPacketUnlimited.

(** [D] is the content of a send buffer. *)
Record PendingPacket (D : Type) := mk_pending {
  seqNum : Z; allocSize : Z; destAddr : sockaddr_in; sentAtMs : Z;
  pclass : PendingClass; pdata : D }.
Arguments mk_pending {D} _ _ _ _ _ _.
Arguments seqNum {D} _. Arguments allocSize {D} _. Arguments destAddr {D} _.
Arguments sentAtMs {D} _. Arguments pclass {D} _. Arguments pdata {D} _.
#[export] Instance eta_PendingPacket {D} : Eta (PendingPacket D) := fun r =>
  mk_pending (seqNum r) (allocSize r) (destAddr r) (sentAtMs r) (pclass r) (pdata r).

Record Rudp (D : Type) := mk_rudp {
  _sendRSeq : Z; _sendUSeq : Z;
  _rRecvHighestSeq : Z; _rRecvBitfield : Z; _hasRRecv : bool;
  _uRecvHighestSeq : Z; _hasURecv : bool;
  _rttMs : Z; _lastEchoTs : Z; _lastRecvTimestamp : Z;
  _pendingReliable : gmap Z (PendingPacket D) }.
Arguments mk_rudp {D} _ _ _ _ _ _ _ _ _ _ _.
Arguments _sendRSeq {D} _. Arguments _sendUSeq {D} _.
Arguments _rRecvHighestSeq {D} _. Arguments _rRecvBitfield {D} _. Arguments _hasRRecv {D} _.
Arguments _uRecvHighestSeq {D} _. Arguments _hasURecv {D} _.
Arguments _rttMs {D} _. Arguments _lastEchoTs {D} _. Arguments _lastRecvTimestamp {D} _.
Arguments _pendingReliable {D} _.
#[export] Instance eta_Rudp {D} : Eta (Rudp D) := fun r =>
  mk_rudp (_sendRSeq r) (_sendUSeq r) (_rRecvHighestSeq r) (_rRecvBitfield r) (_hasRRecv r)
    (_uRecvHighestSeq r) (_hasURecv r) (_rttMs r) (_lastEchoTs r) (_lastRecvTimestamp r)
    (_pendingReliable r).

(** The in-class initialisers of the fields. *)
Definition rudp_init {D} : Rudp D := mk_rudp 0 0 0 0 false 0 false 100 0 0 ∅.

Section transport.
Context {D : Type}.
Implicit Types s : Rudp D.

(** ** Sequence counters *)

Definition NextSendRSeq : ST (Rudp D) Z := fun s =>
  let n := u32 (_sendRSeq s + 1) in (n, s <| _sendRSeq := n |>).
Definition NextSendUSeq : ST (Rudp D) Z := fun s =>
  let n := u16 (_sendUSeq s + 1) in (n, s <| _sendUSeq := n |>).
Definition GetLastSentRSeq s : Z := _sendRSeq s.

(** ** Receiving *)

Definition UpdateRRecvState (rSeqNum : Z) : ST (Rudp D) bool := fun s =>
  if negb (_hasRRecv s) then
    (true, s <| _rRecvHighestSeq := rSeqNum |> <| _rRecvBitfield := 0 |> <| _hasRRecv := true |>)
  else if _rRecvHighestSeq s <? rSeqNum then
    let diff := u32 (rSeqNum - _rRecvHighestSeq s) in
    let bf := if 32 <=? diff then 0
              else Z.lor (u32 (Z.shiftl (_rRecvBitfield s) diff)) (Z.shiftl 1 (diff - 1)) in
    (true, s <| _rRecvBitfield := bf |> <| _rRecvHighestSeq := rSeqNum |>)
  else if rSeqNum =? _rRecvHighestSeq s then (false, s)
  else
    let diff := u32 (_rRecvHighestSeq s - rSeqNum) in
    if 32 <? diff then (false, s)
    else
      let bit := Z.shiftl 1 (diff - 1) in
      if negb (Z.land (_rRecvBitfield s) bit =? 0) then (false, s)
      else (true, s <| _rRecvBitfield ::= fun b => Z.lor b bit |>).

Definition UpdateURecvState (uSeqNum : Z) : ST (Rudp D) bool := fun s =>
  if negb (_hasURecv s) then
    (true, s <| _uRecvHighestSeq := uSeqNum |> <| _hasURecv := true |>)
  else if i16 (uSeqNum - _uRecvHighestSeq s) <=? 0 then (false, s)
  else (true, s <| _uRecvHighestSeq := uSeqNum |>).

Definition GetAckState s : Z * Z := (_rRecvHighestSeq s, _rRecvBitfield s).

Definition SetLastRecvTimestamp (ts : Z) s : Rudp D :=
  if negb (_lastRecvTimestamp s =? 0) && (i32 (ts - _lastRecvTimestamp s) <=? 0) then s
  else s <| _lastRecvTimestamp := ts |>.

(** ** Acknowledgement of sent packets *)

Definition releaseBySeq (seq : Z) (p : gmap Z (PendingPacket D)) : gmap Z (PendingPacket D) :=
  match p !! seq with Some _ => delete seq p | None => p end.

(** [for (i = 0; i < 32 && ackBitfield != 0; i++)]: [n] iterations are left. *)
Fixpoint ack_loop (n : nat) (i ackSeqNum ackBitfield : Z) (p : gmap Z (PendingPacket D))
    : gmap Z (PendingPacket D) :=
  match n with
  | O => p
  | S n' =>
      if ackBitfield =? 0 then p
      else if Z.land ackBitfield 1 =? 0 then
        ack_loop n' (i + 1) ackSeqNum (Z.shiftr ackBitfield 1) p
      else
        let p' := releaseBySeq (u32 (ackSeqNum - u32 (i + 1))) p in
        if decide (p' = ∅) then p'
        else ack_loop n' (i + 1) ackSeqNum (Z.shiftr ackBitfield 1) p'
  end.

Definition ProcessIncomingAck (ackSeqNum ackBitfield : Z) s : Rudp D :=
  let p := releaseBySeq ackSeqNum (_pendingReliable s) in
  if bool_decide (p = ∅) || (ackBitfield =? 0) then s <| _pendingReliable := p |>
  else s <| _pendingReliable := ack_loop 32 0 ackSeqNum ackBitfield p |>.

(** ** Pending reliable packets *)

Definition pending_class (size : Z) : PendingClass :=
  if size <=? 256 then PendingPacket256
  else if size <=? 512 then PendingPacket512
  else if size <=? 1024 then PendingPacket1024
  else PendingPacketUnlimited.

(** The length of the array a pending packet of [size] bytes copies into. *)
Definition pending_capacity (c : PendingClass) (size : Z) : Z :=
  match c with
  | PendingPacket256 => 256 | PendingPacket512 => 512 | PendingPacket1024 => 1024
  | PendingPacketUnlimited => size
  end.

(** [emplace] leaves an existing entry in place. *)
Definition RegisterReliable (seq : Z) (buf : D) (size : Z) (dest : sockaddr_in) (nowMs : Z) s
    : Rudp D :=
  let pPending := mk_pending seq size dest nowMs (pending_class size) buf in
  match _pendingReliable s !! seq with
  | Some _ => s
  | None => s <| _pendingReliable ::= <[ seq := pPending ]> |>
  end.

Definition retransmit_timeout s : Z :=
  Z.min (Z.max (u32 (_rttMs s * 3) / 2) 50) 1000.

Definition GetRetransmitCandidates (nowMs : Z) s : list (PendingPacket D) :=
  List.filter (fun p => retransmit_timeout s <=? u32 (nowMs - sentAtMs p))
    (map snd (map_to_list (_pendingReliable s))).

(** [pending->sentAtMs = nowMs] for each of them. *)
Definition mark_resent (nowMs : Z) s : Rudp D :=
  s <| _pendingReliable ::= fmap (fun p =>
         if retransmit_timeout s <=? u32 (nowMs - sentAtMs p) then p <| sentAtMs := nowMs |> else p) |>.

Definition ClearPendingReliableExcept (keepSeq : Z) s : Rudp D :=
  s <| _pendingReliable ::= filter (fun kv => kv.1 = keepSeq /\ keepSeq <> 0) |>.

Definition IsReliablePending (seq : Z) s : bool := bool_decide (is_Some (_pendingReliable s !! seq)).

(** ** Round-trip estimate *)

Definition UpdateRtt (echoTs nowMs : Z) s : Rudp D :=
  if echoTs =? 0 then s
  else if negb (_lastEchoTs s =? 0) && (i32 (echoTs - _lastEchoTs s) <=? 0) then s
  else
    let rtt := u32 (nowMs - echoTs) in
    let avg := u32 (u32 (_rttMs s * 7) + rtt) / 8 in
    s <| _lastEchoTs := echoTs |> <| _rttMs := if avg <? 20 then 20 else avg |>.


(** ** Specification of the receive window

    The abstract receiver remembers every sequence number it has accepted.  A
    packet is new when it is above everything seen, or within 32 of the highest
    and not seen before. *)

Record Window := mk_window { w_high : option Z; w_seen : gset Z }.

Definition window_empty : Window := mk_window None ∅.

Definition w_accept (seq : Z) (w : Window) : Window :=
  mk_window (Some (match w_high w with None => seq | Some h => Z.max h seq end))
            ({[ seq ]} ∪ w_seen w).

Definition spec_new (seq : Z) (w : Window) : bool :=
  match w_high w with
  | None => true
  | Some h => (h <? seq) || ((h - seq <=? 32) && bool_decide (seq ∉ w_seen w))
  end.

Definition spec_recv (seq : Z) (w : Window) : bool * Window :=
  if spec_new seq w then (true, w_accept seq w) else (false, w).

(** Bit [i] of the bitfield stands for the sequence number [highest - 1 - i]. *)
Definition bit_seq (h i : Z) : Z := h - 1 - i.

(** The bitfield claims only packets that were accepted. *)
Definition window_sound s (w : Window) : Prop :=
  (_hasRRecv s = true <-> is_Some (w_high w)) /\
  (forall h, w_high w = Some h -> _rRecvHighestSeq s = h /\ h ∈ w_seen w /\ is_u32 h) /\
  (forall q, q ∈ w_seen w -> 0 <= q <= _rRecvHighestSeq s) /\
  is_u32 (_rRecvBitfield s) /\
  (_hasRRecv s = false -> _rRecvBitfield s = 0 /\ w_seen w = ∅) /\
  (forall i, 0 <= i < 32 -> Z.testbit (_rRecvBitfield s) i = true ->
     bit_seq (_rRecvHighestSeq s) i ∈ w_seen w).

(** ... and claims all of those in the window. *)
Definition window_complete s (w : Window) : Prop :=
  forall i, 0 <= i < 32 -> bit_seq (_rRecvHighestSeq s) i ∈ w_seen w ->
    Z.testbit (_rRecvBitfield s) i = true.

Definition window_rel s w : Prop := window_sound s w /\ window_complete s w.

(** The one jump the code does not track: exactly 32 above the highest. *)
Definition jump32 (seq : Z) s : bool := _hasRRecv s && (seq =? _rRecvHighestSeq s + 32).

(** The sequence numbers accepted out of a list of arrivals. *)
Fixpoint accepted (arrivals : list Z) s : list Z :=
  match arrivals with
  | [] => []
  | q :: rest =>
      let '(ok, s') := UpdateRRecvState q s in
      if ok then q :: accepted rest s' else accepted rest s'
  end.

Fixpoint jump_free (arrivals : list Z) s : Prop :=
  match arrivals with
  | [] => True
  | q :: rest => is_u32 q /\ jump32 q s = false /\ jump_free rest (exec (UpdateRRecvState q) s)
  end.

(** The receiving side after a list of arrivals. *)
Definition receive_all (arrivals : list Z) s : Rudp D :=
  foldl (fun s q => exec (UpdateRRecvState q) s) s arrivals.

(** The sequence numbers an ACK pair names: the highest and the set bits. *)
Definition acked (ackSeqNum ackBitfield k : Z) : Prop :=
  k = ackSeqNum \/
  exists i, 0 <= i < 32 /\ Z.testbit ackBitfield i = true /\ k = u32 (ackSeqNum - (i + 1)).

(** The pending table of a sender whose counter has not wrapped. *)
Definition pending_below s : Prop :=
  forall k p, _pendingReliable s !! k = Some p -> 1 <= k <= _sendRSeq s /\ seqNum p = k.

(** What a reliable send does to the table: [NextSendRSeq] then [RegisterReliable]. *)
Definition send_reliable (buf : D) (size : Z) (dest : sockaddr_in) (nowMs : Z) : ST (Rudp D) Z :=
  fun s => let '(seq, s1) := NextSendRSeq s in (seq, RegisterReliable seq buf size dest nowMs s1).

(** The range of the RTT estimate. *)
Definition rtt_inv s : Prop := 20 <= _rttMs s < 2 ^ 29.

(** The sequence numbers named by the first [n] bits, counted from bit [i]. *)
Definition named (n : nat) (i ackSeqNum bf k : Z) : Prop :=
  exists j, 0 <= j < Z.of_nat n /\ Z.testbit bf j = true /\ k = u32 (ackSeqNum - (i + j + 1)).

(** ** Theorems *)

(** Bits of the shifted bitfield. *)
Lemma shift_in_bit b d i :
  0 < d < 32 -> 0 <= i < 32 ->
  Z.testbit (Z.lor (u32 (Z.shiftl b d)) (Z.shiftl 1 (d - 1))) i
  = ((d <=? i) && Z.testbit b (i - d)) || (i =? d - 1).
Proof.
  intros Hd Hi. rewrite Z.lor_spec. unfold u32.
  rewrite Z.mod_pow2_bits_low by lia.
  rewrite Z.shiftl_spec by lia.
  rewrite (Z.shiftl_spec 1) by lia.
  destruct (Z.leb_spec d i).
  - f_equal. destruct (Z.eqb_spec i (d - 1)); [lia|].
    apply Z.bits_above_log2; [lia|]. simpl; lia.
  - rewrite Z.testbit_neg_r by lia; simpl.
    destruct (Z.eqb_spec i (d - 1)) as [->|].
    + by rewrite Z.sub_diag.
    + rewrite Z.testbit_neg_r; [done|lia].
Qed.

Lemma u32_testbit_high b i : is_u32 b -> 32 <= i -> Z.testbit b i = false.
Proof.
  intros Hb Hi. rewrite <- (Z.mod_small b (2 ^ 32)) by (apply Hb).
  apply Z.mod_pow2_bits_high; lia.
Qed.

Lemma lor_u32 a b : is_u32 a -> is_u32 b -> is_u32 (Z.lor a b).
Proof.
  intros Ha Hb. assert (0 <= Z.lor a b) by (apply Z.lor_nonneg; split; [apply Ha|apply Hb]).
  split; [done|].
  destruct (Z.eq_dec (Z.lor a b) 0) as [->|]; [lia|].
  apply Z.log2_lt_pow2; [lia|]. rewrite Z.log2_lor by (apply Ha || apply Hb).
  destruct Ha as [Ha1 Ha2], Hb as [Hb1 Hb2].
  apply Z.max_lub_lt.
  - destruct (Z.eq_dec a 0) as [->|]; [simpl; lia|]. apply Z.log2_lt_pow2; lia.
  - destruct (Z.eq_dec b 0) as [->|]; [simpl; lia|]. apply Z.log2_lt_pow2; lia.
Qed.

Lemma bit_u32 d : 0 < d <= 32 -> is_u32 (Z.shiftl 1 (d - 1)).
Proof.
  intros Hd. rewrite Z.shiftl_1_l. split; [apply Z.pow_nonneg; lia|].
  apply Z.pow_lt_mono_r; lia.
Qed.

Lemma land_bit_eqb b k :
  0 <= k -> negb (Z.land b (Z.shiftl 1 k) =? 0) = Z.testbit b k.
Proof.
  intros Hk. rewrite Z.shiftl_1_l.
  destruct (Z.testbit b k) eqn:E.
  - apply negb_true_iff, Z.eqb_neq. intros H0.
    assert (Z.testbit (Z.land b (2 ^ k)) k = false) as H by (by rewrite H0, Z.bits_0).
    rewrite Z.land_spec, E, Z.pow2_bits_true in H by lia. done.
  - apply negb_false_iff, Z.eqb_eq. apply Z.bits_inj'. intros n Hn.
    rewrite Z.land_spec, Z.bits_0, Z.pow2_bits_eqb by lia.
    destruct (Z.eqb_spec k n) as [<-|]; [by rewrite E|apply andb_false_r].
Qed.


Lemma land_1_eqb b : (Z.land b 1 =? 0) = negb (Z.testbit b 0).
Proof. rewrite <- (land_bit_eqb b 0) by lia. by rewrite negb_involutive. Qed.

(** *** The receive window *)

Lemma window_init_rel : window_rel rudp_init window_empty.
Proof.
  split; [split_and!|]; simpl.
  - split; [done|by intros [? ?]].
  - done.
  - set_solver.
  - width.
  - done.
  - intros i _. by rewrite Z.bits_0.
  - intros i _. simpl. set_solver.
Qed.

(** The code's test of an older sequence number, with the differences exact. *)
Lemma UpdateRRecvState_old q s :
  is_u32 q -> is_u32 (_rRecvHighestSeq s) -> _hasRRecv s = true -> q <= _rRecvHighestSeq s ->
  let h := _rRecvHighestSeq s in
  UpdateRRecvState q s =
    if (q =? h) || (32 <? h - q) || Z.testbit (_rRecvBitfield s) (h - q - 1) then (false, s)
    else (true, s <| _rRecvBitfield ::= fun b => Z.lor b (Z.shiftl 1 (h - q - 1)) |>).
Proof.
  intros Hq Hh Hr Hle h. unfold UpdateRRecvState. fold h. rewrite Hr. simpl.
  destruct (Z.ltb_spec h q); [lia|].
  destruct (Z.eqb_spec q h) as [->|]; [done|].
  rewrite (u32_id (h - q)) by width. simpl.
  destruct (Z.ltb_spec 32 (h - q)); [done|]. rewrite land_bit_eqb by lia.
  by destruct (Z.testbit _ _).
Qed.

Lemma UpdateRRecvState_new q s :
  is_u32 q -> is_u32 (_rRecvHighestSeq s) -> _hasRRecv s = true -> _rRecvHighestSeq s < q ->
  let d := q - _rRecvHighestSeq s in
  UpdateRRecvState q s =
    (true, s <| _rRecvBitfield := if 32 <=? d then 0
                 else Z.lor (u32 (Z.shiftl (_rRecvBitfield s) d)) (Z.shiftl 1 (d - 1)) |>
             <| _rRecvHighestSeq := q |>).
Proof.
  intros Hq Hh Hr Hlt d. unfold UpdateRRecvState. rewrite Hr. simpl.
  destruct (Z.ltb_spec (_rRecvHighestSeq s) q); [|lia].
  by rewrite (u32_id (q - _rRecvHighestSeq s)) by (fold d; width).
Qed.


Lemma window_sound_high s w h :
  window_sound s w -> w_high w = Some h ->
  _hasRRecv s = true /\ _rRecvHighestSeq s = h /\ is_u32 h /\ h ∈ w_seen w.
Proof.
  intros (H1 & H2 & _) Hw. destruct (H2 _ Hw) as (? & ? & ?).
  split_and!; try done. apply H1. by rewrite Hw.
Qed.

Lemma window_sound_none s w :
  window_sound s w -> w_high w = None -> _hasRRecv s = false /\ w_seen w = ∅ /\ _rRecvBitfield s = 0.
Proof.
  intros (H1 & _ & _ & _ & H5 & _) Hw.
  assert (_hasRRecv s = false) as Hr.
  { destruct (_hasRRecv s); [|done]. destruct (proj1 H1 eq_refl) as [? E]. by rewrite Hw in E. }
  by destruct (H5 Hr).
Qed.

(** An accepted packet keeps the bitfield sound, whatever the jump. *)
Lemma recv_keeps_sound q s w :
  is_u32 q -> window_sound s w ->
  let '(ok, s') := UpdateRRecvState q s in
  if ok then window_sound s' (w_accept q w) else s' = s.
Proof.
  intros Hq Hs. destruct (w_high w) as [h|] eqn:Hw.
  2:{ destruct (window_sound_none _ _ Hs Hw) as (Hr & Hseen & Hb).
      unfold UpdateRRecvState. rewrite Hr. simpl. unfold w_accept, window_sound. simpl.
      rewrite Hw, Hseen. split_and!; try done; try (by eexists).
      - intros h [= <-]. set_solver.
      - destruct Hq. intros q'. rewrite elem_of_union, elem_of_singleton.
        intros [->|?]; [lia|set_solver].
      - intros i _. by rewrite Z.bits_0. }
  destruct (window_sound_high _ _ _ Hs Hw) as (Hr & Hh & Hu & Hin).
  destruct Hs as (_ & _ & Hle & Hbu & _ & Hbits). rewrite Hh in Hle, Hbits.
  destruct (Z.le_gt_cases q h) as [Hqh|Hqh].
  - rewrite UpdateRRecvState_old by (rewrite ?Hh; done || lia). cbv zeta. rewrite Hh.
    destruct (_ || _) eqn:E; [done|].
    apply orb_false_iff in E as [E Ebit]. apply orb_false_iff in E as [Ene E32].
    apply Z.eqb_neq in Ene. apply Z.ltb_ge in E32.
    unfold w_accept, window_sound. simpl. rewrite Hw, Hh, Hr. split_and!; try done; try (by eexists).
    + intros h' [= <-]. rewrite Z.max_l by lia. set_solver.
    + destruct Hq. intros q'. rewrite elem_of_union, elem_of_singleton. intros [->|?]; [lia|auto].
    + apply lor_u32; [done|apply bit_u32; lia].
    + intros i Hi. rewrite Z.lor_spec, Z.shiftl_1_l, Z.pow2_bits_eqb by lia.
      rewrite orb_true_iff, Z.eqb_eq. intros [Hb|Hb]; [set_solver|].
      unfold bit_seq. apply elem_of_union_l, elem_of_singleton. lia.
  - rewrite UpdateRRecvState_new by (rewrite ?Hh; done || lia). cbv zeta. rewrite Hh.
    unfold w_accept, window_sound. simpl. rewrite Hw, Hr. split_and!; try done; try (by eexists).
    + intros h' [= <-]. rewrite Z.max_r by lia. set_solver.
    + destruct Hq. intros q'. rewrite elem_of_union, elem_of_singleton.
      intros [->|Hq']; [lia|]. apply Hle in Hq'. lia.
    + destruct (Z.leb_spec 32 (q - h)); [width|].
      apply lor_u32; [apply u32_range|apply bit_u32; lia].
    + intros i Hi. destruct (Z.leb_spec 32 (q - h)); [by rewrite Z.bits_0|].
      rewrite shift_in_bit by lia. rewrite orb_true_iff, andb_true_iff, Z.leb_le, Z.eqb_eq.
      intros [[Hd Hb]|Hd]; apply elem_of_union.
      * right. replace (bit_seq q i) with (bit_seq h (i - (q - h))) by (unfold bit_seq; lia).
        apply Hbits; [lia|done].
      * right. replace (bit_seq q i) with h by (unfold bit_seq; lia). done.
Qed.


(** Away from a jump of exactly 32 the code decides as the specification does
    and the bitfield stays complete. *)
Lemma recv_decides q s w :
  is_u32 q -> window_rel s w -> jump32 q s = false ->
  fst (UpdateRRecvState q s) = spec_new q w.
Proof.
  intros Hq [Hs Hc] Hj. unfold spec_new. destruct (w_high w) as [h|] eqn:Hw.
  2:{ destruct (window_sound_none _ _ Hs Hw) as (Hr & _).
      unfold UpdateRRecvState. by rewrite Hr. }
  destruct (window_sound_high _ _ _ Hs Hw) as (Hr & Hh & Hu & Hin).
  destruct Hs as (_ & _ & _ & _ & _ & Hbits). unfold window_complete in Hc.
  rewrite Hh in Hbits, Hc.
  destruct (Z.ltb_spec h q); simpl.
  - rewrite UpdateRRecvState_new by (rewrite ?Hh; done || lia). done.
  - rewrite UpdateRRecvState_old by (rewrite ?Hh; done || lia). cbv zeta. rewrite Hh.
    destruct (Z.eqb_spec q h) as [->|]; simpl.
    + rewrite bool_decide_false by (by intros ?). by rewrite andb_false_r.
    + destruct (Z.ltb_spec 32 (h - q)); simpl; [destruct (Z.leb_spec (h - q) 32); [lia|done]|].
      destruct (Z.leb_spec (h - q) 32); [simpl|lia].
      assert (bit_seq h (h - q - 1) = q) as Hbq by (unfold bit_seq; lia).
      specialize (Hbits (h - q - 1)). specialize (Hc (h - q - 1)). rewrite Hbq in Hbits, Hc.
      destruct (Z.testbit _ _) eqn:E; simpl; symmetry.
      * apply bool_decide_eq_false. intros Hn. apply Hn, Hbits; [lia|done].
      * apply bool_decide_eq_true. intros Hq'. discriminate Hc; [lia|done].
Qed.

Lemma recv_keeps_complete q s w :
  is_u32 q -> window_rel s w -> jump32 q s = false ->
  let '(ok, s') := UpdateRRecvState q s in
  if ok then window_complete s' (w_accept q w) else True.
Proof.
  intros Hq [Hs Hc] Hj. destruct (w_high w) as [h|] eqn:Hw.
  2:{ destruct (window_sound_none _ _ Hs Hw) as (Hr & Hseen & _).
      unfold UpdateRRecvState. rewrite Hr. simpl. intros i Hi. simpl. rewrite Hseen.
      unfold bit_seq. rewrite elem_of_union, elem_of_singleton. set_unfold. lia. }
  destruct (window_sound_high _ _ _ Hs Hw) as (Hr & Hh & Hu & Hin).
  destruct Hs as (_ & _ & Hle & _ & _ & _). unfold window_complete, jump32 in *.
  rewrite Hr, Hh in *. simpl in Hj. apply Z.eqb_neq in Hj.
  destruct (Z.le_gt_cases q h) as [Hqh|Hqh].
  - rewrite UpdateRRecvState_old by (rewrite ?Hh; done || lia). cbv zeta. rewrite Hh.
    destruct (_ || _) eqn:E; [done|]. apply orb_false_iff in E as [E _].
    apply orb_false_iff in E as [Ene E32]. apply Z.eqb_neq in Ene. apply Z.ltb_ge in E32.
    simpl. rewrite Hh. intros i Hi. rewrite Z.lor_spec, Z.shiftl_1_l, Z.pow2_bits_eqb by lia.
    rewrite orb_true_iff, Z.eqb_eq, elem_of_union, elem_of_singleton. unfold bit_seq in *.
    intros [?|?]; [right; lia|left; auto].
  - rewrite UpdateRRecvState_new by (rewrite ?Hh; done || lia). cbv zeta. rewrite Hh. simpl.
    intros i Hi. rewrite elem_of_union, elem_of_singleton. intros [?|Hq']; [unfold bit_seq in *; lia|].
    pose proof (Hle _ Hq'). unfold bit_seq in *.
    destruct (Z.leb_spec 32 (q - h)); [exfalso; lia|].
    rewrite shift_in_bit, orb_true_iff, andb_true_iff, Z.leb_le, Z.eqb_eq by lia.
    destruct (Z.eq_dec i (q - h - 1)); [by right|left]. split; [lia|]. apply Hc; [lia|].
    by replace (h - 1 - (i - (q - h))) with (q - 1 - i) by lia.
Qed.


(** C30. [UpdateRRecvState] refines the receive window: starting from a state
    that represents the window [w], an arrival that is not exactly 32 above the
    highest is accepted exactly when the specification accepts it, and the state
    after represents the window after. *)
Theorem UpdateRRecvState_refines q s w :
  is_u32 q -> window_rel s w -> jump32 q s = false ->
  let '(ok, s') := UpdateRRecvState q s in
  let '(ok', w') := spec_recv q w in
  ok = ok' /\ window_rel s' w'.
Proof.
  intros Hq Hr Hj. pose proof (recv_decides _ _ _ Hq Hr Hj) as Hd.
  pose proof (recv_keeps_sound _ _ _ Hq (proj1 Hr)) as Hs.
  pose proof (recv_keeps_complete _ _ _ Hq Hr Hj) as Hc.
  destruct (UpdateRRecvState q s) as [ok s']. simpl in Hd. unfold spec_recv. rewrite <- Hd.
  destruct ok; [done|]. by subst s'.
Qed.

(** Everything accepted from a state is new to its window. *)
Lemma accepted_fresh arrivals s w :
  window_rel s w -> jump_free arrivals s ->
  NoDup (accepted arrivals s) /\ forall q, q ∈ accepted arrivals s -> q ∉ w_seen w.
Proof.
  revert s w; induction arrivals as [|q rest IH]; intros s w Hr Hj; simpl.
  { split; [constructor|set_solver]. }
  destruct Hj as (Hq & Hj & Hrest). unfold exec in Hrest.
  pose proof (recv_decides _ _ _ Hq Hr Hj) as Hd.
  pose proof (recv_keeps_sound _ _ _ Hq (proj1 Hr)) as Hs.
  pose proof (recv_keeps_complete _ _ _ Hq Hr Hj) as Hc.
  destruct (UpdateRRecvState q s) as [[|] s']; simpl in *; [|subst s'; by apply IH].
  destruct (IH s' (w_accept q w) (conj Hs Hc) Hrest) as [Hnd Hnew]. split.
  - constructor; [|done]. intros Hin%Hnew. simpl in Hin. set_solver.
  - intros q'. rewrite elem_of_cons. intros [->|Hin%Hnew]; [|simpl in Hin; set_solver].
    unfold spec_new in Hd. destruct (w_high w) as [h|] eqn:Hw.
    + symmetry in Hd. apply orb_true_iff in Hd as [Hd%Z.ltb_lt|Hd].
      * destruct (window_sound_high _ _ _ (proj1 Hr) Hw) as (_ & Hh & _).
        destruct Hr as [(_ & _ & Hle & _) _]. intros Hin%Hle. lia.
      * apply andb_true_iff in Hd as [_ Hd]. by apply bool_decide_eq_true in Hd.
    + destruct (window_sound_none _ _ (proj1 Hr) Hw) as (_ & -> & _). set_solver.
Qed.

(** C31. A reliable packet is delivered at most once: of any sequence of
    arrivals in which no packet is exactly 32 above the highest one before it,
    the packets the receive window lets through are pairwise different. *)
Theorem accepted_no_duplicates arrivals :
  jump_free arrivals rudp_init -> NoDup (accepted arrivals rudp_init).
Proof. intros Hj. apply (accepted_fresh _ _ _ window_init_rel Hj). Qed.

(** The jump the window does not track: once any packet [h] is the highest,
    a packet [h + 32] clears bit 31, which stands for [h], and [h] is accepted a
    second time although it is inside the window of 32. *)
Theorem jump_of_32_accepts_duplicate h s :
  is_u32 h -> is_u32 (h + 32) -> _hasRRecv s = true -> _rRecvHighestSeq s = h ->
  let s' := exec (UpdateRRecvState (h + 32)) s in
  fst (UpdateRRecvState h s) = false /\ fst (UpdateRRecvState h s') = true.
Proof.
  intros Hu Hu' Hr Hh. unfold exec.
  rewrite (UpdateRRecvState_new (h + 32) s) by (rewrite ?Hh; done || lia). rewrite Hh.
  replace (h + 32 - h) with 32 by lia. cbv zeta. simpl snd. split.
  - rewrite UpdateRRecvState_old by (rewrite ?Hh; done || lia).
    cbv zeta. by rewrite Hh, Z.eqb_refl.
  - rewrite UpdateRRecvState_old by (simpl; done || lia). simpl.
    destruct (Z.eqb_spec h (h + 32)); [lia|].
    replace (h + 32 - h) with 32 by lia. by rewrite Z.bits_0.
Qed.

(** *** Acknowledgements *)

Lemma releaseBySeq_lookup seq (p : gmap Z (PendingPacket D)) k :
  releaseBySeq seq p !! k = if decide (k = seq) then None else p !! k.
Proof.
  unfold releaseBySeq. destruct (p !! seq) eqn:E; destruct (decide (k = seq)) as [->|]; try done.
  - apply lookup_delete_eq.
  - by apply lookup_delete_ne.
Qed.

Lemma named_shift n i a bf k :
  0 <= i ->
  named (S n) i a bf k <->
  (Z.testbit bf 0 = true /\ k = u32 (a - (i + 1))) \/ named n (i + 1) a (Z.shiftr bf 1) k.
Proof.
  intros Hi. split.
  - intros (j & Hj & Hb & ->). destruct (Z.eq_dec j 0) as [->|].
    + left. split; [done|]. f_equal; lia.
    + right. exists (j - 1). rewrite Z.shiftr_spec by lia.
      replace (j - 1 + 1) with j by lia. split_and!; [lia|lia|done|f_equal; lia].
  - intros [[Hb ->]|(j & Hj & Hb & ->)].
    + exists 0. split_and!; [lia|lia|done|f_equal; lia].
    + exists (j + 1). rewrite Z.shiftr_spec in Hb by lia. split_and!; [lia|lia|done|f_equal; lia].
Qed.

(** The early exit on an empty table changes nothing. *)
Lemma ack_loop_step n i a bf (p : gmap Z (PendingPacket D)) :
  (if decide (p = ∅) then p else ack_loop n i a bf p) = ack_loop n i a bf p.
Proof.
  destruct (decide (p = ∅)) as [->|]; [|done].
  revert i bf; induction n as [|n IH]; intros i bf; simpl; [done|].
  destruct (bf =? 0); [done|]. destruct (Z.land bf 1 =? 0); [apply IH|].
  by rewrite decide_True.
Qed.

Lemma ack_loop_None n i a bf (p : gmap Z (PendingPacket D)) k :
  p !! k = None -> ack_loop n i a bf p !! k = None.
Proof.
  revert i bf p; induction n as [|n IH]; intros i bf p Hp; simpl; [done|].
  destruct (bf =? 0); [done|]. destruct (Z.land bf 1 =? 0); [by apply IH|].
  rewrite ack_loop_step. apply IH. rewrite releaseBySeq_lookup. by case_decide.
Qed.

Lemma ack_loop_lookup n i a bf (p : gmap Z (PendingPacket D)) k :
  0 <= i -> i + Z.of_nat n <= 32 ->
  (named n i a bf k -> ack_loop n i a bf p !! k = None) /\
  (~ named n i a bf k -> ack_loop n i a bf p !! k = p !! k).
Proof.
  revert i bf p; induction n as [|n IH]; intros i bf p Hi Hn; simpl.
  { split; [|done]. intros (j & Hj & _). lia. }
  rewrite named_shift by done.
  destruct (Z.eqb_spec bf 0) as [->|Hbf].
  { split; [|done]. intros [[Hb _]|(j & _ & Hb & _)].
    - by rewrite Z.bits_0 in Hb.
    - by rewrite Z.shiftr_0_l, Z.bits_0 in Hb. }
  rewrite land_1_eqb, ack_loop_step. destruct (Z.testbit bf 0) eqn:Hb; simpl.
  - rewrite (u32_id (i + 1)) by width.
    set (p' := releaseBySeq _ p).
    destruct (IH (i + 1) (Z.shiftr bf 1) p' ltac:(lia) ltac:(lia)) as [H1 H2]. split.
    + intros [[_ ->]|Hr]; [|by apply H1].
      apply ack_loop_None. unfold p'. by rewrite releaseBySeq_lookup, decide_True.
    + intros Hn'. rewrite H2 by tauto. unfold p'.
      rewrite releaseBySeq_lookup, decide_False; [done|]. intros ->. tauto.
  - destruct (IH (i + 1) (Z.shiftr bf 1) p ltac:(lia) ltac:(lia)) as [H1 H2].
    split; [intros [[? _]|?]; [done|auto]|tauto].
Qed.

Local Arguments ack_loop : simpl never.

Lemma acked_named a bf k : acked a bf k <-> k = a \/ named 32 0 a bf k.
Proof. unfold acked, named. done. Qed.

Lemma named_0 n i a k : ~ named n i a 0 k.
Proof. intros (j & _ & Hb & _). by rewrite Z.bits_0 in Hb. Qed.

Lemma named_dec n i a bf k : 0 <= i -> named n i a bf k \/ ~ named n i a bf k.
Proof.
  revert i bf; induction n as [|n IH]; intros i bf Hi; [right; intros (j & Hj & _); lia|].
  rewrite named_shift by done. destruct (IH (i + 1) (Z.shiftr bf 1)); [lia|tauto|].
  destruct (Z.testbit bf 0); [|by right; intros [[]|]]. destruct (decide (k = u32 (a - (i + 1)))); tauto.
Qed.

(** [ProcessIncomingAck] releases exactly the packets the ACK pair names
    and touches nothing else: the early exits on an empty table or an exhausted
    bitfield do not change the result. *)
Theorem ProcessIncomingAck_exact ackSeqNum ackBitfield s :
  let s' := ProcessIncomingAck ackSeqNum ackBitfield s in
  (forall k, acked ackSeqNum ackBitfield k -> _pendingReliable s' !! k = None) /\
  (forall k, ~ acked ackSeqNum ackBitfield k ->
     _pendingReliable s' !! k = _pendingReliable s !! k) /\
  s' = s <| _pendingReliable := _pendingReliable s' |>.
Proof.
  assert (H : forall k, let s' := ProcessIncomingAck ackSeqNum ackBitfield s in
    (acked ackSeqNum ackBitfield k -> _pendingReliable s' !! k = None) /\
    (~ acked ackSeqNum ackBitfield k -> _pendingReliable s' !! k = _pendingReliable s !! k)).
  { intros k. unfold ProcessIncomingAck. rewrite acked_named.
    set (p := releaseBySeq ackSeqNum _).
    assert (Hp : p !! k = if decide (k = ackSeqNum) then None else _pendingReliable s !! k)
      by apply releaseBySeq_lookup.
    destruct (bool_decide (p = ∅)) eqn:Hemp; simpl; [|destruct (Z.eqb_spec ackBitfield 0) as [->|]; simpl].
    - apply bool_decide_eq_true in Hemp. split; [by rewrite Hemp, lookup_empty|].
      rewrite Hp. case_decide; tauto.
    - split; [intros [->|?%named_0]; [by rewrite Hp, decide_True|done]|].
      intros ?. rewrite Hp, decide_False; tauto.
    - destruct (ack_loop_lookup 32 0 ackSeqNum ackBitfield p k) as [H1 H2]; [lia..|].
      split; [intros [->|?]; [apply ack_loop_None; by rewrite Hp, decide_True|auto]|].
      intros Hn. rewrite H2 by tauto. rewrite Hp, decide_False; tauto. }
  intros s'. split_and!; [apply H|apply H|].
  unfold s', ProcessIncomingAck. destruct (_ || _); simpl; reflexivity.
Qed.

(** The bitfield of a sound window names only packets it has seen. *)
Lemma acked_seen r w h k :
  window_sound r w -> w_high w = Some h ->
  acked h (_rRecvBitfield r) k -> k ∈ w_seen w /\ h - k <= 32.
Proof.
  intros Hs Hw. destruct (window_sound_high _ _ _ Hs Hw) as (_ & Hh & Hu & Hin).
  destruct Hs as (_ & _ & Hle & _ & _ & Hbits). rewrite Hh in *.
  intros [->|(i & Hi & Hb & ->)]; [split; [done|lia]|].
  pose proof (Hbits i Hi Hb) as Hseen. pose proof (Hle _ Hseen). unfold bit_seq in *.
  rewrite u32_id by (destruct Hu; split; lia). replace (h - (i + 1)) with (h - 1 - i) by lia.
  split; [done|lia].
Qed.

(** ... and that of a complete one names every packet seen that is not too far behind. *)
Lemma seen_acked r w h k :
  window_rel r w -> w_high w = Some h -> k ∈ w_seen w -> h - k <= 32 ->
  acked h (_rRecvBitfield r) k.
Proof.
  intros [Hs Hc] Hw Hk Hd. destruct (window_sound_high _ _ _ Hs Hw) as (_ & Hh & Hu & _).
  destruct Hs as (_ & _ & Hle & _). unfold window_complete in Hc. rewrite Hh in *.
  pose proof (Hle _ Hk). destruct (Z.eq_dec k h) as [->|]; [by left|right]. exists (h - k - 1).
  split; [lia|]. split; [|rewrite u32_id; [lia|destruct Hu; split; lia]].
  apply Hc; [lia|]. unfold bit_seq. by replace (h - 1 - (h - k - 1)) with k by lia.
Qed.

(** What a receiver that represents [w] has seen after more arrivals: what it accepted,
    and nothing else; without a jump of exactly 32 it still represents all of it. *)
Lemma arrivals_window arrivals s w :
  Forall is_u32 arrivals -> window_sound s w ->
  exists w', window_sound (receive_all arrivals s) w' /\
    (forall q, q ∈ w_seen w' <-> q ∈ w_seen w \/ q ∈ accepted arrivals s) /\
    (is_Some (w_high w) \/ arrivals <> [] -> is_Some (w_high w')) /\
    (window_complete s w -> jump_free arrivals s -> window_complete (receive_all arrivals s) w').
Proof.
  revert s w; induction arrivals as [|q rest IH]; intros s w Hu Hs.
  { exists w. split_and!; [done|set_solver|by intros [?|]|done]. }
  apply Forall_cons in Hu as [Hq Hu]. pose proof (recv_keeps_sound _ _ _ Hq Hs) as Hs'.
  assert (Hc : window_complete s w -> jump32 q s = false -> _)
    by (intros H1 H2; exact (recv_keeps_complete _ _ _ Hq (conj Hs H1) H2)).
  change (receive_all (q :: rest) s) with (receive_all rest (exec (UpdateRRecvState q) s)).
  assert (Hhigh : fst (UpdateRRecvState q s) = false -> is_Some (w_high w)).
  { intros Hf. destruct (w_high w) eqn:Hw; [done|].
    destruct (window_sound_none _ _ Hs Hw) as (Hr & _). unfold UpdateRRecvState in Hf. by rewrite Hr in Hf. }
  cbn [accepted jump_free]. unfold exec. destruct (UpdateRRecvState q s) as [[|] s']; simpl in *.
  - destruct (IH s' (w_accept q w) Hu Hs') as (w' & H1 & H2 & H3 & H4). exists w'. split_and!; [done|..].
    + intros q'. rewrite H2. simpl. set_solver.
    + intros _. apply H3. left. simpl. by eexists.
    + intros Hcomp (_ & Hj & Hrest). by apply H4; [apply Hc|].
  - subst s'. destruct (IH s w Hu Hs) as (w' & H1 & H2 & H3 & H4). exists w'. split_and!; [done..| |].
    + intros _. apply H3. left. by apply Hhigh.
    + intros Hcomp (_ & Hj & Hrest). by apply H4.
Qed.

(** C32. End to end: let any reliable packets arrive and take the ACK pair of the receiver.
    Its sequence number is the highest accepted.  A pending packet it releases was accepted
    and is at most 32 behind that number, so no packet is released without having been
    delivered; every other stays as it is.  And every accepted packet at most 32 behind is
    released, provided no packet arrived exactly 32 above the highest one before it. *)
Theorem ack_releases_delivered arrivals s :
  arrivals <> [] -> Forall is_u32 arrivals ->
  let '(a, bf) := GetAckState (receive_all arrivals rudp_init) in
  let s' := ProcessIncomingAck a bf s in
  a ∈ accepted arrivals rudp_init /\ (forall q, q ∈ accepted arrivals rudp_init -> q <= a) /\
  forall k p, _pendingReliable s !! k = Some p ->
    (_pendingReliable s' !! k = None \/ _pendingReliable s' !! k = Some p) /\
    (_pendingReliable s' !! k = None -> k ∈ accepted arrivals rudp_init /\ a - k <= 32) /\
    (jump_free arrivals rudp_init -> k ∈ accepted arrivals rudp_init -> a - k <= 32 ->
       _pendingReliable s' !! k = None).
Proof.
  intros Hne Hu. destruct window_init_rel as [Hs0 Hc0].
  destruct (arrivals_window arrivals _ _ Hu Hs0) as (w & Hs & Hseen & Hhigh & Hc).
  destruct (Hhigh (or_intror Hne)) as [h Hw]. specialize (Hc Hc0).
  assert (Hacc : forall q, q ∈ w_seen w <-> q ∈ accepted arrivals rudp_init).
  { intros q. rewrite Hseen. simpl. set_solver. }
  destruct (window_sound_high _ _ _ Hs Hw) as (_ & Hh & _ & Hin).
  pose proof (fun q Hq => proj2 (proj1 (proj2 (proj2 Hs)) q Hq)) as Hle.
  unfold GetAckState. rewrite Hh in *. set (r := receive_all arrivals rudp_init) in *.
  destruct (ProcessIncomingAck_exact h (_rRecvBitfield r) s) as (H1 & H2 & _).
  split; [by apply Hacc|]. split; [intros q Hq; by apply Hle, Hacc|]. intros k p Hp.
  assert (Hdec : acked h (_rRecvBitfield r) k \/ ~ acked h (_rRecvBitfield r) k).
  { rewrite acked_named. destruct (decide (k = h)); [tauto|].
    destruct (named_dec 32 0 h (_rRecvBitfield r) k); [lia|tauto..]. }
  split; [|split].
  - destruct Hdec as [Ha|Ha]; [left; by apply H1|right; by rewrite H2].
  - intros Hnone. rewrite <- Hacc. destruct Hdec as [Ha|Ha]; [exact (acked_seen _ _ _ _ Hs Hw Ha)|].
    by rewrite H2, Hp in Hnone.
  - intros Hj Hk Hd. apply H1. apply (seen_acked r w); [by split; [|apply Hc]|done|by apply Hacc|done].
Qed.

(** The exception is real: of two packets accepted, the second exactly 32 above the
    first, the ACK pair does not name the first, which stays pending. *)
Theorem jump_of_32_withholds_ack h s p :
  is_u32 h -> is_u32 (h + 32) -> _pendingReliable s !! h = Some p ->
  let '(a, bf) := GetAckState (receive_all [h; h + 32] (@rudp_init D)) in
  accepted [h; h + 32] (@rudp_init D) = [h; h + 32] /\ a - h = 32 /\
  _pendingReliable (ProcessIncomingAck a bf s) !! h = Some p.
Proof.
  intros Hu Hu' Hp. set (s1 := exec (UpdateRRecvState h) (@rudp_init D)).
  assert (Hnew : UpdateRRecvState (h + 32) s1 = (true, s1 <| _rRecvHighestSeq := h + 32 |> <| _rRecvBitfield := 0 |>)).
  { rewrite UpdateRRecvState_new by (subst s1; simpl; done || lia). subst s1. simpl.
    replace (h + 32 - h) with 32 by lia. done. }
  cbn [receive_all foldl accepted]. fold s1. change (UpdateRRecvState h rudp_init) with (true, s1).
  unfold exec. rewrite Hnew. simpl. split; [done|]. split; [lia|].
  rewrite (proj1 (proj2 (ProcessIncomingAck_exact _ _ _))); [done|].
  rewrite acked_named. intros [?|[]%named_0]; lia.
Qed.

(** *** Round-trip estimate and retransmission *)

(** C33. The RTT estimate stays between 20 ms and 2^29 ms under any echo and any
    clock, so the retransmission timeout is computed without overflow: it is 3/2
    of the estimate clamped to [50, 1000] ms. *)
Theorem rtt_bounds s echoTs nowMs :
  rtt_inv s ->
  let s' := UpdateRtt echoTs nowMs s in
  rtt_inv s' /\
  retransmit_timeout s' = Z.min (Z.max (_rttMs s' * 3 / 2) 50) 1000 /\
  50 <= retransmit_timeout s' <= 1000.
Proof.
  intros Hs s'. assert (Hinv : rtt_inv s').
  { unfold s', UpdateRtt, rtt_inv in *. change (2 ^ 29) with 536870912 in *.
    destruct (echoTs =? 0); [done|]. destruct (_ && _); [done|].
    cbn [setf _rttMs]. set (x := u32 (u32 (_rttMs s * 7) + _)).
    assert (is_u32 x) as Hx by apply u32_range.
    destruct (Z.ltb_spec (x / 8) 20); width. }
  unfold retransmit_timeout. split; [done|]. split; [|lia].
  rewrite u32_id; [done|]. unfold rtt_inv in Hinv. change (2 ^ 29) with 536870912 in Hinv. width.
Qed.

(** The retransmission candidates are the pending packets that have been in
    flight for at least the timeout, each of them and no other. *)
Theorem GetRetransmitCandidates_spec nowMs s p :
  p ∈ GetRetransmitCandidates nowMs s <->
  exists k, _pendingReliable s !! k = Some p /\ retransmit_timeout s <= u32 (nowMs - sentAtMs p).
Proof.
  unfold GetRetransmitCandidates. rewrite list_elem_of_In, filter_In, <- list_elem_of_In.
  rewrite list_elem_of_fmap. split.
  - intros [([k p'] & -> & Hin%elem_of_map_to_list) Ht%Z.leb_le]. by exists k.
  - intros (k & Hk & Ht). split; [|by apply Z.leb_le].
    exists (k, p). split; [done|]. by apply elem_of_map_to_list.
Qed.

(** A pooled pending packet is at least as large as what is copied into it. *)
Lemma pending_class_fits size : size <= pending_capacity (pending_class size) size.
Proof.
  unfold pending_class.
  destruct (Z.leb_spec size 256); [done|]. destruct (Z.leb_spec size 512); [done|].
  destruct (Z.leb_spec size 1024); done.
Qed.

Lemma send_reliable_fresh buf size dest nowMs s :
  pending_below s -> 0 <= _sendRSeq s < 2 ^ 32 - 1 ->
  send_reliable buf size dest nowMs s =
    (_sendRSeq s + 1,
     s <| _sendRSeq := _sendRSeq s + 1 |>
       <| _pendingReliable ::= <[ _sendRSeq s + 1 :=
            mk_pending (_sendRSeq s + 1) size dest nowMs (pending_class size) buf ]> |>).
Proof.
  intros Hb Hr. unfold send_reliable, NextSendRSeq, RegisterReliable.
  rewrite (u32_id (_sendRSeq s + 1)) by width. simpl.
  destruct (_pendingReliable s !! (_sendRSeq s + 1)) as [p|] eqn:E; [|done].
  apply Hb in E. lia.
Qed.

Lemma send_reliable_below buf size dest nowMs s :
  pending_below s -> 0 <= _sendRSeq s < 2 ^ 32 - 1 ->
  pending_below (exec (send_reliable buf size dest nowMs) s).
Proof.
  intros Hb Hr. unfold exec. rewrite send_reliable_fresh by done.
  intros k p. simpl. rewrite lookup_insert. case_decide.
  - intros [= <-]. simpl. lia.
  - intros Hk%Hb. lia.
Qed.

(** As long as the counter has not wrapped, a reliable send takes a fresh
    sequence number, so the packet is always entered into the pending table,
    in an array large enough for it, and no pending packet is displaced. *)
Theorem send_reliable_registers buf size dest nowMs s :
  pending_below s -> 0 <= _sendRSeq s < 2 ^ 32 - 1 ->
  let '(seq, s') := send_reliable buf size dest nowMs s in
  seq = _sendRSeq s + 1 /\ pending_below s' /\
  (exists p, _pendingReliable s' !! seq = Some p /\ pdata p = buf /\ sentAtMs p = nowMs /\
     size <= pending_capacity (pclass p) size) /\
  (forall k, k <> seq -> _pendingReliable s' !! k = _pendingReliable s !! k).
Proof.
  intros Hb Hr. pose proof (send_reliable_below buf size dest nowMs s Hb Hr) as Hb'.
  unfold exec in Hb'. rewrite send_reliable_fresh in * by done. split_and!; [done|done|..]; simpl.
  - eexists. split; [apply lookup_insert_eq|]. simpl. split_and!; [done..|]. apply pending_class_fits.
  - intros k Hk. by apply lookup_insert_ne.
Qed.

(** *** The unreliable channel *)

(** The serial filter of the unreliable channel accepts a packet exactly
    when it is ahead of the newest one by less than half the sequence space, and
    after accepting [q] it rejects [q] and the 2^15 packets up to it, across the
    wrap of the 16-bit counter. *)
Theorem UpdateURecvState_serial q s :
  is_u16 q -> is_u16 (_uRecvHighestSeq s) -> _hasURecv s = true ->
  (fst (UpdateURecvState q s) = true <-> 0 < u16 (q - _uRecvHighestSeq s) < 2 ^ 15) /\
  (fst (UpdateURecvState q s) = true ->
   forall d, 0 <= d <= 2 ^ 15 ->
     fst (UpdateURecvState (u16 (q - d)) (exec (UpdateURecvState q) s)) = false).
Proof.
  intros Hq Hu Hr. unfold UpdateURecvState, exec. rewrite Hr. simpl.
  destruct (Z.leb_spec (i16 (q - _uRecvHighestSeq s)) 0); simpl.
  - split; [|done]. split; [done|]. width.
  - split; [split; [width|done]|]. intros _ d Hd. rewrite Hr. simpl.
    destruct (Z.leb_spec (i16 (u16 (q - d) - q)) 0); [done|]. exfalso. width.
Qed.

End transport.

(** ** Witnesses *)

Lemma UpdateRRecvState_refines_witness :
  exists (s : Rudp unit) w, window_rel s w /\ window_rel (exec (UpdateRRecvState 7) s) (snd (spec_recv 7 w)).
Proof.
  exists (@rudp_init unit), window_empty. split; [exact window_init_rel|].
  exact (proj2 (UpdateRRecvState_refines 7 (@rudp_init unit) window_empty
                  ltac:(width) window_init_rel eq_refl)).
Defined.

Lemma accepted_no_duplicates_witness :
  accepted [1; 3; 2; 3; 2; 40; 9; 9] (@rudp_init unit) = [1; 3; 2; 40; 9] /\
  NoDup (accepted [1; 3; 2; 3; 2; 40; 9; 9] (@rudp_init unit)).
Proof.
  split; [reflexivity|].
  apply (accepted_no_duplicates [1; 3; 2; 3; 2; 40; 9; 9]).
  repeat (split; [width|split; [reflexivity|]]). exact I.
Defined.

Lemma jump_of_32_accepts_duplicate_witness :
  exists s : Rudp unit, fst (UpdateRRecvState 1 s) = false /\
            fst (UpdateRRecvState 1 (exec (UpdateRRecvState 33) s)) = true.
Proof.
  exists (exec (UpdateRRecvState 1) rudp_init).
  exact (jump_of_32_accepts_duplicate 1 (exec (UpdateRRecvState 1) rudp_init)
           ltac:(width) ltac:(width) eq_refl eq_refl).
Defined.

(** A session with two reliable packets in flight. *)
Definition two_pending : Rudp unit :=
  exec (send_reliable tt 40 (mk_sockaddr 0 0) 10) (exec (send_reliable tt 300 (mk_sockaddr 0 0) 5) (@rudp_init unit)).

(** The receiver has packets 2 and 1, in this order: both are released. *)
Lemma ack_releases_delivered_witness :
  let r := receive_all [2; 1] (@rudp_init unit) in
  GetAckState r = (2, 1) /\ is_Some (_pendingReliable two_pending !! 1) /\
  _pendingReliable (ProcessIncomingAck 2 1 two_pending) !! 1 = None /\
  2 ∈ accepted [2; 1] (@rudp_init unit).
Proof.
  intros r. split; [reflexivity|]. split; [by eexists|].
  pose proof (ack_releases_delivered [2; 1] two_pending ltac:(discriminate)
    ltac:(repeat (apply Forall_cons; split; [width|]); apply Forall_nil_2)) as H.
  fold r in H. change (GetAckState r) with (2, 1) in H. destruct H as (Hin & _ & H).
  split; [|exact Hin]. apply (proj2 (proj2 (H 1 _ eq_refl))); [|apply list_elem_of_In; simpl; tauto|lia].
  repeat (split; [width|split; [reflexivity|]]). exact I.
Defined.

Lemma jump_of_32_withholds_ack_witness :
  let '(a, bf) := GetAckState (receive_all [1; 33] (@rudp_init unit)) in
  (a, bf) = (33, 0) /\ is_Some (_pendingReliable (ProcessIncomingAck a bf two_pending) !! 1).
Proof.
  pose proof (jump_of_32_withholds_ack 1 two_pending _ ltac:(width) ltac:(width) eq_refl) as H.
  simpl in *. split; [reflexivity|]. eexists. exact (proj2 (proj2 H)).
Defined.

Lemma rtt_bounds_witness :
  rtt_inv (@rudp_init unit) /\ 50 <= retransmit_timeout (UpdateRtt 500 900 (@rudp_init unit)) <= 1000.
Proof.
  assert (H : rtt_inv (@rudp_init unit)) by (split; reflexivity || discriminate).
  split; [exact H|]. exact (proj2 (proj2 (rtt_bounds rudp_init 500 900 H))).
Defined.

Lemma send_reliable_registers_witness :
  pending_below two_pending /\
  fst (send_reliable tt 1100 (mk_sockaddr 0 0) 20 two_pending) = 3.
Proof.
  assert (H : pending_below two_pending).
  { apply send_reliable_below; [|zcompute]. apply send_reliable_below; [|zcompute].
    intros k p. simpl. by rewrite lookup_empty. }
  split; [exact H|].
  pose proof (send_reliable_registers tt 1100 (mk_sockaddr 0 0) 20 two_pending H ltac:(zcompute)) as Hs.
  exact (proj1 Hs).
Defined.

Lemma UpdateURecvState_serial_witness :
  let s := exec (UpdateURecvState 65535) (@rudp_init unit) in
  fst (UpdateURecvState 1 s) = true <-> 0 < u16 (1 - 65535) < 2 ^ 15.
Proof.
  exact (proj1 (UpdateURecvState_serial 1 (exec (UpdateURecvState 65535) (@rudp_init unit))
                  ltac:(width) ltac:(unfold exec; simpl; width) eq_refl)).
Defined.
