(* ===== verification/Geometry.v ===== *)
(** * Positions, rotations and the base game object

    Models src/src/DedicateProcess/UnityGameObjects/UnityGameObject.h and .cpp.  A
    C++ [float] is an IEEE 754 binary32 value ([spec_float] of the Standard
    Library with 24 bits of precision and maximal exponent 128); every operation
    of the source rounds once to that format.  The messages of
    External_Unity_Object.proto are the records the setters fill. *)

From S2P Require Import Prelude.
From Stdlib Require Import SpecFloat.
From stdpp Require Import strings.
Local Open Scope Z_scope.

(** ** Single precision *)

Definition f32 : Type := spec_float.
Definition f32_add : f32 -> f32 -> f32 := SFadd 24 128.
Definition f32_sub : f32 -> f32 -> f32 := SFsub 24 128.
Definition f32_mul : f32 -> f32 -> f32 := SFmul 24 128.
Definition f32_div : f32 -> f32 -> f32 := SFdiv 24 128.
Definition f32_sqrt : f32 -> f32 := SFsqrt 24 128.
Definition f32_of_Z (n : Z) : f32 := binary_normalize 24 128 n 0 false.
Definition f32_nan : f32 := S754_nan.

Declare Scope f32_scope.
Delimit Scope f32_scope with f32.
Bind Scope f32_scope with f32.
Infix "+" := f32_add : f32_scope.
Infix "-" := f32_sub : f32_scope.
Infix "*" := f32_mul : f32_scope.
Infix "/" := f32_div : f32_scope.
(** [a > b] is false as soon as an operand is NaN, and so is [a <= b]. *)
Notation "a <? b" := (SFltb a b) : f32_scope.
Notation "a >? b" := (SFltb b a) (at level 70) : f32_scope.
Notation "a <=? b" := (SFleb a b) : f32_scope.
Notation "a >=? b" := (SFleb b a) (at level 70) : f32_scope.

(** A literal of the source with [n] hundredths ([84.48f] is [f32_cents 8448]). *)
Definition f32_cents (n : Z) : f32 := f32_div (f32_of_Z n) (f32_of_Z 100).

(** [1.41421356f] and [0.70710678f]. *)
Definition SQRT2 : f32 := S754_finite false 11863283 (-23).
Definition SQRT1_2 : f32 := S754_finite false 11863283 (-24).

(** [std::max(a, b)] is [(a < b) ? b : a]; [std::clamp(v, lo, hi)]. *)
Definition f32_max (a b : f32) : f32 := if SFltb a b then b else a.
Definition f32_clamp (v lo hi : f32) : f32 :=
  if SFltb v lo then lo else if SFltb hi v then hi else v.

(** The nearest integer of [m * 2^e], halves away from zero. *)
Definition half_away (m e : Z) : Z :=
  if 0 <=? e then m * 2 ^ e else (m + 2 ^ (- e - 1)) / 2 ^ (- e).
(** [std::round]. *)
Definition f32_round (v : f32) : f32 :=
  match v with
  | S754_finite s m e =>
      binary_normalize 24 128 (let n := half_away (Zpos m) e in if s then - n else n) 0 s
  | _ => v
  end.

(** [static_cast<uint32_t>] truncates; out of the range of the type, or on NaN, the
    conversion is undefined ([None]). *)
Definition f32_to_u32 (v : f32) : option Z :=
  match v with
  | S754_zero _ => Some 0
  | S754_finite s m e =>
      let n := if 0 <=? e then Zpos m * 2 ^ e else Zpos m / 2 ^ (- e) in
      if s then if n =? 0 then Some 0 else None
      else if n <? 2 ^ 32 then Some n else None
  | _ => None
  end.

(** ** Vectors and quaternions *)

Record Vector3 := mk_vector3 { v_x : f32; v_y : f32; v_z : f32 }.
#[export] Instance eta_Vector3 : Eta Vector3 := fun r => mk_vector3 (v_x r) (v_y r) (v_z r).
Definition vector3_zero : Vector3 := mk_vector3 (f32_of_Z 0) (f32_of_Z 0) (f32_of_Z 0).

Record Quaternion := mk_quaternion { q_x : f32; q_y : f32; q_z : f32; q_w : f32 }.
#[export] Instance eta_Quaternion : Eta Quaternion :=
  fun r => mk_quaternion (q_x r) (q_y r) (q_z r) (q_w r).
Definition quaternion_default : Quaternion :=
  mk_quaternion (f32_of_Z 0) (f32_of_Z 0) (f32_of_Z 0) (f32_of_Z 1).

Definition HALF_RANGE : f32 := f32_div (f32_of_Z 1023) (f32_of_Z 2).  (* 511.5f *)

Definition PackFloat (val : f32) : option Z :=
  let mapped := ((val * SQRT2 + f32_of_Z 1) * HALF_RANGE)%f32 in
  f32_to_u32 (f32_clamp (f32_round mapped) (f32_of_Z 0) (f32_of_Z 1023)).

Definition UnpackFloat (val : Z) : f32 :=
  let mapped := (f32_of_Z val / HALF_RANGE - f32_of_Z 1)%f32 in
  (mapped * SQRT1_2)%f32.

(** The index of the component of the largest absolute value: the loop keeps the
    first of equals. *)
Fixpoint max_index (i maxIndex : nat) (maxValue : f32) (comp : list f32) : nat :=
  match comp with
  | [] => maxIndex
  | c :: comp' =>
      if (SFabs c >? maxValue)%f32 then max_index (S i) i (SFabs c) comp'
      else max_index (S i) maxIndex maxValue comp'
  end.

Definition quat_comps (q : Quaternion) : list f32 := [q_x q; q_y q; q_z q; q_w q].

(** [[2b maxIndex][10b][10b][10b]] *)
Definition pack_fields (maxIndex a b c : Z) : Z :=
  u32 (Z.lor (Z.lor (Z.lor (Z.shiftl maxIndex 30) (Z.shiftl a 20)) (Z.shiftl b 10)) c).

(** [Quaternion::Serialize]: the [compressed_quat] it sets. *)
Definition Quaternion_Serialize (q : Quaternion) : option Z :=
  let comp := quat_comps q in
  let maxIndex := max_index 1 0 (SFabs (q_x q)) (tail comp) in
  let largest := default f32_nan (comp !! maxIndex) in
  let sign := if (largest <? f32_of_Z 0)%f32 then f32_of_Z (-1) else f32_of_Z 1 in
  match map (fun c => f32_mul c sign) (delete maxIndex comp) with
  | [o0; o1; o2] =>
      a ← PackFloat o0; b ← PackFloat o1; c ← PackFloat o2;
      Some (pack_fields (Z.of_nat maxIndex) a b c)
  | _ => None
  end.

Definition quat_fields (c : Z) : nat * f32 * f32 * f32 :=
  (Z.to_nat (Z.land (Z.shiftr c 30) 3), UnpackFloat (Z.land (Z.shiftr c 20) 1023),
   UnpackFloat (Z.land (Z.shiftr c 10) 1023), UnpackFloat (Z.land c 1023)).

(** The component left out, from the three others. *)
Definition quat_largest (a b c : f32) : f32 :=
  f32_sqrt (f32_max (f32_of_Z 1 - (a * a + b * b + c * c)) (f32_of_Z 0))%f32.

(** [Quaternion::DeserializeFrom]. *)
Definition Quaternion_DeserializeFrom (compressed_quat : Z) : Quaternion :=
  let '(maxIndex, a, b, c) := quat_fields compressed_quat in
  let d := quat_largest a b c in
  match maxIndex with
  | 0%nat => mk_quaternion d a b c
  | 1%nat => mk_quaternion a d b c
  | 2%nat => mk_quaternion a b d c
  | _ => mk_quaternion a b c d
  end.

(** ** Objects *)

Inductive ObjectType :=
| OT_None | OT_Player | OT_TestItemBox | OT_PlayerLoot | OT_TenerifeBlueCar
| OT_TenerifeYellowCar | OT_TenerifeBrownCar | OT_TenerifeRedCar | OT_TenerifeBus | OT_Turret.
#[export] Instance ObjectType_eq_dec : EqDecision ObjectType.
Proof. solve_decision. Defined.

Definition ObjectType_code (t : ObjectType) : Z :=
  match t with
  | OT_None => 0 | OT_Player => 1 | OT_TestItemBox => 2 | OT_PlayerLoot => 3
  | OT_TenerifeBlueCar => 4 | OT_TenerifeYellowCar => 5 | OT_TenerifeBrownCar => 6
  | OT_TenerifeRedCar => 7 | OT_TenerifeBus => 8 | OT_Turret => 9
  end.

Definition ObjectTypeToName (t : ObjectType) : string :=
  match t with
  | OT_Player => "Player" | OT_TestItemBox => "TestItemBox" | OT_PlayerLoot => "PlayerLoot"
  | OT_TenerifeBlueCar => "TenerifeBlueCar" | OT_TenerifeYellowCar => "TenerifeYellowCar"
  | OT_TenerifeBrownCar => "TenerifeBrownCar" | OT_TenerifeRedCar => "TenerifeRedCar"
  | OT_TenerifeBus => "TenerifeBus" | OT_Turret => "Turret"
  | OT_None => "None"
  end.
Definition OBJECT_NAME_UNRESOLVED : string := "".

Record UnityGameObject := mk_object {
  objectId : Z; objectType : ObjectType; state : Z;
  position : Vector3; IsYFixed : bool; quaternion : Quaternion; yawAngle : f32 }.
#[export] Instance eta_UnityGameObject : Eta UnityGameObject := fun r =>
  mk_object (objectId r) (objectType r) (state r) (position r) (IsYFixed r) (quaternion r) (yawAngle r).

Definition new_UnityGameObject (objectId : Z) (objectType : ObjectType) (isYFixed : bool)
    (position : Vector3) : UnityGameObject :=
  mk_object objectId objectType 0 position isYFixed quaternion_default (f32_of_Z 0).

(** The messages of the protocol; the oneof [rotation] is a sum. *)
Inductive Rotation := RotationNone | CompressedQuat (c : Z) | YawAngle (a : f32).
Record TransformInfo := mk_transform { t_position : option Vector3; t_rotation : Rotation }.
Record UnityGameObjectMsg := mk_object_msg {
  mo_object_id : Z; mo_object_type : Z; mo_transform : TransformInfo }.
Record GameObjectMovementInfo := mk_movement {
  mi_object_id : Z; mi_transform : TransformInfo; mi_state : Z }.

(** The transform both serialisers fill.  The undefined conversion of a NaN
    component ([None]) leaves the rotation unset in the model. *)
Definition FillTransform (o : UnityGameObject) : TransformInfo :=
  mk_transform (Some (position o))
    (if IsYFixed o then YawAngle (yawAngle o)
     else match Quaternion_Serialize (quaternion o) with
          | Some c => CompressedQuat c | None => RotationNone end).

(** [UnityGameObject::Serialize]. *)
Definition Serialize (o : UnityGameObject) : UnityGameObjectMsg :=
  mk_object_msg (objectId o) (ObjectType_code (objectType o)) (FillTransform o).

(** The part of [ApplyState] and [ApplyMovementInfo] that applies a transform. *)
Definition ApplyTransform (t : TransformInfo) (o : UnityGameObject) : UnityGameObject :=
  let o1 := match t_position t with Some p => o <| position := p |> | None => o end in
  match t_rotation t with
  | CompressedQuat c => o1 <| quaternion := Quaternion_DeserializeFrom c |>
  | YawAngle a => o1 <| yawAngle := a |>
  | RotationNone => o1
  end.

(** ** Lemmas *)

(** The decimal literals are the floats nearest to the decimals written in the source. *)
Lemma SQRT2_nearest : 2 * Z.abs (11863283 * 10 ^ 8 - 141421356 * 2 ^ 23) <= 10 ^ 8.
Proof. by vm_compute. Qed.
Lemma SQRT1_2_nearest : 2 * Z.abs (11863283 * 10 ^ 8 - 70710678 * 2 ^ 24) <= 10 ^ 8.
Proof. by vm_compute. Qed.

(** All the values of a field of [bits] bits. *)
Definition field_values (bits : nat) : list Z := map Z.of_nat (seq 0 (2 ^ bits)).

Lemma elem_of_field_values bits v : 0 <= v < 2 ^ Z.of_nat bits -> v ∈ field_values bits.
Proof.
  intros Hv. apply list_elem_of_In, in_map_iff. exists (Z.to_nat v). split; [lia|].
  apply in_seq. rewrite <- (Nat2Z.id (2 ^ bits)), Nat2Z.inj_pow. change (Z.of_nat 2) with 2. lia.
Qed.

Definition field_roundtrips (v : Z) : bool :=
  bool_decide (PackFloat (f32_mul (UnpackFloat v) (f32_of_Z 1)) = Some v).

Lemma all_fields_roundtrip : forallb field_roundtrips (field_values 10) = true.
Proof. by vm_compute. Qed.

Lemma field_roundtrip v :
  0 <= v < 1024 -> PackFloat (f32_mul (UnpackFloat v) (f32_of_Z 1)) = Some v.
Proof.
  intros Hv. pose proof all_fields_roundtrip as H. rewrite forallb_forall in H.
  specialize (H v). rewrite <- list_elem_of_In in H.
  unfold field_roundtrips in H. rewrite bool_decide_eq_true in H.
  apply H, elem_of_field_values. exact Hv.
Qed.

(** The bits of a field and of a field put in place. *)
Lemma field_bit (c s n : Z) (w : Z) :
  0 <= s -> 0 <= w -> 0 <= n ->
  Z.testbit (Z.shiftl (Z.land (Z.shiftr c s) (Z.ones w)) s) n =
  ((s <=? n) && (n <? s + w)) && Z.testbit c n.
Proof.
  intros Hs Hw Hn. rewrite Z.shiftl_spec by lia.
  destruct (Z.leb_spec s n); [|by rewrite Z.testbit_neg_r by lia].
  rewrite Z.land_spec, Z.shiftr_spec, Z.testbit_ones_nonneg by lia.
  replace (n - s + s) with n by lia. rewrite andb_comm.
  destruct (Z.ltb_spec (n - s) w), (Z.ltb_spec n (s + w)); simpl; lia || done.
Qed.

Lemma is_u32_high_bits c n : is_u32 c -> 32 <= n -> Z.testbit c n = false.
Proof.
  intros [H0 H1] Hn. destruct (Z.eq_dec c 0) as [->|Hc]; [apply Z.bits_0|].
  apply Z.bits_above_log2; [done|]. apply Z.log2_lt_pow2; [lia|].
  eapply Z.lt_le_trans; [exact H1|]. apply Z.pow_le_mono_r; lia.
Qed.

(** Splitting a word in its fields and packing them again. *)
Lemma pack_fields_split c :
  is_u32 c ->
  pack_fields (Z.land (Z.shiftr c 30) 3) (Z.land (Z.shiftr c 20) 1023)
    (Z.land (Z.shiftr c 10) 1023) (Z.land c 1023) = c.
Proof.
  intros Hc. apply Z.bits_inj'. intros n Hn. unfold pack_fields, u32.
  change 3 with (Z.ones 2). change 1023 with (Z.ones 10).
  destruct (Z.ltb_spec n 32).
  2:{ rewrite Z.mod_pow2_bits_high, is_u32_high_bits by (lia || done). done. }
  rewrite Z.mod_pow2_bits_low, !Z.lor_spec, !field_bit by lia.
  pose proof (field_bit c 0 n 10) as H0. rewrite Z.shiftr_0_r, Z.shiftl_0_r in H0.
  rewrite H0 by lia.
  destruct (Z.testbit c n); [|by rewrite !andb_false_r]. rewrite !andb_true_r.
  destruct (Z.leb_spec 30 n), (Z.leb_spec 20 n), (Z.leb_spec 10 n), (Z.leb_spec 0 n),
    (Z.ltb_spec n (30 + 2)), (Z.ltb_spec n (20 + 10)), (Z.ltb_spec n (10 + 10)), (Z.ltb_spec n (0 + 10));
    simpl; lia || done.
Qed.

(** A float that is not below zero (NaN included). *)
Definition not_negative (f : f32) : Prop :=
  match f with S754_infinity true | S754_finite true _ _ => False | _ => True end.

Lemma quat_largest_not_negative a b c : not_negative (quat_largest a b c).
Proof.
  unfold quat_largest, f32_sqrt, SFsqrt. destruct (f32_max _ _) as [|[]| |[] m e]; simpl; try done.
  destruct (SFsqrt_core_binary 24 128 (Z.pos m) e) as [[mz ez] lz]. unfold binary_round_aux.
  destruct (shr_fexp 24 128 mz ez lz) as [r1 e1]. destruct (shr_fexp _ _ _ _ _) as [r2 e2].
  destruct (shr_m r2); [done| |done]. by destruct (_ <=? _).
Qed.

Lemma not_negative_abs f x : not_negative f -> SFltb x (SFabs f) = SFltb x f.
Proof. unfold SFltb. by destruct f as [| [] | |[]], x as [| [] | |[]]. Qed.
Lemma not_negative_abs_l f x : not_negative f -> SFltb (SFabs f) x = SFltb f x.
Proof. unfold SFltb. by destruct f as [| [] | |[]], x as [| [] | |[]]. Qed.
Lemma not_negative_sign f : not_negative f -> SFltb f (f32_of_Z 0) = false.
Proof. by destruct f as [| [] | |[]]. Qed.

Lemma SFltb_asym x y : SFltb x y = true -> SFltb y x = false.
Proof.
  unfold SFltb. destruct x as [[]|[]| |[] m1 e1], y as [[]|[]| |[] m2 e2]; simpl; try done.
  all: rewrite (Z.compare_antisym e1 e2); change (PosDef.Pos.compare_cont Eq) with Pos.compare.
  all: rewrite (Pos.compare_antisym m1 m2).
  all: destruct (e1 ?= e2)%Z; simpl; try done; by destruct (m1 ?= m2)%positive.
Qed.

(** The component left out dominates the three others. *)
Definition dominates (d : f32) (l : list f32) : Prop := Forall (fun o => SFltb (SFabs o) d = true) l.

Lemma max_index_largest a b c d :
  not_negative d -> dominates d [a; b; c] ->
  (max_index 1 0 (SFabs d) [a; b; c] = 0 /\ max_index 1 0 (SFabs a) [d; b; c] = 1 /\
   max_index 1 0 (SFabs a) [b; d; c] = 2 /\ max_index 1 0 (SFabs a) [b; c; d] = 3)%nat.
Proof.
  unfold dominates. rewrite !Forall_cons. intros Hd (Ha & Hb & Hc & _). cbn [max_index].
  rewrite !(not_negative_abs_l d), !(not_negative_abs d), Ha, Hb, Hc by done.
  rewrite (SFltb_asym _ _ Ha), (SFltb_asym _ _ Hb), (SFltb_asym _ _ Hc). split_and!; try done.
  - by destruct (SFltb (SFabs a) (SFabs b)); rewrite ?Ha, ?Hb, ?(SFltb_asym _ _ Hc).
  - destruct (SFltb (SFabs a) (SFabs b)).
    + destruct (SFltb (SFabs b) (SFabs c)); by rewrite ?Hb, ?Hc.
    + destruct (SFltb (SFabs a) (SFabs c)); by rewrite ?Ha, ?Hc.
Qed.

Lemma quat_index c : is_u32 c -> (Z.to_nat (Z.land (Z.shiftr c 30) 3) < 4)%nat.
Proof.
  intros Hc. change 3 with (Z.ones 2). rewrite Z.land_ones by lia.
  pose proof (Z.mod_pos_bound (Z.shiftr c 30) (2 ^ 2)). lia.
Qed.

Lemma land_1023_range z : 0 <= Z.land z 1023 < 1024.
Proof. change 1023 with (Z.ones 10). rewrite Z.land_ones by lia. apply Z.mod_pos_bound. lia. Qed.

(** Packing the three smaller components of a word that was unpacked. *)
Lemma pack_unpacked c (maxIndex : nat) :
  is_u32 c -> maxIndex = Z.to_nat (Z.land (Z.shiftr c 30) 3) ->
  let '(_, x, y, z) := quat_fields c in
  (a ← PackFloat (f32_mul x (f32_of_Z 1)); b ← PackFloat (f32_mul y (f32_of_Z 1));
   e ← PackFloat (f32_mul z (f32_of_Z 1)); Some (pack_fields (Z.of_nat maxIndex) a b e)) = Some c.
Proof.
  intros Hc ->. unfold quat_fields. rewrite !field_roundtrip by apply land_1023_range. simpl.
  f_equal. rewrite Z2Nat.id; [by apply pack_fields_split|]. apply Z.land_nonneg. by right.
Qed.

(** ** Theorems *)

(** C40. The compression of a rotation loses nothing that was transmitted: if the
    component left out of a received word [c], recomputed by [DeserializeFrom], is
    the largest, then [Serialize] sends [c] again. *)
Theorem quaternion_roundtrip c :
  is_u32 c ->
  (let '(_, x, y, z) := quat_fields c in dominates (quat_largest x y z) [x; y; z]) ->
  Quaternion_Serialize (Quaternion_DeserializeFrom c) = Some c.
Proof.
  intros Hc Hdom. pose proof (quat_index c Hc) as Hi.
  unfold Quaternion_DeserializeFrom. pose proof (pack_unpacked c _ Hc eq_refl) as Hp.
  unfold quat_fields in *. set (i := Z.to_nat _) in *.
  set (x := UnpackFloat _) in *. set (y := UnpackFloat (Z.land (Z.shiftr c 10) _)) in *.
  set (z := UnpackFloat (Z.land c _)) in *. set (d := quat_largest x y z) in *.
  assert (Hd : not_negative d) by apply quat_largest_not_negative.
  destruct (max_index_largest x y z d Hd Hdom) as (H0 & H1 & H2 & H3).
  clearbody i x y z d. unfold Quaternion_Serialize, quat_comps.
  destruct i as [|[|[|[|i]]]]; [..|lia]; cbn [q_x q_y q_z q_w tail];
    [rewrite H0|rewrite H1|rewrite H2|rewrite H3]; cbn [lookup list_lookup default id];
    rewrite not_negative_sign by done; exact Hp.
Qed.

(** ** Witnesses *)

Definition near_identity : Z := pack_fields 3 512 500 700.

Lemma quaternion_roundtrip_witness :
  near_identity = 3758609084 /\
  Quaternion_Serialize (Quaternion_DeserializeFrom near_identity) = Some near_identity.
Proof.
  split; [vm_compute; reflexivity|]. apply (quaternion_roundtrip near_identity).
  - zcompute.
  - repeat (apply Forall_cons; split; [vm_compute; reflexivity|]). apply Forall_nil_2.
Defined.
