(* ===== verification/MapData.v ===== *)
(** * The map tables

    Models src/src/DedicateProcess/MapDataManager.h: recall zones, the fixed
    container and hostile object placements, the loot pools.  Coordinates are the
    decimals of the source, in hundredths. *)

From S2P Require Import Prelude Items Geometry.
From Stdlib Require Import SpecFloat.
Local Open Scope Z_scope.

Record RecallZone := mk_zone {
  centerX : f32; centerZ : f32; radiusSq : f32; minY : f32; maxY : f32 }.

Definition Contains (z : RecallZone) (p : Vector3) : bool :=
  let dx := (v_x p - centerX z)%f32 in
  let dz := (v_z p - centerZ z)%f32 in
  if (dx * dx + dz * dz >? radiusSq z)%f32 then false
  else (v_y p >=? minY z)%f32 && (v_y p <=? maxY z)%f32.

Record MapSpawn := mk_spawn { sp_type : ObjectType; sp_position : Vector3; sp_yawAngle : f32 }.
Record MapLootEquipQuota := mk_quota { quota_blueprintId : Z; quota_containerCount : Z }.

Definition MAP_ID_TUTORIAL : Z := 0.
Definition MAP_ID_TENERIFE : Z := 1.

Definition TENERIFE_BASE_AMMO_MIN : Z := 8.
Definition TENERIFE_BASE_AMMO_MAX : Z := 16.
Definition TENERIFE_EXTRA_AMMO_CONTAINERS : Z := 20.
Definition TENERIFE_EXTRA_AMMO_MIN : Z := 10.
Definition TENERIFE_EXTRA_AMMO_MAX : Z := 20.

Definition cents3 (x y z : Z) : Vector3 := mk_vector3 (f32_cents x) (f32_cents y) (f32_cents z).
Definition zone (x z r lo hi : Z) : RecallZone :=
  mk_zone (f32_cents x) (f32_cents z) (f32_cents r * f32_cents r)%f32 (f32_cents lo) (f32_cents hi).
Definition spawn (t : ObjectType) (x y z yaw : Z) : MapSpawn :=
  mk_spawn t (cents3 x y z) (f32_cents yaw).

Definition _tutorialRecallZones : list RecallZone := [zone 1000 1000 550 (-500) 500].

Definition _tenerifeRecallZones : list RecallZone :=
  [zone 0 7000 800 (-200) 500; zone 17452 (-4803) 800 (-200) 500; zone 16500 5878 800 (-200) 500].

Definition _tenerifeContainerSpawns : list MapSpawn :=
  [spawn OT_TenerifeBlueCar (-8448) 1 (-7048) (-9000);
   spawn OT_TenerifeBlueCar (-13560) 1 (-7345) 9000;
   spawn OT_TenerifeBlueCar (-10050) 1 (-7345) 9000;
   spawn OT_TenerifeBlueCar 4181 1 (-7353) 9000;
   spawn OT_TenerifeBlueCar (-9311) 13 (-8762) 0;
   spawn OT_TenerifeBlueCar 3731 1 (-7977) 0;
   spawn OT_TenerifeBlueCar 6403 1 (-6265) 9000;
   spawn OT_TenerifeBlueCar 8774 1 (-2667) 9000;
   spawn OT_TenerifeBlueCar 4386 1 (-137) 9000;
   spawn OT_TenerifeBlueCar (-1571) 1 162 (-9000);
   spawn OT_TenerifeBlueCar (-2842) 1 (-145) 9000;
   spawn OT_TenerifeBlueCar 2997 1 (-3441) (-9000);
   spawn OT_TenerifeBlueCar 13717 1 (-7057) (-9000);
   spawn OT_TenerifeBlueCar (-7051) 1 (-5671) 0;
   spawn OT_TenerifeBlueCar (-15188) 1 (-6268) (-9000);
   spawn OT_TenerifeBlueCar (-7053) 1 (-893) 0;
   spawn OT_TenerifeBlueCar (-10223) 1 153 (-9000);
   spawn OT_TenerifeYellowCar 2441 1 (-8789) 0;
   spawn OT_TenerifeYellowCar 6403 1 (-4749) (-9000);
   spawn OT_TenerifeYellowCar 10243 1 (-3750) 9000;
   spawn OT_TenerifeYellowCar (-10207) 13 (-7984) 9000;
   spawn OT_TenerifeYellowCar 14550 1 (-6193) 0;
   spawn OT_TenerifeYellowCar (-5385) 13 (-7346) 9000;
   spawn OT_TenerifeYellowCar 5645 1 (-4963) 9000;
   spawn OT_TenerifeYellowCar 14261 1 (-2204) 18000;
   spawn OT_TenerifeYellowCar 5785 1 169 (-9000);
   spawn OT_TenerifeYellowCar 3012 1 166 (-9000);
   spawn OT_TenerifeYellowCar 2344 1 (-139) 9000;
   spawn OT_TenerifeYellowCar (-5181) 1 163 (-9000);
   spawn OT_TenerifeYellowCar (-14539) 1 (-884) 18000;
   spawn OT_TenerifeYellowCar (-797) 1 (-3758) 9000;
   spawn OT_TenerifeYellowCar 8759 1 (-7034) (-9000);
   spawn OT_TenerifeYellowCar (-7333) 1 (-2677) 18000;
   spawn OT_TenerifeBrownCar (-8629) 13 (-7987) 0;
   spawn OT_TenerifeBrownCar 12798 1 155 (-9000);
   spawn OT_TenerifeBrownCar 2655 1 (-8000) 0;
   spawn OT_TenerifeBrownCar 13402 1 (-3733) 9000;
   spawn OT_TenerifeBrownCar (-14243) 1 (-4845) 0;
   spawn OT_TenerifeBrownCar (-14263) 1 (-2410) 0;
   spawn OT_TenerifeBrownCar (-3059) 1 (-3447) (-9000);
   spawn OT_TenerifeBrownCar 1375 1 (-3753) 9000;
   spawn OT_TenerifeBrownCar (-12333) 1 (-7050) (-9000);
   spawn OT_TenerifeBrownCar (-5703) 1 (-3738) 9000;
   spawn OT_TenerifeBrownCar 7972 1 (-2458) 9000;
   spawn OT_TenerifeBrownCar (-13475) 1 (-136) 9000;
   spawn OT_TenerifeRedCar (-13139) 1 (-3748) 9000;
   spawn OT_TenerifeRedCar 8771 1 (-1570) (-9000);
   spawn OT_TenerifeRedCar 140 1 (-4676) 0;
   spawn OT_TenerifeRedCar 6077 0 (-3742) 9000;
   spawn OT_TenerifeRedCar (-2919) 1 (-7047) (-9000);
   spawn OT_TenerifeRedCar 11978 1 (-132) 9000;
   spawn OT_TenerifeRedCar 5662 1 (-5828) 9000;
   spawn OT_TenerifeRedCar 12416 1 (-3448) (-9000);
   spawn OT_TenerifeRedCar 6142 (-3) (-131) 9000;
   spawn OT_TenerifeRedCar (-8725) 1 (-131) 9000;
   spawn OT_TenerifeRedCar 9894 1 (-120) 9000;
   spawn OT_TenerifeRedCar 10499 1 (-7347) 9000;
   spawn OT_TenerifeRedCar 8761 1 (-2238) (-9000);
   spawn OT_TenerifeRedCar 7074 1 (-825) 18000;
   spawn OT_TenerifeBus (-1069) 1 (-7342) 9000;
   spawn OT_TenerifeBus 5732 1 (-5510) 9000;
   spawn OT_TenerifeBus 14553 1 (-901) 0;
   spawn OT_TenerifeBus 915 1 152 9000;
   spawn OT_TenerifeBus (-9621) 1 (-3437) 9000].

Definition _tenerifeNpcSpawns : list MapSpawn :=
  [spawn OT_Turret (-7200) 0 (-3600) 0;
   spawn OT_Turret 0 0 0 0;
   spawn OT_Turret (-14400) 0 0 0;
   spawn OT_Turret 14400 0 (-3600) 0].

Definition _tenerifeAmmoPool : list Z := [5; 6].
Definition _tenerifeEquipQuotas : list MapLootEquipQuota :=
  [mk_quota 1 4; mk_quota 2 4; mk_quota 3 8; mk_quota 4 4].

(** The lookups: [nullptr] with a count of 0 for an unknown map. *)
Definition GetRecallZones (mapId : Z) : option (list RecallZone) :=
  if mapId =? MAP_ID_TUTORIAL then Some _tutorialRecallZones
  else if mapId =? MAP_ID_TENERIFE then Some _tenerifeRecallZones else None.
Definition GetContainerSpawns (mapId : Z) : option (list MapSpawn) :=
  if mapId =? MAP_ID_TENERIFE then Some _tenerifeContainerSpawns else None.
Definition GetHostileNpcSpawns (mapId : Z) : option (list MapSpawn) :=
  if mapId =? MAP_ID_TENERIFE then Some _tenerifeNpcSpawns else None.
Definition GetLootAmmoPool (mapId : Z) : option (list Z) :=
  if mapId =? MAP_ID_TENERIFE then Some _tenerifeAmmoPool else None.
Definition GetLootEquipQuotas (mapId : Z) : option (list MapLootEquipQuota) :=
  if mapId =? MAP_ID_TENERIFE then Some _tenerifeEquipQuotas else None.

(** ** Theorems *)

(** A position whose x coordinate is NaN is inside every zone of its height: the
    test of the source is "outside if farther than the radius", false on NaN. *)
Theorem Contains_nan_x z y zc :
  Contains z (mk_vector3 f32_nan y zc) = (minY z <=? y)%f32 && (y <=? maxY z)%f32.
Proof.
  unfold Contains. cbn [v_x v_y v_z].
  assert ((f32_nan - centerX z)%f32 = f32_nan) as -> by by destruct (centerX z).
  change (f32_nan * f32_nan)%f32 with f32_nan.
  set (dz := (zc - centerZ z)%f32). by destruct (dz * dz)%f32, (radiusSq z).
Qed.
