(* ===== verification/Combat.v ===== *)
(** * Combat objects, players and hostile objects

    Models src/src/DedicateProcess/UnityGameObjects/CombatObject.h, PlayerObject.h
    and .cpp, HostileNPC.h and HostileNPCs.h.  Inheritance is a field holding the
    base object.  Signed [int32_t] arithmetic, undefined on overflow in C++, is
    integer arithmetic here; [RegenShield_no_overflow] and the invariant
    [combat_ok] bound every intermediate value of the shield and damage code. *)

From S2P Require Import Prelude Items Geometry MapData.
From stdpp Require Import strings.
Local Open Scope Z_scope.

Definition NO_ATTACKER : Z := 4294967295.   (* 0xFFFFFFFF *)

Record CombatObject := mk_combat {
  c_object : UnityGameObject;
  _maxHp : Z; _currentHp : Z; _deathPending : bool; _lastAttackerId : Z;
  _maxShield : Z; _currentShield : Z; _damageReductionRate : Z;
  _shieldRegenPerSec : Z; _shieldRegenAccum : Z }.
#[export] Instance eta_CombatObject : Eta CombatObject := fun r =>
  mk_combat (c_object r) (_maxHp r) (_currentHp r) (_deathPending r) (_lastAttackerId r)
    (_maxShield r) (_currentShield r) (_damageReductionRate r)
    (_shieldRegenPerSec r) (_shieldRegenAccum r).

Definition new_CombatObject (objectId : Z) (objectType : ObjectType) (isYFixed : bool)
    (position : Vector3) (maxHp : Z) : CombatObject :=
  mk_combat (new_UnityGameObject objectId objectType isYFixed position)
    maxHp maxHp false NO_ATTACKER 0 0 0 0 0.

Definition IsAlive (c : CombatObject) : bool := 0 <? _currentHp c.

Definition SetShield (maxShield damageReductionRate regenPerSec : Z) (c : CombatObject) : CombatObject :=
  c <| _maxShield := maxShield |> <| _currentShield := 0 |>
    <| _damageReductionRate := damageReductionRate |>
    <| _shieldRegenPerSec := regenPerSec |> <| _shieldRegenAccum := 0 |>.

Definition ChargeShield (amount : Z) (c : CombatObject) : CombatObject :=
  let c1 := c <| _currentShield ::= fun s => s + amount |> in
  if _maxShield c1 <? _currentShield c1 then c1 <| _currentShield := _maxShield c1 |> else c1.

(** The accumulator counts shield times milliseconds; [/] truncates. *)
Definition RegenShield (elapsedMs : Z) (c : CombatObject) : CombatObject :=
  if (_shieldRegenPerSec c <=? 0) || (_maxShield c <=? _currentShield c) || negb (IsAlive c) then
    c <| _shieldRegenAccum := 0 |>
  else
    let c1 := c <| _shieldRegenAccum ::= fun a => a + _shieldRegenPerSec c * elapsedMs |> in
    let gain := Z.quot (_shieldRegenAccum c1) 1000 in
    if gain <=? 0 then c1
    else ChargeShield gain (c1 <| _shieldRegenAccum ::= fun a => a - gain * 1000 |>).

(** [OnDeath] and [OnDamageApplied]; no class of the program overrides them. *)
Definition OnDeath (c : CombatObject) : CombatObject := c <| _deathPending := true |>.
Definition OnDamageApplied (c : CombatObject) : CombatObject := c.

Definition TakeDamage (damage attackerObjectId : Z) (c : CombatObject) : CombatObject :=
  let c1 := c <| _lastAttackerId := attackerObjectId |>
              <| _currentShield ::= fun s => s - damage |> in
  let c2 :=
    if _currentShield c1 <=? 0 then
      let hpDamage := - _currentShield c1 in
      c1 <| _currentShield := 0 |> <| _currentHp ::= fun h => h - hpDamage |>
    else
      let reduced := Z.quot (damage * (10000 - _damageReductionRate c1)) 10000 in
      c1 <| _currentHp ::= fun h => h - reduced |> in
  if _currentHp c2 <=? 0 then OnDeath (c2 <| _currentHp := 0 |>) else OnDamageApplied c2.

(** ** Players *)

Definition DEFAULT_MAX_HP : Z := 20000.

Record PlayerObject := mk_player_object {
  p_combat : CombatObject; _characterType : Z; _objectName : string;
  pitch : f32; velocity : Vector3; actionState : Z;
  _primaryWeaponId : Z; _secondaryWeaponId : Z; _isUsingPrimary : bool }.
#[export] Instance eta_PlayerObject : Eta PlayerObject := fun r =>
  mk_player_object (p_combat r) (_characterType r) (_objectName r) (pitch r) (velocity r)
    (actionState r) (_primaryWeaponId r) (_secondaryWeaponId r) (_isUsingPrimary r).

Definition p_object (p : PlayerObject) : UnityGameObject := c_object (p_combat p).

Definition new_PlayerObject (objectId : Z) (position : Vector3) (characterType : Z)
    (objectName : string) : PlayerObject :=
  mk_player_object (new_CombatObject objectId OT_Player true position DEFAULT_MAX_HP)
    characterType objectName (f32_of_Z 0) vector3_zero 0 0 0 true.

(** The message [PlayerState]. *)
Record PlayerState := mk_player_state {
  ps_movement_info : option GameObjectMovementInfo; ps_pitch : f32;
  ps_velocity : option Vector3; ps_action_state : Z }.

Definition ApplyState (st : PlayerState) (p : PlayerObject) : PlayerObject :=
  match ps_movement_info st with
  | None => p
  | Some info =>
      p <| p_combat ::= fun c => c <| c_object ::= fun o =>
             (ApplyTransform (mi_transform info) o) <| state := u16 (mi_state info) |> |> |>
        <| pitch := ps_pitch st |>
        <| velocity := default vector3_zero (ps_velocity st) |>
        <| actionState := ps_action_state st |>
  end.

Definition FillState (p : PlayerObject) : PlayerState :=
  mk_player_state
    (Some (mk_movement (objectId (p_object p)) (FillTransform (p_object p)) (state (p_object p))))
    (pitch p) (Some (velocity p)) (actionState p).

Definition SetWeapons (primaryId secondaryId : Z) (p : PlayerObject) : PlayerObject :=
  let p1 := p <| _primaryWeaponId := primaryId |> <| _secondaryWeaponId := secondaryId |> in
  if _isUsingPrimary p && (primaryId =? 0) then p1 <| _isUsingPrimary := secondaryId =? 0 |>
  else if negb (_isUsingPrimary p) && (secondaryId =? 0) then p1 <| _isUsingPrimary := true |>
  else p1.

Definition GetCurrentWeaponId (p : PlayerObject) : Z :=
  if _isUsingPrimary p then _primaryWeaponId p else _secondaryWeaponId p.

Definition SetUsingPrimary (isPrimary : bool) (p : PlayerObject) : PlayerObject :=
  p <| _isUsingPrimary := isPrimary |>.

Definition SetArmor (armorId : Z) (p : PlayerObject) : PlayerObject :=
  p <| p_combat ::=
    match GetArmorSpec armorId with
    | Some spec => SetShield (maxShieldPoint spec) (DamageReductionRate spec) (regenerationPerSecond spec)
    | None => SetShield 0 0 0
    end |>.

(** ** Hostile objects *)

Definition NO_TARGET : Z := -1.
Definition DEFAULT_MIN_AGGRO : Z := 1.
Definition DEFAULT_MAX_AGGRO : Z := 8.
Definition NO_AUTHORITY_ID : Z := 4294967295.   (* 0xFFFFFFFF *)

Record HostileNPC := mk_npc {
  n_combat : CombatObject; _minAggro : Z; _maxAggro : Z; _attackDamage : Z;
  _aggro : Z; _targetId : Z }.
#[export] Instance eta_HostileNPC : Eta HostileNPC := fun r =>
  mk_npc (n_combat r) (_minAggro r) (_maxAggro r) (_attackDamage r) (_aggro r) (_targetId r).

Definition new_HostileNPC (objectId : Z) (objectType : ObjectType) (isYFixed : bool)
    (position : Vector3) (maxHp attackDamage minAggro maxAggro : Z) : HostileNPC :=
  mk_npc (new_CombatObject objectId objectType isYFixed position maxHp)
    minAggro maxAggro attackDamage minAggro NO_TARGET.

Definition Turret_DEFAULT_MAX_HP : Z := 30000.
Definition ATTACK_DAMAGE : Z := 1200.

Definition new_Turret (objectId : Z) (position : Vector3) (yaw : f32) : HostileNPC :=
  let n := new_HostileNPC objectId OT_Turret true position Turret_DEFAULT_MAX_HP ATTACK_DAMAGE
             DEFAULT_MIN_AGGRO DEFAULT_MAX_AGGRO in
  n <| n_combat ::= fun c => c <| c_object ::= fun o => o <| yawAngle := yaw |> |> |>.

Definition IsServerDriven (n : HostileNPC) : bool := _targetId n =? NO_TARGET.
Definition IsAuthority (playerObjectId : Z) (n : HostileNPC) : bool :=
  negb (playerObjectId =? NO_TARGET) && (playerObjectId =? _targetId n).

Inductive RequestResult := REJECTED | AGGRO_CHANGED | AUTHORITY_CHANGED.

Definition clamp (v lo hi : Z) : Z := if v <? lo then lo else if hi <? v then hi else v.

Definition SetAggroInternal (aggro targetId : Z) (n : HostileNPC) : HostileNPC :=
  let aggro := clamp aggro (_minAggro n) (_maxAggro n) in
  if (aggro =? _minAggro n) || (targetId =? NO_TARGET) then
    n <| _aggro := _minAggro n |> <| _targetId := NO_TARGET |>
  else n <| _aggro := aggro |> <| _targetId := targetId |>.

Definition ApplyAccepted (aggro requesterObjectId : Z) : ST HostileNPC RequestResult := fun n =>
  let n' := SetAggroInternal aggro requesterObjectId n in
  (if _targetId n' =? _targetId n then AGGRO_CHANGED else AUTHORITY_CHANGED, n').

Definition ApplyAggroRequest (requesterObjectId aggro : Z) : ST HostileNPC RequestResult := fun n =>
  if negb (IsAuthority requesterObjectId n) then (REJECTED, n)
  else ApplyAccepted aggro requesterObjectId n.

Definition ApplyAuthorityRequest (requesterObjectId aggro : Z) : ST HostileNPC RequestResult := fun n =>
  if requesterObjectId =? NO_TARGET then (REJECTED, n)
  else if clamp aggro (_minAggro n) (_maxAggro n) <=? _aggro n then (REJECTED, n)
  else ApplyAccepted aggro requesterObjectId n.

Definition ApplyDamageAuthority (attackerObjectId : Z) : ST HostileNPC RequestResult := fun n =>
  ApplyAuthorityRequest attackerObjectId (_maxAggro n) n.

Definition ReleaseAuthority : ST HostileNPC bool := fun n =>
  if IsServerDriven n then (false, n) else (true, SetAggroInternal (_minAggro n) NO_TARGET n).

Definition n_object (n : HostileNPC) : UnityGameObject := c_object (n_combat n).

Definition FillMovementInfo (n : HostileNPC) : GameObjectMovementInfo :=
  mk_movement (objectId (n_object n)) (FillTransform (n_object n)) (state (n_object n)).

Definition ApplyMovementInfo (info : GameObjectMovementInfo) (n : HostileNPC) : HostileNPC :=
  n <| n_combat ::= fun c => c <| c_object ::= fun o =>
    (ApplyTransform (mi_transform info) o) <| state := u16 (mi_state info) |> |> |>.

(** ** Invariants *)

Record combat_ok (c : CombatObject) : Prop := {
  co_hp : 0 <= _currentHp c <= _maxHp c;
  co_maxHp : 0 < _maxHp c <= 30000;
  co_death : _deathPending c = true <-> _currentHp c = 0;
  co_shield : 0 <= _currentShield c <= _maxShield c;
  co_maxShield : _maxShield c <= 16000;
  co_rate : 0 <= _damageReductionRate c <= 10000;
  co_regen : 0 <= _shieldRegenPerSec c <= 800;
  co_accum : 0 <= _shieldRegenAccum c < 1000 }.

(** The object with aggro [MIN] and the one nobody drives are the same. *)
Record npc_ok (n : HostileNPC) : Prop := {
  no_bounds : _minAggro n < _maxAggro n;
  no_aggro : _minAggro n <= _aggro n <= _maxAggro n;
  no_equiv : _aggro n = _minAggro n <-> _targetId n = NO_TARGET }.

(** A player holding nothing has no weapon at all. *)
Definition weapons_ok (p : PlayerObject) : Prop :=
  GetCurrentWeaponId p = 0 -> _primaryWeaponId p = 0 /\ _secondaryWeaponId p = 0.

(** The requests and events that change who drives a hostile object. *)
Inductive NpcEvent :=
| NpcAggroRequest (requester aggro : Z)
| NpcAuthorityRequest (requester aggro : Z)
| NpcHit (attacker : Z)
| NpcRelease.

Definition npc_step (ev : NpcEvent) (n : HostileNPC) : HostileNPC :=
  match ev with
  | NpcAggroRequest r a => exec (ApplyAggroRequest r a) n
  | NpcAuthorityRequest r a => exec (ApplyAuthorityRequest r a) n
  | NpcHit a => exec (ApplyDamageAuthority a) n
  | NpcRelease => exec ReleaseAuthority n
  end.

(** ** Lemmas *)

(** Reduces the fields of updated combat objects, leaving the arithmetic alone. *)
Ltac fields := cbn [setf c_object _maxHp _currentHp _deathPending _lastAttackerId _maxShield
  _currentShield _damageReductionRate _shieldRegenPerSec _shieldRegenAccum p_combat] in *.

Lemma clamp_range v lo hi : lo <= hi -> lo <= clamp v lo hi <= hi.
Proof. intros. unfold clamp. destruct (Z.ltb_spec v lo), (Z.ltb_spec hi v); lia. Qed.

Lemma clamp_mid v lo hi : lo <= v <= hi -> clamp v lo hi = v.
Proof. intros. unfold clamp. destruct (Z.ltb_spec v lo), (Z.ltb_spec hi v); lia. Qed.

Lemma quot_reduced d r : 0 <= d -> 0 <= r <= 10000 ->
  0 <= Z.quot (d * (10000 - r)) 10000 <= d.
Proof.
  intros Hd Hr. rewrite Z.quot_div_nonneg by nia. split; [apply Z.div_pos; nia|].
  apply Z.div_le_upper_bound; nia.
Qed.

Lemma combat_ok_new id t y pos maxHp : 0 < maxHp <= 30000 -> combat_ok (new_CombatObject id t y pos maxHp).
Proof. intros. constructor; simpl; lia || done || (split; [done|lia]). Qed.

Lemma combat_ok_SetShield m r g c :
  0 <= m <= 16000 -> 0 <= r <= 10000 -> 0 <= g <= 800 -> combat_ok c -> combat_ok (SetShield m r g c).
Proof. intros ? ? ? []. constructor; simpl; lia || done. Qed.

Lemma combat_ok_ChargeShield a c : 0 <= a -> combat_ok c -> combat_ok (ChargeShield a c).
Proof.
  intros Ha []. unfold ChargeShield. cbn [setf _maxShield _currentShield].
  destruct (Z.ltb_spec (_maxShield c) (_currentShield c + a)); constructor; simpl; lia || done.
Qed.

Lemma armor_spec_facts id spec : GetArmorSpec id = Some spec ->
  0 <= maxShieldPoint spec <= 16000 /\ 0 <= DamageReductionRate spec <= 10000 /\
  0 <= regenerationPerSecond spec <= 800.
Proof.
  unfold GetArmorSpec, armorSpecs. cbn [list_to_map foldr uncurry fst snd].
  rewrite !lookup_insert, lookup_empty. repeat case_decide; intros [= <-]; simpl; lia.
Qed.

Lemma combat_ok_SetArmor id p : combat_ok (p_combat p) -> combat_ok (p_combat (SetArmor id p)).
Proof.
  intros Hp. unfold SetArmor. cbn [setf p_combat]. destruct (GetArmorSpec id) as [spec|] eqn:E.
  - apply armor_spec_facts in E as (? & ? & ?). by apply combat_ok_SetShield.
  - apply combat_ok_SetShield; lia || done.
Qed.

(** What a hit does to the hit points and the shield. *)
Definition hit_hp (damage : Z) (c : CombatObject) : Z :=
  if _currentShield c <=? damage then damage - _currentShield c
  else damage * (10000 - _damageReductionRate c) / 10000.

Lemma TakeDamage_eq damage attacker c :
  combat_ok c -> 0 <= damage ->
  let hp := _currentHp c - hit_hp damage c in
  TakeDamage damage attacker c =
  c <| _lastAttackerId := attacker |>
    <| _currentShield := Z.max 0 (_currentShield c - damage) |>
    <| _currentHp := Z.max 0 hp |>
    <| _deathPending := if hp <=? 0 then true else _deathPending c |>.
Proof.
  intros [] Hd hp. unfold TakeDamage, hp, hit_hp, OnDeath, OnDamageApplied. fields.
  destruct (Z.leb_spec (_currentShield c - damage) 0), (Z.leb_spec (_currentShield c) damage); try lia;
    fields.
  - replace (_currentHp c - - (_currentShield c - damage))
      with (_currentHp c - (damage - _currentShield c)) by lia.
    replace (Z.max 0 (_currentShield c - damage)) with 0 by lia.
    destruct (Z.leb_spec (_currentHp c - (damage - _currentShield c)) 0); fields; f_equal; lia.
  - rewrite Z.quot_div_nonneg by nia. replace (Z.max 0 (_currentShield c - damage))
      with (_currentShield c - damage) by lia.
    set (r := damage * _ / 10000).
    destruct (Z.leb_spec (_currentHp c - r) 0); fields; f_equal; lia.
Qed.

Lemma hit_hp_range damage c : combat_ok c -> 0 <= damage -> 0 <= hit_hp damage c <= damage.
Proof.
  intros [] Hd. unfold hit_hp. destruct (Z.leb_spec (_currentShield c) damage); [lia|].
  rewrite <- Z.quot_div_nonneg by nia. by apply quot_reduced.
Qed.

(** The regeneration with its branches resolved. *)
Lemma RegenShield_eq elapsed c :
  combat_ok c -> 0 <= elapsed ->
  let acc := _shieldRegenAccum c + _shieldRegenPerSec c * elapsed in
  RegenShield elapsed c =
  if (0 <? _shieldRegenPerSec c) && (_currentShield c <? _maxShield c) && (0 <? _currentHp c) then
    c <| _shieldRegenAccum := acc mod 1000 |>
      <| _currentShield := Z.min (_maxShield c) (_currentShield c + acc / 1000) |>
  else c <| _shieldRegenAccum := 0 |>.
Proof.
  intros [] He acc. unfold RegenShield, IsAlive.
  destruct (Z.leb_spec (_shieldRegenPerSec c) 0), (Z.ltb_spec 0 (_shieldRegenPerSec c)); try lia; [done|].
  destruct (Z.leb_spec (_maxShield c) (_currentShield c)), (Z.ltb_spec (_currentShield c) (_maxShield c));
    try lia; [done|].
  destruct (Z.ltb_spec 0 (_currentHp c)); [|done].
  cbn [orb andb negb]. fields.
  fold acc. assert (0 <= acc) by nia. clearbody acc. rewrite Z.quot_div_nonneg by lia.
  pose proof (Z.div_mod acc 1000 ltac:(lia)) as Hdm. pose proof (Z.mod_pos_bound acc 1000 ltac:(lia)).
  destruct (Z.leb_spec (acc / 1000) 0).
  - assert (acc / 1000 = 0) as Hz by (pose proof (Z.div_pos acc 1000); lia).
    f_equal; rewrite ?Hz; lia.
  - unfold ChargeShield. fields.
    destruct (Z.ltb_spec (_maxShield c) (_currentShield c + acc / 1000)); fields; f_equal; lia.
Qed.

Lemma combat_ok_TakeDamage damage attacker c :
  combat_ok c -> 0 <= damage -> combat_ok (TakeDamage damage attacker c).
Proof.
  intros Hc Hd. pose proof (hit_hp_range _ _ Hc Hd). rewrite TakeDamage_eq by done. destruct Hc.
  constructor; fields; try lia.
  destruct (Z.leb_spec (_currentHp c - hit_hp damage c) 0); [split; [lia|done]|].
  rewrite co_death0. lia.
Qed.

Lemma combat_ok_RegenShield elapsed c :
  combat_ok c -> 0 <= elapsed -> combat_ok (RegenShield elapsed c).
Proof.
  intros Hc He. rewrite RegenShield_eq by done. destruct Hc.
  destruct (_ && _ && _); constructor; fields; try lia; try done.
  - assert (0 <= (_shieldRegenAccum c + _shieldRegenPerSec c * elapsed) / 1000) by (apply Z.div_pos; nia). lia.
  - apply Z.mod_pos_bound. lia.
Qed.

(** The regeneration over a sequence of ticks. *)
Definition regen_ticks (ticks : list Z) (c : CombatObject) : CombatObject :=
  foldl (fun c e => RegenShield e c) c ticks.

Lemma RegenShield_step elapsed c :
  combat_ok c -> 0 <= elapsed -> 0 < _shieldRegenPerSec c -> 0 < _currentHp c ->
  let c' := RegenShield elapsed c in
  _shieldRegenPerSec c' = _shieldRegenPerSec c /\ _currentHp c' = _currentHp c /\
  _maxShield c' = _maxShield c /\ _currentShield c <= _currentShield c' /\
  (_currentShield c' < _maxShield c ->
   1000 * _currentShield c' + _shieldRegenAccum c' =
   1000 * _currentShield c + _shieldRegenAccum c + _shieldRegenPerSec c * elapsed).
Proof.
  intros Hc He Hg Hhp c'. unfold c'. rewrite RegenShield_eq by done. destruct Hc.
  destruct (Z.ltb_spec 0 (_shieldRegenPerSec c)), (Z.ltb_spec 0 (_currentHp c)); try lia.
  set (acc := _shieldRegenAccum c + _ * _). assert (0 <= acc) by nia.
  pose proof (Z.div_pos acc 1000 ltac:(lia) ltac:(lia)).
  pose proof (Z.div_mod acc 1000 ltac:(lia)).
  destruct (Z.ltb_spec (_currentShield c) (_maxShield c)); simpl; split_and!; lia.
Qed.

Lemma npc_SetAggroInternal a t n : npc_ok n -> npc_ok (SetAggroInternal a t n).
Proof.
  intros []. unfold SetAggroInternal. pose proof (clamp_range a (_minAggro n) (_maxAggro n) ltac:(lia)).
  destruct (Z.eqb_spec (clamp a (_minAggro n) (_maxAggro n)) (_minAggro n)), (Z.eqb_spec t NO_TARGET);
    constructor; simpl; lia || done.
Qed.

Lemma npc_step_ok ev n : npc_ok n -> npc_ok (npc_step ev n).
Proof.
  intros Hn. destruct ev as [r a|r a|a|]; simpl; unfold exec,
    ApplyAggroRequest, ApplyDamageAuthority, ApplyAuthorityRequest, ReleaseAuthority, ApplyAccepted;
    repeat case_match; simpl; auto using npc_SetAggroInternal.
Qed.

Lemma npc_step_bounds ev n :
  _minAggro (npc_step ev n) = _minAggro n /\ _maxAggro (npc_step ev n) = _maxAggro n.
Proof.
  destruct ev as [r a|r a|a|]; simpl; unfold exec,
    ApplyAggroRequest, ApplyDamageAuthority, ApplyAuthorityRequest, ReleaseAuthority, ApplyAccepted,
    SetAggroInternal; repeat case_match; simpl; done.
Qed.

(** A request for authority: accepted exactly when the clamped claim beats the
    present aggro, and then the requester drives the object. *)
Lemma ApplyAuthorityRequest_spec r a n :
  npc_ok n -> r <> NO_TARGET ->
  let c := clamp a (_minAggro n) (_maxAggro n) in
  exec (ApplyAuthorityRequest r a) n =
  if _aggro n <? c then n <| _aggro := c |> <| _targetId := r |> else n.
Proof.
  intros [] Hr c. unfold exec, ApplyAuthorityRequest, ApplyAccepted.
  destruct (Z.eqb_spec r NO_TARGET); [done|]. fold c. rewrite (Z.ltb_antisym c).
  destruct (Z.leb_spec c (_aggro n)); [done|]. simpl. unfold SetAggroInternal. fold c.
  destruct (Z.eqb_spec c (_minAggro n)); [lia|]. by destruct (Z.eqb_spec r NO_TARGET).
Qed.

(** ** Theorems *)

(** A hit subtracts the damage from the shield and [hit_hp] from the hit points,
    both stopping at zero, records the attacker, and marks the object dead exactly
    when the hit points run out; the bounds of the object are kept. *)
Theorem TakeDamage_spec damage attacker c :
  combat_ok c -> 0 <= damage ->
  let c' := TakeDamage damage attacker c in
  combat_ok c' /\ _currentHp c' = Z.max 0 (_currentHp c - hit_hp damage c) /\
  _currentShield c' = Z.max 0 (_currentShield c - damage) /\ _lastAttackerId c' = attacker /\
  (IsAlive c' = false <-> _deathPending c' = true).
Proof.
  intros Hc Hd c'. assert (Hc' : combat_ok c') by by apply combat_ok_TakeDamage.
  split; [done|]. pose proof (co_death _ Hc') as Hdeath. pose proof (co_hp _ Hc') as Hhp.
  unfold IsAlive. rewrite Hdeath, Z.ltb_ge.
  split_and!; [| | |unfold c' in *; lia]; unfold c'; by rewrite TakeDamage_eq.
Qed.

(** The hit that takes exactly what is left of a shield costs no hit points,
    while a weaker hit on the same object costs some. *)
Theorem breaking_hit_is_free attacker c :
  combat_ok c -> IsAlive c = true -> 3 <= _currentShield c -> _damageReductionRate c <= 5000 ->
  _currentHp (TakeDamage (_currentShield c) attacker c) = _currentHp c /\
  _currentHp (TakeDamage (_currentShield c - 1) attacker c) < _currentHp c.
Proof.
  unfold IsAlive. rewrite Z.ltb_lt. intros Hc Ha Hs Hr. rewrite !TakeDamage_eq by (lia || done).
  fields. unfold hit_hp.
  destruct (Z.leb_spec (_currentShield c) (_currentShield c)), (Z.leb_spec (_currentShield c) (_currentShield c - 1)); try lia.
  split; [lia|].
  assert (1 <= (_currentShield c - 1) * (10000 - _damageReductionRate c) / 10000); [|lia].
  apply Z.div_le_lower_bound; [lia|]. destruct Hc. nia.
Qed.

(** Regeneration loses nothing to rounding: over any sequence of ticks that
    leaves the shield of a living object below its maximum, shield and accumulator
    together grow by exactly the rate times the elapsed time. *)
Theorem regen_no_drift ticks c :
  combat_ok c -> Forall (fun e => 0 <= e) ticks -> 0 < _shieldRegenPerSec c -> 0 < _currentHp c ->
  let c' := regen_ticks ticks c in
  combat_ok c' /\
  (_currentShield c' < _maxShield c ->
   1000 * _currentShield c' + _shieldRegenAccum c' =
   1000 * _currentShield c + _shieldRegenAccum c + _shieldRegenPerSec c * foldr Z.add 0 ticks).
Proof.
  assert (forall ticks c, combat_ok c -> Forall (fun e => 0 <= e) ticks -> 0 < _shieldRegenPerSec c ->
    0 < _currentHp c -> let c' := regen_ticks ticks c in combat_ok c' /\ _currentShield c <= _currentShield c' /\
    (_currentShield c' < _maxShield c -> 1000 * _currentShield c' + _shieldRegenAccum c' =
     1000 * _currentShield c + _shieldRegenAccum c + _shieldRegenPerSec c * foldr Z.add 0 ticks)) as H.
  { clear. induction ticks as [|e ticks IH]; intros c Hc Hf Hg Hhp; simpl; [split_and!; [done|lia..]|].
    apply Forall_cons in Hf as [He Hf].
    destruct (RegenShield_step e c Hc He Hg Hhp) as (H1 & H2 & H3 & H4 & H5).
    specialize (IH (RegenShield e c) (combat_ok_RegenShield e c Hc He) Hf ltac:(lia) ltac:(lia)).
    rewrite H1, H3 in IH. destruct IH as (IH1 & IH2 & IH3). split_and!; [done|lia|].
    intros Hlt. unfold regen_ticks in *. lia. }
  intros Hc Hf Hg Hhp c'. destruct (H ticks c Hc Hf Hg Hhp) as (? & _ & ?). by split.
Qed.

(** C39. Whatever requests, hits and releases a hostile object receives, its aggro is
    the minimum exactly when nobody drives it, and its bounds hold; the driver
    changes to another player only for an aggro greater than the present one. *)
Theorem npc_authority ev evs n :
  npc_ok n ->
  let n1 := foldl (fun n ev => npc_step ev n) n evs in
  let n2 := npc_step ev n1 in
  npc_ok n1 /\
  (_targetId n2 <> _targetId n1 -> _targetId n2 <> NO_TARGET -> _aggro n1 < _aggro n2).
Proof.
  intros Hn n1. assert (H1 : npc_ok n1).
  { unfold n1. clear ev n1. revert n Hn. induction evs as [|e evs IH]; intros n Hn; [done|].
    apply IH, npc_step_ok, Hn. }
  clearbody n1. split; [done|]. destruct ev as [r a|r a|a|]; simpl.
  - unfold exec, ApplyAggroRequest. destruct (IsAuthority r n1) eqn:E; [|done]. simpl.
    unfold IsAuthority in E. apply andb_true_iff in E as [_ E%Z.eqb_eq].
    unfold SetAggroInternal. destruct (_ || _); simpl; [done|congruence].
  - destruct (Z.eq_dec r NO_TARGET) as [->|Hr]; [done|].
    rewrite ApplyAuthorityRequest_spec by done.
    destruct (Z.ltb_spec (_aggro n1) (clamp a (_minAggro n1) (_maxAggro n1))); simpl; [lia|done].
  - unfold ApplyDamageAuthority, exec. destruct (Z.eq_dec a NO_TARGET) as [->|Hr]; [done|].
    pose proof (ApplyAuthorityRequest_spec a (_maxAggro n1) n1 H1 Hr) as E. unfold exec in E.
    rewrite E. destruct (Z.ltb_spec (_aggro n1) (clamp (_maxAggro n1) (_minAggro n1) (_maxAggro n1)));
      simpl; [lia|done].
  - unfold exec, ReleaseAuthority. destruct (IsServerDriven n1); simpl; [done|].
    unfold SetAggroInternal. rewrite orb_true_r. simpl. done.
Qed.

(** A request for authority over a hostile object succeeds exactly when the claim,
    clamped to the bounds, beats the present aggro; nobody takes an object that is
    at the maximum. *)
Theorem authority_request_decided requester a n :
  npc_ok n -> requester <> NO_TARGET ->
  let c := clamp a (_minAggro n) (_maxAggro n) in
  let '(result, n') := ApplyAuthorityRequest requester a n in
  (result = REJECTED <-> c <= _aggro n) /\
  (c <= _aggro n -> n' = n) /\
  (_aggro n < c -> _aggro n' = c /\ IsAuthority requester n' = true) /\
  (_aggro n = _maxAggro n -> n' = n).
Proof.
  intros Hn Hr c. pose proof (ApplyAuthorityRequest_spec requester a n Hn Hr) as E.
  assert (Hc : c <= _maxAggro n) by (apply clamp_range; destruct Hn; lia).
  assert (Hres : fst (ApplyAuthorityRequest requester a n) = REJECTED <-> c <= _aggro n).
  { unfold ApplyAuthorityRequest, ApplyAccepted. destruct (Z.eqb_spec requester NO_TARGET); [done|].
    fold c. destruct (Z.leb_spec c (_aggro n)); [done|]. simpl. case_match; split; (lia || done). }
  fold c in E. unfold exec in E. destruct (ApplyAuthorityRequest requester a n) as [res n'].
  simpl in E, Hres. subst n'. split; [done|].
  destruct (Z.ltb_spec (_aggro n) c); split_and!; try done; try lia.
  intros _. split; [done|]. unfold IsAuthority. simpl. rewrite Z.eqb_refl.
  by destruct (Z.eqb_spec requester NO_TARGET).
Qed.

(** Equipment changes keep the held weapon: the player goes on using the same slot
    unless that slot became empty, and is bare-handed only without any weapon. *)
Theorem SetWeapons_spec primaryId secondaryId p :
  let p' := SetWeapons primaryId secondaryId p in
  weapons_ok p' /\
  ((if _isUsingPrimary p then primaryId else secondaryId) <> 0 -> _isUsingPrimary p' = _isUsingPrimary p) /\
  _primaryWeaponId p' = primaryId /\ _secondaryWeaponId p' = secondaryId.
Proof.
  unfold SetWeapons, weapons_ok, GetCurrentWeaponId.
  destruct (_isUsingPrimary p) eqn:E, (Z.eqb_spec primaryId 0), (Z.eqb_spec secondaryId 0);
    simpl; rewrite ?E; split_and!; try done; intros; try done; lia.
Qed.

(** ** Witnesses *)

(** A player in a light vest whose shield was worn down to 5000. *)
Definition armored : CombatObject :=
  ChargeShield 5000 (p_combat (SetArmor 4 (new_PlayerObject 7 vector3_zero 0 "p"))).

Lemma armored_ok : combat_ok armored.
Proof.
  apply combat_ok_ChargeShield; [lia|]. apply combat_ok_SetArmor, combat_ok_new.
  unfold DEFAULT_MAX_HP. lia.
Qed.

Definition sample_turret : HostileNPC := new_Turret 3 vector3_zero (f32_of_Z 0).
Lemma sample_turret_ok : npc_ok sample_turret.
Proof. constructor; vm_compute; repeat split; (reflexivity || discriminate). Qed.

Lemma TakeDamage_spec_witness :
  _currentHp (TakeDamage 4800 9 armored) = 17600 /\ combat_ok (TakeDamage 4800 9 armored).
Proof. split; [vm_compute; reflexivity|]. apply (TakeDamage_spec 4800 9 armored armored_ok). lia. Defined.

Lemma breaking_hit_is_free_witness :
  _currentHp (TakeDamage 5000 9 armored) = 20000 /\
  _currentHp (TakeDamage 4999 9 armored) < _currentHp armored.
Proof.
  split; [vm_compute; reflexivity|].
  exact (proj2 (breaking_hit_is_free 9 armored armored_ok eq_refl ltac:(vm_compute; discriminate)
    ltac:(vm_compute; discriminate))).
Defined.

Lemma regen_no_drift_witness :
  _currentShield (regen_ticks [101; 99; 100; 103] armored) = 5322 /\
  1000 * _currentShield (regen_ticks [101; 99; 100; 103] armored)
  + _shieldRegenAccum (regen_ticks [101; 99; 100; 103] armored) = 1000 * 5000 + 0 + 800 * 403.
Proof.
  split; [vm_compute; reflexivity|].
  apply (regen_no_drift [101; 99; 100; 103] armored armored_ok).
  - repeat (apply Forall_cons; split; [lia|]). apply Forall_nil_2.
  - vm_compute; reflexivity.
  - vm_compute; reflexivity.
  - vm_compute; reflexivity.
Defined.

Lemma npc_authority_witness :
  let n1 := foldl (fun n ev => npc_step ev n) sample_turret [NpcAuthorityRequest 5 3; NpcAggroRequest 5 4] in
  _targetId n1 = 5 /\ _targetId (npc_step (NpcHit 6) n1) = 6 /\ _aggro n1 < _aggro (npc_step (NpcHit 6) n1).
Proof.
  intros n1. split; [vm_compute; reflexivity|]. split; [vm_compute; reflexivity|].
  apply (npc_authority (NpcHit 6) [NpcAuthorityRequest 5 3; NpcAggroRequest 5 4] sample_turret sample_turret_ok);
    vm_compute; discriminate.
Defined.

Lemma authority_request_decided_witness :
  IsAuthority 5 (snd (ApplyAuthorityRequest 5 100 sample_turret)) = true.
Proof.
  pose proof (authority_request_decided 5 100 sample_turret sample_turret_ok ltac:(discriminate)) as H.
  destruct (ApplyAuthorityRequest 5 100 sample_turret) as [r n'].
  apply H. vm_compute; reflexivity.
Defined.
