(* ===== verification/Container.v ===== *)
(** * Containers

    Models src/src/DedicateProcess/UnityGameObjects/Container.h and .cpp,
    PlayerLootContainer.h, TenerifeContainers.h and TestGameObjects.h: the slots of a
    container, the placement of loot, the container a dead player leaves, the
    container kinds and their serialisation. *)

From S2P Require Import Prelude Items Inventory Geometry.
Local Open Scope Z_scope.

Definition DEFAULT_CONTAINER_VOLUME : Z := 30.
(** No occupant: object ids are not reused in a room. *)
Definition NO_INTERACTING_PLAYER : Z := 4294967295.   (* 0xFFFFFFFF *)

Record Container := mk_container {
  k_object : UnityGameObject; k_inventorySlots : list Slot; _nextLootSlot : Z;
  _containerVolume : Z; _containerVersion : Z; _interactingPlayerId : Z }.
#[export] Instance eta_Container : Eta Container := fun r =>
  mk_container (k_object r) (k_inventorySlots r) (_nextLootSlot r) (_containerVolume r)
    (_containerVersion r) (_interactingPlayerId r).

Definition container_size (k : Container) : Z := Z.of_nat (length (k_inventorySlots k)).

(** [Container::GetSlotMutable]: a slot position, [nullptr] out of range. *)
Definition GetContainerSlot (slotIndex : Z) (k : Container) : option nat :=
  if container_size k <=? slotIndex then None else Some (Z.to_nat slotIndex).

Definition IncrementContainerVersion (k : Container) : Container :=
  k <| _containerVersion ::= fun v => u32 (v + 1) |>.

Definition SetInteractingPlayerId (playerObjectId : Z) (k : Container) : Container :=
  k <| _interactingPlayerId := playerObjectId |>.

Definition InitializeSlots (slotCount : Z) (k : Container) : Container :=
  k <| k_inventorySlots :=
         map (fun i => slot_default <| slotIndex := Z.of_nat i |>) (seq 0 (Z.to_nat slotCount)) |>
    <| _containerVolume := slotCount |>.

Definition new_Container (objectId : Z) (objectType : ObjectType) (isYFixed : bool)
    (position : Vector3) : Container :=
  mk_container (new_UnityGameObject objectId objectType isYFixed position) [] 0
    DEFAULT_CONTAINER_VOLUME 0 NO_INTERACTING_PLAYER.

Definition PlaceItem (slotIndex blueprintId quantity instanceUid : Z) : ST Container bool := fun k =>
  if (container_size k <=? slotIndex) || (quantity <=? 0) then (false, k)
  else (true, k <| k_inventorySlots ::=
                 alter (fun s => s <| item := mk_item instanceUid blueprintId |> <| Items.quantity := quantity |>)
                       (Z.to_nat slotIndex) |>).

Definition PlaceInitialLoot (blueprintId quantity instanceUid : Z) : ST Container bool := fun k =>
  if container_size k <=? _nextLootSlot k then (false, k)
  else
    let '(ok, k') := PlaceItem (_nextLootSlot k) blueprintId quantity instanceUid k in
    if negb ok then (false, k') else (true, k' <| _nextLootSlot ::= fun n => u32 (n + 1) |>).

(** The two snapshot messages carry the same fields. *)
Record ContainerInfo := mk_container_info {
  ci_object_id : Z; ci_version : Z; ci_volume : Z; ci_slots : list InventorySlotMsg }.

Definition SerializeOpenContainer (k : Container) : ContainerInfo :=
  mk_container_info (objectId (k_object k)) (_containerVersion k) (_containerVolume k)
    (map FillSlotProto (List.filter (fun s => negb (IsEmpty s)) (k_inventorySlots k))).
Definition SerializeRecentContainerInfo (k : Container) : ContainerInfo :=
  mk_container_info (objectId (k_object k)) (_containerVersion k) (_containerVolume k)
    (map FillSlotProto (List.filter (fun s => negb (IsEmpty s)) (k_inventorySlots k))).

(** ** The loot of a dead player *)

(** The lambda [place] of [FillFrom], with the captured [nextSlotIndex]: the index
    advances for every occupied slot, whether or not the placement succeeds. *)
Definition place_loot (s : Slot) : ST (Container * Z) unit := fun '(k, nextSlotIndex) =>
  if IsEmpty s then (tt, (k, nextSlotIndex))
  else
    let '(_, k') := PlaceItem nextSlotIndex (blueprintId (item s)) (quantity s) (instanceUid (item s)) k in
    (tt, (k', u32 (nextSlotIndex + 1))).

Definition loot_order (inv : PlayerInventory) : list Slot :=
  [_primaryWeaponSlot inv; _primaryWeaponMagazineSlot inv; _secondaryWeaponSlot inv;
   _secondaryWeaponMagazineSlot inv; _armorSlot inv] ++ _inventorySlots inv.

Definition FillFrom (inv : PlayerInventory) (k : Container) : Container :=
  fst (exec (for_each (loot_order inv) place_loot) (k, 0)).

Definition new_PlayerLootContainer (objectId : Z) (position : Vector3) (yaw : f32)
    (inv : PlayerInventory) : Container :=
  FillFrom inv (InitializeSlots DEFAULT_CONTAINER_VOLUME
    ((new_Container objectId OT_PlayerLoot true position)
       <| k_object ::= fun o => o <| yawAngle := yaw |> |>)).

(** ** The container kinds *)

Definition new_VehicleContainer (objectId : Z) (objectType : ObjectType) (position : Vector3)
    (yaw : f32) : Container :=
  InitializeSlots DEFAULT_CONTAINER_VOLUME
    ((new_Container objectId objectType true position)
       <| k_object ::= fun o => o <| yawAngle := yaw |> |>).

(** The vehicle classes differ in their type only. *)
Definition new_Vehicle (t : ObjectType) (objectId : Z) (position : Vector3) (yaw : f32) : option Container :=
  match t with
  | OT_TenerifeBlueCar | OT_TenerifeYellowCar | OT_TenerifeBrownCar | OT_TenerifeRedCar
  | OT_TenerifeBus => Some (new_VehicleContainer objectId t position yaw)
  | _ => None
  end.

Definition InitializeTestItems (k : Container) : Container :=
  exec (_ ← PlaceItem 0 5 60 (WORLD_ITEM_UID_BASE + 1);
        _ ← PlaceItem 1 6 30 (WORLD_ITEM_UID_BASE + 2);
        PlaceItem 2 4 1 (WORLD_ITEM_UID_BASE + 3))
    (InitializeSlots DEFAULT_CONTAINER_VOLUME k).

Definition new_TestItemBox (objectId : Z) (position : Vector3) : Container :=
  InitializeTestItems (new_Container objectId OT_TestItemBox true position).

(** ** Invariant *)

Record container_ok (k : Container) : Prop := {
  ko_size : container_size k = _containerVolume k;
  ko_volume : 0 <= _containerVolume k < 2 ^ 31;
  ko_index : forall i s, k_inventorySlots k !! i = Some s -> slotIndex s = Z.of_nat i;
  ko_slots : Forall slot_wf (k_inventorySlots k) }.

(** ** Lemmas *)

Lemma container_ok_init n k : 0 <= n < 2 ^ 31 -> container_ok (InitializeSlots n k).
Proof.
  intros Hn. constructor; simpl.
  - unfold container_size. simpl. rewrite length_map, length_seq. lia.
  - lia.
  - intros i s Hs. rewrite list_lookup_fmap in Hs.
    destruct (seq 0 (Z.to_nat n) !! i) as [j|] eqn:E; [|done]. apply lookup_seq in E as [-> _].
    by simplify_eq/=.
  - apply Forall_forall. intros s (i & <- & _)%list_elem_of_In%in_map_iff. by left.
Qed.

Lemma total_all_empty bp l : bp <> 0 -> Forall (fun s => IsEmpty s = true) l -> total bp l = 0.
Proof.
  intros Hbp. induction 1 as [|s l Hs _ IH]; simpl; [done|]. rewrite IH, count_empty by done. done.
Qed.

Lemma init_all_empty n k :
  Forall (fun s => IsEmpty s = true) (k_inventorySlots (InitializeSlots n k)).
Proof.
  apply Forall_forall. simpl. intros s (i & <- & _)%list_elem_of_In%in_map_iff. done.
Qed.

(** What a placement does to a container. *)
Record place_effect (bp q : Z) (i : nat) (k k' : Container) : Prop := {
  pe_ok : container_ok k';
  pe_size : container_size k' = container_size k;
  pe_object : k_object k' = k_object k;
  pe_version : _containerVersion k' = _containerVersion k;
  pe_total : forall s, k_inventorySlots k !! i = Some s -> forall b,
    total b (k_inventorySlots k') =
    total b (k_inventorySlots k) - count b s + if bp =? b then q else 0;
  pe_others : forall j, j <> i -> k_inventorySlots k' !! j = k_inventorySlots k !! j }.

Lemma PlaceItem_effect i bp q uid k :
  container_ok k -> bp <> 0 -> 0 <= i < container_size k -> 0 < q ->
  let '(ok, k') := PlaceItem i bp q uid k in ok = true /\ place_effect bp q (Z.to_nat i) k k'.
Proof.
  intros [] Hbp Hi Hq. unfold PlaceItem.
  destruct (Z.leb_spec (container_size k) i); [lia|]. destruct (Z.leb_spec q 0); [lia|]. simpl orb.
  cbn iota. split; [done|]. set (f := fun s : Slot => _).
  assert (Hlen : length (alter f (Z.to_nat i) (k_inventorySlots k)) = length (k_inventorySlots k))
    by apply length_alter.
  constructor; [constructor| | | | |].
  - unfold container_size in *. cbn [setf k_inventorySlots _containerVolume]. by rewrite Hlen.
  - done.
  - cbn [setf k_inventorySlots]. intros j s Hs. destruct (decide (Z.to_nat i = j)) as [<-|Hne].
    + rewrite list_lookup_alter_eq in Hs. destruct (k_inventorySlots k !! Z.to_nat i) eqn:E; [|done].
      simplify_eq/=. eauto.
    + rewrite list_lookup_alter_ne in Hs by done. eauto.
  - cbn [setf k_inventorySlots]. apply Forall_alter; [done|]. intros s _ _. right. simpl. lia.
  - unfold container_size. cbn [setf k_inventorySlots]. by rewrite Hlen.
  - done.
  - done.
  - intros s Hs b. cbn [setf k_inventorySlots]. rewrite (total_alter _ _ _ _ _ Hs). done.
  - intros j Hj. cbn [setf k_inventorySlots]. by apply list_lookup_alter_ne.
Qed.

(** Placing the occupied slots of a list one after the other. *)
Definition occupied (l : list Slot) : list Slot := List.filter (fun s => negb (IsEmpty s)) l.

Lemma total_occupied bp l : bp <> 0 -> total bp (occupied l) = total bp l.
Proof.
  intros Hbp. induction l as [|s l IH]; [done|]. simpl. destruct (IsEmpty s) eqn:E; simpl; rewrite IH.
  - rewrite (count_empty bp s); done.
  - done.
Qed.

Lemma length_occupied l : (length (occupied l) <= length l)%nat.
Proof. apply List.filter_length_le. Qed.

Lemma place_loot_step s k n :
  exec (place_loot s) (k, n) =
  if IsEmpty s then (k, n)
  else (exec (PlaceItem n (blueprintId (item s)) (quantity s) (instanceUid (item s))) k, u32 (n + 1)).
Proof.
  unfold place_loot, exec. destruct (IsEmpty s); [done|]. by destruct (PlaceItem _ _ _ _ k).
Qed.

Lemma place_loot_all l k n :
  container_ok k -> Forall slot_wf l -> 0 <= n ->
  n + Z.of_nat (length (occupied l)) <= container_size k ->
  (forall j s, n <= Z.of_nat j -> k_inventorySlots k !! j = Some s -> IsEmpty s = true) ->
  let k' := fst (exec (for_each l place_loot) (k, n)) in
  container_ok k' /\ k_object k' = k_object k /\ _containerVersion k' = _containerVersion k /\
  (forall bp, bp <> 0 -> total bp (k_inventorySlots k') = total bp (k_inventorySlots k) + total bp l).
Proof.
  revert k n; induction l as [|s l IH]; intros k n Hk Hl Hn Hfit Hfree.
  { simpl. split_and!; try done; try lia. }
  apply Forall_cons in Hl as [Hs Hl]. rewrite exec_for_each_cons, place_loot_step.
  simpl in Hfit. destruct (IsEmpty s) eqn:E; simpl negb in Hfit; cbn iota in Hfit.
  { destruct (IH k n Hk Hl Hn Hfit Hfree) as (? & ? & ? & IH'). split_and!; try done.
    intros bp Hbp. rewrite IH' by done. cbn [total foldr]. rewrite (count_empty bp s) by done.
    unfold total. lia. }
  cbn [length] in Hfit. apply not_IsEmpty_wf in E as [Hb Hq]; [|done].
  pose proof (PlaceItem_effect n (blueprintId (item s)) (quantity s) (instanceUid (item s)) k Hk Hb
                ltac:(lia) Hq) as Hp.
  unfold exec at 2. destruct (PlaceItem _ _ _ _ k) as [ok k1]. destruct Hp as [_ Hp]. cbn [snd].
  assert (Hs0 : exists s0, k_inventorySlots k !! Z.to_nat n = Some s0)
    by (apply lookup_lt_is_Some_2; unfold container_size in *; lia).
  destruct Hs0 as [s0 Hs0]. pose proof (ko_volume _ Hk). pose proof (ko_size _ Hk).
  rewrite u32_id by width. pose proof (pe_size _ _ _ _ _ Hp) as Hsz.
  destruct (IH k1 (n + 1) (pe_ok _ _ _ _ _ Hp) Hl ltac:(lia) ltac:(lia)) as (? & Ho & Hv & IH').
  { intros j s' Hj Hs'. rewrite (pe_others _ _ _ _ _ Hp) in Hs' by lia. eapply Hfree; [|done]. lia. }
  split_and!; [done|by rewrite Ho, (pe_object _ _ _ _ _ Hp)|by rewrite Hv, (pe_version _ _ _ _ _ Hp)|].
  intros bp Hbp. rewrite IH' by done. cbn [total foldr]. rewrite (pe_total _ _ _ _ _ Hp s0 Hs0).
  rewrite (count_empty bp s0) by (done || (eapply Hfree; [|exact Hs0]; lia)). unfold total, count. lia.
Qed.

(** ... and the loot cursor stands before the free slots. *)
Record loot_ok (k : Container) : Prop := {
  lo_ok : container_ok k;
  lo_next : 0 <= _nextLootSlot k <= container_size k;
  lo_free : forall j s, _nextLootSlot k <= Z.of_nat j -> k_inventorySlots k !! j = Some s -> IsEmpty s = true }.

Lemma loot_ok_init n k : 0 <= n < 2 ^ 31 -> _nextLootSlot k = 0 -> loot_ok (InitializeSlots n k).
Proof.
  intros Hn Hk. constructor; [by apply container_ok_init| |].
  - cbn [InitializeSlots setf _nextLootSlot]. rewrite Hk. unfold container_size. lia.
  - intros j s _ Hs. pose proof (init_all_empty n k) as H. by eapply Forall_lookup_1 in H.
Qed.

Lemma FillFrom_occupant inv k : _interactingPlayerId (FillFrom inv k) = _interactingPlayerId k.
Proof.
  unfold FillFrom. apply (for_each_inv (fun w => _interactingPlayerId (fst w) = _interactingPlayerId k));
    [|done].
  intros s [k' n] _ Hw. cbn [fst] in Hw. rewrite place_loot_step.
  destruct (IsEmpty s); cbn [fst]; [exact Hw|].
  unfold exec, PlaceItem. by destruct (_ || _).
Qed.

Lemma loot_order_wf inv : inv_core inv -> Forall slot_wf (loot_order inv).
Proof.
  intros Hc. pose proof (ok_weapon _ Hc true) as W1. pose proof (ok_weapon _ Hc false) as W2.
  destruct (ok_mag _ Hc true) as [M1 _], (ok_mag _ Hc false) as [M2 _].
  unfold loot_order. apply Forall_app. split; [|apply Hc].
  repeat (apply Forall_cons; split; [assumption || apply Hc|]). apply Forall_nil_2.
Qed.

Lemma loot_order_total bp inv : total bp (loot_order inv) = grand bp inv.
Proof. unfold loot_order. rewrite total_app. unfold grand. simpl. lia. Qed.

(** ** Theorems *)

(** Death loses no item: the container left behind is well formed and holds of
    every blueprint exactly what the player held, in bag, equipment and magazines. *)
Lemma loot_container_complete oid pos yaw inv :
  inv_core inv ->
  let k := new_PlayerLootContainer oid pos yaw inv in
  container_ok k /\ _interactingPlayerId k = NO_INTERACTING_PLAYER /\ objectId (k_object k) = oid /\
  forall bp, bp <> 0 -> total bp (k_inventorySlots k) = grand bp inv.
Proof.
  intros Hinv k. set (k0 := InitializeSlots DEFAULT_CONTAINER_VOLUME
    ((new_Container oid OT_PlayerLoot true pos) <| k_object ::= fun o => o <| yawAngle := yaw |> |>)).
  assert (Hk0 : container_ok k0) by (apply container_ok_init; unfold DEFAULT_CONTAINER_VOLUME; lia).
  assert (Hlen : (length (occupied (loot_order inv)) <= 30)%nat).
  { etrans; [apply length_occupied|]. unfold loot_order. rewrite length_app.
    destruct (ok_indexed _ Hinv) as [-> _]. done. }
  destruct (place_loot_all (loot_order inv) k0 0 Hk0 (loot_order_wf inv Hinv) ltac:(lia))
    as (H1 & H2 & _ & H3).
  { change (container_size k0) with 30. lia. }
  { intros j s _ Hs. pose proof (init_all_empty DEFAULT_CONTAINER_VOLUME k0) as H.
    by eapply Forall_lookup_1 in H. }
  split_and!; [exact H1|by apply FillFrom_occupant|unfold k, new_PlayerLootContainer, FillFrom; fold k0; by rewrite H2|].
  intros bp Hbp. unfold k, new_PlayerLootContainer, FillFrom. fold k0.
  rewrite H3, loot_order_total, total_all_empty by (done || apply init_all_empty). lia.
Qed.

Lemma PlaceInitialLoot_step bp q uid k :
  loot_ok k -> bp <> 0 -> 0 < q -> _nextLootSlot k < container_size k ->
  let k' := exec (PlaceInitialLoot bp q uid) k in
  loot_ok k' /\ _nextLootSlot k' = _nextLootSlot k + 1 /\ _containerVersion k' = _containerVersion k /\
  fst (PlaceInitialLoot bp q uid k) = true /\
  forall b, b <> 0 -> total b (k_inventorySlots k') = total b (k_inventorySlots k) + if bp =? b then q else 0.
Proof.
  intros Hk Hbp Hq Hlt. unfold exec, PlaceInitialLoot. pose proof (lo_next _ Hk). pose proof (lo_ok _ Hk) as Hc.
  destruct (Z.leb_spec (container_size k) (_nextLootSlot k)); [lia|].
  pose proof (PlaceItem_effect (_nextLootSlot k) bp q uid k Hc Hbp ltac:(lia) Hq) as Hp.
  assert (Hnx : _nextLootSlot (snd (PlaceItem (_nextLootSlot k) bp q uid k)) = _nextLootSlot k)
    by (unfold PlaceItem; by destruct (_ || _)).
  destruct (PlaceItem _ _ _ _ k) as [ok k1]. destruct Hp as [-> Hp]. simpl in Hnx.
  cbn [negb setf _nextLootSlot fst snd]. pose proof (ko_volume _ Hc). pose proof (ko_size _ Hc).
  pose proof (pe_size _ _ _ _ _ Hp) as Hsz.
  assert (Hs0 : exists s0, k_inventorySlots k !! Z.to_nat (_nextLootSlot k) = Some s0)
    by (apply lookup_lt_is_Some_2; unfold container_size in *; lia).
  destruct Hs0 as [s0 Hs0]. rewrite Hnx, u32_id by width.
  split_and!; [|done|by apply Hp|done|].
  - constructor; [by destruct (pe_ok _ _ _ _ _ Hp)| |].
    + unfold container_size in *. simpl. lia.
    + simpl. intros j s Hj Hs. rewrite (pe_others _ _ _ _ _ Hp) in Hs by lia.
      eapply (lo_free _ Hk); [|done]. lia.
  - intros b Hb. cbn [k_inventorySlots]. rewrite (pe_total _ _ _ _ _ Hp s0 Hs0), (count_empty b s0); [lia|done|].
    eapply (lo_free _ Hk); [|exact Hs0]. lia.
Qed.


(** Initial loot goes to the next free slot and adds exactly the quantity asked
    for; it fails, changing nothing, only when the container is full. *)
Theorem PlaceInitialLoot_adds bp q uid k :
  loot_ok k -> bp <> 0 -> 0 < q ->
  let '(ok, k') := PlaceInitialLoot bp q uid k in
  loot_ok k' /\ (ok = true <-> _nextLootSlot k < container_size k) /\
  (ok = false -> k' = k) /\ _containerVersion k' = _containerVersion k /\
  forall b, b <> 0 -> total b (k_inventorySlots k') =
            total b (k_inventorySlots k) + if ok && (bp =? b) then q else 0.
Proof.
  intros Hk Hbp Hq. destruct (Z.ltb_spec (_nextLootSlot k) (container_size k)) as [Hlt|Hge].
  - pose proof (PlaceInitialLoot_step bp q uid k Hk Hbp Hq Hlt) as (H1 & _ & H3 & H4 & H5). unfold exec in *.
    destruct (PlaceInitialLoot bp q uid k) as [ok k']. cbn in *. subst ok. by split_and!.
  - unfold PlaceInitialLoot. destruct (Z.leb_spec (container_size k) (_nextLootSlot k)); [|lia].
    split_and!; try done; [split; [done|lia]|]. intros b Hb. simpl. lia.
Qed.

(** ** Witnesses *)

Lemma PlaceInitialLoot_adds_witness :
  let r := PlaceInitialLoot 5 12 77 (new_VehicleContainer 3 OT_TenerifeBus vector3_zero (f32_of_Z 0)) in
  fst r = true /\ loot_ok (snd r).
Proof.
  intros r. split; [vm_compute; reflexivity|].
  pose proof (PlaceInitialLoot_adds 5 12 77 (new_VehicleContainer 3 OT_TenerifeBus vector3_zero (f32_of_Z 0))) as H.
  fold r in H. destruct r as [ok k']. apply H; [|discriminate|lia].
  apply loot_ok_init; [unfold DEFAULT_CONTAINER_VOLUME; lia|reflexivity].
Defined.
