(* ===== verification/Buffers.v ===== *)
(** * Send buffers, receive buffers and the framing of the IPC streams

    Models src/src/SendBuffer.h and .cpp, RecvBuffer.h and .cpp, the
    [OpenSendBuffer] of IoUringWrapper.cpp, the packet header and [MakeSendBuffer] of
    PacketHandler.h, and the read loops of the three stream sessions
    ([HttpIPCSession], [M2DSession] and [D2MSession] run the same one). *)

From S2P Require Import Prelude.
Local Open Scope Z_scope.

(** ** Send buffers *)

Definition SEND_BUFFER_CHUNK_SIZE : Z := 65536.

(** A chunk; [ch_id] is its identity (each [make_shared] is a new one). *)
Record SendBufferChunk := mk_chunk { ch_id : nat; _isOpen : bool; _usedSize : Z }.
#[export] Instance eta_SendBufferChunk : Eta SendBufferChunk := fun r =>
  mk_chunk (ch_id r) (_isOpen r) (_usedSize r).

(** A buffer: the chunk it keeps alive and its place there. *)
Record SendBuffer := mk_send_buffer {
  sb_chunk : nat; _index : Z; _allocSize : Z; _writeSize : Z }.
#[export] Instance eta_SendBuffer : Eta SendBuffer := fun r =>
  mk_send_buffer (sb_chunk r) (_index r) (_allocSize r) (_writeSize r).

(** The current chunk of the ring wrapper, and the next identity. *)
Record Ring := mk_ring { _sendBufferChunkRef : option SendBufferChunk; next_chunk : nat }.
#[export] Instance eta_Ring : Eta Ring := fun r => mk_ring (_sendBufferChunkRef r) (next_chunk r).
Definition ring_init : Ring := mk_ring None 0.

(** A call that may throw [std::runtime_error]. *)
Inductive Thrown (A : Type) := Throw | Returns (a : A).
Arguments Throw {A}. Arguments Returns {A} _.

Definition FreeSize (c : SendBufferChunk) : Z := u32 (SEND_BUFFER_CHUNK_SIZE - _usedSize c).

Definition Open (allocSize : Z) : ST SendBufferChunk (option SendBuffer) := fun c =>
  if FreeSize c <? allocSize then (None, c)
  else (Some (mk_send_buffer (ch_id c) (_usedSize c) allocSize 0), c <| _isOpen := true |>).

Definition Close (allocSize : Z) (c : SendBufferChunk) : Thrown SendBufferChunk :=
  if negb (_isOpen c) then Throw
  else Returns (c <| _isOpen := false |> <| _usedSize ::= fun u => u32 (u + allocSize) |>).

Definition OpenSendBuffer (allocSize : Z) (r : Ring) : Thrown (option SendBuffer * Ring) :=
  if SEND_BUFFER_CHUNK_SIZE <? allocSize then Throw
  else
    let fresh := (mk_chunk (next_chunk r) false 0, S (next_chunk r)) in
    let '(c, n) := match _sendBufferChunkRef r with
                   | None => fresh
                   | Some c => if FreeSize c <? allocSize then fresh else (c, next_chunk r)
                   end in
    if _isOpen c then Throw
    else let '(b, c') := Open allocSize c in Returns (b, mk_ring (Some c') n).

(** [SendBuffer::Close]; the chunk of an open buffer is the current one. *)
Definition SendBuffer_Close (writeSize : Z) (b : SendBuffer) (r : Ring) : Thrown (SendBuffer * Ring) :=
  if _allocSize b <? writeSize then Throw
  else match _sendBufferChunkRef r with
       | Some c => match Close writeSize c with
                   | Throw => Throw
                   | Returns c' => Returns (b <| _writeSize := writeSize |>,
                                            r <| _sendBufferChunkRef := Some c' |>)
                   end
       | None => Throw
       end.

(** Opening, filling and closing one buffer after the other, the way every
    [MakeSendBuffer] and [MakeD2CPacketImpl] does. *)
Fixpoint make_buffers (sizes : list Z) (r : Ring) : option (list SendBuffer * Ring) :=
  match sizes with
  | [] => Some ([], r)
  | n :: sizes' =>
      match OpenSendBuffer n r with
      | Returns (Some b, r1) =>
          match SendBuffer_Close n b r1 with
          | Returns (b', r2) => '(bs, r3) ← make_buffers sizes' r2; Some (b' :: bs, r3)
          | Throw => None
          end
      | _ => None
      end
  end.

(** ** Receive buffers *)

Definition BUFFER_SIZE : Z := 32768.

(** [r_bytes] are the bytes before [_readPos], the initialised part of the vector. *)
Record RecvBuffer := mk_recv_buffer { r_bytes : list Z; _processedPos : Z }.
#[export] Instance eta_RecvBuffer : Eta RecvBuffer := fun r => mk_recv_buffer (r_bytes r) (_processedPos r).
Definition recv_buffer_init : RecvBuffer := mk_recv_buffer [] 0.

Definition _capacity : Z := BUFFER_SIZE * 2.
Definition _readPos (r : RecvBuffer) : Z := Z.of_nat (length (r_bytes r)).
Definition DataSize (r : RecvBuffer) : Z := _readPos r - _processedPos r.
Definition RecvFreeSize (r : RecvBuffer) : Z := _capacity - _readPos r.

Definition pending_bytes (r : RecvBuffer) : list Z := drop (Z.to_nat (_processedPos r)) (r_bytes r).

Definition Clean (r : RecvBuffer) : RecvBuffer :=
  if DataSize r =? 0 then mk_recv_buffer [] 0
  else if RecvFreeSize r <? BUFFER_SIZE then mk_recv_buffer (pending_bytes r) 0
  else r.

(** The kernel wrote [bytes] at [ReadPos()], then [OnRead]. *)
Definition OnRead (bytes : list Z) (r : RecvBuffer) : RecvBuffer :=
  r <| r_bytes ::= fun b => b ++ bytes |>.

Definition OnProcess (processedSize : Z) : ST RecvBuffer bool := fun r =>
  if DataSize r <? processedSize then (false, r)
  else (true, r <| _processedPos ::= fun p => p + processedSize |>).

(** ** Packets of the IPC streams *)

Definition PACKET_HEADER_SIZE : Z := 4.
Record PacketHeader := mk_packet_header { ph_id : Z; ph_size : Z }.

(** Little-endian 16-bit fields. *)
Definition le16 (z : Z) : list Z := [Z.land z 255; Z.land (Z.shiftr z 8) 255].
Definition of_le16 (l : list Z) : Z := nth 0 l 0 + 256 * nth 1 l 0.

Definition encode_header (h : PacketHeader) : list Z := le16 (ph_id h) ++ le16 (ph_size h).
Definition decode_header (l : list Z) : PacketHeader :=
  mk_packet_header (of_le16 (take 2 l)) (of_le16 (take 2 (drop 2 l))).

(** The bytes [MakeSendBuffer] writes for a serialised message. *)
Definition frame (pktId : Z) (payload : list Z) : list Z :=
  let dataSize := u16 (Z.of_nat (length payload)) in
  encode_header (mk_packet_header pktId (u16 (dataSize + PACKET_HEADER_SIZE)))
  ++ take (Z.to_nat dataSize) payload.

(** ** The read loop *)

Section framing.
(** [handle] is [PacketHandler::HandlePacket] on one frame, over the state [S] of
    the receiving process. *)
Context {S : Type} (handle : list Z -> ST S bool).

(** What the loop ends with: out of data, or a refused packet. *)
Inductive LoopEnd := NeedMore | Refused.

(** [while (true)]; [None] is a loop that is still running when the fuel ends. *)
Fixpoint read_loop (fuel : nat) (r : RecvBuffer) (s : S) : option (LoopEnd * RecvBuffer * S) :=
  match fuel with
  | O => None
  | Datatypes.S fuel' =>
      let currentDataSize := DataSize r in
      if currentDataSize <? PACKET_HEADER_SIZE then Some (NeedMore, r, s)
      else
        let header := decode_header (pending_bytes r) in
        if currentDataSize <? ph_size header then Some (NeedMore, r, s)
        else
          let '(ok, s') := handle (take (Z.to_nat (ph_size header)) (pending_bytes r)) s in
          if ok then read_loop fuel' (snd (OnProcess (ph_size header) r)) s'
          else Some (Refused, r, s')
  end.

(** A stream session: its buffer and whether a read is registered. *)
Record StreamSession := mk_stream { _recvBuffer : RecvBuffer; s_armed : option Z; s_app : S }.

(** [Recv] registers a read of [FreeSize()] bytes. *)
Definition Recv (s : StreamSession) : StreamSession :=
  mk_stream (_recvBuffer s) (Some (RecvFreeSize (_recvBuffer s))) (s_app s).

(** [OnReadComplete(readBytes)]; the completed read is no longer registered. *)
Definition OnReadComplete (bytes : list Z) (s : StreamSession) : option StreamSession :=
  match bytes with
  | [] => Some (mk_stream (_recvBuffer s) None (s_app s))
  | _ =>
      let r := OnRead bytes (_recvBuffer s) in
      '(e, r', a') ← read_loop (Datatypes.S (Z.to_nat (DataSize r))) r (s_app s);
      let s' := mk_stream r' None a' in
      Some (match e with NeedMore => Recv s' | Refused => s' end)
  end.

(** Reads completing one after the other: the kernel delivers a non-empty chunk only
    to a registered read, and no more than the read asked for. *)
Fixpoint feed (chunks : list (list Z)) (s : StreamSession) : option StreamSession :=
  match chunks with
  | [] => Some s
  | c :: chunks' =>
      match s_armed s with
      | Some n =>
          if (0 <? Z.of_nat (length c)) && (Z.of_nat (length c) <=? n)
          then s' ← OnReadComplete c s; feed chunks' s' else None
      | None => None
      end
  end.

(** A session that has just been accepted. *)
Definition stream_init (a : S) : StreamSession := Recv (mk_stream recv_buffer_init None a).

End framing.
Arguments mk_stream {S} _ _ _. Arguments _recvBuffer {S} _. Arguments s_armed {S} _.
Arguments s_app {S} _. Arguments Recv {S} _. Arguments stream_init {S} _.

(** ** Lemmas *)

Lemma FreeSize_range c : 0 <= _usedSize c <= SEND_BUFFER_CHUNK_SIZE -> FreeSize c = SEND_BUFFER_CHUNK_SIZE - _usedSize c.
Proof. unfold FreeSize, SEND_BUFFER_CHUNK_SIZE. intros. apply u32_id. width. Qed.

(** Between two operations the current chunk is closed and used within bounds. *)
Definition ring_ok (r : Ring) : Prop :=
  match _sendBufferChunkRef r with
  | None => True
  | Some c => _isOpen c = false /\ 0 <= _usedSize c <= SEND_BUFFER_CHUNK_SIZE /\ (ch_id c < next_chunk r)%nat
  end.

(** The place [b] is free in the ring [r]: in a chunk to come, or above what is used. *)
Definition place_free (b : SendBuffer) (r : Ring) : Prop :=
  (next_chunk r <= sb_chunk b)%nat \/
  exists c, _sendBufferChunkRef r = Some c /\ sb_chunk b = ch_id c /\ _usedSize c <= _index b.
Definition place_used (b : SendBuffer) (r : Ring) : Prop :=
  (sb_chunk b < next_chunk r)%nat /\
  forall c, _sendBufferChunkRef r = Some c -> sb_chunk b = ch_id c -> _index b + _writeSize b <= _usedSize c.

Definition disjoint_places (a b : SendBuffer) : Prop :=
  sb_chunk a <> sb_chunk b \/ _index a + _writeSize a <= _index b \/ _index b + _writeSize b <= _index a.

Lemma make_one n r :
  ring_ok r -> 0 <= n <= SEND_BUFFER_CHUNK_SIZE ->
  exists b r', make_buffers [n] r = Some ([b], r') /\ ring_ok r' /\
    _allocSize b = n /\ _writeSize b = n /\ 0 <= _index b /\ _index b + n <= SEND_BUFFER_CHUNK_SIZE /\
    place_free b r /\ place_used b r' /\ (next_chunk r <= next_chunk r')%nat /\
    (forall a, place_free a r' -> place_free a r) /\ (forall a, place_used a r -> place_used a r').
Proof.
  intros Hr Hn. unfold make_buffers, OpenSendBuffer.
  destruct (Z.ltb_spec SEND_BUFFER_CHUNK_SIZE n); [lia|].
  set (fresh := (mk_chunk (next_chunk r) false 0, S (next_chunk r))).
  assert (Hnew : exists c m, (match _sendBufferChunkRef r with
      | None => fresh | Some c => if FreeSize c <? n then fresh else (c, next_chunk r) end) = (c, m) /\
      _isOpen c = false /\ 0 <= _usedSize c /\ _usedSize c + n <= SEND_BUFFER_CHUNK_SIZE /\
      ((ch_id c = next_chunk r /\ m = S (next_chunk r) /\ _usedSize c = 0) \/
       (_sendBufferChunkRef r = Some c /\ m = next_chunk r /\ (ch_id c < next_chunk r)%nat))).
  { unfold ring_ok in Hr. destruct (_sendBufferChunkRef r) as [c|].
    - destruct Hr as (Ho & Hu & Hid). rewrite (FreeSize_range c) by done.
      destruct (Z.ltb_spec (SEND_BUFFER_CHUNK_SIZE - _usedSize c) n).
      + eexists _, _. split; [reflexivity|]. simpl. split_and!; [done|lia|lia|left; split_and!; lia].
      + eexists _, _. split; [reflexivity|]. split_and!; [done|lia|lia|right; split_and!; [done|lia|lia]].
    - eexists _, _. split; [reflexivity|]. simpl. split_and!; [done|lia|lia|left; split_and!; lia]. }
  destruct Hnew as (c & m & -> & Ho & Hu & Hfit & Hc). rewrite Ho. unfold Open.
  rewrite (FreeSize_range c) by lia. destruct (Z.ltb_spec (SEND_BUFFER_CHUNK_SIZE - _usedSize c) n); [lia|].
  unfold SendBuffer_Close, Close. cbn [_allocSize _sendBufferChunkRef setf _isOpen negb _usedSize ch_id _writeSize next_chunk sb_chunk _index].
  rewrite Z.ltb_irrefl. rewrite (u32_id (_usedSize c + n)) by (unfold SEND_BUFFER_CHUNK_SIZE in *; width).
  eexists _, _. split; [reflexivity|].
  unfold ring_ok, place_free, place_used.
  cbn [_allocSize _sendBufferChunkRef setf _isOpen negb _usedSize ch_id _writeSize next_chunk sb_chunk _index].
  destruct Hc as [(Hid & -> & Hz)|(Hrc & -> & Hid)]; split_and!; try done; try lia;
    try (intros c' [= <-] _; simpl; lia).
  - intros a [Ha|(c' & [= <-] & Ha & _)]; left; simpl in *; lia.
  - intros a [Ha1 _]. split; [lia|]. intros c' [= <-] Heq. simpl in *. lia.
  - right. exists c. split_and!; [done|done|lia].
  - intros a [Ha|(c' & [= <-] & Ha & Hi)]; [by left|right]. simpl in *. exists c. split_and!; [done|done|lia].
  - intros a [Ha1 Ha2]. split; [lia|]. intros c' [= <-] Heq. simpl in *. specialize (Ha2 c Hrc Heq). lia.
Qed.

Lemma make_buffers_cons n sizes r :
  make_buffers (n :: sizes) r =
  '(bs, r1) ← make_buffers [n] r; '(bs', r2) ← make_buffers sizes r1; Some (bs ++ bs', r2).
Proof.
  simpl. destruct (OpenSendBuffer n r) as [|[[b|] r1]]; [done| |done].
  destruct (SendBuffer_Close n b r1) as [|[b' r2]]; [done|]. simpl.
  by destruct (make_buffers sizes r2) as [[bs r3]|].
Qed.

Lemma make_all sizes r :
  ring_ok r -> Forall (fun n => 0 <= n <= SEND_BUFFER_CHUNK_SIZE) sizes ->
  exists bs r', make_buffers sizes r = Some (bs, r') /\ ring_ok r' /\
    Forall2 (fun n b => _writeSize b = n /\ 0 <= _index b /\ _index b + n <= SEND_BUFFER_CHUNK_SIZE) sizes bs /\
    Forall (fun b => place_free b r) bs /\ Forall (fun b => place_used b r') bs /\
    ForallOrdPairs disjoint_places bs /\
    (next_chunk r <= next_chunk r')%nat /\ (forall a, place_used a r -> place_used a r').
Proof.
  revert r. induction sizes as [|n sizes IH]; intros r Hr Hs.
  { exists [], r. split_and!; try done; try constructor. }
  apply Forall_cons in Hs as [Hn Hs].
  destruct (make_one n r Hr Hn) as (b & r1 & E1 & Hr1 & _ & Hw & Hi & Hb & Hf & Hu & Hm & Hfr & Hus).
  destruct (IH r1 Hr1 Hs) as (bs & r2 & E2 & Hr2 & HF & Hfs & Hus2 & Hd & Hm2 & Hkeep).
  exists (b :: bs), r2. rewrite make_buffers_cons, E1. simpl. rewrite E2. simpl.
  split_and!; [done|done|by constructor; [rewrite Hw|]| | | |lia|by auto].
  - constructor; [done|]. eapply Forall_impl; [exact Hfs|]. auto.
  - constructor; [by apply Hkeep|done].
  - constructor; [|done]. clear -Hu Hfs. induction Hfs as [|a l Ha Hfs IH]; constructor; [|done].
    destruct Hu as [Hu1 Hu2]. destruct Ha as [Ha|(c & Hc & Ha & Hle)]; [left; lia|].
    destruct (decide (sb_chunk b = sb_chunk a)) as [Heq|Hne]; [|by left].
    right. left. specialize (Hu2 c Hc). rewrite Heq, Ha in Hu2. specialize (Hu2 eq_refl). lia.
Qed.

(** *** Frames *)

Definition is_byte (z : Z) : Prop := 0 <= z < 256.

Lemma le16_roundtrip z l : is_u16 z -> of_le16 (take 2 (le16 z ++ l)) = z.
Proof.
  intros Hz. unfold of_le16, le16. cbn [app take nth]. change 255 with (Z.ones 8).
  rewrite !Z.land_ones, Z.shiftr_div_pow2 by lia. change (2 ^ 8) with 256.
  rewrite (Z.mod_small (z / 256)) by width. pose proof (Z.div_mod z 256). lia.
Qed.

Lemma decode_encode_header h l :
  is_u16 (ph_id h) -> is_u16 (ph_size h) -> decode_header (encode_header h ++ l) = h.
Proof.
  intros Hi Hs. unfold decode_header, encode_header. destruct h as [i s]. simpl ph_id in *. simpl ph_size in *.
  rewrite <- app_assoc, le16_roundtrip by done. f_equal.
  change (drop 2 (le16 i ++ le16 s ++ l)) with (le16 s ++ l). by apply le16_roundtrip.
Qed.

(** A complete frame: as long as its header says, the header included. *)
Definition frame_ok (f : list Z) : Prop :=
  PACKET_HEADER_SIZE <= Z.of_nat (length f) /\ ph_size (decode_header f) = Z.of_nat (length f).

Lemma frame_frame_ok pktId payload :
  is_u16 pktId -> Z.of_nat (length payload) + PACKET_HEADER_SIZE < 2 ^ 16 ->
  frame_ok (frame pktId payload) /\ decode_header (frame pktId payload) =
    mk_packet_header pktId (Z.of_nat (length payload) + PACKET_HEADER_SIZE) /\
  drop 4 (frame pktId payload) = payload.
Proof.
  unfold PACKET_HEADER_SIZE. intros Hid Hlen. unfold frame_ok, frame, PACKET_HEADER_SIZE.
  rewrite !(u16_id (Z.of_nat (length payload))) by width.
  rewrite u16_id by width. rewrite decode_encode_header by (simpl; width).
  rewrite Nat2Z.id, (take_ge payload) by lia. simpl ph_size.
  rewrite length_app. simpl length. split_and!; [lia|lia|done|done].
Qed.

Lemma decode_header_prefix f x y :
  f = x ++ y -> PACKET_HEADER_SIZE <= Z.of_nat (length x) -> decode_header f = decode_header x.
Proof.
  unfold PACKET_HEADER_SIZE. intros -> Hx.
  destruct x as [|a [|b [|c [|d x]]]]; simpl in Hx; lia || reflexivity.
Qed.

(** Every prefix of a sequence of frames is some of them and a part of the next. *)
Lemma prefix_split (fs : list (list Z)) p q :
  p ++ q = concat fs ->
  exists done todo partial rest, fs = done ++ todo /\ p = concat done ++ partial /\
    partial ++ rest = concat todo /\ rest = q /\
    match todo with [] => partial = [] | f :: _ => (length partial < length f)%nat end.
Proof.
  revert p q. induction fs as [|f fs IH]; intros p q E; simpl in E.
  { apply app_eq_nil in E as [-> ->]. by exists [], [], [], []. }
  destruct (decide (length p < length f)%nat) as [Hlt|Hge].
  { exists [], (f :: fs), p, q. by split_and!. }
  assert (Hp : p = f ++ drop (length f) p).
  { rewrite <- (take_drop (length f) p) at 1. f_equal.
    apply (f_equal (take (length f))) in E. rewrite take_app_le, take_app_length in E by lia. done. }
  rewrite Hp, <- app_assoc in E. apply app_inv_head in E.
  destruct (IH _ _ E) as (done & todo & partial & rest & -> & Hd & Hr & -> & Hm).
  exists (f :: done), todo, partial, q. split_and!; try done. rewrite Hp, Hd. simpl. by rewrite <- app_assoc.
Qed.

Section stream.
Context {S : Type} (handle : list Z -> ST S bool).

(** The state after all frames have been handled. *)
Definition handle_all (fs : list (list Z)) (s : S) : S := foldl (fun s f => exec (handle f) s) s fs.

(** Every frame is accepted in the state it finds. *)
Fixpoint accepted (fs : list (list Z)) (s : S) : Prop :=
  match fs with [] => True | f :: fs' => fst (handle f s) = true /\ accepted fs' (exec (handle f) s) end.
Lemma accepted_app fs fs' s : accepted (fs ++ fs') s <-> accepted fs s /\ accepted fs' (handle_all fs s).
Proof.
  revert s. induction fs as [|f fs IH]; intros s; cbn [app accepted]; [tauto|]. rewrite IH.
  change (handle_all (f :: fs) s) with (handle_all fs (exec (handle f) s)). tauto.
Qed.
Lemma accepted_always fs s : (forall f s, f ∈ fs -> fst (handle f s) = true) -> accepted fs s.
Proof.
  revert s. induction fs as [|f fs IH]; intros s H; [done|]. split; [apply H; by left|]. apply IH.
  intros g s' Hg. apply H. by right.
Qed.

Definition recv_ok (r : RecvBuffer) : Prop := 0 <= _processedPos r <= _readPos r.

Lemma DataSize_pending r : recv_ok r -> DataSize r = Z.of_nat (length (pending_bytes r)).
Proof. unfold recv_ok, DataSize, pending_bytes, _readPos. intros. rewrite length_drop. lia. Qed.

Lemma OnProcess_ok n r :
  recv_ok r -> 0 <= n <= DataSize r ->
  let r' := snd (OnProcess n r) in
  recv_ok r' /\ pending_bytes r' = drop (Z.to_nat n) (pending_bytes r) /\ r_bytes r' = r_bytes r.
Proof.
  intros Hr Hn. unfold OnProcess. destruct (Z.ltb_spec (DataSize r) n); [lia|]. simpl.
  unfold recv_ok, DataSize, pending_bytes, _readPos in *. simpl. split_and!; [lia|lia| |done].
  rewrite drop_drop. f_equal. lia.
Qed.

(** The loop handles the complete frames and stops at the incomplete one. *)
Lemma read_loop_frames fs partial next fuel r s :
  recv_ok r -> Forall frame_ok fs -> accepted fs s ->
  pending_bytes r = concat fs ++ partial ->
  match next with None => partial = []
                | Some f => frame_ok f /\ (length partial < length f)%nat /\ exists y, f = partial ++ y end ->
  (length fs < fuel)%nat ->
  exists r', read_loop handle fuel r s = Some (NeedMore, r', handle_all fs s) /\
    recv_ok r' /\ pending_bytes r' = partial /\ r_bytes r' = r_bytes r.
Proof.
  revert fuel r s. induction fs as [|f fs IH]; intros [|fuel] r s Hr Hfs Hok Hp Hn Hfuel; simpl in Hfuel; try lia.
  - simpl in Hp. exists r. split; [|by split_and!]. cbn [read_loop]. rewrite (DataSize_pending r Hr), Hp.
    destruct next as [f|].
    + destruct Hn as ([Hf1 Hf2] & Hlt & y & ->).
      destruct (Z.ltb_spec (Z.of_nat (length partial)) PACKET_HEADER_SIZE); [done|].
      rewrite <- (decode_header_prefix _ partial y eq_refl), Hf2 by done.
      by destruct (Z.ltb_spec (Z.of_nat (length partial)) (Z.of_nat (length (partial ++ y)))); [|lia].
    + by rewrite Hn.
  - apply Forall_cons in Hfs as [[Hf1 Hf2] Hfs]. simpl in Hp. rewrite <- app_assoc in Hp.
    cbn [read_loop]. pose proof (DataSize_pending r Hr) as Hd. rewrite Hp, length_app in Hd.
    destruct (Z.ltb_spec (DataSize r) PACKET_HEADER_SIZE); [lia|].
    assert (Hh : ph_size (decode_header (pending_bytes r)) = Z.of_nat (length f)).
    { rewrite Hp, (decode_header_prefix _ f (concat fs ++ partial) eq_refl); done. }
    rewrite Hh. destruct (Z.ltb_spec (DataSize r) (Z.of_nat (length f))); [lia|].
    rewrite Hp, Nat2Z.id, take_app_length.
    destruct Hok as [Hacc Hok].
    destruct (OnProcess_ok (Z.of_nat (length f)) r Hr ltac:(lia)) as (Hr' & Hp' & Hb').
    rewrite Hp, Nat2Z.id, drop_app_length in Hp'.
    destruct (IH fuel (snd (OnProcess (Z.of_nat (length f)) r)) (exec (handle f) s) Hr' Hfs) as (r' & E & H1 & H2 & H3).
    { done. } { done. } { done. } { lia. }
    exists r'. change (handle_all (f :: fs) s) with (handle_all fs (exec (handle f) s)).
    unfold exec in *. destruct (handle f s) as [ok s']. simpl in Hacc, E |- *. subst ok.
    split; [exact E|]. split; [done|]. split; [done|congruence].
Qed.

(** Whether the frames are accepted or not, what handling each of them keeps the loop keeps. *)
Lemma read_loop_inv (J : S -> Prop) fs partial next fuel r s :
  recv_ok r -> Forall frame_ok fs -> (forall f s, f ∈ fs -> J s -> J (exec (handle f) s)) -> J s ->
  pending_bytes r = concat fs ++ partial ->
  match next with None => partial = []
                | Some f => frame_ok f /\ (length partial < length f)%nat /\ exists y, f = partial ++ y end ->
  (length fs < fuel)%nat ->
  exists e r' s', read_loop handle fuel r s = Some (e, r', s') /\ recv_ok r' /\ J s'.
Proof.
  revert fuel r s. induction fs as [|f fs IH]; intros [|fuel] r s Hr Hfs HJ Hs Hp Hn Hfuel; simpl in Hfuel; try lia.
  - destruct (read_loop_frames [] partial next (Datatypes.S fuel) r s Hr (Forall_nil_2 _) I Hp Hn ltac:(simpl; lia)) as (r' & E & Hr' & _).
    by exists NeedMore, r', s.
  - apply Forall_cons in Hfs as [[Hf1 Hf2] Hfs]. simpl in Hp. rewrite <- app_assoc in Hp.
    cbn [read_loop]. pose proof (DataSize_pending r Hr) as Hd. rewrite Hp, length_app in Hd.
    destruct (Z.ltb_spec (DataSize r) PACKET_HEADER_SIZE); [lia|].
    assert (Hh : ph_size (decode_header (pending_bytes r)) = Z.of_nat (length f)).
    { rewrite Hp, (decode_header_prefix _ f (concat fs ++ partial) eq_refl); done. }
    rewrite Hh. destruct (Z.ltb_spec (DataSize r) (Z.of_nat (length f))); [lia|].
    rewrite Hp, Nat2Z.id, take_app_length.
    pose proof (HJ f s ltac:(by left) Hs) as H1. unfold exec in H1. destruct (handle f s) as [ok s1]. simpl in H1.
    destruct ok; [|by exists Refused, r, s1].
    destruct (OnProcess_ok (Z.of_nat (length f)) r Hr ltac:(lia)) as (Hr' & Hp' & _).
    rewrite Hp, Nat2Z.id, drop_app_length in Hp'.
    apply IH; try done; [|lia]. intros g s2 Hg. apply HJ. by right.
Qed.

Lemma frames_shorter fs : Forall frame_ok fs -> (length fs <= length (concat fs))%nat.
Proof.
  induction 1 as [|f fs [Hf _] _ IH]; simpl; [lia|]. rewrite length_app.
  unfold PACKET_HEADER_SIZE in Hf. lia.
Qed.

Lemma OnRead_ok c r :
  recv_ok r -> recv_ok (OnRead c r) /\ pending_bytes (OnRead c r) = pending_bytes r ++ c /\
  r_bytes (OnRead c r) = r_bytes r ++ c.
Proof.
  unfold recv_ok, OnRead, pending_bytes, _readPos. simpl. rewrite length_app. intros. split_and!; [lia|lia| |done].
  by rewrite drop_app_le by lia.
Qed.

Lemma read_loop_bytes fuel r s e r' s' :
  read_loop handle fuel r s = Some (e, r', s') -> r_bytes r' = r_bytes r.
Proof.
  revert r s. induction fuel as [|fuel IH]; intros r s; [done|]. cbn [read_loop].
  destruct (_ <? _); [by intros [= <- <- <-]|]. destruct (_ <? _); [by intros [= <- <- <-]|].
  destruct (handle _ s) as [[] s1]; [|by intros [= <- <- <-]]. intros E%IH. rewrite E.
  unfold OnProcess. by destruct (_ <? _).
Qed.

(** One read: the complete frames that are there are handled, the rest is kept. *)
Lemma OnReadComplete_frames fs partial next c (ss : @StreamSession S) :
  recv_ok (_recvBuffer ss) -> c <> [] -> Forall frame_ok fs ->
  accepted fs (s_app ss) ->
  pending_bytes (_recvBuffer ss) ++ c = concat fs ++ partial ->
  match next with None => partial = []
                | Some f => frame_ok f /\ (length partial < length f)%nat /\ exists y, f = partial ++ y end ->
  exists ss', OnReadComplete handle c ss = Some ss' /\ recv_ok (_recvBuffer ss') /\
    pending_bytes (_recvBuffer ss') = partial /\ s_app ss' = handle_all fs (s_app ss) /\
    s_armed ss' = Some (RecvFreeSize (_recvBuffer ss) - Z.of_nat (length c)) /\
    _readPos (_recvBuffer ss') = _readPos (_recvBuffer ss) + Z.of_nat (length c).
Proof.
  intros Hr Hc Hfs Hok Hp Hn. destruct (OnRead_ok c _ Hr) as (Hr1 & Hp1 & Hb1). rewrite Hp in Hp1.
  pose proof (frames_shorter fs Hfs) as Hlen. pose proof (DataSize_pending _ Hr1) as Hd.
  rewrite Hp1, length_app in Hd.
  destruct (read_loop_frames fs partial next (Datatypes.S (Z.to_nat (DataSize (OnRead c (_recvBuffer ss)))))
    (OnRead c (_recvBuffer ss)) (s_app ss) Hr1 Hfs Hok Hp1 Hn ltac:(lia)) as (r' & E & H1 & H2 & H3).
  unfold OnReadComplete. destruct c as [|b c]; [done|]. rewrite E. simpl.
  eexists. split; [reflexivity|]. simpl. unfold RecvFreeSize, _readPos. rewrite H3, Hb1, length_app.
  split_and!; try done; [f_equal|]; cbn [length]; lia.
Qed.
End stream.

Lemma feed_chunk {S} (handle : list Z -> ST S bool) c chunks (ss : @StreamSession S) :
  feed handle (c :: chunks) ss =
  match s_armed ss with
  | Some n => if (0 <? Z.of_nat (length c)) && (Z.of_nat (length c) <=? n)
              then s' ← OnReadComplete handle c ss; feed handle chunks s' else None
  | None => None
  end.
Proof. reflexivity. Qed.

(** A read either re-arms with what room is left, or stops the session. *)
Lemma OnReadComplete_armed {S} (handle : list Z -> ST S bool) c (ss ss' : @StreamSession S) :
  OnReadComplete handle c ss = Some ss' ->
  _readPos (_recvBuffer ss') = _readPos (_recvBuffer ss) + Z.of_nat (length c) /\
  (s_armed ss' = None \/ s_armed ss' = Some (RecvFreeSize (_recvBuffer ss'))).
Proof.
  unfold OnReadComplete. destruct c as [|b c]; [intros [= <-]; simpl; split; [lia|by left]|].
  destruct (read_loop handle _ _ _) as [[[e r'] a']|] eqn:E; [|done]. simpl. intros [= <-].
  apply read_loop_bytes in E. unfold _readPos in *. destruct e; simpl; rewrite E; simpl;
    rewrite length_app; simpl; (split; [lia|auto]).
Qed.

Lemma OnReadComplete_some {S} (handle : list Z -> ST S bool) c (ss : @StreamSession S) :
  c <> [] ->
  OnReadComplete handle c ss =
  '(e, r', a') ← read_loop handle (Datatypes.S (Z.to_nat (DataSize (OnRead c (_recvBuffer ss)))))
                  (OnRead c (_recvBuffer ss)) (s_app ss);
  Some (match e with NeedMore => Recv (mk_stream r' None a') | Refused => mk_stream r' None a' end).
Proof. by destruct c. Qed.

(** What is left to be done: some frames, the first of them not yet complete. *)
Definition incomplete (partial : list Z) (left : list (list Z)) : Prop :=
  match left with [] => partial = [] | f :: _ => (length partial < length f)%nat end.

(** Reads deliver the beginning of a sequence of frames: the frames that are complete have
    been handled, in order and once each, and the session reads on. *)
Lemma feed_part {S} (handle : list Z -> ST S bool) chunks todo rest (ss : @StreamSession S) :
  recv_ok (_recvBuffer ss) -> Forall frame_ok todo ->
  accepted handle todo (s_app ss) -> Forall (fun c => c <> []) chunks ->
  pending_bytes (_recvBuffer ss) ++ concat chunks ++ rest = concat todo ->
  incomplete (pending_bytes (_recvBuffer ss)) todo ->
  s_armed ss = Some (RecvFreeSize (_recvBuffer ss)) ->
  _readPos (_recvBuffer ss) + Z.of_nat (length (concat chunks)) <= _capacity ->
  exists ss' handled left, feed handle chunks ss = Some ss' /\ todo = handled ++ left /\
    s_app ss' = handle_all handle handled (s_app ss) /\
    pending_bytes (_recvBuffer ss') ++ rest = concat left /\ incomplete (pending_bytes (_recvBuffer ss')) left /\
    s_armed ss' = Some (RecvFreeSize (_recvBuffer ss')) /\
    _readPos (_recvBuffer ss') = _readPos (_recvBuffer ss) + Z.of_nat (length (concat chunks)).
Proof.
  revert todo ss. induction chunks as [|c chunks IH]; intros todo ss Hr Hfs Hok Hne E Hpart Harm Hcap.
  { exists ss, [], todo. split_and!; try done. simpl. lia. }
  apply Forall_cons in Hne as [Hc Hne]. simpl in E, Hcap. rewrite <- app_assoc, app_assoc in E. rewrite length_app in Hcap.
  destruct (prefix_split todo _ _ E) as (handled & left & partial & q & -> & Hp & Hrest & -> & Hm).
  apply Forall_app in Hfs as [Hfs1 Hfs2]. apply accepted_app in Hok as [Hok1 Hok2].
  destruct (OnReadComplete_frames handle handled partial (head left) c ss Hr Hc Hfs1) as
    (ss1 & E1 & Hr1 & Hp1 & Ha1 & Hs1 & Hpos1); [done|done| |].
  { destruct left as [|f left]; [done|]. simpl. apply Forall_cons in Hfs2 as [Hf _].
    split_and!; [done|done|]. simpl in Hrest. exists (drop (length partial) f).
    apply (f_equal (take (length f))) in Hrest. rewrite take_app_length, take_app_ge in Hrest by lia.
    rewrite <- Hrest at 2. rewrite drop_app_length. rewrite <- Hrest at 1. done. }
  destruct (IH left ss1 Hr1 Hfs2) as (ss' & handled2 & left2 & E2 & -> & Ha2 & Hp2 & Hi2 & Hs2 & Hpos2); try done.
  { by rewrite Ha1. }
  { by rewrite Hp1. }
  { by rewrite Hp1. }
  { rewrite Hs1. unfold RecvFreeSize. f_equal. lia. }
  { lia. }
  exists ss', (handled ++ handled2), left2. rewrite feed_chunk, Harm.
  destruct (Z.ltb_spec 0 (Z.of_nat (length c))); [|destruct c; simpl in *; lia || done].
  destruct (Z.leb_spec (Z.of_nat (length c)) (RecvFreeSize (_recvBuffer ss)));
    [|unfold RecvFreeSize in *; lia].
  simpl. rewrite E1. simpl. split_and!; try done.
  - by rewrite <- app_assoc.
  - rewrite Ha2, Ha1. unfold handle_all. by rewrite foldl_app.
  - rewrite length_app. lia.
Qed.

Lemma incomplete_init fs : Forall frame_ok fs -> incomplete (pending_bytes recv_buffer_init) fs.
Proof. destruct 1 as [|f fs [Hf _] _]; [done|]. unfold PACKET_HEADER_SIZE in Hf. simpl. lia. Qed.

(** All of them have been delivered. *)
Lemma incomplete_none partial left : partial = concat left -> incomplete partial left -> left = [].
Proof. intros E. destruct left as [|f left]; [done|]. unfold incomplete. rewrite E. simpl. rewrite length_app. lia. Qed.

Lemma feed_room {S} (handle : list Z -> ST S bool) chunks (ss s' : @StreamSession S) :
  feed handle chunks ss = Some s' -> _readPos (_recvBuffer ss) <= _capacity ->
  s_armed ss = None \/ s_armed ss = Some (RecvFreeSize (_recvBuffer ss)) ->
  _readPos (_recvBuffer ss) + Z.of_nat (length (concat chunks)) <= _capacity /\
  (forall n, s_armed s' = Some n ->
     n = _capacity - (_readPos (_recvBuffer ss) + Z.of_nat (length (concat chunks)))).
Proof.
  revert ss. induction chunks as [|c chunks IH]; intros ss.
  { intros [= <-] Hcap Harm. simpl. split; [lia|]. intros n Hn.
    destruct Harm as [Harm|Harm]; [congruence|]. unfold RecvFreeSize in Harm.
    rewrite Harm in Hn. simplify_eq. lia. }
  rewrite feed_chunk. intros E Hcap [Harm|Harm]; rewrite Harm in E; [done|].
  destruct ((0 <? _) && _) eqn:Eb; [|done]. apply andb_true_iff in Eb as [_ Hle%Z.leb_le].
  destruct (OnReadComplete handle c ss) as [s1|] eqn:E1; [|done]. simpl in E.
  apply OnReadComplete_armed in E1 as [Hpos Harm1]. unfold RecvFreeSize in Hle.
  destruct (IH s1 E ltac:(lia) Harm1) as [H1 H2]. simpl. rewrite length_app.
  split; [lia|]. intros n Hn. rewrite (H2 n Hn). lia.
Qed.

(** ** Theorems *)

(** C34. Send buffers never overlap: a sequence of packets of at most a chunk each is
    always served, every buffer lies within its chunk and no two share a byte. *)
Theorem send_buffers_disjoint sizes :
  Forall (fun n => 0 <= n <= SEND_BUFFER_CHUNK_SIZE) sizes ->
  exists bs r', make_buffers sizes ring_init = Some (bs, r') /\
    Forall2 (fun n b => _writeSize b = n /\ 0 <= _index b /\ _index b + n <= SEND_BUFFER_CHUNK_SIZE) sizes bs /\
    ForallOrdPairs disjoint_places bs.
Proof.
  intros Hs. destruct (make_all sizes ring_init I Hs) as (bs & r' & H1 & _ & H2 & _ & _ & H3 & _).
  by exists bs, r'.
Qed.

(** The stream is reassembled whatever the sizes of the reads: cut in any chunks,
    a sequence of frames that fits the buffer is handled frame by frame, in order,
    once each, and the session keeps reading, as long as the handler accepts each. *)
Theorem stream_reassembly {S} (handle : list Z -> ST S bool) fs chunks a :
  Forall frame_ok fs -> accepted handle fs a ->
  Forall (fun c => c <> []) chunks -> concat chunks = concat fs ->
  Z.of_nat (length (concat fs)) <= _capacity ->
  exists s', feed handle chunks (stream_init a) = Some s' /\
    s_app s' = handle_all handle fs a /\ pending_bytes (_recvBuffer s') = [] /\
    s_armed s' = Some (_capacity - Z.of_nat (length (concat fs))).
Proof.
  intros Hfs Hok Hne E Hcap.
  destruct (feed_part handle chunks fs [] (stream_init a) ltac:(done) Hfs Hok Hne)
    as (s' & handled & left & H1 & -> & H2 & H3 & H4 & H5 & H6); [by rewrite app_nil_r|by apply incomplete_init|done|by rewrite E|].
  rewrite app_nil_r in H3. pose proof (incomplete_none _ _ H3 H4) as ->.
  rewrite app_nil_r in *. exists s'. split_and!; try done. rewrite H5. unfold RecvFreeSize. by rewrite H6, E.
Qed.

(** A stream session never reuses its buffer: after every read it asks for what is
    left of the 64 KiB, and what it receives in its whole life fits in them. *)
Theorem stream_buffer_exhausts {S} (handle : list Z -> ST S bool) chunks a s' :
  feed handle chunks (stream_init a) = Some s' ->
  Z.of_nat (length (concat chunks)) <= _capacity /\
  (forall n, s_armed s' = Some n -> n = _capacity - Z.of_nat (length (concat chunks))).
Proof.
  intros E. destruct (feed_room handle chunks (stream_init a) s' E) as [H1 H2]; [done|by right|].
  unfold _readPos in *. simpl in *. split; [exact H1|exact H2].
Qed.

(** A refused packet silences its session: when the handler returns false on the
    first frame of a read, no further read is registered. *)
Theorem refusal_silences {S} (handle : list Z -> ST S bool) f rest a :
  frame_ok f -> fst (handle f a) = false ->
  exists s', OnReadComplete handle (f ++ rest) (stream_init a) = Some s' /\ s_armed s' = None /\
    forall chunks, chunks <> [] -> feed handle chunks s' = None.
Proof.
  intros [Hf1 Hf2] Href. unfold PACKET_HEADER_SIZE in Hf1.
  set (r := OnRead (f ++ rest) recv_buffer_init).
  assert (Hp : pending_bytes r = f ++ rest) by done.
  assert (Hd : DataSize r = Z.of_nat (length (f ++ rest))) by (unfold DataSize, _readPos; simpl; lia).
  rewrite length_app in Hd.
  assert (E : read_loop handle (Datatypes.S (Z.to_nat (DataSize r))) r a =
              Some (Refused, r, exec (handle f) a)).
  { cbn [read_loop]. unfold PACKET_HEADER_SIZE.
    destruct (Z.ltb_spec (DataSize r) 4); [lia|].
    rewrite Hp, (decode_header_prefix _ f rest eq_refl), Hf2 by (unfold PACKET_HEADER_SIZE; lia).
    destruct (Z.ltb_spec (DataSize r) (Z.of_nat (length f))); [lia|].
    rewrite Nat2Z.id, take_app_length. unfold exec. destruct (handle f a) as [ok a']. by simpl in *; subst. }
  exists (mk_stream r None (exec (handle f) a)). split; [|split; [done|]].
  - rewrite OnReadComplete_some by (destruct f; simpl in *; lia || done).
    change (OnRead (f ++ rest) (_recvBuffer (stream_init a))) with r.
    change (s_app (stream_init a)) with a. by rewrite E.
  - intros [|c chunks] Hc; [done|]. done.
Qed.

(** ** Witnesses *)

Lemma send_buffers_disjoint_witness :
  let sizes := [60000; 6000; 536; 65536] in
  (forall bs r', make_buffers sizes ring_init = Some (bs, r') -> map sb_chunk bs = [0; 1; 1; 2]%nat) /\
  exists bs r', make_buffers sizes ring_init = Some (bs, r') /\ ForallOrdPairs disjoint_places bs.
Proof.
  intros sizes. split; [vm_compute; by intros bs r' [= <- <-]|].
  destruct (send_buffers_disjoint sizes) as (bs & r' & H1 & _ & H2).
  - repeat (apply Forall_cons; split; [vm_compute; by split|]). apply Forall_nil_2.
  - by exists bs, r'.
Defined.

(** A receiver that counts the packets and their payload bytes. *)
Definition counting (f : list Z) : ST (Z * Z) bool := fun '(n, m) =>
  (true, (n + 1, m + ph_size (decode_header f) - PACKET_HEADER_SIZE)).

Lemma sample_frames_ok : Forall frame_ok [frame 2 [7; 8; 9]; frame 104 []].
Proof.
  repeat (apply Forall_cons; split; [apply frame_frame_ok; [vm_compute; by split|by vm_compute]|]).
  apply Forall_nil_2.
Qed.

Lemma stream_reassembly_witness :
  exists s', feed counting [[2; 0; 7]; [0; 7]; [8; 9; 104; 0; 4]; [0]] (stream_init (0, 0)) = Some s' /\
             s_app s' = (2, 3).
Proof.
  destruct (stream_reassembly counting [frame 2 [7; 8; 9]; frame 104 []]
    [[2; 0; 7]; [0; 7]; [8; 9; 104; 0; 4]; [0]] (0, 0)) as (s' & H1 & H2 & _).
  - exact sample_frames_ok.
  - repeat split.
  - repeat (apply Forall_cons; split; [discriminate|]). apply Forall_nil_2.
  - vm_compute; reflexivity.
  - vm_compute; discriminate.
  - exists s'. split; [exact H1|]. rewrite H2. vm_compute; reflexivity.
Defined.

Lemma stream_buffer_exhausts_witness :
  s_armed <$> feed counting [[2; 0; 7]; [0; 7; 8; 9]; [1]] (stream_init (0, 0)) = Some (Some 65528) /\
  Z.of_nat (length (concat [[2; 0; 7]; [0; 7; 8; 9]; [1]])) <= _capacity.
Proof.
  split; [vm_compute; reflexivity|].
  destruct (feed counting [[2; 0; 7]; [0; 7; 8; 9]; [1]] (stream_init (0, 0))) as [s'|] eqn:E.
  - exact (proj1 (stream_buffer_exhausts counting [[2; 0; 7]; [0; 7; 8; 9]; [1]] (0, 0) s' E)).
  - exfalso. vm_compute in E. discriminate E.
Defined.

Lemma refusal_silences_witness :
  exists s', OnReadComplete (fun _ s => (false, s)) (frame 2 [7; 8; 9] ++ [2; 0]) (stream_init 0) = Some s' /\
             feed (fun _ s => (false, s)) [[7]] s' = None.
Proof.
  destruct (refusal_silences (fun _ s => (false, s)) (frame 2 [7; 8; 9]) [2; 0] 0) as (s' & H1 & _ & H2).
  - exact (proj1 (proj1 (Forall_cons _ _ _) sample_frames_ok)).
  - reflexivity.
  - exists s'. split; [exact H1|]. apply H2. discriminate.
Defined.
