(* ===== verification/Protocol.v ===== *)
(** * The client protocol

    Models the packet header, the packet kinds and the wrappers that fix packet
    id and channel of src/src/DedicateProcess/ClientPacketHandler.h, the packet ids
    of enum.h, and the messages the handlers read and write (the records of
    External_Protocol.proto).

    Code that is not in the repository is the class [External]: the protobuf
    encoder and decoder, the XXH64 hash and the iteration order of
    absl::flat_hash_map. *)

From S2P Require Import Prelude Items Inventory Geometry Combat Container.
From stdpp Require Import strings.
Local Open Scope Z_scope.

(** ** Messages from the server *)

Inductive DespawnReason := DESPAWN_UNKNOWN | DESPAWN_RECALLED | DESPAWN_DEAD | DESPAWN_DISCONNECTED.
Inductive HealthChangeReason := REASON_UNKNOWN | REASON_WEAPON_HIT | REASON_ITEM_HEAL | REASON_NPC_ATTACK.
Inductive RecallResultReason :=
| RECALL_RESULT_UNKNOWN | RECALL_RESULT_SUCCESS | RECALL_RESULT_OUT_OF_ZONE
| RECALL_RESULT_PLAYER_DEAD | RECALL_RESULT_SESSION_LOST | RECALL_RESULT_SERVER_INTERNAL.
#[export] Instance RecallResultReason_eq_dec : EqDecision RecallResultReason.
Proof. solve_decision. Defined.

(** [D2CSpawnPlayerObject]. *)
Record SpawnPlayerMsg := mk_spawn_player { sp_character_type : Z; sp_game_object : UnityGameObjectMsg; sp_weapon_id : Z }.

(** [C2DRequestInteractContainerObject] and its response have the same fields. *)
Record InteractMsg := mk_interact {
  ic_interact_type : Z; ic_start_object_id : Z; ic_start_version : Z; ic_start_slot_idx : Z;
  ic_quantity : Z; ic_end_object_id : Z; ic_end_version : Z; ic_end_slot_idx : Z }.

Record EquipRequest := mk_equip_request {
  eq_action_type : Z; eq_equipment_slot_type : Z; eq_object_id : Z; eq_object_version : Z;
  eq_object_slot_idx : Z; eq_my_version : Z }.
Record EquipResponse := mk_equip_response {
  er_action_type : Z; er_equipment_slot_type : Z; er_object_id : Z; er_object_version : Z;
  er_object_slot_idx : Z; er_my_version : Z; er_unloaded_ammo_slot : option InventorySlotMsg }.

(** [D2CNotifyWeaponChanged]. *)
Record WeaponChanged := mk_weapon_changed {
  wc_object_id : Z; wc_weapon_id : Z; wc_slot : Z; wc_inventory_version : Z }.
#[export] Instance eta_WeaponChanged : Eta WeaponChanged := fun r =>
  mk_weapon_changed (wc_object_id r) (wc_weapon_id r) (wc_slot r) (wc_inventory_version r).

Record HealthChange := mk_health {
  hc_health_point : Z; hc_shield_point : Z; hc_reason : HealthChangeReason; hc_attacker_object_id : Z }.

Inductive D2CMsg :=
| D2CHeartBeat
| D2CResponseChannelOpen (echo : string)
| D2CResponseBlueprintStaticObjects (index : Z) (is_last : bool) (objs : list UnityGameObjectMsg)
| D2CResponseSpawnMeSpawnSpot (spawn_point : Vector3) (character_type object_id remaining_life_ms : Z)
| D2CResponseSpawnMeDynamicObjects (index : Z) (is_last : bool) (objs : list UnityGameObjectMsg)
| D2CResponseSpawnByObjectId (obj : UnityGameObjectMsg)
| D2CSpawnPlayerObject (p : SpawnPlayerMsg)
| D2CSpawnPlayerObjects (players : list SpawnPlayerMsg)
| D2CUpdatePlayerStates (states : list PlayerState)
| D2CFullInventorySync (sync : FullInventorySync)
| D2CResponseOpenContainer (info : ContainerInfo)
| D2CResponseInteractContainerObject (m : InteractMsg)
| D2CResponseEquipItem (m : EquipResponse)
| D2CResponseInteractContainerObjectDeny (mask : Z)
| D2CResponseEquipItemDeny (mask : Z)
| D2CResponseRecentContainerInfo (info : ContainerInfo)
| D2CBroadcastWeaponFire (shooter : Z) (hit_point : option Vector3)
| D2CNotifyHealthChange (h : HealthChange)
| D2CResponseRecall (result : bool) (recall_spot_index : Z)
| D2CNotifyRecallResult (result : bool) (recall_spot_index : Z) (reason : RecallResultReason)
| D2CDespawnPlayerObject (object_id : Z) (reason : DespawnReason)
| D2CNotifySpawnObject (obj : UnityGameObjectMsg)
| D2CNotifyWeaponChanged (m : WeaponChanged)
| D2CNotifyDespawnObject (object_id : Z)
| D2CNotifyPlayerKilled (victim killer : Z) (victim_name killer_name : string)
| D2CNotifyObjectKilled (victim killer : Z) (killer_name : string)
| D2CResponseReload (result : bool) (deny_reason_mask fire_sequence : Z) (inventory : FullInventorySync)
| D2CNotifyReloadSequence (sequence_num object_id : Z)
| D2CNotifyNpcAuthority (object_id authority_player_id aggro : Z)
| D2CBroadcastNpcAttack (attacker : Z) (hit_point : option Vector3)
| D2CUpdateNpcStates (npc_states : list GameObjectMovementInfo).

(** The ids of the packets, both ways. *)
Inductive PktId :=
  | PKT_ID_C2D_CHANNEL_OPEN | PKT_ID_D2C_RESPONSE_CHANNEL_OPEN | PKT_ID_C2D_HEART_BEAT
  | PKT_ID_D2C_HEART_BEAT | PKT_ID_C2D_REQUEST_BLUEPRINT | PKT_ID_D2C_RESPONSE_BLUEPRINT_STATIC_OBJECTS
  | PKT_ID_C2D_REQUEST_SPAWN_ME | PKT_ID_D2C_RESPONSE_SPAWN_ME_SPAWN_SPOT
  | PKT_ID_D2C_RESPONSE_SPAWN_ME_DYNAMIC_OBJECTS | PKT_ID_C2D_REQUEST_SPAWN_BY_OBJECT_ID
  | PKT_ID_D2C_RESPONSE_SPAWN_BY_OBJECT_ID | PKT_ID_C2D_UPDATE_PLAYER_STATE
  | PKT_ID_C2D_REQUEST_SPAWN_PLAYER_OBJECTS | PKT_ID_D2C_SPAWN_PLAYER_OBJECT
  | PKT_ID_D2C_SPAWN_PLAYER_OBJECTS | PKT_ID_D2C_UPDATE_PLAYER_STATES | PKT_ID_C2D_NOTIFY_LOADING_COMPLETE
  | PKT_ID_D2C_FULL_INVENTORY_SYNC | PKT_ID_C2D_REQUEST_OPEN_CONTAINER | PKT_ID_D2C_RESPONSE_OPEN_CONTAINER
  | PKT_ID_C2D_CLOSE_CONTAINER | PKT_ID_C2D_REQUEST_INTERACT_CONTAINER_OBJECT
  | PKT_ID_D2C_RESPONSE_INTERACT_CONTAINER_OBJECT | PKT_ID_C2D_REQUEST_EQUIP_ITEM
  | PKT_ID_D2C_RESPONSE_EQUIP_ITEM | PKT_ID_D2C_RESPONSE_INTERACT_CONTAINER_OBJECT_DENY
  | PKT_ID_D2C_RESPONSE_EQUIP_ITEM_DENY | PKT_ID_C2D_REQUEST_RECENT_INVENTORY_INFO
  | PKT_ID_D2C_RESPONSE_RECENT_CONTAINER_INFO | PKT_ID_C2D_REQUEST_WEAPON_FIRE
  | PKT_ID_D2C_BROADCAST_WEAPON_FIRE | PKT_ID_D2C_NOTIFY_HEALTH_CHANGE | PKT_ID_C2D_REQUEST_RECALL
  | PKT_ID_D2C_RESPONSE_RECALL | PKT_ID_D2C_NOTIFY_RECALL_RESULT | PKT_ID_D2C_DESPAWN_PLAYER_OBJECT
  | PKT_ID_D2C_NOTIFY_SPAWN_OBJECT | PKT_ID_D2C_NOTIFY_WEAPON_CHANGED | PKT_ID_C2D_REQUEST_SWITCH_WEAPON
  | PKT_ID_D2C_NOTIFY_DESPAWN_OBJECT | PKT_ID_D2C_NOTIFY_PLAYER_KILLED | PKT_ID_D2C_NOTIFY_OBJECT_KILLED
  | PKT_ID_C2D_REQUEST_RELOAD | PKT_ID_D2C_RESPONSE_RELOAD | PKT_ID_C2D_NOTIFY_RELOAD_SEQUENCE
  | PKT_ID_D2C_NOTIFY_RELOAD_SEQUENCE | PKT_ID_C2D_REQUEST_NPC_AGGRO | PKT_ID_C2D_REQUEST_NPC_AUTHORITY
  | PKT_ID_C2D_REPORT_NPC_ATTACK | PKT_ID_D2C_NOTIFY_NPC_AUTHORITY | PKT_ID_D2C_BROADCAST_NPC_ATTACK
  | PKT_ID_D2C_UPDATE_NPC_STATES.
Definition pkt_id (id : PktId) : Z :=
  match id with
  | PKT_ID_C2D_CHANNEL_OPEN => 0 | PKT_ID_D2C_RESPONSE_CHANNEL_OPEN => 1 | PKT_ID_C2D_HEART_BEAT => 2
  | PKT_ID_D2C_HEART_BEAT => 3 | PKT_ID_C2D_REQUEST_BLUEPRINT => 4
  | PKT_ID_D2C_RESPONSE_BLUEPRINT_STATIC_OBJECTS => 5 | PKT_ID_C2D_REQUEST_SPAWN_ME => 6
  | PKT_ID_D2C_RESPONSE_SPAWN_ME_SPAWN_SPOT => 7 | PKT_ID_D2C_RESPONSE_SPAWN_ME_DYNAMIC_OBJECTS => 8
  | PKT_ID_C2D_REQUEST_SPAWN_BY_OBJECT_ID => 9 | PKT_ID_D2C_RESPONSE_SPAWN_BY_OBJECT_ID => 10
  | PKT_ID_C2D_UPDATE_PLAYER_STATE => 11 | PKT_ID_C2D_REQUEST_SPAWN_PLAYER_OBJECTS => 12
  | PKT_ID_D2C_SPAWN_PLAYER_OBJECT => 13 | PKT_ID_D2C_SPAWN_PLAYER_OBJECTS => 14
  | PKT_ID_D2C_UPDATE_PLAYER_STATES => 15 | PKT_ID_C2D_NOTIFY_LOADING_COMPLETE => 16
  | PKT_ID_D2C_FULL_INVENTORY_SYNC => 17 | PKT_ID_C2D_REQUEST_OPEN_CONTAINER => 18
  | PKT_ID_D2C_RESPONSE_OPEN_CONTAINER => 19 | PKT_ID_C2D_CLOSE_CONTAINER => 20
  | PKT_ID_C2D_REQUEST_INTERACT_CONTAINER_OBJECT => 21 | PKT_ID_D2C_RESPONSE_INTERACT_CONTAINER_OBJECT => 22
  | PKT_ID_C2D_REQUEST_EQUIP_ITEM => 23 | PKT_ID_D2C_RESPONSE_EQUIP_ITEM => 24
  | PKT_ID_D2C_RESPONSE_INTERACT_CONTAINER_OBJECT_DENY => 25 | PKT_ID_D2C_RESPONSE_EQUIP_ITEM_DENY => 26
  | PKT_ID_C2D_REQUEST_RECENT_INVENTORY_INFO => 27 | PKT_ID_D2C_RESPONSE_RECENT_CONTAINER_INFO => 28
  | PKT_ID_C2D_REQUEST_WEAPON_FIRE => 29 | PKT_ID_D2C_BROADCAST_WEAPON_FIRE => 30
  | PKT_ID_D2C_NOTIFY_HEALTH_CHANGE => 31 | PKT_ID_C2D_REQUEST_RECALL => 32
  | PKT_ID_D2C_RESPONSE_RECALL => 33 | PKT_ID_D2C_NOTIFY_RECALL_RESULT => 34
  | PKT_ID_D2C_DESPAWN_PLAYER_OBJECT => 35 | PKT_ID_D2C_NOTIFY_SPAWN_OBJECT => 36
  | PKT_ID_D2C_NOTIFY_WEAPON_CHANGED => 37 | PKT_ID_C2D_REQUEST_SWITCH_WEAPON => 38
  | PKT_ID_D2C_NOTIFY_DESPAWN_OBJECT => 39 | PKT_ID_D2C_NOTIFY_PLAYER_KILLED => 40
  | PKT_ID_D2C_NOTIFY_OBJECT_KILLED => 41 | PKT_ID_C2D_REQUEST_RELOAD => 42
  | PKT_ID_D2C_RESPONSE_RELOAD => 43 | PKT_ID_C2D_NOTIFY_RELOAD_SEQUENCE => 44
  | PKT_ID_D2C_NOTIFY_RELOAD_SEQUENCE => 45 | PKT_ID_C2D_REQUEST_NPC_AGGRO => 46
  | PKT_ID_C2D_REQUEST_NPC_AUTHORITY => 47 | PKT_ID_C2D_REPORT_NPC_ATTACK => 48
  | PKT_ID_D2C_NOTIFY_NPC_AUTHORITY => 49 | PKT_ID_D2C_BROADCAST_NPC_ATTACK => 50
  | PKT_ID_D2C_UPDATE_NPC_STATES => 51
  end.

(** Packet id and channel ([true]: reliable) of each message. *)
Definition packet_kind (m : D2CMsg) : Z * bool :=
  match m with
  | D2CHeartBeat => (pkt_id PKT_ID_D2C_HEART_BEAT, false)
  | D2CResponseChannelOpen _ => (pkt_id PKT_ID_D2C_RESPONSE_CHANNEL_OPEN, true)
  | D2CResponseBlueprintStaticObjects _ _ _ => (pkt_id PKT_ID_D2C_RESPONSE_BLUEPRINT_STATIC_OBJECTS, true)
  | D2CResponseSpawnMeSpawnSpot _ _ _ _ => (pkt_id PKT_ID_D2C_RESPONSE_SPAWN_ME_SPAWN_SPOT, true)
  | D2CResponseSpawnMeDynamicObjects _ _ _ => (pkt_id PKT_ID_D2C_RESPONSE_SPAWN_ME_DYNAMIC_OBJECTS, true)
  | D2CResponseSpawnByObjectId _ => (pkt_id PKT_ID_D2C_RESPONSE_SPAWN_BY_OBJECT_ID, true)
  | D2CSpawnPlayerObject _ => (pkt_id PKT_ID_D2C_SPAWN_PLAYER_OBJECT, true)
  | D2CSpawnPlayerObjects _ => (pkt_id PKT_ID_D2C_SPAWN_PLAYER_OBJECTS, true)
  | D2CUpdatePlayerStates _ => (pkt_id PKT_ID_D2C_UPDATE_PLAYER_STATES, false)
  | D2CFullInventorySync _ => (pkt_id PKT_ID_D2C_FULL_INVENTORY_SYNC, true)
  | D2CResponseOpenContainer _ => (pkt_id PKT_ID_D2C_RESPONSE_OPEN_CONTAINER, true)
  | D2CResponseInteractContainerObject _ => (pkt_id PKT_ID_D2C_RESPONSE_INTERACT_CONTAINER_OBJECT, true)
  | D2CResponseEquipItem _ => (pkt_id PKT_ID_D2C_RESPONSE_EQUIP_ITEM, true)
  | D2CResponseInteractContainerObjectDeny _ => (pkt_id PKT_ID_D2C_RESPONSE_INTERACT_CONTAINER_OBJECT_DENY, true)
  | D2CResponseEquipItemDeny _ => (pkt_id PKT_ID_D2C_RESPONSE_EQUIP_ITEM_DENY, true)
  | D2CResponseRecentContainerInfo _ => (pkt_id PKT_ID_D2C_RESPONSE_RECENT_CONTAINER_INFO, true)
  | D2CBroadcastWeaponFire _ _ => (pkt_id PKT_ID_D2C_BROADCAST_WEAPON_FIRE, false)
  | D2CNotifyHealthChange _ => (pkt_id PKT_ID_D2C_NOTIFY_HEALTH_CHANGE, true)
  | D2CResponseRecall _ _ => (pkt_id PKT_ID_D2C_RESPONSE_RECALL, true)
  | D2CNotifyRecallResult _ _ _ => (pkt_id PKT_ID_D2C_NOTIFY_RECALL_RESULT, true)
  | D2CDespawnPlayerObject _ _ => (pkt_id PKT_ID_D2C_DESPAWN_PLAYER_OBJECT, true)
  | D2CNotifySpawnObject _ => (pkt_id PKT_ID_D2C_NOTIFY_SPAWN_OBJECT, true)
  | D2CNotifyWeaponChanged _ => (pkt_id PKT_ID_D2C_NOTIFY_WEAPON_CHANGED, true)
  | D2CNotifyDespawnObject _ => (pkt_id PKT_ID_D2C_NOTIFY_DESPAWN_OBJECT, true)
  | D2CNotifyPlayerKilled _ _ _ _ => (pkt_id PKT_ID_D2C_NOTIFY_PLAYER_KILLED, true)
  | D2CNotifyObjectKilled _ _ _ => (pkt_id PKT_ID_D2C_NOTIFY_OBJECT_KILLED, true)
  | D2CResponseReload _ _ _ _ => (pkt_id PKT_ID_D2C_RESPONSE_RELOAD, true)
  | D2CNotifyReloadSequence _ _ => (pkt_id PKT_ID_D2C_NOTIFY_RELOAD_SEQUENCE, false)
  | D2CNotifyNpcAuthority _ _ _ => (pkt_id PKT_ID_D2C_NOTIFY_NPC_AUTHORITY, true)
  | D2CBroadcastNpcAttack _ _ => (pkt_id PKT_ID_D2C_BROADCAST_NPC_ATTACK, false)
  | D2CUpdateNpcStates _ => (pkt_id PKT_ID_D2C_UPDATE_NPC_STATES, false)
  end.

(** ** Messages from the client *)

Inductive C2DMsg :=
| C2DChannelOpen (echo : string)
| C2DHeartBeat
| C2DRequestBlueprint
| C2DRequestSpawnMe
| C2DRequestSpawnByObjectId (object_id : Z)
| C2DUpdatePlayerState (st : PlayerState) (npc_states : list GameObjectMovementInfo)
| C2DRequestSpawnPlayerObjects
| C2DNotifyLoadingComplete
| C2DRequestOpenContainer (container_object_id : Z)
| C2DCloseContainer
| C2DRequestInteractContainerObject (m : InteractMsg)
| C2DRequestEquipItem (m : EquipRequest)
| C2DRequestRecentInventoryInfo (object_id : Z)
| C2DRequestWeaponFire (fire_sequence weapon_dbid : Z) (hit_point : option Vector3) (hit_object_id : Z)
| C2DRequestRecall (recall_spot_index : Z)
| C2DRequestSwitchWeapon (target_slot my_inventory_version : Z)
| C2DRequestReload (my_inventory_version : Z)
| C2DNotifyReloadSequence (sequence_num : Z)
| C2DRequestNpcAggro (object_id aggro : Z)
| C2DRequestNpcAuthority (object_id aggro : Z)
| C2DReportNpcAttack (object_id hit_object_id : Z) (hit_point : option Vector3).

Definition PKT_ID_MAX : Z := 52.

(** The table [GClientPacketHandler] that [Init] fills: the message type parsed for
    a packet id, by its position in [C2DMsg]; every other id is refused. *)
Definition c2d_packet_id (m : C2DMsg) : Z :=
  pkt_id match m with
  | C2DChannelOpen _ => PKT_ID_C2D_CHANNEL_OPEN
  | C2DHeartBeat => PKT_ID_C2D_HEART_BEAT
  | C2DRequestBlueprint => PKT_ID_C2D_REQUEST_BLUEPRINT
  | C2DRequestSpawnMe => PKT_ID_C2D_REQUEST_SPAWN_ME
  | C2DRequestSpawnByObjectId _ => PKT_ID_C2D_REQUEST_SPAWN_BY_OBJECT_ID
  | C2DUpdatePlayerState _ _ => PKT_ID_C2D_UPDATE_PLAYER_STATE
  | C2DRequestSpawnPlayerObjects => PKT_ID_C2D_REQUEST_SPAWN_PLAYER_OBJECTS
  | C2DNotifyLoadingComplete => PKT_ID_C2D_NOTIFY_LOADING_COMPLETE
  | C2DRequestOpenContainer _ => PKT_ID_C2D_REQUEST_OPEN_CONTAINER
  | C2DCloseContainer => PKT_ID_C2D_CLOSE_CONTAINER
  | C2DRequestInteractContainerObject _ => PKT_ID_C2D_REQUEST_INTERACT_CONTAINER_OBJECT
  | C2DRequestEquipItem _ => PKT_ID_C2D_REQUEST_EQUIP_ITEM
  | C2DRequestRecentInventoryInfo _ => PKT_ID_C2D_REQUEST_RECENT_INVENTORY_INFO
  | C2DRequestWeaponFire _ _ _ _ => PKT_ID_C2D_REQUEST_WEAPON_FIRE
  | C2DRequestRecall _ => PKT_ID_C2D_REQUEST_RECALL
  | C2DRequestSwitchWeapon _ _ => PKT_ID_C2D_REQUEST_SWITCH_WEAPON
  | C2DRequestReload _ => PKT_ID_C2D_REQUEST_RELOAD
  | C2DNotifyReloadSequence _ => PKT_ID_C2D_NOTIFY_RELOAD_SEQUENCE
  | C2DRequestNpcAggro _ _ => PKT_ID_C2D_REQUEST_NPC_AGGRO
  | C2DRequestNpcAuthority _ _ => PKT_ID_C2D_REQUEST_NPC_AUTHORITY
  | C2DReportNpcAttack _ _ _ => PKT_ID_C2D_REPORT_NPC_ATTACK
  end.

(** ** The packet header *)

Definition FLAG_HAS_ACK : Z := 1.
Definition FLAG_RELIABLE : Z := 2.
Definition UDP_HEADER_SIZE : Z := 35.

Record UDPHeader := mk_udp {
  signature : Z; packetId : Z; h_sessionId : Z; rSeqNum : Z; uSeqNum : Z; flags : Z;
  ackRSeqNum : Z; ackBitfield : Z; timestamp : Z; timestampEcho : Z }.
#[export] Instance eta_UDPHeader : Eta UDPHeader := fun r =>
  mk_udp (signature r) (packetId r) (h_sessionId r) (rSeqNum r) (uSeqNum r) (flags r)
    (ackRSeqNum r) (ackBitfield r) (timestamp r) (timestampEcho r).

(** Little-endian integers of [n] bytes. *)
Fixpoint le_bytes (n : nat) (z : Z) : list Z :=
  match n with O => [] | S n' => z mod 256 :: le_bytes n' (z / 256) end.
Fixpoint of_le (l : list Z) : Z :=
  match l with [] => 0 | b :: l' => b + 256 * of_le l' end.

(** The packed structure in memory. *)
Definition encode_udp (h : UDPHeader) : list Z :=
  le_bytes 8 (signature h) ++ le_bytes 2 (packetId h) ++ le_bytes 2 (h_sessionId h) ++
  le_bytes 4 (rSeqNum h) ++ le_bytes 2 (uSeqNum h) ++ le_bytes 1 (flags h) ++
  le_bytes 4 (ackRSeqNum h) ++ le_bytes 4 (ackBitfield h) ++
  le_bytes 4 (timestamp h) ++ le_bytes 4 (timestampEcho h).

Definition field (off n : nat) (b : list Z) : Z := of_le (take n (drop off b)).
Definition decode_udp (b : list Z) : UDPHeader :=
  mk_udp (field 0 8 b) (field 8 2 b) (field 10 2 b) (field 12 4 b) (field 16 2 b) (field 18 1 b)
    (field 19 4 b) (field 23 4 b) (field 27 4 b) (field 31 4 b).

(** ** External code *)

Class External := {
  (** protobuf: [SerializeToArray] and [ParseFromArray]. *)
  ext_serialize : D2CMsg -> list Z;
  ext_parse : Z -> list Z -> option C2DMsg;
  (** [ByteSizeLong] of an object message. *)
  ext_object_size : UnityGameObjectMsg -> Z;
  (** XXH64 with seed 0 of a sequence of bytes, the digest after the updates. *)
  ext_xxh64 : list Z -> Z;
  (** The order in which a flat_hash_map iterates over its keys. *)
  ext_keys : forall A : Type, gmap Z A -> list Z }.

(** What the program relies on of that code. *)
Class ExternalLaws (E : External) : Prop := {
  serialize_bytes : forall m, Forall (fun b => 0 <= b < 256) (ext_serialize m);
  object_size_nonneg : forall o, 0 <= ext_object_size o < 2 ^ 30;
  xxh64_range : forall b, 0 <= ext_xxh64 b < 2 ^ 64;
  keys_perm : forall A (m : gmap Z A), Permutation (ext_keys A m) (map fst (map_to_list m));
  parse_kind : forall id b m, ext_parse id b = Some m -> c2d_packet_id m = id }.

(** ** Packets *)

Record Packet := mk_packet { pk_header : UDPHeader; pk_msg : D2CMsg }.

Section packets.
Context {E : External}.

Definition payload_size (m : D2CMsg) : Z := u32 (Z.of_nat (length (ext_serialize m))).

Definition packet_bytes (p : Packet) : list Z := encode_udp (pk_header p) ++ ext_serialize (pk_msg p).

(** The digest of the packet with a zero signature followed by the session's key. *)
Definition sign (bytes : list Z) (key : Z) : Z := ext_xxh64 (bytes ++ le_bytes 4 key).

Definition signed (key : Z) (p : Packet) : Packet :=
  mk_packet ((pk_header p) <| signature := sign (packet_bytes p) key |>) (pk_msg p).

(** The check of a received packet: the signature field is zeroed in the buffer
    before the digest. *)
Definition check_signature (bytes : list Z) (key : Z) : bool :=
  ext_xxh64 ((le_bytes 8 0 ++ drop 8 bytes) ++ le_bytes 4 key) =? signature (decode_udp bytes).
End packets.

(** ** Lemmas *)

Lemma length_le_bytes n z : length (le_bytes n z) = n.
Proof. revert z; induction n; simpl; auto. Qed.

Lemma of_le_bytes n z : 0 <= z < 256 ^ Z.of_nat n -> of_le (le_bytes n z) = z.
Proof.
  revert z; induction n as [|n IH]; intros z Hz; cbn [le_bytes of_le]; [change (256 ^ Z.of_nat 0) with 1 in Hz; lia|].
  rewrite IH; [pose proof (Z.div_mod z 256); lia|].
  rewrite Nat2Z.inj_succ, Z.pow_succ_r in Hz by lia.
  split; [apply Z.div_pos; lia|]. apply Z.div_lt_upper_bound; lia.
Qed.

Lemma le_bytes_bytes n z : Forall (fun b => 0 <= b < 256) (le_bytes n z).
Proof.
  revert z; induction n as [|n IH]; intros z; simpl; [constructor|].
  constructor; [apply Z.mod_pos_bound; lia|apply IH].
Qed.

Record udp_ok (h : UDPHeader) : Prop := {
  uo_sig : 0 <= signature h < 2 ^ 64; uo_id : is_u16 (packetId h); uo_sid : is_u16 (h_sessionId h);
  uo_r : is_u32 (rSeqNum h); uo_u : is_u16 (uSeqNum h); uo_flags : 0 <= flags h < 256;
  uo_ack : is_u32 (ackRSeqNum h); uo_bf : is_u32 (ackBitfield h);
  uo_ts : is_u32 (timestamp h); uo_echo : is_u32 (timestampEcho h) }.

Lemma length_encode_udp h : Z.of_nat (length (encode_udp h)) = UDP_HEADER_SIZE.
Proof. unfold encode_udp. rewrite !length_app, !length_le_bytes. reflexivity. Qed.

Lemma field_skip x off n rest : field (length x + off) n (x ++ rest) = field off n rest.
Proof.
  unfold field. rewrite <- drop_drop. rewrite drop_app_length. done.
Qed.

Lemma field_here n z rest : 0 <= z < 256 ^ Z.of_nat n -> field 0 n (le_bytes n z ++ rest) = z.
Proof.
  intros Hz. unfold field. rewrite drop_0. rewrite <- (length_le_bytes n z) at 1.
  rewrite take_app_length. by apply of_le_bytes.
Qed.

Lemma field_next k w off n rest : field (k + off) n (le_bytes k w ++ rest) = field off n rest.
Proof. rewrite <- (length_le_bytes k w) at 1. apply field_skip. Qed.

(** Walks over the fields before the one at hand. *)
Ltac seek :=
  lazymatch goal with
  | |- field 0 _ _ = _ => apply field_here
  | |- field ?off ?n (le_bytes ?k ?w ++ ?r) = _ =>
      etrans; [exact (field_next k w (off - k) n r)|]; cbn [Nat.sub]; seek
  end.

(** Decoding what was encoded. *)
Lemma decode_encode_udp h rest : udp_ok h -> decode_udp (encode_udp h ++ rest) = h.
Proof.
  intros []. unfold decode_udp, encode_udp. rewrite <- !app_assoc.
  destruct h; cbn [signature packetId h_sessionId rSeqNum uSeqNum flags ackRSeqNum ackBitfield
    timestamp timestampEcho] in *.
  f_equal; seek; unfold is_u16, is_u32 in *; simpl Z.of_nat; lia.
Qed.

Lemma drop_signature h rest : drop 8 (encode_udp h ++ rest) = drop 8 (encode_udp (h <| signature := 0 |>) ++ rest).
Proof. reflexivity. Qed.

Section signing.
Context {E : External} {L : ExternalLaws E}.

(** A signed packet passes the check of the other side, with the same key. *)
Lemma signed_checks key p :
  udp_ok (pk_header p) -> signature (pk_header p) = 0 ->
  check_signature (packet_bytes (signed key p)) key = true.
Proof.
  intros Hok H0. unfold check_signature. apply Z.eqb_eq. unfold packet_bytes at 2, signed.
  cbn [pk_header pk_msg]. rewrite decode_encode_udp.
  2:{ destruct Hok. constructor; cbn [setf signature packetId h_sessionId rSeqNum uSeqNum flags
        ackRSeqNum ackBitfield timestamp timestampEcho]; try done. apply xxh64_range. }
  cbn [setf signature]. unfold sign. f_equal. f_equal. unfold packet_bytes. cbn [pk_header pk_msg].
  rewrite (drop_signature _ (ext_serialize _)). cbn [setf signature].
  destruct p as [h m]; destruct h; cbn in H0 |- *. by subst.
Qed.
End signing.

(** ** A concrete instance

    Small functions that meet the laws, on which the witnesses evaluate. *)

#[local] Instance sample_external : External := {|
  ext_serialize m := le_bytes 2 (fst (packet_kind m));
  ext_parse id b :=
    if id =? 0 then Some (C2DChannelOpen "") else if id =? 2 then Some C2DHeartBeat else if id =? 4 then Some C2DRequestBlueprint
    else if id =? 6 then Some C2DRequestSpawnMe else if id =? 16 then Some C2DNotifyLoadingComplete
    else if id =? 18 then Some (C2DRequestOpenContainer (of_le b))
    else if id =? 20 then Some C2DCloseContainer
    else if id =? 21 then
      let at_ i := nth i b 0 in let object i := if at_ i =? 255 then 4294967295 else at_ i in
      Some (C2DRequestInteractContainerObject
        (mk_interact (at_ 0%nat) (object 1%nat) (at_ 2%nat) (at_ 3%nat) (at_ 4%nat) (object 5%nat) (at_ 6%nat) (at_ 7%nat)))
    else None;
  ext_object_size o := 40;
  ext_xxh64 b := foldl (fun d x => u64 (d * 31 + x)) 0 b;
  ext_keys A m := map fst (map_to_list m) |}.

Lemma sample_laws : ExternalLaws sample_external.
Proof.
  constructor; cbn [ext_serialize ext_parse ext_object_size ext_xxh64 ext_keys sample_external].
  - intros m. apply le_bytes_bytes.
  - lia.
  - intros b. assert (H : forall d, 0 <= d < 2 ^ 64 ->
      0 <= foldl (fun d x => u64 (d * 31 + x)) d b < 2 ^ 64); [|apply H; lia].
    induction b as [|x b IH]; intros d Hd; [done|]. apply IH. apply Z.mod_pos_bound. lia.
  - done.
  - intros id b m. repeat case_match; intros; simplify_eq; simpl; symmetry; by apply Z.eqb_eq.
Qed.
