(* ===== verification/Session.v ===== *)
(** * Player sessions

    Models src/src/DedicateProcess/Player.h and .cpp and the session half of
    PlayerSession.h and .cpp: the session states, the leave state machine, the recall
    progress, the inventory sent to the main process on leaving; and
    [MakeD2CPacketImpl] of ClientPacketHandler.h, which turns a message into a
    signed packet of the session's channel (Transport.v). *)

From S2P Require Import Prelude Items Inventory Transport Geometry Combat Container Buffers Protocol.
From stdpp Require Import strings.
Local Open Scope Z_scope.
#[local] Set Warnings "-clear-no-such-hyp".

(** ** Data *)

Record Player := mk_player {
  _uid : Z; _userId : string; _rating : Z; pl_characterType : Z; _objectId : Z;
  _interactingContainerId : Z; _fireSequence : Z; _inventory : PlayerInventory }.
#[export] Instance eta_Player : Eta Player := fun r =>
  mk_player (_uid r) (_userId r) (_rating r) (pl_characterType r) (_objectId r)
    (_interactingContainerId r) (_fireSequence r) (_inventory r).

Definition new_Player (uid : Z) (userId : string) (rating : Z)
    (inventorySlots equipmentSlots : list Slot) (characterType : Z) : Player :=
  mk_player uid userId rating characterType (-1) (-1) 0
    (new_PlayerInventory inventorySlots equipmentSlots).

Inductive SessionState := SS_INIT | SS_CONNECTED | SS_INPLAY | SS_SPECTATING | SS_LEFT.
#[export] Instance SessionState_eq_dec : EqDecision SessionState.
Proof. solve_decision. Defined.

Inductive LeaveReason := LR_NONE | LR_RECALLED | LR_DEAD | LR_DISCONNECTED.
#[export] Instance LeaveReason_eq_dec : EqDecision LeaveReason.
Proof. solve_decision. Defined.

Inductive LeaveState := LS_NONE | LS_PENDING | LS_DETACHED | LS_FINALIZED.
#[export] Instance LeaveState_eq_dec : EqDecision LeaveState.
Proof. solve_decision. Defined.

Record Leave := mk_leave {
  _leaveState : LeaveState; _leaveReason : LeaveReason; _leaveMarkedAt : Z;
  _leaveNotifyRSeq : Z; _leftNotified : bool }.
#[export] Instance eta_Leave : Eta Leave := fun r =>
  mk_leave (_leaveState r) (_leaveReason r) (_leaveMarkedAt r) (_leaveNotifyRSeq r) (_leftNotified r).

Record Recall := mk_recall {
  _isRecalling : bool; _recallGeneration : Z; _recallPassCount : Z; _recallSpotIndex : Z }.
#[export] Instance eta_Recall : Eta Recall := fun r =>
  mk_recall (_isRecalling r) (_recallGeneration r) (_recallPassCount r) (_recallSpotIndex r).

Record PlayerSession := mk_session {
  _player : Player; _ticket : string; _entryToken : string; _sessionId : Z; _securityKey : Z;
  _pRoom : option Z; _sessionState : SessionState; _clientAddr : sockaddr_in;
  s_rudp : Rudp Packet; s_leave : Leave; s_recall : Recall }.
#[export] Instance eta_PlayerSession : Eta PlayerSession := fun r =>
  mk_session (_player r) (_ticket r) (_entryToken r) (_sessionId r) (_securityKey r) (_pRoom r)
    (_sessionState r) (_clientAddr r) (s_rudp r) (s_leave r) (s_recall r).

(** The constructor; [securityKey] is what the random generator returned. *)
Definition new_PlayerSession (ticket token : string) (sessionId : Z) (pRoom : Z) (uid : Z)
    (userId : string) (rating : Z) (inventorySlots equipmentSlots : list Slot)
    (characterType securityKey : Z) : PlayerSession :=
  mk_session (new_Player uid userId rating inventorySlots equipmentSlots characterType)
    ticket token sessionId securityKey (Some pRoom) SS_INIT (mk_sockaddr 0 0) rudp_init
    (mk_leave LS_NONE LR_NONE 0 0 false) (mk_recall false 0 0 0).

(** ** Accessors *)

Definition IsActiveState (s : PlayerSession) : bool :=
  bool_decide (_sessionState s = SS_CONNECTED) || bool_decide (_sessionState s = SS_INPLAY).
Definition IsInplay (s : PlayerSession) : bool := bool_decide (_sessionState s = SS_INPLAY).
Definition IsSpectating (s : PlayerSession) : bool := bool_decide (_sessionState s = SS_SPECTATING).
Definition CanReceiveBroadcast (s : PlayerSession) : bool :=
  bool_decide (_sessionState s = SS_INPLAY) || bool_decide (_sessionState s = SS_SPECTATING).
Definition IsLeaving (s : PlayerSession) : bool := negb (bool_decide (_leaveState (s_leave s) = LS_NONE)).

Definition GetObjectId (s : PlayerSession) : Z := _objectId (_player s).
Definition SetObjectId (id : Z) (s : PlayerSession) : PlayerSession :=
  s <| _player ::= fun p => p <| _objectId := id |> |>.
Definition GetInteractingContainerId (s : PlayerSession) : Z := _interactingContainerId (_player s).
Definition SetInteractingContainerId (id : Z) (s : PlayerSession) : PlayerSession :=
  s <| _player ::= fun p => p <| _interactingContainerId := id |> |>.
Definition GetInventory (s : PlayerSession) : PlayerInventory := _inventory (_player s).
Definition update_inventory (f : PlayerInventory -> PlayerInventory) (s : PlayerSession) : PlayerSession :=
  s <| _player ::= fun p => p <| _inventory ::= f |> |>.
Definition SetNextFireSequence (seq : Z) (s : PlayerSession) : PlayerSession :=
  s <| _player ::= fun p => p <| _fireSequence := seq |> |>.
Definition SetSessionState (st : SessionState) (s : PlayerSession) : PlayerSession :=
  s <| _sessionState := st |>.
Definition SetLeaveState (st : LeaveState) (s : PlayerSession) : PlayerSession :=
  s <| s_leave ::= fun l => l <| _leaveState := st |> |>.
Definition SetLeaveNotifyRSeq (rSeq : Z) (s : PlayerSession) : PlayerSession :=
  s <| s_leave ::= fun l => l <| _leaveNotifyRSeq := rSeq |> |>.

(** [htons], on the little-endian hosts the server runs on. *)
Definition htons (z : Z) : Z := u16 (Z.lor (Z.shiftl z 8) (Z.shiftr z 8)).
Definition SetPort (port : Z) (s : PlayerSession) : PlayerSession :=
  s <| _clientAddr ::= fun a => mk_sockaddr (sin_addr a) (htons port) |>.
(** [inet_pton] is external: its result, [None] when the text is refused. *)
Definition SetIp (parsed : option Z) (s : PlayerSession) : PlayerSession :=
  match parsed with
  | Some ip => s <| _clientAddr ::= fun a => mk_sockaddr ip (sin_port a) |>
  | None => s
  end.

(** ** Recall *)

Definition RECALL_REQUIRED_PASS_COUNT : Z := 5.
Definition RECALL_TICK_INTERVAL_MS : Z := 1000.

Definition BeginRecall (spotIndex : Z) : ST PlayerSession bool := fun s =>
  if _isRecalling (s_recall s) then (false, s)
  else (true, s <| s_recall ::= fun r =>
                mk_recall true (u32 (_recallGeneration r + 1)) 0 spotIndex |>).

Definition AddRecallPass : ST PlayerSession Z := fun s =>
  let n := u32 (_recallPassCount (s_recall s) + 1) in
  (n, s <| s_recall ::= fun r => r <| _recallPassCount := n |> |>).

Definition EndRecall (s : PlayerSession) : PlayerSession :=
  s <| s_recall ::= fun r => r <| _isRecalling := false |> <| _recallGeneration ::= fun g => u32 (g + 1) |> |>.

(** ** Leaving *)

Definition DISCONNECT_TIMEOUT_MS : Z := 6000.
Definition LEAVE_FINALIZE_TIMEOUT_MS : Z := 3000.
Definition DEATH_GRACE_MS : Z := 5000.

(** [now] is the steady clock. *)
Definition MarkLeaving (reason : LeaveReason) (notifyRSeq now : Z) (s : PlayerSession) : PlayerSession :=
  let l := s_leave s in
  if bool_decide (reason = LR_NONE) then s
  else if bool_decide (_leaveState l = LS_DETACHED) || bool_decide (_leaveState l = LS_FINALIZED) then s
  else if bool_decide (_leaveState l = LS_PENDING) && negb (bool_decide (_leaveReason l = LR_DISCONNECTED)) then s
  else if bool_decide (_leaveState l = LS_PENDING) && bool_decide (reason = LR_DISCONNECTED) then s
  else
    let s1 := s <| s_leave := mk_leave LS_PENDING reason now
                     (if negb (notifyRSeq =? 0) then notifyRSeq else _leaveNotifyRSeq l) (_leftNotified l) |> in
    if bool_decide (reason = LR_DEAD) then SetSessionState SS_SPECTATING s1
    else if negb (bool_decide (reason = LR_DISCONNECTED)) then SetSessionState SS_LEFT s1
    else s1.

(** [true] when the notification goes out: [NotifyPlayerLeftToMain] is called. *)
Definition NotifyLeftOnce : ST PlayerSession bool := fun s =>
  if _leftNotified (s_leave s) then (false, s)
  else (true, s <| s_leave ::= fun l => l <| _leftNotified := true |> |>).

Definition FinalizeLeave : ST PlayerSession bool := fun s =>
  let s1 := s <| s_rudp ::= ClearPendingReliableExcept 0 |> in
  let s2 := SetSessionState SS_LEFT (SetLeaveState LS_FINALIZED s1) in
  NotifyLeftOnce s2.

(** *** What the main process is told *)

Record ItemSlot := mk_item_slot { is_item_id : Z; is_slot_index : Z; is_quantity : Z }.

Fixpoint ipc_slots (i : Z) (l : list Slot) : list ItemSlot :=
  match l with
  | [] => []
  | s :: l' => if IsEmpty s then ipc_slots (i + 1) l'
               else mk_item_slot (blueprintId (item s)) i (quantity s) :: ipc_slots (i + 1) l'
  end.

(** [inventory_slots] and [equipment_slots] of [D2MNotifyPlayerLeft]. *)
Definition SerializeInventoryForIPC (inv : PlayerInventory) : list ItemSlot * list ItemSlot :=
  (ipc_slots 0 (_inventorySlots inv),
   ipc_slots 0 [_primaryWeaponSlot inv; _secondaryWeaponSlot inv; _armorSlot inv]).

Record D2MNotifyPlayerLeft := mk_left {
  pl_uid : Z; pl_leave_reason : LeaveReason; pl_inventory : list ItemSlot; pl_equipment : list ItemSlot }.

(** [DediServerService::NotifyPlayerLeftToMain]: the message it sends. *)
Definition NotifyPlayerLeftToMain (s : PlayerSession) : D2MNotifyPlayerLeft :=
  let reason := _leaveReason (s_leave s) in
  let '(i, e) := if bool_decide (reason = LR_RECALLED) then SerializeInventoryForIPC (GetInventory s)
                 else ([], []) in
  mk_left (_uid (_player s)) reason i e.

(** ** Making packets *)

Section packets.
Context {E : External}.

(** [MakeD2CPacketImpl] with [pSession] not null.  The exception of
    [OpenSendBuffer] for a packet larger than a chunk is the [Throw] case; a
    smaller packet always gets a buffer (Buffers.v).  The reliable packet is
    kept for retransmission as it was signed. *)
Definition MakeD2CPacketImpl (nowMs : Z) (m : D2CMsg) (s : PlayerSession)
    : Thrown (Packet * PlayerSession) :=
  let '(pktId, reliable) := packet_kind m in
  let totalSize := u32 (UDP_HEADER_SIZE + payload_size m) in
  if SEND_BUFFER_CHUNK_SIZE <? totalSize then Throw
  else
    let '(rSeq, uSeq, ch) :=
      if reliable then let '(r, ch) := NextSendRSeq (s_rudp s) in (r, 0, ch)
      else let '(u, ch) := NextSendUSeq (s_rudp s) in (0, u, ch) in
    let '(ackRSeq, ackBf) := GetAckState ch in
    let fl := Z.lor (if reliable then FLAG_RELIABLE else 0) FLAG_HAS_ACK in
    let h := mk_udp 0 pktId (u16 (_sessionId s)) rSeq uSeq fl ackRSeq ackBf nowMs
               (_lastRecvTimestamp ch) in
    let p := signed (_securityKey s) (mk_packet h m) in
    let ch' := if reliable then RegisterReliable rSeq p totalSize (_clientAddr s) nowMs ch else ch in
    Returns (p, s <| s_rudp := ch' |>).
End packets.

(** ** Lemmas *)

Definition leave_rank (st : LeaveState) : Z :=
  match st with LS_NONE => 0 | LS_PENDING => 1 | LS_DETACHED => 2 | LS_FINALIZED => 3 end.

(** The steps of a session's departure, as the room and the handlers take them. *)
Inductive LeaveOp :=
| OpMark (reason : LeaveReason) (notifyRSeq now : Z)
| OpDetach
| OpFinalize.

(** [OpDetach] and [OpFinalize] are taken by [ProcessLeaves] in their states only;
    the result tells whether the main process was notified. *)
Definition leave_op (op : LeaveOp) : ST PlayerSession bool := fun s =>
  match op with
  | OpMark reason n now => (false, MarkLeaving reason n now s)
  | OpDetach =>
      if bool_decide (_leaveState (s_leave s) = LS_PENDING)
      then NotifyLeftOnce (SetLeaveState LS_DETACHED s) else (false, s)
  | OpFinalize =>
      if bool_decide (_leaveState (s_leave s) = LS_DETACHED) then FinalizeLeave s else (false, s)
  end.

(** The notifications of a sequence of steps, with the state each was sent in. *)
Fixpoint leave_run (ops : list LeaveOp) (s : PlayerSession) : list D2MNotifyPlayerLeft * PlayerSession :=
  match ops with
  | [] => ([], s)
  | op :: ops' =>
      let '(sent, s1) := leave_op op s in
      let '(rest, s2) := leave_run ops' s1 in
      ((if sent then [NotifyPlayerLeftToMain s1] else []) ++ rest, s2)
  end.

(** Notified exactly from the detached state on; in a pending state the reason is set. *)
Definition leave_ok (s : PlayerSession) : Prop :=
  let l := s_leave s in
  (_leftNotified l = true <-> 2 <= leave_rank (_leaveState l)) /\
  (_leaveState l = LS_NONE <-> _leaveReason l = LR_NONE).

Lemma MarkLeaving_frame reason n now s :
  let s' := MarkLeaving reason n now s in
  _player s' = _player s /\ _sessionId s' = _sessionId s /\ s_rudp s' = s_rudp s /\
  s_recall s' = s_recall s /\ _securityKey s' = _securityKey s /\ _pRoom s' = _pRoom s /\
  _leftNotified (s_leave s') = _leftNotified (s_leave s) /\ _entryToken s' = _entryToken s.
Proof. unfold MarkLeaving. repeat case_match; by split_and!. Qed.

Lemma MarkLeaving_late reason n now s :
  2 <= leave_rank (_leaveState (s_leave s)) -> MarkLeaving reason n now s = s.
Proof.
  unfold MarkLeaving. destruct (_leaveState (s_leave s)); simpl; try lia; intros _; by case_bool_decide.
Qed.

(** What is left of a pending departure by a new reason. *)
Definition merge_reason (st : LeaveState) (old new : LeaveReason) : LeaveReason :=
  match st with
  | LS_NONE => new
  | LS_PENDING => match old, new with
                  | LR_DISCONNECTED, LR_NONE => old
                  | LR_DISCONNECTED, _ => new
                  | _, _ => old end
  | _ => old
  end.

Lemma MarkLeaving_reason reason n now s :
  reason <> LR_NONE ->
  let s' := MarkLeaving reason n now s in
  _leaveReason (s_leave s') = merge_reason (_leaveState (s_leave s)) (_leaveReason (s_leave s)) reason /\
  _leaveState (s_leave s') = match _leaveState (s_leave s) with LS_NONE => LS_PENDING | st => st end.
Proof.
  intros Hr. unfold MarkLeaving, merge_reason, SetSessionState.
  destruct (_leaveState (s_leave s)) eqn:E1, (_leaveReason (s_leave s)) eqn:E2, reason; simpl;
    rewrite ?E1, ?E2; done.
Qed.

(** A step of a departure, by the state it finds. *)
Lemma leave_op_detach s :
  leave_op OpDetach s =
  if bool_decide (_leaveState (s_leave s) = LS_PENDING)
  then NotifyLeftOnce (SetLeaveState LS_DETACHED s) else (false, s).
Proof. reflexivity. Qed.

Lemma NotifyLeftOnce_eq s :
  NotifyLeftOnce s =
  (negb (_leftNotified (s_leave s)), s <| s_leave ::= fun l => l <| _leftNotified := true |> |>).
Proof. unfold NotifyLeftOnce. destruct s as [? ? ? ? ? ? ? ? ? [? ? ? ? []] ?]; done. Qed.

Record leave_step (sent : bool) (s s' : PlayerSession) : Prop := {
  lp_ok : leave_ok s';
  lp_player : _player s' = _player s;
  lp_rank : leave_rank (_leaveState (s_leave s)) <= leave_rank (_leaveState (s_leave s'));
  lp_sent : sent = true <-> leave_rank (_leaveState (s_leave s)) < 2 <= leave_rank (_leaveState (s_leave s'));
  lp_sticky : _leaveReason (s_leave s) = LR_RECALLED \/ _leaveReason (s_leave s) = LR_DEAD \/
              2 <= leave_rank (_leaveState (s_leave s)) ->
              _leaveReason (s_leave s') = _leaveReason (s_leave s) }.

Lemma leave_step_refl s : leave_ok s -> leave_step false s s.
Proof. intros. constructor; try done. split; [done|lia]. Qed.

Lemma leave_op_step op s :
  leave_ok s -> let '(sent, s') := leave_op op s in leave_step sent s s'.
Proof.
  intros Hs. pose proof Hs as [H1 H2]. destruct op as [reason n now| |]; cbn [leave_op].
  - destruct (decide (reason = LR_NONE)) as [->|Hr]; [by apply leave_step_refl|].
    destruct (MarkLeaving_frame reason n now s) as (Hp & _ & _ & _ & _ & _ & Hn & _).
    destruct (MarkLeaving_reason reason n now s Hr) as [Hr' Hs'].
    constructor; [unfold leave_ok|..]; rewrite ?Hn, ?Hs', ?Hr', ?H1; try done;
      unfold merge_reason;
      destruct (_leaveState (s_leave s)); simpl in *; try (split; [lia|]);
      destruct (_leaveReason (s_leave s)), reason; simpl; try lia; naive_solver lia.
  - case_bool_decide as E; [|constructor; done || lia]. rewrite NotifyLeftOnce_eq.
    unfold SetLeaveState. rewrite E in *. simpl in H1 |- *.
    destruct (_leftNotified (s_leave s)); [exfalso; naive_solver lia|].
    constructor; [unfold leave_ok|..]; cbn [setf s_leave _player _leaveState _leaveReason _leftNotified leave_rank];
      rewrite ?E; cbn [leave_rank]; naive_solver lia.
  - case_bool_decide as E; [|constructor; done || lia]. unfold FinalizeLeave. rewrite NotifyLeftOnce_eq.
    unfold SetLeaveState, SetSessionState. rewrite E in *. simpl in H1 |- *.
    destruct (_leftNotified (s_leave s)); [|exfalso; naive_solver lia].
    constructor; [unfold leave_ok|..]; cbn [setf s_leave _player _leaveState _leaveReason _leftNotified leave_rank];
      rewrite ?E; cbn [leave_rank]; naive_solver lia.
Qed.

(** The rows the main process is given of an inventory that reached it. *)
Fixpoint rows_total (bp : Z) (rows : list ItemSlot) : Z :=
  match rows with
  | [] => 0
  | r :: rows' => (if is_item_id r =? bp then is_quantity r else 0) + rows_total bp rows'
  end.

Lemma rows_total_ipc bp i l : bp <> 0 -> rows_total bp (ipc_slots i l) = Items.total bp l.
Proof.
  intros Hbp. revert i; induction l as [|s l IH]; intros i; [done|]. simpl.
  destruct (IsEmpty s) eqn:E; simpl; rewrite IH; [rewrite (count_empty bp s); done|done].
Qed.

Lemma ipc_slots_index l i r : 0 <= i -> r ∈ ipc_slots i l -> i <= is_slot_index r < i + Z.of_nat (length l).
Proof.
  revert i; induction l as [|s l IH]; intros i Hi; simpl; [by rewrite elem_of_nil|].
  destruct (IsEmpty s); [|rewrite elem_of_cons; intros [->|H]; [simpl; lia|]; revert H];
    intros H; apply IH in H; lia.
Qed.

Lemma ipc_slots_NoDup l i : 0 <= i -> NoDup (map is_slot_index (ipc_slots i l)).
Proof.
  revert i; induction l as [|s l IH]; intros i Hi; simpl; [constructor|].
  destruct (IsEmpty s); [apply IH; lia|]. simpl. constructor; [|apply IH; lia].
  intros (r & Hr & Hin)%list_elem_of_fmap. apply ipc_slots_index in Hin; lia.
Qed.

(** ** Theorems *)

(** A departure only moves forward (none, pending, detached, finalized), and
    once its reason is a recall or a death, or the player has been detached,
    nothing that happens to the session changes the reason. *)
Theorem leave_reason_final ops s :
  leave_ok s ->
  let s' := snd (leave_run ops s) in
  leave_rank (_leaveState (s_leave s)) <= leave_rank (_leaveState (s_leave s')) /\
  (_leaveReason (s_leave s) = LR_RECALLED \/ _leaveReason (s_leave s) = LR_DEAD \/
   2 <= leave_rank (_leaveState (s_leave s)) ->
   _leaveReason (s_leave s') = _leaveReason (s_leave s)).
Proof.
  revert s; induction ops as [|op ops IH]; intros s Hs; simpl; [by split|].
  pose proof (leave_op_step op s Hs) as Hstep. destruct (leave_op op s) as [sent s1].
  destruct Hstep as [Hok _ Hrank _ Hsticky]. specialize (IH s1 Hok). destruct (leave_run ops s1) as [rest s2].
  simpl in *. destruct IH as [Hrank' Hsticky']. split; [lia|]. intros H. specialize (Hsticky H).
  rewrite Hsticky', Hsticky; [done|]. rewrite Hsticky. destruct H as [H|[H|H]]; [auto..|]. right; right. lia.
Qed.

(** Whatever the order of the marks, the detachment and the finalisation, the main
    process hears of a player's departure exactly once when the player has been
    detached, and not before; it is told the final reason and the player's id, and
    the items exactly when the player was recalled. *)
Theorem main_notified_once ops s :
  leave_ok s -> _leaveState (s_leave s) = LS_NONE ->
  let '(sent, s') := leave_run ops s in
  if 2 <=? leave_rank (_leaveState (s_leave s')) then
    let reason := _leaveReason (s_leave s') in
    let '(inv, eqp) := if bool_decide (reason = LR_RECALLED)
                       then SerializeInventoryForIPC (GetInventory s) else ([], []) in
    reason <> LR_NONE /\ sent = [mk_left (_uid (_player s)) reason inv eqp]
  else sent = [].
Proof.
  intros Hs Hnone.
  assert (Hgen : forall ops s, leave_ok s ->
    let '(sent, s') := leave_run ops s in
    leave_ok s' /\ _player s' = _player s /\
    leave_rank (_leaveState (s_leave s)) <= leave_rank (_leaveState (s_leave s')) /\
    (2 <= leave_rank (_leaveState (s_leave s)) -> _leaveReason (s_leave s') = _leaveReason (s_leave s)) /\
    (leave_rank (_leaveState (s_leave s)) < 2 <= leave_rank (_leaveState (s_leave s')) ->
      sent = [NotifyPlayerLeftToMain s']) /\
    (~ leave_rank (_leaveState (s_leave s)) < 2 <= leave_rank (_leaveState (s_leave s')) -> sent = [])).
  { clear. intros ops. induction ops as [|op ops IH]; intros s Hs; simpl; [split_and!; done || lia|].
    pose proof (leave_op_step op s Hs) as Hstep. destruct (leave_op op s) as [sent s1].
    destruct Hstep as [Hok Hp Hrank Hsent Hsticky]. specialize (IH s1 Hok).
    destruct (leave_run ops s1) as [rest s2]. destruct IH as (Hok2 & Hp2 & Hrank2 & Hsticky2 & Hone & Hnone).
    split_and!; [done|congruence|lia|intros H; rewrite Hsticky2, Hsticky by lia || auto; done| |].
    - intros H. destruct sent.
      + destruct Hsent as [Hsent _]. specialize (Hsent eq_refl). rewrite Hnone by lia. simpl.
        f_equal. unfold NotifyPlayerLeftToMain, GetInventory. rewrite Hsticky2, Hp2 by lia. done.
      + simpl. apply Hone. destruct (Z.leb_spec 2 (leave_rank (_leaveState (s_leave s1)))); [|lia].
        exfalso. assert (false = true) by (apply Hsent; lia). done.
    - intros H. destruct sent; [exfalso; assert (true = true) as Ht by done; apply Hsent in Ht; lia|].
      simpl. apply Hnone. lia. }
  specialize (Hgen ops s Hs). destruct (leave_run ops s) as [sent s'].
  destruct Hgen as ([Hn Hr] & Hp & _ & _ & Hone & Hnone'). rewrite Hnone in Hone, Hnone'. simpl in Hone, Hnone'.
  destruct (Z.leb_spec 2 (leave_rank (_leaveState (s_leave s')))) as [H|H]; [|apply Hnone'; lia].
  rewrite Hone by lia. unfold NotifyPlayerLeftToMain, GetInventory. rewrite Hp.
  assert (_leaveReason (s_leave s') <> LR_NONE).
  { intros E%Hr. rewrite E in H. simpl in H. lia. }
  case_bool_decide; [destruct (SerializeInventoryForIPC _)|]; done.
Qed.

(** The rows sent for a recalled player carry all the player holds of every item,
    in slots and equipment, except the rounds in the two magazines, which are lost;
    no two rows share a slot, so the rows can be keyed by it. *)
Theorem ipc_rows_complete bp inv :
  bp <> 0 ->
  let '(slots, equipment) := SerializeInventoryForIPC inv in
  rows_total bp slots + rows_total bp equipment =
    grand bp inv - count bp (magazineOf true inv) - count bp (magazineOf false inv) /\
  NoDup (map is_slot_index slots) /\ NoDup (map is_slot_index equipment).
Proof.
  intros Hbp. unfold SerializeInventoryForIPC. split_and!; [|apply ipc_slots_NoDup; lia..].
  rewrite !rows_total_ipc by done. unfold grand, Items.total, magazineOf. simpl. lia.
Qed.

Section packets.
Context {E : External} {L : ExternalLaws E}.

(** The header [MakeD2CPacketImpl] writes fits its fields. *)
Record session_ok (s : PlayerSession) : Prop := {
  so_send : is_u32 (_sendRSeq (s_rudp s));
  so_high : is_u32 (_rRecvHighestSeq (s_rudp s)); so_bits : is_u32 (_rRecvBitfield (s_rudp s));
  so_ts : is_u32 (_lastRecvTimestamp (s_rudp s)); so_key : is_u32 (_securityKey s) }.

Lemma packet_id_range m : is_u16 (fst (packet_kind m)).
Proof. destruct m; simpl; width. Qed.

Lemma drop_packet p : drop (Z.to_nat UDP_HEADER_SIZE) (packet_bytes p) = ext_serialize (pk_msg p).
Proof. unfold packet_bytes. apply drop_app_length'. by rewrite <- (length_encode_udp (pk_header p)), Nat2Z.id. Qed.
Lemma length_packet p : Z.of_nat (length (packet_bytes p)) = UDP_HEADER_SIZE + Z.of_nat (length (ext_serialize (pk_msg p))).
Proof. unfold packet_bytes. rewrite length_app, Nat2Z.inj_add. by rewrite length_encode_udp. Qed.
Lemma last_sent_register {D} seq (buf : D) size dest nowMs ch :
  _sendRSeq (RegisterReliable seq buf size dest nowMs ch) = _sendRSeq ch.
Proof. unfold RegisterReliable. by case_match. Qed.

Lemma session_ok_send r ch p size dest nowMs s :
  session_ok s -> is_u32 r -> ch = RegisterReliable r p size dest nowMs (setf _sendRSeq (fun _ => r) (s_rudp s)) ->
  session_ok (s <| s_rudp := ch |>).
Proof.
  intros [] Hr ->. unfold RegisterReliable. case_match; constructor; done.
Qed.

(** C29. Making a packet that fits a send buffer always succeeds.  The packet that
    goes out carries the message, and its header decodes to exactly this: the packet id and
    channel of the message, the session id, the next number of its channel and 0 in the other,
    the flag that it has an acknowledgement and, if it is reliable, the flag that it is, the session's receive window as
    acknowledgement, the time it was made and as echo the last timestamp received.  Its
    signature passes the check the receiver makes with the session's key.  A
    reliable one is kept for retransmission, under its number, as it was signed, with its length,
    address and time, when no packet is kept under this number; an unreliable one
    leaves the pending table alone. *)
Theorem MakeD2CPacketImpl_spec nowMs m s :
  session_ok s -> is_u32 nowMs ->
  Z.of_nat (length (ext_serialize m)) <= SEND_BUFFER_CHUNK_SIZE - UDP_HEADER_SIZE ->
  exists p s', MakeD2CPacketImpl nowMs m s = Returns (p, s') /\
    drop (Z.to_nat UDP_HEADER_SIZE) (packet_bytes p) = ext_serialize m /\
    check_signature (packet_bytes p) (_securityKey s) = true /\
    session_ok s' /\ _player s' = _player s /\ s_leave s' = s_leave s /\
    let '(pktId, reliable) := packet_kind m in
    let r := u32 (_sendRSeq (s_rudp s) + 1) in
    let u := u16 (_sendUSeq (s_rudp s) + 1) in
    decode_udp (packet_bytes p) =
      mk_udp (signature (pk_header p)) pktId (u16 (_sessionId s))
        (if reliable then r else 0) (if reliable then 0 else u)
        (if reliable then FLAG_HAS_ACK + FLAG_RELIABLE else FLAG_HAS_ACK)
        (_rRecvHighestSeq (s_rudp s)) (_rRecvBitfield (s_rudp s)) nowMs (_lastRecvTimestamp (s_rudp s)) /\
    GetLastSentRSeq (s_rudp s') = (if reliable then r else GetLastSentRSeq (s_rudp s)) /\
    _sendUSeq (s_rudp s') = (if reliable then _sendUSeq (s_rudp s) else u) /\
    if reliable then
      _pendingReliable (s_rudp s) !! r = None ->
      let size := Z.of_nat (length (packet_bytes p)) in
      _pendingReliable (s_rudp s') =
        <[ r := mk_pending r size (_clientAddr s) nowMs (pending_class size) p ]> (_pendingReliable (s_rudp s))
    else _pendingReliable (s_rudp s') = _pendingReliable (s_rudp s).
Proof.
  intros Hs Hnow Hsize. unfold MakeD2CPacketImpl.
  pose proof (packet_id_range m) as Hid. destruct (packet_kind m) as [pktId reliable]. simpl in Hid.
  assert (Htotal : u32 (UDP_HEADER_SIZE + payload_size m) = UDP_HEADER_SIZE + Z.of_nat (length (ext_serialize m))).
  { unfold payload_size. unfold SEND_BUFFER_CHUNK_SIZE, UDP_HEADER_SIZE in *. width. }
  rewrite Htotal, (proj2 (Z.ltb_ge SEND_BUFFER_CHUNK_SIZE _)) by lia.
  destruct (Hs) as [Hsend Hhigh Hbits Hts Hkey].
  assert (Hok : forall r u f, is_u32 r -> is_u16 u -> 0 <= f < 256 ->
    udp_ok (mk_udp 0 pktId (u16 (_sessionId s)) r u f (_rRecvHighestSeq (s_rudp s))
              (_rRecvBitfield (s_rudp s)) nowMs (_lastRecvTimestamp (s_rudp s)))).
  { intros. constructor; cbn [signature packetId h_sessionId rSeqNum uSeqNum flags ackRSeqNum
      ackBitfield timestamp timestampEcho]; try done. apply u16_range. }
  assert (Hsig : forall p, udp_ok (pk_header p) -> udp_ok (pk_header (signed (_securityKey s) p))).
  { intros p []. constructor; cbn [signed pk_header setf signature packetId h_sessionId rSeqNum uSeqNum
      flags ackRSeqNum ackBitfield timestamp timestampEcho]; try done. apply xxh64_range. }
  destruct reliable; cbn [NextSendRSeq NextSendUSeq GetAckState fst snd].
  - eexists _, _. split; [done|].
    assert (Hu : udp_ok _) by (apply (Hok (u32 (_sendRSeq (s_rudp s) + 1)) 0 3); width).
    split; [by rewrite drop_packet|]. split; [apply signed_checks; done|]. split_and!; try done.
    + eapply session_ok_send; [exact Hs| |reflexivity]. width.
    + unfold packet_bytes. by rewrite decode_encode_udp by (apply Hsig, Hu).
    + refine (eq_trans (last_sent_register _ _ _ _ _ _) _). done.
    + cbn [s_rudp setf]. unfold RegisterReliable. by case_match.
    + intros Hnone. rewrite length_packet. unfold RegisterReliable. cbn [setf _pendingReliable s_rudp]. by rewrite Hnone.
  - eexists _, _. split; [done|].
    assert (Hu : udp_ok _) by (apply (Hok 0 (u16 (_sendUSeq (s_rudp s) + 1)) 1); width).
    split; [by rewrite drop_packet|]. split; [apply signed_checks; done|]. split_and!; try done.
    unfold packet_bytes. by rewrite decode_encode_udp by (apply Hsig, Hu).
Qed.
End packets.

(** ** Witnesses *)

Definition sample_session : PlayerSession :=
  new_PlayerSession "ticket" "token" 3 0 77 "user" 1000 sample_bag sample_equipment 1 4242.

Lemma sample_session_leave : leave_ok sample_session.
Proof. split; simpl; [split; [done|lia]|done]. Qed.

(** A player who drops out, dies of it, and is marked recalled too late. *)
Definition sample_departure : list LeaveOp :=
  [OpMark LR_DISCONNECTED 0 10; OpMark LR_DEAD 0 20; OpMark LR_RECALLED 5 25; OpDetach; OpFinalize; OpDetach].

Lemma leave_reason_final_witness :
  let s := snd (leave_run [OpMark LR_DEAD 0 20] sample_session) in
  leave_ok s /\ _leaveReason (s_leave (snd (leave_run [OpMark LR_RECALLED 5 25; OpDetach] s))) = LR_DEAD.
Proof.
  assert (H : leave_ok (snd (leave_run [OpMark LR_DEAD 0 20] sample_session))).
  { split; vm_compute; [split; [done|intros []; done]|done]. }
  split; [exact H|]. apply (leave_reason_final _ _ H). by right; left.
Defined.

Lemma main_notified_once_witness :
  fst (leave_run sample_departure sample_session) = [mk_left 77 LR_DEAD [] []].
Proof.
  pose proof (main_notified_once sample_departure sample_session sample_session_leave eq_refl) as H.
  assert (E : s_leave (snd (leave_run sample_departure sample_session)) = mk_leave LS_FINALIZED LR_DEAD 20 0 true)
    by (vm_compute; reflexivity).
  destruct (leave_run sample_departure sample_session) as [sent s']. cbn [snd fst] in *.
  rewrite E in H. exact (proj2 H).
Defined.

Lemma ipc_rows_complete_witness :
  let '(slots, equipment) := SerializeInventoryForIPC sample in
  rows_total 5 slots + rows_total 5 equipment = grand 5 sample - 30 /\ NoDup (map is_slot_index slots).
Proof.
  pose proof (ipc_rows_complete 5 sample ltac:(lia)) as H.
  destruct (SerializeInventoryForIPC sample) as [slots equipment].
  destruct H as (H & Hnd & _). split; [|exact Hnd]. rewrite H. reflexivity.
Defined.

Lemma sample_session_ok : session_ok sample_session.
Proof. constructor; zcompute. Qed.

Lemma MakeD2CPacketImpl_spec_witness :
  exists p s', @MakeD2CPacketImpl sample_external 1000 D2CHeartBeat sample_session = Returns (p, s') /\
    @check_signature sample_external (@packet_bytes sample_external p) 4242 = true /\
    flags (decode_udp (@packet_bytes sample_external p)) = (if snd (packet_kind D2CHeartBeat) then 3 else 1) /\
    timestamp (decode_udp (@packet_bytes sample_external p)) = 1000.
Proof.
  destruct (@MakeD2CPacketImpl_spec sample_external sample_laws 1000 D2CHeartBeat sample_session
              sample_session_ok ltac:(width) ltac:(done)) as (p & s' & H & _ & Hc & _ & _ & _ & Hd & _).
  exists p, s'. split; [exact H|]. split; [exact Hc|]. cbv zeta in Hd. rewrite Hd. split; reflexivity.
Defined.
