(* ===== verification/Room.v ===== *)
(** * The game room

    Models src/src/DedicateProcess/GameRoom.h and .cpp: the sessions and objects of a
    room, broadcasting, the snapshots sent to a joining client, the periodic update,
    the containers' occupation and the processing of departures.

    A room runs in a [World]: the room, the clock of the call, and what the code
    sends out (UDP packets, messages to the main process, the reservation of the
    room's destruction, timers).  A C++ exception ends the process; it is recorded
    in [w_thrown] and what the world holds after it means nothing. *)

From S2P Require Import Prelude Items Inventory Transport Geometry MapData Combat Container Buffers Protocol Session.
From stdpp Require Import strings.
Local Open Scope Z_scope.
#[local] Set Warnings "-clear-no-such-hyp".

(** ** State *)

(** [UnityGameObject*] that is not a player: the classes of the program. *)
Inductive GameObject := GContainer (k : Container) | GNpc (n : HostileNPC).

Definition object_of (o : GameObject) : UnityGameObject :=
  match o with GContainer k => k_object k | GNpc n => n_object n end.
(** [dynamic_cast]. *)
Definition as_container (o : GameObject) : option Container :=
  match o with GContainer k => Some k | GNpc _ => None end.
Definition as_npc (o : GameObject) : option HostileNPC :=
  match o with GNpc n => Some n | GContainer _ => None end.
Definition as_combat (o : GameObject) : option CombatObject :=
  match o with GNpc n => Some (n_combat n) | GContainer _ => None end.

Record GameRoom := mk_room {
  _roomId : Z; _mapId : Z; _allLeftReported : bool; _createdAt : Z; _lifetimeExpired : bool;
  _playerSessions : gmap Z PlayerSession;
  _spawnSpots : list Vector3; _spawnSpotIndex : Z; _pRecallZones : option (list RecallZone);
  _nxtObjectId : Z; _nextWorldItemUid : Z; _lastRegenMs : Z;
  _staticObjects : gmap Z GameObject; _dynamicObjects : gmap Z GameObject;
  _playerObjects : gmap Z PlayerObject }.
#[export] Instance eta_GameRoom : Eta GameRoom := fun r =>
  mk_room (_roomId r) (_mapId r) (_allLeftReported r) (_createdAt r) (_lifetimeExpired r)
    (_playerSessions r) (_spawnSpots r) (_spawnSpotIndex r) (_pRecallZones r) (_nxtObjectId r)
    (_nextWorldItemUid r) (_lastRegenMs r) (_staticObjects r) (_dynamicObjects r) (_playerObjects r).

Inductive Output :=
| OutUdp (addr : sockaddr_in) (p : Packet)
| OutLeft (m : D2MNotifyPlayerLeft)
| OutReserveDestroy (roomId : Z)
| OutTimer (delayMs sessionId uid generation : Z).

Record World := mk_world { w_room : GameRoom; w_now : Z; w_out : list Output; w_thrown : bool }.
#[export] Instance eta_World : Eta World := fun r =>
  mk_world (w_room r) (w_now r) (w_out r) (w_thrown r).

Definition ROOM_LIFETIME_MS : Z := 600000.
Definition MAX_REGEN_STEP_MS : Z := 1000.
Definition INVALID_SESSION_ID : Z := -1.
Definition SAFE_PAYLOAD_LIMIT : Z := 1024 - 45.
Definition CONTAINER_INTERACT_RANGE_SQ : f32 := f32_of_Z 9.

Definition new_GameRoom (roomId mapId now : Z) : GameRoom :=
  mk_room roomId mapId false now false ∅ [] 0 (GetRecallZones mapId) 0 WORLD_ITEM_UID_BASE 0 ∅ ∅ ∅.

Definition upd_room (f : GameRoom -> GameRoom) : ST World unit := modify (fun w => w <| w_room ::= f |>).
Definition emit (o : Output) : ST World unit := modify (fun w => w <| w_out ::= fun l => l ++ [o] |>).

(** [NowMs()]: the steady clock in 32 bits. *)
Definition NowMs (w : World) : Z := u32 (w_now w).
Definition ElapsedMs (from to : Z) : Z := u32 (to - from).

(** ** Lookups *)

Definition GetRoomSession (sessionId : Z) (r : GameRoom) : option PlayerSession :=
  _playerSessions r !! sessionId.

Definition FindNonplayerObject (objectId : Z) (r : GameRoom) : option GameObject :=
  match _staticObjects r !! objectId with
  | Some o => Some o
  | None => _dynamicObjects r !! objectId
  end.
Definition FindPlayerObject (objectId : Z) (r : GameRoom) : option PlayerObject :=
  _playerObjects r !! objectId.
Definition FindHostileNpc (objectId : Z) (r : GameRoom) : option HostileNPC :=
  FindNonplayerObject objectId r ≫= as_npc.
Definition FindContainer (objectId : Z) (r : GameRoom) : option Container :=
  FindNonplayerObject objectId r ≫= as_container.

Definition FindObjectName (objectId : Z) (r : GameRoom) : string :=
  match FindPlayerObject objectId r with
  | Some p => _objectName p
  | None => match FindNonplayerObject objectId r with
            | Some o => ObjectTypeToName (objectType (object_of o))
            | None => OBJECT_NAME_UNRESOLVED
            end
  end.

(** Writing through the pointer a lookup returned. *)
Definition upd_session (sid : Z) (f : PlayerSession -> PlayerSession) : ST World unit :=
  upd_room (fun r => r <| _playerSessions ::= alter f sid |>).
Definition upd_nonplayer (objectId : Z) (f : GameObject -> GameObject) : ST World unit :=
  upd_room (fun r =>
    match _staticObjects r !! objectId with
    | Some _ => r <| _staticObjects ::= alter f objectId |>
    | None => r <| _dynamicObjects ::= alter f objectId |>
    end).
Definition on_container (f : Container -> Container) (o : GameObject) : GameObject :=
  match o with GContainer k => GContainer (f k) | GNpc n => GNpc n end.
Definition on_npc (f : HostileNPC -> HostileNPC) (o : GameObject) : GameObject :=
  match o with GNpc n => GNpc (f n) | GContainer k => GContainer k end.
Definition upd_container (objectId : Z) (f : Container -> Container) : ST World unit :=
  upd_nonplayer objectId (on_container f).
Definition upd_npc (objectId : Z) (f : HostileNPC -> HostileNPC) : ST World unit :=
  upd_nonplayer objectId (on_npc f).
Definition upd_player (objectId : Z) (f : PlayerObject -> PlayerObject) : ST World unit :=
  upd_room (fun r => r <| _playerObjects ::= alter f objectId |>).

Definition GetRecallZone (index : Z) (r : GameRoom) : option RecallZone :=
  match _pRecallZones r with
  | None => None
  | Some zones => if Z.of_nat (length zones) <=? index then None else zones !! Z.to_nat index
  end.
Definition IsInRecallZone (index : Z) (pos : Vector3) (r : GameRoom) : bool :=
  match GetRecallZone index r with None => false | Some z => Contains z pos end.

Definition GetNewObjectId : ST World Z := fun w =>
  (_nxtObjectId (w_room w), w <| w_room ::= fun r => r <| _nxtObjectId ::= fun n => u32 (n + 1) |> |>).

Definition GetRemainingLifetimeMs (w : World) : Z :=
  let elapsed := ElapsedMs (_createdAt (w_room w)) (w_now w) in
  if ROOM_LIFETIME_MS <=? elapsed then 0 else ROOM_LIFETIME_MS - elapsed.

Definition RegisterPlayerSession (sid : Z) (s : PlayerSession) : ST World unit :=
  upd_room (fun r => match _playerSessions r !! sid with
                     | Some _ => r
                     | None => r <| _playerSessions ::= <[ sid := s ]> |> end).

Section room.
Context {E : External}.

(** The values of a flat_hash_map in its order of iteration. *)
Definition values {A} (m : gmap Z A) : list A := omap (fun k => m !! k) (ext_keys A m).

Definition FindSessionByObjectId (objectId : Z) (r : GameRoom) : option Z :=
  if objectId =? -1 then None
  else List.find (fun sid => match _playerSessions r !! sid with
                             | Some s => GetObjectId s =? objectId | None => false end)
                 (ext_keys _ (_playerSessions r)).

(** ** Sending *)

(** [pSession->Send(Make...(pkt, pSession))]. *)
Definition Send (sid : Z) (m : D2CMsg) : ST World unit := fun w =>
  match _playerSessions (w_room w) !! sid with
  | None => (tt, w)
  | Some s =>
      match MakeD2CPacketImpl (NowMs w) m s with
      | Throw => (tt, w <| w_thrown := true |>)
      | Returns (p, s') =>
          (tt, w <| w_room ::= fun r => r <| _playerSessions ::= <[ sid := s' ]> |> |>
                 <| w_out ::= fun l => l ++ [OutUdp (_clientAddr s') p] |>)
      end
  end.

(** The retransmissions of one session ([DediServerService::CheckRetransmits]); whether
    there were any. *)
Definition Retransmit (sid : Z) : ST World bool := fun w =>
  match _playerSessions (w_room w) !! sid with
  | None => (false, w)
  | Some s =>
      if bool_decide (_leaveState (s_leave s) = LS_FINALIZED) then (false, w)
      else
        let ps := GetRetransmitCandidates (NowMs w) (s_rudp s) in
        (match ps with [] => false | _ => true end,
         w <| w_room ::= fun r => r <| _playerSessions ::= <[ sid := s <| s_rudp ::= mark_resent (NowMs w) |> ]> |> |>
           <| w_out ::= fun l => l ++ map (fun p => OutUdp (destAddr p) (pdata p)) ps |>)
  end.

(** [BroadcastExcept], over the keys that are left; the result is [sentCount]. *)
Fixpoint broadcast_loop (keys : list Z) (m : D2CMsg) (exceptSessionId sentCount : Z) : ST World Z :=
  fun w =>
  match keys with
  | [] => (sentCount, w)
  | sid :: keys' =>
      match _playerSessions (w_room w) !! sid with
      | None => broadcast_loop keys' m exceptSessionId sentCount w
      | Some s =>
          if negb (CanReceiveBroadcast s) || (sid =? exceptSessionId)
          then broadcast_loop keys' m exceptSessionId sentCount w
          else broadcast_loop keys' m exceptSessionId (u32 (sentCount + 1)) (exec (Send sid m) w)
      end
  end.
Definition BroadcastExcept (m : D2CMsg) (exceptSessionId : Z) : ST World Z := fun w =>
  broadcast_loop (ext_keys _ (_playerSessions (w_room w))) m exceptSessionId 0 w.
Definition Broadcast (m : D2CMsg) : ST World unit := _ ← BroadcastExcept m INVALID_SESSION_ID; mret tt.

(** ** Snapshots *)

(** The loop of [FillStaticObjects] and [FillDynamicObjects]: a chunk is an index,
    the last flag and its objects; [current] is the chunk being filled. *)
Fixpoint fill_loop (objs current : list UnityGameObjectMsg) (currentPayloadSize index : Z)
    : list (Z * bool * list UnityGameObjectMsg) :=
  match objs with
  | [] => if 0 <? currentPayloadSize then [(index, true, current)]
          else if index =? 0 then [(0, true, current)] else []
  | o :: objs' =>
      let itemSize := i32 (ext_object_size o + 5) in
      if SAFE_PAYLOAD_LIMIT <? currentPayloadSize + itemSize then
        (index, false, current) :: fill_loop objs' [o] itemSize (u32 (index + 1))
      else fill_loop objs' (current ++ [o]) (currentPayloadSize + itemSize) index
  end.
Definition fill_objects (m : gmap Z GameObject) : list (Z * bool * list UnityGameObjectMsg) :=
  if decide (m = ∅) then [(0, true, [])]
  else fill_loop (map (fun o => Geometry.Serialize (object_of o)) (values m)) [] 0 0.

Definition FillStaticObjects (r : GameRoom) : list D2CMsg :=
  map (fun '(i, l, os) => D2CResponseBlueprintStaticObjects i l os) (fill_objects (_staticObjects r)).
Definition FillDynamicObjects (r : GameRoom) : list D2CMsg :=
  map (fun '(i, l, os) => D2CResponseSpawnMeDynamicObjects i l os) (fill_objects (_dynamicObjects r)).

Definition spawn_player_msg (p : PlayerObject) : SpawnPlayerMsg :=
  mk_spawn_player (_characterType p) (Geometry.Serialize (p_object p)) (GetCurrentWeaponId p).
Definition FillPlayerObjects (r : GameRoom) : list SpawnPlayerMsg :=
  map spawn_player_msg (values (_playerObjects r)).
Definition FillPlayerStates (r : GameRoom) : list PlayerState := map FillState (values (_playerObjects r)).

(** ** Spawning

    The overrides of TestGameRoom and TenerifeGameRoom are the same code. *)

Definition NotifySpawnObject (o : GameObject) : ST World unit :=
  Broadcast (D2CNotifySpawnObject (Geometry.Serialize (object_of o))).
Definition NotifySpawnPlayerObject (p : PlayerObject) (ownerSessionId : Z) : ST World unit :=
  _ ← BroadcastExcept (D2CSpawnPlayerObject (spawn_player_msg p)) ownerSessionId; mret tt.

Definition CanBeStaticObject (o : GameObject) : bool :=
  match as_combat o with None => true | Some _ => false end.

Definition SpawnStaticObject (o : GameObject) : ST World unit := fun w =>
  let id := objectId (object_of o) in
  if negb (CanBeStaticObject o) then (tt, w)
  else match _staticObjects (w_room w) !! id with
  | Some _ => (tt, w)
  | None => NotifySpawnObject o (w <| w_room ::= fun r => r <| _staticObjects ::= <[ id := o ]> |> |>)
  end.
Definition SpawnDynamicObject (o : GameObject) : ST World unit := fun w =>
  let id := objectId (object_of o) in
  match _dynamicObjects (w_room w) !! id with
  | Some _ => (tt, w)
  | None => NotifySpawnObject o (w <| w_room ::= fun r => r <| _dynamicObjects ::= <[ id := o ]> |> |>)
  end.
Definition SpawnPlayerObject (p : PlayerObject) (ownerSessionId : Z) : ST World unit := fun w =>
  let id := objectId (p_object p) in
  match _playerObjects (w_room w) !! id with
  | Some _ => (tt, w)
  | None => NotifySpawnPlayerObject p ownerSessionId
              (w <| w_room ::= fun r => r <| _playerObjects ::= <[ id := p ]> |> |>)
  end.

(** The spot given, and the index of the next one. *)
Definition SetSpawnSpot : ST World Vector3 := fun w =>
  let r := w_room w in
  (nth (Z.to_nat (_spawnSpotIndex r)) (_spawnSpots r) vector3_zero,
   w <| w_room ::= fun r => r <| _spawnSpotIndex := Z.modulo (_spawnSpotIndex r + 1) (Z.of_nat (length (_spawnSpots r))) |> |>).

Definition SpawnPlayerLootContainer (p : PlayerObject) (inventory : PlayerInventory) : ST World unit :=
  oid ← GetNewObjectId;
  SpawnDynamicObject (GContainer (new_PlayerLootContainer oid (position (p_object p))
                                    (yawAngle (p_object p)) inventory)).

(** ** Containers *)

Definition ReleaseInteractingContainer (sid : Z) : ST World unit := fun w =>
  match _playerSessions (w_room w) !! sid with
  | None => (tt, w)
  | Some s =>
      let containerId := GetInteractingContainerId s in
      let w1 := exec (upd_session sid (SetInteractingContainerId (-1))) w in
      if containerId =? -1 then (tt, w1)
      else match FindContainer (u32 containerId) (w_room w1) with
      | None => (tt, w1)
      | Some k =>
          if negb (_interactingPlayerId k =? u32 (GetObjectId s)) then (tt, w1)
          else upd_container (u32 containerId) (SetInteractingPlayerId NO_INTERACTING_PLAYER) w1
      end
  end.

Definition IsPlayerNearContainer (playerObjectId containerObjectId : Z) (r : GameRoom) : bool :=
  match FindPlayerObject playerObjectId r with
  | None => false
  | Some p =>
      match FindNonplayerObject containerObjectId r with
      | None => false
      | Some o =>
          let a := position (p_object p) in let b := position (object_of o) in
          let dx := (v_x a - v_x b)%f32 in
          let dy := (v_y a - v_y b)%f32 in
          let dz := (v_z a - v_z b)%f32 in
          (dx * dx + dy * dy + dz * dz <=? CONTAINER_INTERACT_RANGE_SQ)%f32
      end
  end.

(** ** The periodic update *)

Definition RegenPlayerShields : ST World unit := fun w =>
  let nowMs := NowMs w in
  if _lastRegenMs (w_room w) =? 0 then (tt, w <| w_room ::= fun r => r <| _lastRegenMs := nowMs |> |>)
  else
    let elapsed := u32 (nowMs - _lastRegenMs (w_room w)) in
    let elapsed := if MAX_REGEN_STEP_MS <? elapsed then MAX_REGEN_STEP_MS else elapsed in
    (tt, w <| w_room ::= fun r => r <| _lastRegenMs := nowMs |>
             <| _playerObjects ::= fmap (fun p : PlayerObject => p <| p_combat ::= RegenShield elapsed |>) |> |>).

Definition BroadcastPlayerStates : ST World unit := fun w =>
  if decide (_playerObjects (w_room w) = ∅) then (tt, w)
  else Broadcast (D2CUpdatePlayerStates (FillPlayerStates (w_room w))) w.

Definition Update : ST World unit := _ ← RegenPlayerShields; BroadcastPlayerStates.

Definition npc_states (r : GameRoom) : list GameObjectMovementInfo :=
  omap (fun o => match as_npc o with
                 | Some n => if IsServerDriven n then None else Some (FillMovementInfo n)
                 | None => None end) (values (_dynamicObjects r)).

Definition UpdateNpcStates : ST World unit := fun w =>
  match npc_states (w_room w) with
  | [] => (tt, w)
  | l => Broadcast (D2CUpdateNpcStates l) w
  end.

(** ** Hostile objects *)

Definition NotifyNpcAuthority (n : HostileNPC) : ST World unit :=
  Broadcast (D2CNotifyNpcAuthority (objectId (n_object n))
    (if IsServerDriven n then NO_AUTHORITY_ID else u32 (_targetId n)) (_aggro n)).

Definition release_npc (playerObjectId objectId : Z) : ST World unit := fun w =>
  match _dynamicObjects (w_room w) !! objectId ≫= as_npc with
  | None => (tt, w)
  | Some n =>
      if negb (IsAuthority playerObjectId n) then (tt, w)
      else
        let '(ok, n') := ReleaseAuthority n in
        let w1 := w <| w_room ::= fun r => r <| _dynamicObjects ::= <[ objectId := GNpc n' ]> |> |> in
        if negb ok then (tt, w1) else NotifyNpcAuthority n' w1
  end.
Definition ReleaseNpcAuthority (playerObjectId : Z) : ST World unit := fun w =>
  if playerObjectId =? NO_TARGET then (tt, w)
  else for_each (ext_keys _ (_dynamicObjects (w_room w))) (release_npc playerObjectId) w.

(** [OnDeathResolved] is empty in every class of the program. *)
Definition DestroyDeadObject (oid : Z) : ST World unit := fun w =>
  match _dynamicObjects (w_room w) !! oid with
  | None => (tt, w)
  | Some o =>
      let w1 := w <| w_room ::= fun r => r <| _dynamicObjects ::= delete oid |> |> in
      let killerObjectId := match as_combat o with
                            | Some c => _lastAttackerId c | None => NO_ATTACKER end in
      Broadcast (D2CNotifyObjectKilled oid killerObjectId (FindObjectName killerObjectId (w_room w1))) w1
  end.

(** ** Departures *)

Definition RemovePlayerObject (oid : Z) : ST World unit :=
  upd_room (fun r => r <| _playerObjects ::= delete oid |>).

Definition ToDespawnReason (reason : LeaveReason) : DespawnReason :=
  match reason with
  | LR_RECALLED => DESPAWN_RECALLED | LR_DEAD => DESPAWN_DEAD
  | LR_DISCONNECTED => DESPAWN_DISCONNECTED | LR_NONE => DESPAWN_UNKNOWN
  end.

Definition IsFinalizeReady (now : Z) (s : PlayerSession) : bool :=
  let l := s_leave s in
  if bool_decide (_leaveReason l = LR_DEAD) then DEATH_GRACE_MS <=? ElapsedMs (_leaveMarkedAt l) now
  else if _leaveNotifyRSeq l =? 0 then true
  else if negb (IsReliablePending (_leaveNotifyRSeq l) (s_rudp s)) then true
  else LEAVE_FINALIZE_TIMEOUT_MS <=? ElapsedMs (_leaveMarkedAt l) now.

(** The loops over the sessions run over the keys; [body] may change the session. *)
Definition for_sessions (body : Z -> PlayerSession -> ST World unit) : ST World unit := fun w =>
  for_each (ext_keys _ (_playerSessions (w_room w)))
    (fun sid w => match _playerSessions (w_room w) !! sid with
                  | None => (tt, w) | Some s => body sid s w end) w.

Definition mark_leaving (sid : Z) (reason : LeaveReason) (notifyRSeq : Z) : ST World unit := fun w =>
  upd_session sid (MarkLeaving reason notifyRSeq (w_now w)) w.

Definition DetectDisconnectedSessions : ST World unit := fun w =>
  for_sessions (fun sid s w =>
    if negb (IsInplay s) || IsLeaving s then (tt, w)
    else
      let echoTs := _lastEchoTs (s_rudp s) in
      if echoTs =? 0 then (tt, w)
      else if u32 (NowMs w - echoTs) <? DISCONNECT_TIMEOUT_MS then (tt, w)
      else mark_leaving sid LR_DISCONNECTED 0 w) w.

Definition AllKill : ST World unit := for_sessions (fun sid _ => mark_leaving sid LR_DEAD 0).

(** [NotifyLeftOnce] of a session of the room. *)
Definition notify_left (sid : Z) (step : ST PlayerSession bool) : ST World unit := fun w =>
  match _playerSessions (w_room w) !! sid with
  | None => (tt, w)
  | Some s =>
      let '(sent, s') := step s in
      let w1 := w <| w_room ::= fun r => r <| _playerSessions ::= <[ sid := s' ]> |> |> in
      if sent then emit (OutLeft (NotifyPlayerLeftToMain s')) w1 else (tt, w1)
  end.

(** What [DetachPlayer] does to the player's object: the loot of a dead player and
    the report of the kill, the loss of the items, the removal of the object. *)
Definition leave_loot (sid objectId : Z) (p : PlayerObject) : ST World unit := fun w =>
  match _playerSessions (w_room w) !! sid with
  | None => (tt, w)
  | Some s =>
      let killer := _lastAttackerId (p_combat p) in
      (_ ← SpawnPlayerLootContainer p (GetInventory s);
       name ← gets (fun w => FindObjectName killer (w_room w));
       Broadcast (D2CNotifyPlayerKilled (u32 objectId) killer (_objectName p) name)) w
  end.
Definition lose_items (sid objectId : Z) (reason : LeaveReason) (p : PlayerObject) : ST World unit :=
  if bool_decide (reason = LR_DEAD) || bool_decide (reason = LR_DISCONNECTED) then
    _ ← (if bool_decide (reason = LR_DEAD) then leave_loot sid objectId p else mret tt);
    upd_session sid (update_inventory Clear_inventory)
  else mret tt.
Definition detach_object (sid objectId : Z) (reason : LeaveReason) (p : PlayerObject) : ST World unit :=
  _ ← lose_items sid objectId reason p;
  _ ← RemovePlayerObject (u32 objectId);
  _ ← BroadcastExcept (D2CDespawnPlayerObject (u32 objectId) (ToDespawnReason reason)) sid;
  mret tt.
Definition detach_player_object (sid objectId : Z) (reason : LeaveReason) : ST World unit := fun w =>
  match (if negb (objectId =? -1) then FindPlayerObject (u32 objectId) (w_room w) else None) with
  | None => (tt, w)
  | Some p => detach_object sid objectId reason p w
  end.

Definition DetachPlayer (sid : Z) : ST World unit := fun w =>
  match _playerSessions (w_room w) !! sid with
  | None => (tt, w)
  | Some s =>
      let objectId := GetObjectId s in
      let reason := _leaveReason (s_leave s) in
      (_ ← upd_session sid EndRecall;
       _ ← upd_session sid (SetSessionState (if bool_decide (reason = LR_DEAD) then SS_SPECTATING else SS_LEFT));
       _ ← ReleaseInteractingContainer sid;
       _ ← ReleaseNpcAuthority objectId;
       _ ← detach_player_object sid objectId reason;
       _ ← upd_session sid (SetObjectId (-1));
       _ ← upd_session sid (SetLeaveState LS_DETACHED);
       notify_left sid NotifyLeftOnce) w
  end.

Definition CheckAllLeft : ST World unit := fun w =>
  if _allLeftReported (w_room w) then (tt, w)
  else if forallb (fun sid => match _playerSessions (w_room w) !! sid with
                              | None => true
                              | Some s => bool_decide (_leaveState (s_leave s) = LS_FINALIZED) end)
                  (ext_keys _ (_playerSessions (w_room w)))
  then emit (OutReserveDestroy (_roomId (w_room w)))
         (w <| w_room ::= fun r => r <| _allLeftReported := true |> |>)
  else (tt, w).

Definition dead_players (r : GameRoom) : list Z :=
  List.filter (fun id => match _playerObjects r !! id with
                         | Some p => _deathPending (p_combat p) | None => false end)
              (ext_keys _ (_playerObjects r)).

Definition expire_lifetime : ST World unit := fun w =>
  if negb (_lifetimeExpired (w_room w)) && (ROOM_LIFETIME_MS <=? ElapsedMs (_createdAt (w_room w)) (w_now w))
  then AllKill (w <| w_room ::= fun r => r <| _lifetimeExpired := true |> |>)
  else (tt, w).

Definition mark_dead (oid : Z) : ST World unit := fun w =>
  match FindSessionByObjectId (i32 oid) (w_room w) with
  | None => (tt, w)
  | Some sid => mark_leaving sid LR_DEAD 0 w
  end.

Definition clear_pending : ST World unit :=
  for_sessions (fun sid s =>
    if bool_decide (_leaveState (s_leave s) = LS_PENDING)
    then upd_session sid (fun s => s <| s_rudp ::= ClearPendingReliableExcept (_leaveNotifyRSeq (s_leave s)) |>)
    else mret tt).

Definition finalize_if_ready (sid : Z) : ST World unit := fun w =>
  match _playerSessions (w_room w) !! sid with
  | None => (tt, w)
  | Some s =>
      if bool_decide (_leaveState (s_leave s) = LS_DETACHED) && IsFinalizeReady (w_now w) s
      then notify_left sid FinalizeLeave w
      else (tt, w)
  end.
Definition detach_or_finalize (sid : Z) (s : PlayerSession) : ST World unit :=
  _ ← (if bool_decide (_leaveState (s_leave s) = LS_PENDING) then DetachPlayer sid else mret tt);
  finalize_if_ready sid.

Definition ProcessLeaves : ST World unit :=
  _ ← expire_lifetime;
  deadObjectIds ← gets (fun w => dead_players (w_room w));
  _ ← for_each deadObjectIds mark_dead;
  _ ← DetectDisconnectedSessions;
  _ ← clear_pending;
  _ ← for_sessions detach_or_finalize;
  CheckAllLeft.
End room.

(** ** Lemmas *)

Lemma exec_bind {W A B} (m : ST W A) (f : A -> ST W B) w :
  exec (m ≫= f) w = exec (f (eval m w)) (exec m w).
Proof. unfold exec, eval, mbind, ST_bind. by destruct (m w). Qed.

(** Folds a reduced [exec] of a sequence again. *)
Ltac refold :=
  match goal with |- context [snd ((?m ≫= ?f) ?w)] =>
    change (snd ((m ≫= f) w)) with (exec (m ≫= f) w) end.

(** *** What broadcasting leaves alone

    Sending changes the channels of the sessions and appends UDP packets to the
    output, nothing else: [view] forgets exactly these. *)

Definition strip (s : PlayerSession) : PlayerSession := s <| s_rudp := rudp_init |>.
Definition side (l : list Output) : list Output :=
  List.filter (fun o => match o with OutUdp _ _ => false | _ => true end) l.
Definition view (w : World) : World :=
  mk_world ((w_room w) <| _playerSessions ::= fmap strip |>) (w_now w) (side (w_out w)) false.

(** The sessions of a world, and one of them, up to their channels. *)
Definition sess (w : World) : gmap Z PlayerSession := _playerSessions (w_room w).
Definition own (sid : Z) (w : World) : option PlayerSession := strip <$> sess w !! sid.

(** A change of a session that does not look at its channel. *)
Class Channelless (f : PlayerSession -> PlayerSession) : Prop :=
  channelless : forall s, strip (f s) = f (strip s).

Lemma side_app l l' : side (l ++ l') = side l ++ side l'.
Proof. apply List.filter_app. Qed.

Lemma view_own w w' sid : view w' = view w -> own sid w' = own sid w.
Proof.
  intros H. apply (f_equal (fun v => sess v !! sid)) in H. unfold sess, view in H.
  cbn [setf w_room _playerSessions] in H. by rewrite !lookup_fmap in H.
Qed.
Lemma view_now w w' : view w' = view w -> w_now w' = w_now w.
Proof. intros H. apply (f_equal w_now) in H. exact H. Qed.
Lemma view_side w w' : view w' = view w -> side (w_out w') = side (w_out w).
Proof. intros H. apply (f_equal w_out) in H. exact H. Qed.
Lemma view_static w w' : view w' = view w -> _staticObjects (w_room w') = _staticObjects (w_room w).
Proof. intros H. apply (f_equal (fun v => _staticObjects (w_room v))) in H. exact H. Qed.
Lemma view_dynamic w w' : view w' = view w -> _dynamicObjects (w_room w') = _dynamicObjects (w_room w).
Proof. intros H. apply (f_equal (fun v => _dynamicObjects (w_room v))) in H. exact H. Qed.
Lemma view_players w w' : view w' = view w -> _playerObjects (w_room w') = _playerObjects (w_room w).
Proof. intros H. apply (f_equal (fun v => _playerObjects (w_room v))) in H. exact H. Qed.
Lemma view_reported w w' : view w' = view w -> _allLeftReported (w_room w') = _allLeftReported (w_room w).
Proof. intros H. apply (f_equal (fun v => _allLeftReported (w_room v))) in H. exact H. Qed.

Lemma own_Some sid w s : own sid w = Some s <-> exists s0, sess w !! sid = Some s0 /\ s = strip s0.
Proof. unfold own. rewrite fmap_Some. done. Qed.

Section sending.
Context {E : External}.

Lemma MakeD2CPacketImpl_strip now m s p s' :
  MakeD2CPacketImpl now m s = Returns (p, s') -> strip s' = strip s.
Proof.
  unfold MakeD2CPacketImpl. destruct (packet_kind m) as [id []]; case_match; try done; simpl;
    intros; by simplify_eq.
Qed.

Lemma Send_view sid m w : view (exec (Send sid m) w) = view w.
Proof.
  unfold Send, exec, view. destruct (_playerSessions (w_room w) !! sid) as [s|] eqn:Hs; [|done].
  destruct (MakeD2CPacketImpl _ _ _) as [|[p s']] eqn:Hp; [done|].
  apply MakeD2CPacketImpl_strip in Hp. destruct w as [r now out thrown]. simpl in *.
  rewrite side_app, app_nil_r. f_equal. destruct r. cbn in *. f_equal.
  rewrite fmap_insert, Hp. apply insert_id. by rewrite lookup_fmap, Hs.
Qed.

Lemma Retransmit_view sid w : view (exec (Retransmit sid) w) = view w.
Proof.
  unfold Retransmit, exec, view. destruct (_playerSessions (w_room w) !! sid) as [s|] eqn:Hs; [|done].
  case_bool_decide; [done|]. destruct w as [r now out thrown]. cbn [snd setf w_room w_out w_now] in *.
  assert (Hn : forall ps : list (PendingPacket Packet), side (map (fun p => OutUdp (destAddr p) (pdata p)) ps) = []) by (by induction ps).
  rewrite side_app, Hn, app_nil_r. f_equal. destruct r. cbn in *. f_equal.
  rewrite fmap_insert. apply insert_id. by rewrite lookup_fmap, Hs.
Qed.

Lemma broadcast_loop_view keys m except n w :
  view (exec (broadcast_loop keys m except n) w) = view w.
Proof.
  revert n w. induction keys as [|sid keys IH]; intros n w; [done|]. unfold exec. simpl.
  destruct (_playerSessions (w_room w) !! sid); [|apply IH].
  case_match; [apply IH|]. etrans; [apply IH|]. apply Send_view.
Qed.

Lemma BroadcastExcept_view m except w : view (exec (BroadcastExcept m except) w) = view w.
Proof. apply broadcast_loop_view. Qed.

Lemma Broadcast_view m w : view (exec (Broadcast m) w) = view w.
Proof. unfold Broadcast. rewrite exec_bind. apply BroadcastExcept_view. Qed.

Lemma NotifySpawnObject_view o w : view (exec (NotifySpawnObject o) w) = view w.
Proof. apply Broadcast_view. Qed.
Lemma NotifyNpcAuthority_view n w : view (exec (NotifyNpcAuthority n) w) = view w.
Proof. apply Broadcast_view. Qed.
Lemma NotifySpawnPlayerObject_view p o w : view (exec (NotifySpawnPlayerObject p o) w) = view w.
Proof. unfold NotifySpawnPlayerObject. rewrite exec_bind. apply BroadcastExcept_view. Qed.
End sending.

(** *** One session at a time *)

Lemma own_upd_session_eq sid f w : Channelless f -> own sid (exec (upd_session sid f) w) = f <$> own sid w.
Proof.
  intros Hf. unfold own, sess, exec, upd_session, upd_room, modify. cbn [setf snd w_room _playerSessions].
  rewrite lookup_alter_eq. destruct (_ !! sid); simpl; [by rewrite channelless|done].
Qed.
Lemma own_upd_session_ne sid sid' f w : sid <> sid' -> own sid' (exec (upd_session sid f) w) = own sid' w.
Proof.
  intros Hne. unfold own, sess, exec, upd_session, upd_room, modify. cbn [setf snd w_room _playerSessions].
  by rewrite lookup_alter_ne.
Qed.

(** The view without the objects that are not players. *)
Definition folk (w : World) : World :=
  let v := view w in v <| w_room ::= fun r => r <| _staticObjects := ∅ |> <| _dynamicObjects := ∅ |>
                                              <| _nxtObjectId := 0 |> |>.

Lemma view_folk w w' : view w' = view w -> folk w' = folk w.
Proof. unfold folk. by intros ->. Qed.
Lemma folk_own w w' sid : folk w' = folk w -> own sid w' = own sid w.
Proof.
  intros H. apply (f_equal (fun v => sess v !! sid)) in H. unfold sess, folk, view in H.
  cbn [setf w_room _playerSessions] in H. by rewrite !lookup_fmap in H.
Qed.
Lemma folk_now w w' : folk w' = folk w -> w_now w' = w_now w.
Proof. intros H. apply (f_equal w_now) in H. exact H. Qed.
Lemma folk_side w w' : folk w' = folk w -> side (w_out w') = side (w_out w).
Proof. intros H. apply (f_equal w_out) in H. exact H. Qed.
Lemma folk_players w w' : folk w' = folk w -> _playerObjects (w_room w') = _playerObjects (w_room w).
Proof. intros H. apply (f_equal (fun v => _playerObjects (w_room v))) in H. exact H. Qed.

(** The sessions a world has, as keys. *)
Lemma own_is_Some sid w : is_Some (own sid w) <-> is_Some (sess w !! sid).
Proof. unfold own. by rewrite fmap_is_Some. Qed.

#[export] Instance SetInteractingContainerId_channelless c : Channelless (SetInteractingContainerId c).
Proof. done. Qed.
#[export] Instance SetObjectId_channelless c : Channelless (SetObjectId c).
Proof. done. Qed.
#[export] Instance SetSessionState_channelless st : Channelless (SetSessionState st).
Proof. done. Qed.
#[export] Instance SetLeaveState_channelless st : Channelless (SetLeaveState st).
Proof. done. Qed.
#[export] Instance EndRecall_channelless : Channelless EndRecall.
Proof. done. Qed.
#[export] Instance update_inventory_channelless f : Channelless (update_inventory f).
Proof. done. Qed.
#[export] Instance MarkLeaving_channelless reason n now : Channelless (MarkLeaving reason n now).
Proof. intros s. unfold MarkLeaving. change (s_leave (strip s)) with (s_leave s). by repeat case_match. Qed.
#[export] Instance SetLeaveNotifyRSeq_channelless n : Channelless (SetLeaveNotifyRSeq n).
Proof. done. Qed.
#[export] Instance SetNextFireSequence_channelless n : Channelless (SetNextFireSequence n).
Proof. done. Qed.

(** What a step on session [sid] may touch: that session, the objects, the messages
    to the main process. *)
Record acts_on (sid : Z) (w w' : World) : Prop := {
  ao_now : w_now w' = w_now w;
  ao_reported : _allLeftReported (w_room w') = _allLeftReported (w_room w);
  ao_id : _roomId (w_room w') = _roomId (w_room w);
  ao_others : forall sid', sid' <> sid -> own sid' w' = own sid' w }.

#[export] Instance acts_on_preorder sid : PreOrder (acts_on sid).
Proof.
  split; [by constructor|]. intros w1 w2 w3 [Hn1 Hr1 Hi1 Ho1] [Hn2 Hr2 Hi2 Ho2].
  constructor; [congruence..|]. intros sid' Hs. by rewrite Ho2, Ho1.
Qed.

Lemma acts_on_folk sid w w' : folk w' = folk w -> acts_on sid w w'.
Proof.
  intros H. constructor; [by apply folk_now| | |intros; by apply folk_own].
  - apply (f_equal (fun v => _allLeftReported (w_room v))) in H. exact H.
  - apply (f_equal (fun v => _roomId (w_room v))) in H. exact H.
Qed.
Lemma acts_on_upd_session sid f w : acts_on sid w (exec (upd_session sid f) w).
Proof. constructor; [done..|]. intros. by apply own_upd_session_ne. Qed.

(** Nothing happens to a session that is not there. *)
Lemma upd_session_absent sid f w : sess w !! sid = None -> exec (upd_session sid f) w = w.
Proof.
  intros Hs. unfold upd_session, upd_room, modify, exec. destruct w as [r ? ? ?], r. cbn in *.
  f_equal. f_equal. apply map_eq. intros i. unfold sess in Hs. cbn in Hs.
  destruct (decide (sid = i)) as [<-|]; [by rewrite lookup_alter_eq, Hs|by rewrite lookup_alter_ne].
Qed.

Lemma upd_session_folk_rest sid f w :
  let w' := exec (upd_session sid f) w in
  _playerObjects (w_room w') = _playerObjects (w_room w) /\ w_out w' = w_out w /\
  _staticObjects (w_room w') = _staticObjects (w_room w) /\
  _dynamicObjects (w_room w') = _dynamicObjects (w_room w) /\ w_now w' = w_now w.
Proof. done. Qed.

Lemma upd_nonplayer_folk oid f w : folk (exec (upd_nonplayer oid f) w) = folk w.
Proof.
  destruct w as [r now out thrown], r. unfold upd_nonplayer, upd_room, modify, exec. cbn.
  by case_match.
Qed.

Lemma for_each_folk {A} (xs : list A) (body : A -> ST World unit) w :
  (forall x w, folk (exec (body x) w) = folk w) -> folk (exec (for_each xs body) w) = folk w.
Proof.
  intros H. apply (for_each_inv (fun w' => folk w' = folk w)); [|done]. intros x w' _ <-. apply H.
Qed.

Section departures.
Context {E : External}.

Lemma release_npc_folk p oid w : folk (exec (release_npc p oid) w) = folk w.
Proof.
  unfold release_npc, exec. destruct (_ ≫= as_npc) as [n|]; [|done].
  destruct (negb (IsAuthority p n)); [done|]. destruct (ReleaseAuthority n) as [ok n'].
  destruct (negb ok); [done|]. etrans; [apply view_folk, NotifyNpcAuthority_view|done].
Qed.

Lemma ReleaseNpcAuthority_folk p w : folk (exec (ReleaseNpcAuthority p) w) = folk w.
Proof.
  unfold ReleaseNpcAuthority, exec. destruct (p =? NO_TARGET); [done|].
  apply for_each_folk. intros. apply release_npc_folk.
Qed.

Lemma SpawnDynamicObject_folk o w : folk (exec (SpawnDynamicObject o) w) = folk w.
Proof.
  unfold SpawnDynamicObject, exec. destruct (_ !! _); [done|].
  etrans; [apply view_folk, NotifySpawnObject_view|done].
Qed.

Lemma SpawnPlayerLootContainer_folk p inv w : folk (exec (SpawnPlayerLootContainer p inv) w) = folk w.
Proof. unfold SpawnPlayerLootContainer. rewrite exec_bind. etrans; [apply SpawnDynamicObject_folk|done]. Qed.

Lemma ReleaseInteractingContainer_spec sid w :
  let w1 := exec (upd_session sid (SetInteractingContainerId (-1))) w in
  folk (exec (ReleaseInteractingContainer sid) w) = folk w1.
Proof.
  intros w1. unfold ReleaseInteractingContainer, exec.
  destruct (_playerSessions (w_room w) !! sid) as [s|] eqn:Hs.
  - fold w1. destruct (_ =? -1); [done|]. cbn [snd]. destruct (FindContainer _ _); [|done].
    destruct (negb _); [done|]. apply upd_nonplayer_folk.
  - cbn [snd]. unfold w1. by rewrite upd_session_absent.
Qed.

(** The session after [DetachPlayer]; [cleared]: its items are gone. *)
Definition detached_session (cleared : bool) (s : PlayerSession) : PlayerSession :=
  let dead := bool_decide (_leaveReason (s_leave s) = LR_DEAD) in
  let s1 := SetInteractingContainerId (-1)
              (SetSessionState (if dead then SS_SPECTATING else SS_LEFT) (EndRecall s)) in
  let s2 := if cleared then update_inventory Clear_inventory s1 else s1 in
  exec NotifyLeftOnce (SetLeaveState LS_DETACHED (SetObjectId (-1) s2)).

(** Whether the player's items are taken from it. *)
Definition loses_items (s : PlayerSession) (r : GameRoom) : bool :=
  let reason := _leaveReason (s_leave s) in
  (bool_decide (reason = LR_DEAD) || bool_decide (reason = LR_DISCONNECTED))
  && bool_decide (is_Some (if negb (GetObjectId s =? -1) then FindPlayerObject (u32 (GetObjectId s)) r else None)).

Lemma leave_loot_folk sid oid p w : folk (exec (leave_loot sid oid p) w) = folk w.
Proof.
  unfold leave_loot, exec. destruct (_ !! _) as [s|]; [|done].
  refold. rewrite !exec_bind. etrans; [apply view_folk, Broadcast_view|]. apply SpawnPlayerLootContainer_folk.
Qed.

Definition loses (reason : LeaveReason) : bool :=
  bool_decide (reason = LR_DEAD) || bool_decide (reason = LR_DISCONNECTED).

Lemma lose_items_spec sid oid reason p w :
  let w' := exec (lose_items sid oid reason p) w in
  own sid w' = (if loses reason then update_inventory Clear_inventory <$> own sid w else own sid w) /\
  acts_on sid w w' /\ side (w_out w') = side (w_out w) /\
  _playerObjects (w_room w') = _playerObjects (w_room w).
Proof.
  unfold lose_items. fold (loses reason). destruct (loses reason); [|by split_and!].
  cbn zeta. rewrite exec_bind. set (w1 := exec (if bool_decide _ then _ else _) w).
  assert (H : folk w1 = folk w) by (unfold w1; destruct (bool_decide _); [apply leave_loot_folk|done]).
  split_and!.
  - rewrite own_upd_session_eq by apply _. by rewrite (folk_own _ _ _ H).
  - etrans; [by apply acts_on_folk|]. apply acts_on_upd_session.
  - exact (folk_side _ _ H).
  - exact (folk_players _ _ H).
Qed.

Lemma detach_object_spec sid oid reason p w :
  let w' := exec (detach_object sid oid reason p) w in
  own sid w' = (if loses reason then update_inventory Clear_inventory <$> own sid w else own sid w) /\
  acts_on sid w w' /\ side (w_out w') = side (w_out w) /\
  _playerObjects (w_room w') = delete (u32 oid) (_playerObjects (w_room w)).
Proof.
  unfold detach_object. cbn zeta. rewrite !exec_bind.
  destruct (lose_items_spec sid oid reason p w) as (Ho & Ha & Hs & Hp).
  set (w1 := exec (lose_items _ _ _ _) w) in *. set (w2 := exec (RemovePlayerObject (u32 oid)) w1).
  match goal with |- context [BroadcastExcept ?m ?x] => pose proof (BroadcastExcept_view m x w2) as Hb end.
  set (w3 := exec (BroadcastExcept _ _) w2) in *. change (exec (mret tt) w3) with w3.
  split_and!.
  - rewrite (view_own _ _ _ Hb). exact Ho.
  - etrans; [exact Ha|]. etrans; [|by apply acts_on_folk, view_folk]. by constructor.
  - rewrite (view_side _ _ Hb). exact Hs.
  - rewrite (view_players _ _ Hb). unfold w2, RemovePlayerObject, upd_room, modify, exec. simpl. by rewrite Hp.
Qed.

Lemma detach_player_object_spec sid oid reason w :
  let w' := exec (detach_player_object sid oid reason) w in
  let p := if negb (oid =? -1) then FindPlayerObject (u32 oid) (w_room w) else None in
  own sid w' = (if loses reason && bool_decide (is_Some p)
                then update_inventory Clear_inventory <$> own sid w else own sid w) /\
  acts_on sid w w' /\ side (w_out w') = side (w_out w) /\
  _playerObjects (w_room w') =
    (if oid =? -1 then _playerObjects (w_room w) else delete (u32 oid) (_playerObjects (w_room w))).
Proof.
  cbn zeta. unfold detach_player_object, exec. destruct (oid =? -1); cbn [negb].
  { by rewrite andb_false_r. }
  unfold FindPlayerObject. destruct (_playerObjects (w_room w) !! u32 oid) as [p|] eqn:Hp.
  - change (snd (detach_object sid oid reason p w)) with (exec (detach_object sid oid reason p) w).
    rewrite bool_decide_eq_true_2, andb_true_r by done. apply detach_object_spec.
  - cbn [snd]. rewrite bool_decide_eq_false_2, andb_false_r by (by intros []).
    split_and!; [done|done|done|]. by rewrite delete_id.
Qed.

Lemma notify_left_spec sid step s w :
  sess w !! sid = Some s ->
  let sent := fst (step s) in let s' := snd (step s) in
  let w' := exec (notify_left sid step) w in
  own sid w' = Some (strip s') /\ acts_on sid w w' /\
  side (w_out w') = side (w_out w) ++ (if sent then [OutLeft (NotifyPlayerLeftToMain s')] else []) /\
  _playerObjects (w_room w') = _playerObjects (w_room w) /\
  _allLeftReported (w_room w') = _allLeftReported (w_room w).
Proof.
  intros Hs. unfold notify_left, exec. unfold sess in Hs. rewrite Hs. destruct (step s) as [sent s'].
  cbn [fst snd]. set (w1 := w <| w_room ::= fun r => r <| _playerSessions ::= <[sid:=s']> |> |>).
  assert (H1 : own sid w1 = Some (strip s') /\ acts_on sid w w1).
  { split; [unfold own, sess, w1; cbn [setf w_room _playerSessions]; by rewrite lookup_insert_eq|].
    constructor; [done..|]. intros sid' Hne. unfold own, sess, w1. cbn [setf w_room _playerSessions].
    by rewrite lookup_insert_ne. }
  destruct H1 as [Ho [Hn Hrep Hid Hr]].
  destruct sent; cbn [emit modify snd]; [|rewrite app_nil_r; split_and!; done].
  split_and!; [exact Ho|constructor; [done..|exact Hr]|cbn [setf w_out]; by rewrite side_app|done..].
Qed.

(** *** Detaching a player *)

(** Everything but the last step, the notification. *)
Definition detach_steps (sid : Z) (s : PlayerSession) : ST World unit :=
  let oid := GetObjectId s in let reason := _leaveReason (s_leave s) in
  _ ← upd_session sid EndRecall;
  _ ← upd_session sid (SetSessionState (if bool_decide (reason = LR_DEAD) then SS_SPECTATING else SS_LEFT));
  _ ← ReleaseInteractingContainer sid;
  _ ← ReleaseNpcAuthority oid;
  _ ← detach_player_object sid oid reason;
  _ ← upd_session sid (SetObjectId (-1));
  upd_session sid (SetLeaveState LS_DETACHED).
Lemma DetachPlayer_steps sid s w : sess w !! sid = Some s ->
  exec (DetachPlayer sid) w = exec (notify_left sid NotifyLeftOnce) (exec (detach_steps sid s) w).
Proof.
  intros Hs. unfold DetachPlayer, exec at 1. unfold sess in Hs. rewrite Hs. refold. unfold detach_steps. by rewrite !exec_bind.
Qed.

Lemma detach_steps_spec sid s w : sess w !! sid = Some s ->
  let w' := exec (detach_steps sid s) w in
  own sid w' = Some (SetLeaveState LS_DETACHED (SetObjectId (-1)
    ((if loses_items s (w_room w) then update_inventory Clear_inventory else id) (SetInteractingContainerId (-1)
      (SetSessionState (if bool_decide (_leaveReason (s_leave s) = LR_DEAD) then SS_SPECTATING else SS_LEFT)
         (EndRecall (strip s))))))) /\
  acts_on sid w w' /\ side (w_out w') = side (w_out w) /\
  _playerObjects (w_room w') =
    (if GetObjectId s =? -1 then _playerObjects (w_room w)
     else delete (u32 (GetObjectId s)) (_playerObjects (w_room w))).
Proof.
  intros Hs w'. unfold w', detach_steps. rewrite !exec_bind. set (oid := GetObjectId s). set (reason := _leaveReason (s_leave s)).
  set (w1 := exec (upd_session sid EndRecall) w).
  set (w2 := exec (upd_session sid (SetSessionState _)) w1).
  set (w3 := exec (ReleaseInteractingContainer sid) w2).
  set (w4 := exec (ReleaseNpcAuthority oid) w3).
  set (w5 := exec (detach_player_object sid oid reason) w4).
  assert (H4 : folk w4 = folk (exec (upd_session sid (SetInteractingContainerId (-1))) w2)).
  { unfold w4. rewrite ReleaseNpcAuthority_folk. apply ReleaseInteractingContainer_spec. }
  destruct (detach_player_object_spec sid oid reason w4) as (Ho5 & Ha5 & Hs5 & Hp5). fold w5 in Ho5, Ha5, Hs5, Hp5.
  assert (Hp4 : _playerObjects (w_room w4) = _playerObjects (w_room w)) by exact (folk_players _ _ H4).
  unfold FindPlayerObject in Ho5. rewrite Hp4 in Ho5. split_and!.
  - rewrite !own_upd_session_eq, Ho5, (folk_own _ _ _ H4) by apply _.
    unfold w2, w1. rewrite !own_upd_session_eq by apply _. unfold own. rewrite Hs.
    unfold loses_items, FindPlayerObject. fold oid reason (loses reason).
    by destruct (loses reason && _).
  - etrans; [|apply acts_on_upd_session]. etrans; [|apply acts_on_upd_session].
    etrans; [|exact Ha5]. etrans; [|apply acts_on_folk; exact H4]. etrans; [|apply acts_on_upd_session].
    unfold w2, w1. etrans; apply acts_on_upd_session.
  - change (side (w_out w5) = side (w_out w)). rewrite Hs5. exact (folk_side _ _ H4).
  - etrans; [exact Hp5|]. by rewrite Hp4.
Qed.

Lemma DetachPlayer_spec sid s w :
  sess w !! sid = Some s ->
  let w' := exec (DetachPlayer sid) w in
  let cleared := loses_items s (w_room w) in
  own sid w' = Some (strip (detached_session cleared s)) /\ acts_on sid w w' /\
  side (w_out w') = side (w_out w) ++
    (if _leftNotified (s_leave s) then [] else [OutLeft (NotifyPlayerLeftToMain (detached_session cleared s))]) /\
  _playerObjects (w_room w') =
    (if GetObjectId s =? -1 then _playerObjects (w_room w)
     else delete (u32 (GetObjectId s)) (_playerObjects (w_room w))).
Proof.
  intros Hs w' cleared. unfold w'. rewrite (DetachPlayer_steps sid s w Hs).
  destruct (detach_steps_spec sid s w Hs) as (Ho & Ha & Hside & Hp). fold cleared in Ho.
  set (w7 := exec (detach_steps sid s) w) in *.
  apply own_Some in Ho as (s7 & Hs7 & E7).
  destruct (notify_left_spec sid NotifyLeftOnce s7 w7 Hs7) as (Ho8 & Ha8 & Hs8 & Hp8 & _).
  rewrite NotifyLeftOnce_eq in Ho8, Hs8. cbn [fst snd] in Ho8, Hs8.
  assert (Hn : _leftNotified (s_leave s7) = _leftNotified (s_leave s)).
  { apply (f_equal (fun s => _leftNotified (s_leave s))) in E7. by destruct cleared. }
  assert (Hd : strip (s7 <| s_leave ::= fun l => l <| _leftNotified := true |> |>)
               = strip (detached_session cleared s)).
  { apply (f_equal (fun s => s <| s_leave ::= fun l => l <| _leftNotified := true |> |>)) in E7.
    etrans; [symmetry; exact E7|]. unfold detached_session, exec. rewrite NotifyLeftOnce_eq. by destruct cleared. }
  rewrite Hd in Ho8. split_and!; [exact Ho8|by etrans| |by rewrite Hp8].
  rewrite Hs8, Hn, Hside. f_equal. destruct (_leftNotified (s_leave s)); [done|]. cbn [negb]. do 2 f_equal.
  apply (f_equal NotifyPlayerLeftToMain) in Hd. exact Hd.
Qed.
End departures.

(** *** Loops over the sessions *)

(** The messages to the main process about one player. *)
Definition about (uid : Z) (o : Output) : bool :=
  match o with OutLeft m => pl_uid m =? uid | _ => false end.
Definition told (uid : Z) (l : list Output) : list Output := List.filter (about uid) l.
Definition session_uid (s : PlayerSession) : Z := _uid (_player s).
Definition is_left (o : Output) : bool := match o with OutLeft _ => true | _ => false end.
(** The requests to destroy the room. *)
Definition reserves (l : list Output) : list Output :=
  List.filter (fun o => match o with OutReserveDestroy _ => true | _ => false end) l.

(** No two sessions are of the same player. *)
Definition uids_distinct (w : World) : Prop :=
  forall sid1 sid2 s1 s2, own sid1 w = Some s1 -> own sid2 w = Some s2 ->
    session_uid s1 = session_uid s2 -> sid1 = sid2.

Lemma told_app uid l l' : told uid (l ++ l') = told uid l ++ told uid l'.
Proof. apply List.filter_app. Qed.
Lemma told_side uid l : told uid (side l) = told uid l.
Proof. induction l as [|[] l IH]; simpl; rewrite ?IH; try done. Qed.
Lemma reserves_app l l' : reserves (l ++ l') = reserves l ++ reserves l'.
Proof. apply List.filter_app. Qed.
Lemma reserves_side l : reserves (side l) = reserves l.
Proof. induction l as [|[] l IH]; simpl; rewrite ?IH; try done. Qed.
Lemma reserves_left l : Forall (fun o => is_left o = true) l -> reserves l = [].
Proof. induction 1 as [|[] l Ho _ IH]; simpl in *; try done. Qed.
Lemma about_left uid l : Forall (fun o => about uid o = true) l -> Forall (fun o => is_left o = true) l.
Proof. intros H. eapply Forall_impl; [exact H|]. by intros []. Qed.
Lemma told_all uid l : Forall (fun o => about uid o = true) l -> told uid l = l.
Proof. induction 1 as [|o l Ho _ IH]; simpl; [done|]. by rewrite Ho, IH. Qed.
Lemma told_other uid uid' l : Forall (fun o => about uid o = true) l -> uid' <> uid -> told uid' l = [].
Proof.
  intros H Hne. induction H as [|o l Ho _ IH]; simpl; [done|]. rewrite IH.
  destruct o; simpl in *; try done. apply Z.eqb_eq in Ho. destruct (Z.eqb_spec (pl_uid m) uid'); [congruence|done].
Qed.

(** A step on one session: what it becomes and what the main process is told. *)
Definition SessionStep : Type := PlayerSession -> PlayerSession -> list Output -> Prop.
Class Respectful (R : SessionStep) : Prop :=
  respectful : forall s s' es, R s s' es ->
    session_uid s' = session_uid s /\ Forall (fun o => about (session_uid s) o = true) es.

Section loops.
Context {E : External} {L : ExternalLaws E}.

Lemma keys_NoDup {A} (m : gmap Z A) : NoDup (ext_keys A m).
Proof. rewrite (keys_perm A m). apply NoDup_fst_map_to_list. Qed.
Lemma keys_elem {A} (m : gmap Z A) k : k ∈ ext_keys A m <-> is_Some (m !! k).
Proof.
  rewrite (keys_perm A m). rewrite list_elem_of_fmap. split.
  - intros ([k' x] & -> & Hx%elem_of_map_to_list). by exists x.
  - intros [x Hx]. exists (k, x). split; [done|]. by apply elem_of_map_to_list.
Qed.

Variables (R : SessionStep) (body : Z -> PlayerSession -> ST World unit).
Context `{!Respectful R}.

(** [body] takes the step [R] on its session and leaves the others alone. *)
Definition takes (now : Z) : Prop := forall sid s w, w_now w = now -> sess w !! sid = Some s ->
  let w' := exec (body sid s) w in
  acts_on sid w w' /\
  exists s' es, own sid w' = Some s' /\ side (w_out w') = side (w_out w) ++ es /\ R (strip s) s' es.

Let visit (sid : Z) : ST World unit := fun w =>
  match _playerSessions (w_room w) !! sid with None => (tt, w) | Some s => body sid s w end.

Lemma visit_spec now sid w : takes now -> w_now w = now ->
  let w' := exec (visit sid) w in
  acts_on sid w w' /\
  match own sid w with
  | None => w' = w
  | Some s => exists s' es, own sid w' = Some s' /\ side (w_out w') = side (w_out w) ++ es /\ R s s' es
  end.
Proof.
  intros Ht Hnow. unfold visit, exec, own, sess. destruct (_playerSessions (w_room w) !! sid) as [s|] eqn:Hs.
  - apply (Ht sid s w Hnow Hs).
  - split; [reflexivity|done].
Qed.

(** What a visit leaves of everybody. *)
Lemma visit_people now k w : takes now -> w_now w = now ->
  let w1 := exec (visit k) w in
  w_now w1 = now /\ (forall sid, sid <> k -> own sid w1 = own sid w) /\
  (exists es, side (w_out w1) = side (w_out w) ++ es /\
    match own k w with
    | None => own k w1 = None /\ es = []
    | Some s => exists s', own k w1 = Some s' /\ R s s' es
    end) /\
  (forall sid s, own sid w = Some s -> exists s1, own sid w1 = Some s1 /\ session_uid s1 = session_uid s) /\
  (uids_distinct w -> uids_distinct w1).
Proof.
  intros Ht Hnow. destruct (visit_spec now k w Ht Hnow) as [[Hn _ _ Ho] Hv]. cbn zeta. set (w1 := exec (visit k) w) in *.
  assert (Hstep : exists es, side (w_out w1) = side (w_out w) ++ es /\
    match own k w with None => own k w1 = None /\ es = [] | Some s => exists s', own k w1 = Some s' /\ R s s' es end).
  { destruct (own k w) as [s|] eqn:Hkw.
    - destruct Hv as (s' & es1 & ? & ? & ?). eauto.
    - exists []. rewrite Hv, app_nil_r. done. }
  pose proof Hstep as (es & _ & Hk).
  assert (Huid : forall sid s, own sid w = Some s -> exists s1, own sid w1 = Some s1 /\ session_uid s1 = session_uid s).
  { intros sid s Hs. destruct (decide (sid = k)) as [->|Hne]; [|rewrite Ho by done; eauto].
    rewrite Hs in Hk. destruct Hk as (s' & Hs' & HR). apply respectful in HR as [HR _]. eauto. }
  assert (Hback : forall sid s1, own sid w1 = Some s1 -> exists s, own sid w = Some s).
  { intros sid s1 Hs1. destruct (decide (sid = k)) as [->|Hne]; [|rewrite Ho in Hs1 by done; eauto].
    destruct (own k w); [eauto|]. destruct Hk. congruence. }
  split_and!; [congruence|exact Ho|exact Hstep|exact Huid|].
  intros Hu sid1 sid2 s1 s2 H1 H2 Heq. destruct (Hback _ _ H1) as [t1 Ht1], (Hback _ _ H2) as [t2 Ht2].
  destruct (Huid _ _ Ht1) as (? & ? & ?), (Huid _ _ Ht2) as (? & ? & ?). simplify_eq.
  apply (Hu sid1 sid2 t1 t2); congruence.
Qed.

Lemma loop_spec now keys w : takes now -> w_now w = now -> NoDup keys -> uids_distinct w ->
  let w' := exec (for_each keys visit) w in
  w_now w' = now /\
  exists es, side (w_out w') = side (w_out w) ++ es /\
    Forall (fun o => is_left o = true) es /\
    (forall sid, sid ∉ keys -> own sid w' = own sid w) /\
    (forall sid, own sid w = None -> own sid w' = None) /\
    (forall sid s, own sid w = Some s -> sid ∉ keys -> told (session_uid s) es = []) /\
    (forall sid s, sid ∈ keys -> own sid w = Some s ->
       exists s' e, own sid w' = Some s' /\ R s s' e /\ told (session_uid s) es = e).
Proof.
  intros Ht. revert w. induction keys as [|k keys IH]; intros w Hnow Hnd Hu.
  { split; [done|]. exists []. rewrite app_nil_r. split_and!; set_solver. }
  apply NoDup_cons in Hnd as [Hk Hnd]. cbn zeta. rewrite exec_for_each_cons.
  destruct (visit_people now k w Ht Hnow) as (Hnow1 & Ho & (es1 & Hes1 & Hkstep) & Huid & Hu1). specialize (Hu1 Hu).
  set (w1 := exec (visit k) w) in *.
  destruct (IH w1 Hnow1 Hnd Hu1) as (Hn' & es2 & Hes2 & Hleft & Hnot & Hnone & Htold & Hin).
  split; [done|]. exists (es1 ++ es2). split_and!.
  - by rewrite Hes2, Hes1, app_assoc.
  - apply Forall_app. split; [|done]. destruct (own k w) as [sk|]; [|destruct Hkstep as [_ ->]; done].
    destruct Hkstep as (s' & _ & HR). apply respectful in HR as [_ HR]. by eapply about_left.
  - intros sid Hsid. rewrite Hnot, Ho; set_solver.
  - intros sid Hs. apply Hnone. destruct (decide (sid = k)) as [->|Hne]; [|by rewrite Ho].
    rewrite Hs in Hkstep. by destruct Hkstep.
  - intros sid s Hs Hsid. rewrite told_app.
    destruct (Huid _ _ Hs) as (s1 & Hs1 & He1). rewrite <- He1, (Htold sid s1) by set_solver.
    rewrite app_nil_r, He1. destruct (own k w) as [sk|] eqn:Hkw; [|by destruct Hkstep as [_ ->]].
    destruct Hkstep as (s' & _ & HR). apply respectful in HR as [_ HR]. apply (told_other _ _ _ HR).
    intros Heq. apply Hsid. rewrite (Hu sid k s sk); set_solver.
  - intros sid s Hsid Hs. rewrite told_app. destruct (Huid _ _ Hs) as (s1 & Hs1 & He1).
    destruct (decide (sid = k)) as [->|Hne].
    + rewrite Hs in Hkstep. destruct Hkstep as (s' & Hs' & HR). exists s', es1.
      split; [by rewrite Hnot|]. split; [done|].
      rewrite <- He1 at 2. rewrite (Htold k s1) by done. rewrite app_nil_r.
      apply respectful in HR as [_ HR]. by apply told_all.
    + apply elem_of_cons in Hsid as [?|Hsid]; [done|].
      assert (Hs1' : own sid w1 = Some s) by (by rewrite Ho).
      destruct (Hin sid s Hsid Hs1') as (s' & e & Hs' & HR & He). exists s', e. split_and!; [done..|].
      rewrite He. destruct (own k w) as [sk|] eqn:Hkw; [|by destruct Hkstep as [_ ->]].
      destruct Hkstep as (s'' & _ & HRk). apply respectful in HRk as [_ HRk].
      rewrite (told_other _ _ _ HRk); [done|]. intros Heq. apply Hne. by apply (Hu sid k s sk).
Qed.

Lemma for_sessions_spec w : takes (w_now w) -> uids_distinct w ->
  let w' := exec (for_sessions body) w in
  w_now w' = w_now w /\
  exists es, side (w_out w') = side (w_out w) ++ es /\ Forall (fun o => is_left o = true) es /\
    (forall sid, own sid w = None -> own sid w' = None) /\
    (forall sid s, own sid w = Some s ->
       exists s' e, own sid w' = Some s' /\ R s s' e /\ told (session_uid s) es = e).
Proof.
  intros Ht Hu. destruct (loop_spec (w_now w) (ext_keys _ (_playerSessions (w_room w))) w Ht eq_refl
    (keys_NoDup _) Hu) as (Hn & es & Hes & Hleft & _ & Hnone & _ & Hin).
  split; [exact Hn|]. exists es. split_and!; [exact Hes|exact Hleft|exact Hnone|].
  intros sid s Hs. apply Hin; [|done]. apply keys_elem. apply own_is_Some. by exists s.
Qed.
End loops.

(** *** What the processing of departures does to a session *)

(** The wait of a detached session is over whatever the client acknowledged. *)
Definition grace_over (now : Z) (s : PlayerSession) : bool :=
  let l := s_leave s in
  if bool_decide (_leaveReason l = LR_DEAD) then DEATH_GRACE_MS <=? ElapsedMs (_leaveMarkedAt l) now
  else (_leaveNotifyRSeq l =? 0) || (LEAVE_FINALIZE_TIMEOUT_MS <=? ElapsedMs (_leaveMarkedAt l) now).

Definition final (s : PlayerSession) : PlayerSession := exec FinalizeLeave s.
Definition left_unless (told : bool) (s : PlayerSession) : list Output :=
  if told then [] else [OutLeft (NotifyPlayerLeftToMain s)].

(** A detached session stays or is finalized; a dead one only when its grace is over. *)
Definition settle (now : Z) (s s' : PlayerSession) (es : list Output) : Prop :=
  (s' = s /\ es = [] /\ grace_over now s = false) \/
  (s' = strip (final s) /\ es = left_unless (_leftNotified (s_leave s)) (final s) /\
   (_leaveReason (s_leave s) = LR_DEAD -> grace_over now s = true)).

Definition depart (now : Z) : SessionStep := fun s s' es =>
  match _leaveState (s_leave s) with
  | LS_NONE | LS_FINALIZED => s' = s /\ es = []
  | LS_PENDING =>
      exists cleared es2, let d := strip (detached_session cleared s) in
        (cleared = true -> loses (_leaveReason (s_leave s)) = true) /\
        es = left_unless (_leftNotified (s_leave s)) d ++ es2 /\ settle now d s' es2
  | LS_DETACHED => settle now s s' es
  end.

(** Marking, any number of times. *)
Definition marks (now : Z) (reasons : list LeaveReason) (s : PlayerSession) : PlayerSession :=
  foldl (fun s r => MarkLeaving r 0 now s) s reasons.

Lemma strip_strip s : strip (strip s) = strip s.
Proof. done. Qed.
Lemma strip_final s : strip (final s) = final (strip s).
Proof.
  unfold final, FinalizeLeave, exec. rewrite !NotifyLeftOnce_eq. cbn [snd]. unfold strip. cbn.
  unfold SetSessionState, SetLeaveState, ClearPendingReliableExcept. cbn. by rewrite map_filter_empty.
Qed.
Lemma strip_detached c s : strip (detached_session c s) = detached_session c (strip s).
Proof. unfold detached_session, exec. rewrite !NotifyLeftOnce_eq. by destruct c. Qed.
Lemma message_strip s : NotifyPlayerLeftToMain (strip s) = NotifyPlayerLeftToMain s.
Proof. done. Qed.
Lemma message_about s : about (session_uid s) (OutLeft (NotifyPlayerLeftToMain s)) = true.
Proof.
  cbn. apply Z.eqb_eq. unfold NotifyPlayerLeftToMain. by destruct (if bool_decide _ then _ else _).
Qed.
Lemma uid_final s : session_uid (final s) = session_uid s.
Proof. unfold final, FinalizeLeave, exec. by rewrite NotifyLeftOnce_eq. Qed.
Lemma uid_detached c s : session_uid (detached_session c s) = session_uid s.
Proof. unfold detached_session, exec. rewrite NotifyLeftOnce_eq. by destruct c. Qed.
Lemma final_eq s :
  final s = (s <| s_rudp ::= ClearPendingReliableExcept 0 |> <| _sessionState := SS_LEFT |>
               <| s_leave ::= fun l => l <| _leaveState := LS_FINALIZED |> <| _leftNotified := true |> |>).
Proof. unfold final, FinalizeLeave, exec. by rewrite NotifyLeftOnce_eq. Qed.
Lemma fst_FinalizeLeave s : fst (FinalizeLeave s) = negb (_leftNotified (s_leave s)).
Proof. unfold FinalizeLeave. by rewrite NotifyLeftOnce_eq. Qed.

Lemma marks_app now rs rs' s : marks now (rs ++ rs') s = marks now rs' (marks now rs s).
Proof. apply foldl_app. Qed.
Lemma marks_frame now rs s :
  let s' := marks now rs s in
  _player s' = _player s /\ _leftNotified (s_leave s') = _leftNotified (s_leave s) /\
  _sessionId s' = _sessionId s /\ s_recall s' = s_recall s.
Proof.
  revert s. induction rs as [|r rs IH]; intros s; [done|]. cbn zeta.
  change (marks now (r :: rs) s) with (marks now rs (MarkLeaving r 0 now s)).
  destruct (IH (MarkLeaving r 0 now s)) as (H1 & H2 & H3 & H4).
  destruct (MarkLeaving_frame r 0 now s) as (? & ? & ? & ? & ? & ? & ? & ?). split_and!; congruence.
Qed.

Section settling.
Context {E : External} {L : ExternalLaws E}.

#[export] Instance depart_respectful now : Respectful (depart now).
Proof.
  assert (Hset : forall s s' es, settle now s s' es ->
    session_uid s' = session_uid s /\ Forall (fun o => about (session_uid s) o = true) es).
  { intros s s' es [(-> & -> & _)|(-> & -> & _)]; [done|]. split; [apply (uid_final s)|].
    unfold left_unless. destruct (_leftNotified _); [done|]. constructor; [|done].
    rewrite <- (uid_final s). apply message_about. }
  intros s s' es. unfold depart. destruct (_leaveState (s_leave s)); [by intros [-> ->]| |apply Hset|by intros [-> ->]].
  intros (c & es2 & _ & -> & Hs). apply Hset in Hs as [Hu Hes].
  assert (Hud : session_uid (strip (detached_session c s)) = session_uid s) by apply (uid_detached c s).
  rewrite Hud in Hu, Hes. split; [done|]. apply Forall_app. split; [|done]. unfold left_unless.
  destruct (_leftNotified _); [done|]. constructor; [|done]. rewrite <- Hud. apply message_about.
Qed.

Lemma IsFinalizeReady_grace now s : IsFinalizeReady now s = false -> grace_over now s = false.
Proof.
  unfold IsFinalizeReady, grace_over. case_bool_decide; [done|]. destruct (_ =? 0); [done|]. by destruct (IsReliablePending _ _).
Qed.
Lemma IsFinalizeReady_dead now s :
  IsFinalizeReady now s = true -> _leaveReason (s_leave s) = LR_DEAD -> grace_over now s = true.
Proof. unfold IsFinalizeReady, grace_over. intros H Hr. by rewrite !bool_decide_eq_true_2 in * by done. Qed.

Lemma finalize_if_ready_spec sid s w :
  sess w !! sid = Some s -> _leaveState (s_leave s) = LS_DETACHED ->
  let w' := exec (finalize_if_ready sid) w in
  acts_on sid w w' /\ exists s' es, own sid w' = Some s' /\ side (w_out w') = side (w_out w) ++ es /\
    settle (w_now w) (strip s) s' es.
Proof.
  intros Hs Hd. unfold finalize_if_ready, exec. unfold sess in Hs. rewrite Hs.
  rewrite bool_decide_eq_true_2 by done. cbn [andb]. destruct (IsFinalizeReady (w_now w) s) eqn:Hr.
  - destruct (notify_left_spec sid FinalizeLeave s w Hs) as (Ho & Ha & Hside & _).
    rewrite fst_FinalizeLeave in Hside. split; [exact Ha|]. exists (strip (final s)). eexists.
    split; [exact Ho|]. split; [exact Hside|]. right. split_and!.
    + by rewrite <- strip_final.
    + rewrite <- strip_final. unfold left_unless.
      change (_leftNotified (s_leave (strip s))) with (_leftNotified (s_leave s)).
      by destruct (_leftNotified (s_leave s)).
    + intros. apply (IsFinalizeReady_dead (w_now w) s Hr). done.
  - cbn [snd]. split; [reflexivity|]. exists (strip s), []. rewrite app_nil_r. split_and!; [|done|].
    + unfold own, sess. by rewrite Hs.
    + left. split_and!; [done|done|]. apply (IsFinalizeReady_grace (w_now w) s Hr).
Qed.

Lemma detach_or_finalize_takes now : takes (depart now) detach_or_finalize now.
Proof.
  intros sid s w Hnow Hs. unfold detach_or_finalize. cbn zeta. rewrite exec_bind.
  unfold depart. change (_leaveState (s_leave (strip s))) with (_leaveState (s_leave s)).
  assert (Hidle : _leaveState (s_leave s) <> LS_DETACHED -> exec (finalize_if_ready sid) w = w).
  { intros Hne. unfold finalize_if_ready, exec. unfold sess in Hs. rewrite Hs.
    by rewrite bool_decide_eq_false_2. }
  assert (Hown : own sid w = Some (strip s)) by (unfold own; by rewrite Hs).
  destruct (_leaveState (s_leave s)) eqn:Hst; case_bool_decide; try done.
  - change (exec (mret tt) w) with w. rewrite Hidle by done. split; [reflexivity|].
    exists (strip s), []. by rewrite app_nil_r.
  - destruct (DetachPlayer_spec sid s w Hs) as (Ho & Ha & Hside & _).
    set (w1 := exec (DetachPlayer sid) w) in *. apply own_Some in Ho as (s1 & Hs1 & E1).
    assert (Hd1 : _leaveState (s_leave s1) = LS_DETACHED).
    { apply (f_equal (fun s => _leaveState (s_leave s))) in E1. etrans; [symmetry; exact E1|].
      unfold detached_session, exec. rewrite NotifyLeftOnce_eq. by destruct (loses_items _ _). }
    destruct (finalize_if_ready_spec sid s1 w1 Hs1 Hd1) as (Ha2 & s' & es & Ho2 & Hs2 & Hset).
    split; [by etrans|]. exists s'. eexists (_ ++ es).
    split; [done|]. split; [by rewrite Hs2, Hside, app_assoc|].
    exists (loses_items s (w_room w)), es. rewrite <- E1, (ao_now _ _ _ Ha), Hnow in Hset.
    rewrite <- strip_detached, strip_strip. split; [|split; [|done]].
    + unfold loses_items. fold (loses (_leaveReason (s_leave s))). change (s_leave (strip s)) with (s_leave s).
      by destruct (loses _).
    + unfold left_unless. by rewrite message_strip.
  - change (exec (mret tt) w) with w.
    destruct (finalize_if_ready_spec sid s w Hs Hst) as (Ha2 & s' & es & Ho2 & Hs2 & Hset).
    rewrite Hnow in Hset. split; [done|]. eauto.
  - change (exec (mret tt) w) with w. rewrite Hidle by done. split; [reflexivity|].
    exists (strip s), []. by rewrite app_nil_r.
Qed.
End settling.

(** *** Marking *)

Lemma marks_pending now rs s :
  _leaveState (s_leave s) <> LS_NONE -> _leaveState (s_leave (marks now rs s)) = _leaveState (s_leave s).
Proof.
  revert s; induction rs as [|r rs IH]; intros s Hs; [done|].
  change (marks now (r :: rs) s) with (marks now rs (MarkLeaving r 0 now s)).
  destruct (decide (r = LR_NONE)) as [->|Hr]; [by apply IH|].
  destruct (MarkLeaving_reason r 0 now s Hr) as [_ H].
  rewrite IH; [|rewrite H; by destruct (_leaveState (s_leave s))]. rewrite H. by destruct (_leaveState (s_leave s)).
Qed.

Lemma marks_ok now rs s : leave_ok s -> leave_ok (marks now rs s).
Proof.
  revert s; induction rs as [|r rs IH]; intros s Hs; [done|].
  apply (IH (MarkLeaving r 0 now s)). apply (leave_op_step (OpMark r 0 now) s Hs).
Qed.

Lemma marks_late now rs s : 2 <= leave_rank (_leaveState (s_leave s)) -> marks now rs s = s.
Proof.
  intros H. induction rs as [|r rs IH]; [done|].
  change (marks now (r :: rs) s) with (marks now rs (MarkLeaving r 0 now s)). by rewrite MarkLeaving_late.
Qed.

Lemma mark_leaves now r s : r <> LR_NONE -> _leaveState (s_leave (MarkLeaving r 0 now s)) <> LS_NONE.
Proof. intros Hr. destruct (MarkLeaving_reason r 0 now s Hr) as [_ ->]. by destruct (_leaveState (s_leave s)). Qed.

(** What marking does to a world: every session may be marked, for reasons [Q]. *)
Record marked (Q : LeaveReason -> Prop) (w w' : World) : Prop := {
  md_now : w_now w' = w_now w;
  md_side : side (w_out w') = side (w_out w);
  md_players : _playerObjects (w_room w') = _playerObjects (w_room w);
  md_reported : _allLeftReported (w_room w') = _allLeftReported (w_room w);
  md_id : _roomId (w_room w') = _roomId (w_room w);
  md_none : forall sid, own sid w = None -> own sid w' = None;
  md_some : forall sid s, own sid w = Some s ->
    exists rs, Forall Q rs /\ own sid w' = Some (marks (w_now w) rs s) }.

#[export] Instance marked_preorder Q : PreOrder (marked Q).
Proof.
  split.
  - intros w. constructor; try done. intros sid s Hs. by exists [].
  - intros w1 w2 w3 [] []. constructor; try congruence; [auto|].
    intros sid s Hs. destruct (md_some0 _ _ Hs) as (rs & Hrs & H2).
    destruct (md_some1 _ _ H2) as (rs' & Hrs' & H3). exists (rs ++ rs').
    split; [by apply Forall_app|]. by rewrite H3, md_now0, marks_app.
Qed.

Lemma marked_weaken (Q Q' : LeaveReason -> Prop) w w' :
  (forall r, Q r -> Q' r) -> marked Q w w' -> marked Q' w w'.
Proof.
  intros HQ []. constructor; try done. intros sid s Hs. destruct (md_some0 _ _ Hs) as (rs & Hrs & H).
  exists rs. split; [|done]. by eapply Forall_impl.
Qed.

Lemma mark_leaving_marked (Q : LeaveReason -> Prop) sid r w : Q r -> marked Q w (exec (mark_leaving sid r 0) w).
Proof.
  intros Hr. unfold mark_leaving. change (exec (fun w => upd_session sid (MarkLeaving r 0 (w_now w)) w) w)
    with (exec (upd_session sid (MarkLeaving r 0 (w_now w))) w).
  constructor; try done.
  - intros sid' H. destruct (decide (sid = sid')) as [<-|]; [|by rewrite own_upd_session_ne].
    rewrite own_upd_session_eq by apply _. by rewrite H.
  - intros sid' s H. destruct (decide (sid = sid')) as [<-|].
    + exists [r]. split; [by constructor|]. rewrite own_upd_session_eq by apply _. by rewrite H.
    + exists []. split; [done|]. by rewrite own_upd_session_ne.
Qed.

Section marking.
Context {E : External} {L : ExternalLaws E}.

Lemma for_sessions_marked (Q : LeaveReason -> Prop) body w :
  (forall sid s w, marked Q w (exec (body sid s) w)) -> marked Q w (exec (for_sessions body) w).
Proof.
  intros Hb. unfold for_sessions. apply (for_each_inv (marked Q w)); [|reflexivity].
  intros sid w1 _ H. etrans; [exact H|]. unfold exec. destruct (_ !! _); [apply Hb|reflexivity].
Qed.

Lemma DetectDisconnected_marked w : marked (fun r => r <> LR_NONE) w (exec DetectDisconnectedSessions w).
Proof.
  apply for_sessions_marked. intros sid s w1. unfold exec. repeat case_match; try reflexivity.
  by apply mark_leaving_marked.
Qed.

Lemma AllKill_marked w : marked (fun r => r = LR_DEAD) w (exec AllKill w).
Proof. apply for_sessions_marked. intros sid s w1. by apply mark_leaving_marked. Qed.

(** Nobody stays unmarked. *)
Lemma AllKill_all w sid s : own sid w = Some s ->
  exists rs, own sid (exec AllKill w) = Some (marks (w_now w) rs s) /\ Forall (fun r => r = LR_DEAD) rs /\ rs <> [].
Proof.
  intros Hs. set (visit := fun sid (w : World) => match _playerSessions (w_room w) !! sid with
                | None => (tt, w) | Some s => mark_leaving sid LR_DEAD 0 w end).
  assert (Hb : forall sid w, marked (fun r => r = LR_DEAD) w (exec (visit sid) w)).
  { intros sid' w1. unfold visit, exec. destruct (_ !! _); [by apply mark_leaving_marked|reflexivity]. }
  assert (Hin : sid ∈ ext_keys _ (_playerSessions (w_room w))).
  { apply keys_elem, own_is_Some. by exists s. }
  destruct (for_each_visit (marked (fun r => r = LR_DEAD)) _ visit sid w Hb Hin) as (w1 & H1 & H2).
  change (for_each _ visit) with (fun w' => for_each (ext_keys _ (_playerSessions (w_room w))) visit w') in H2.
  destruct (md_some _ _ _ H1 sid s Hs) as (rs1 & Hrs1 & Hs1).
  pose proof Hs1 as (s0 & Hs0 & _)%own_Some.
  assert (Hv : own sid (exec (visit sid) w1) = Some (MarkLeaving LR_DEAD 0 (w_now w) (marks (w_now w) rs1 s))).
  { unfold visit, exec. unfold sess in Hs0. rewrite Hs0. unfold mark_leaving.
    rewrite (md_now _ _ _ H1). change (snd (upd_session ?a ?b ?c)) with (exec (upd_session a b) c).
    rewrite own_upd_session_eq by apply _. by rewrite Hs1. }
  destruct (md_some _ _ _ H2 sid _ Hv) as (rs2 & Hrs2 & Hs2).
  assert (Hnow : w_now (exec (visit sid) w1) = w_now w).
  { rewrite (md_now _ _ _ (Hb sid w1)). by apply (md_now _ _ _ H1). }
  exists (rs1 ++ LR_DEAD :: rs2). split; [|split].
  - rewrite marks_app. rewrite Hnow in Hs2. exact Hs2.
  - apply Forall_app. split; [done|]. by constructor.
  - by destruct rs1.
Qed.

Lemma mark_dead_marked oid w : marked (fun r => r <> LR_NONE) w (exec (mark_dead oid) w).
Proof. unfold mark_dead, exec. destruct (FindSessionByObjectId _ _); [by apply mark_leaving_marked|reflexivity]. Qed.

(** The session found by its object id. *)
Lemma FindSession_unique sid s oid w :
  own sid w = Some s -> GetObjectId s = oid -> oid <> -1 ->
  (forall sid' s', own sid' w = Some s' -> GetObjectId s' = oid -> sid' = sid) ->
  FindSessionByObjectId oid (w_room w) = Some sid.
Proof.
  intros Hs Ho Hne Hu. unfold FindSessionByObjectId. destruct (Z.eqb_spec oid (-1)); [done|].
  apply own_Some in Hs as (s0 & Hs0 & ->). unfold sess in Hs0.
  set (f := fun sid0 => _). destruct (List.find f _) as [sid'|] eqn:Hf.
  - apply List.find_some in Hf as [_ Hf]. unfold f in Hf.
    destruct (_playerSessions (w_room w) !! sid') as [s'|] eqn:Hs'; [|done]. apply Z.eqb_eq in Hf.
    f_equal. apply (Hu sid' (strip s')); [|done]. unfold own, sess. by rewrite Hs'.
  - exfalso. assert (Hin : In sid (ext_keys _ (_playerSessions (w_room w))))
      by (apply list_elem_of_In, keys_elem; by exists s0).
    pose proof (List.find_none _ _ Hf sid Hin) as Hx. unfold f in Hx. rewrite Hs0 in Hx.
    by apply Z.eqb_neq in Hx.
Qed.
End marking.

(** *** The whole of [ProcessLeaves] *)

Definition is_finalized (s : PlayerSession) : bool := bool_decide (_leaveState (s_leave s) = LS_FINALIZED).
Definition all_finalized (w : World) : Prop := forall sid s, own sid w = Some s -> is_finalized s = true.
Definition room_expired (w : World) : Prop :=
  _lifetimeExpired (w_room w) = false /\ ROOM_LIFETIME_MS <= ElapsedMs (_createdAt (w_room w)) (w_now w).
(** The player's object is dead. *)
Definition body_dead (s : PlayerSession) (r : GameRoom) : Prop :=
  GetObjectId s <> -1 /\
  exists p, _playerObjects r !! u32 (GetObjectId s) = Some p /\ _deathPending (p_combat p) = true.
(** Object ids are 32-bit and no two sessions share one. *)
Definition oids_distinct (w : World) : Prop :=
  forall sid1 sid2 s1 s2, own sid1 w = Some s1 -> own sid2 w = Some s2 ->
    GetObjectId s1 = GetObjectId s2 -> GetObjectId s1 <> -1 -> sid1 = sid2.
Definition oids_i32 (w : World) : Prop := forall sid s, own sid w = Some s -> is_i32 (GetObjectId s).

Definition real (r : LeaveReason) : Prop := r <> LR_NONE.

Lemma marked_uids Q w w' : marked Q w w' -> uids_distinct w -> uids_distinct w'.
Proof.
  intros [] Hu sid1 sid2 s1 s2 H1 H2 Heq.
  destruct (own sid1 w) as [t1|] eqn:E1; [|rewrite md_none0 in H1; done].
  destruct (own sid2 w) as [t2|] eqn:E2; [|rewrite md_none0 in H2; done].
  destruct (md_some0 _ _ E1) as (r1 & _ & H1'). destruct (md_some0 _ _ E2) as (r2 & _ & H2'). simplify_eq.
  apply (Hu sid1 sid2 t1 t2); [done..|]. unfold session_uid in *.
  destruct (marks_frame (w_now w) r1 t1) as [Hp1 _], (marks_frame (w_now w) r2 t2) as [Hp2 _]. by rewrite Hp1, Hp2 in Heq.
Qed.

Lemma marks_uid now rs s : session_uid (marks now rs s) = session_uid s.
Proof. unfold session_uid. by destruct (marks_frame now rs s) as [-> _]. Qed.

Section process.
Context {E : External} {L : ExternalLaws E}.


Lemma clear_pending_view w : view (exec clear_pending w) = view w.
Proof.
  unfold clear_pending, for_sessions. apply (for_each_inv (fun w' => view w' = view w)); [|done].
  intros sid w1 _ H. rewrite <- H. unfold exec. destruct (_ !! sid) as [s|] eqn:Hs; [|done].
  case_bool_decide; [|done]. destruct w1 as [r now out thrown], r. unfold upd_session, upd_room, modify, view. cbn in *.
  f_equal. f_equal. apply map_eq. intros i. rewrite !lookup_fmap. destruct (decide (sid = i)) as [<-|].
  - by rewrite lookup_alter_eq, Hs.
  - by rewrite lookup_alter_ne.
Qed.

Lemma view_marked Q w w' : view w' = view w -> marked Q w w'.
Proof.
  intros H. constructor; [by apply view_now|by apply view_side|by apply view_players|by apply view_reported| | |].
  - apply (f_equal (fun v => _roomId (w_room v))) in H. exact H.
  - intros sid Hs. by rewrite (view_own _ _ _ H).
  - intros sid s Hs. exists []. by rewrite (view_own _ _ _ H).
Qed.

Lemma expire_marked w :
  marked real w (exec expire_lifetime w) /\
  (room_expired w -> forall sid s, own sid w = Some s ->
     exists rs, Forall real rs /\ own sid (exec expire_lifetime w) = Some (marks (w_now w) (LR_DEAD :: rs) s)).
Proof.
  set (w1 := w <| w_room ::= fun r => r <| _lifetimeExpired := true |> |>).
  assert (H1 : marked real w w1) by (constructor; try done; intros sid s Hs; by exists []).
  assert (Hk : marked real w1 (exec AllKill w1)).
  { eapply marked_weaken; [|apply AllKill_marked]. by intros r ->. }
  unfold expire_lifetime. split.
  - unfold exec. destruct (_ && _); [|reflexivity]. by etrans.
  - intros [He Hl] sid s Hs. unfold exec. rewrite He. apply Z.leb_le in Hl. rewrite Hl. cbn [negb andb].
    destruct (AllKill_all w1 sid s Hs) as (rs & Hrs & Hall & Hne). destruct rs as [|r rs]; [done|].
    apply Forall_cons in Hall as [-> Hall]. exists rs. split; [|exact Hrs].
    eapply Forall_impl; [exact Hall|]. by intros r ->.
Qed.

Lemma mark_dead_loop ids w :
  let w' := exec (for_each ids mark_dead) w in
  marked real w w' /\
  (oids_distinct w -> oids_i32 w -> forall sid s, own sid w = Some s -> GetObjectId s <> -1 ->
     u32 (GetObjectId s) ∈ ids ->
     forall s', own sid w' = Some s' -> _leaveState (s_leave s') <> LS_NONE).
Proof.
  cbn zeta. split.
  { apply (for_each_inv (marked real w)); [|reflexivity]. intros x w1 _ H. etrans; [exact H|apply mark_dead_marked]. }
  intros Hd Hi sid s Hs Hne Hin s' Hs'.
  destruct (for_each_visit (marked real) ids mark_dead _ w (fun y w => mark_dead_marked y w) Hin) as (w1 & H1 & H2).
  destruct (md_some _ _ _ H1 sid s Hs) as (rs & _ & Hs1).
  assert (Hoid : forall t rs, GetObjectId (marks (w_now w) rs t) = GetObjectId t).
  { intros t rs'. unfold GetObjectId. by destruct (marks_frame (w_now w) rs' t) as [-> _]. }
  assert (Hf : FindSessionByObjectId (i32 (u32 (GetObjectId s))) (w_room w1) = Some sid).
  { assert (i32 (u32 (GetObjectId s)) = GetObjectId s) as ->.
    { pose proof (Hi _ _ Hs). clear -H. width. }
    apply (FindSession_unique sid (marks (w_now w) rs s)); [done|done|done|].
    intros sid' t Ht Hteq. destruct (own sid' w) as [t0|] eqn:Ht0; [|rewrite (md_none _ _ _ H1) in Ht; done].
    destruct (md_some _ _ _ H1 _ _ Ht0) as (rs' & _ & Ht'). simplify_eq. rewrite Hoid in Hteq.
    apply (Hd sid' sid t0 s); congruence. }
  assert (Hv : own sid (exec (mark_dead (u32 (GetObjectId s))) w1)
               = Some (MarkLeaving LR_DEAD 0 (w_now w1) (marks (w_now w) rs s))).
  { unfold mark_dead, exec. rewrite Hf. unfold mark_leaving.
    change (snd (upd_session ?a ?b ?c)) with (exec (upd_session a b) c).
    rewrite own_upd_session_eq by apply _. by rewrite Hs1. }
  destruct (md_some _ _ _ H2 sid _ Hv) as (rs2 & _ & Hs2). simplify_eq.
  rewrite marks_pending; by apply mark_leaves.
Qed.

Lemma dead_players_elem w s : body_dead s (w_room w) -> u32 (GetObjectId s) ∈ dead_players (w_room w).
Proof.
  intros (_ & p & Hp & Hd). unfold dead_players. apply list_elem_of_In, List.filter_In. rewrite Hp. split; [|done].
  apply list_elem_of_In, keys_elem. by exists p.
Qed.

Lemma CheckAllLeft_spec w :
  let w' := exec CheckAllLeft w in
  w_now w' = w_now w /\ (forall sid, own sid w' = own sid w) /\
  ((_allLeftReported (w_room w) = true \/ ~ all_finalized w) /\ w' = w \/
   _allLeftReported (w_room w) = false /\ all_finalized w /\ _allLeftReported (w_room w') = true /\
   w_out w' = w_out w ++ [OutReserveDestroy (_roomId (w_room w))]).
Proof.
  unfold CheckAllLeft, exec. destruct (_allLeftReported (w_room w)); [split_and!; [done|done|left; auto]|].
  match goal with |- context [forallb ?f ?l] => destruct (forallb f l) eqn:Hall end.
  - cbn [snd emit modify]. split_and!; [done|done|]. right. split_and!; [done| |done|done].
    intros sid s (s0 & Hs0 & ->)%own_Some. rewrite forallb_forall in Hall. unfold sess in Hs0.
    specialize (Hall sid). rewrite Hs0 in Hall. apply Hall, list_elem_of_In, keys_elem. by exists s0.
  - cbn [snd]. split_and!; [done|done|]. left. split; [|done]. right. intros Hf.
    apply not_true_iff_false in Hall. apply Hall. apply forallb_forall. intros sid _.
    destruct (_playerSessions (w_room w) !! sid) as [s|] eqn:Hs; [|done].
    apply (Hf sid (strip s)). unfold own, sess. by rewrite Hs.
Qed.
End process.

(** A session after [ProcessLeaves]: marked for [reasons], then taken one step on. *)
Record processed (w w' : World) (sid : Z) (s : PlayerSession) (es : list Output) : Prop := {
  pr_now : w_now w' = w_now w;
  pr_step : exists rs s', Forall real rs /\ own sid w' = Some s' /\
    depart (w_now w) (marks (w_now w) rs s) s' es /\
    (room_expired w -> exists rs', rs = LR_DEAD :: rs') /\
    (oids_distinct w -> oids_i32 w -> body_dead s (w_room w) ->
       _leaveState (s_leave (marks (w_now w) rs s)) <> LS_NONE) }.

Section process2.
Context {E : External} {L : ExternalLaws E}.

Lemma oid_marks now rs s : GetObjectId (marks now rs s) = GetObjectId s.
Proof. unfold GetObjectId. by destruct (marks_frame now rs s) as [-> _]. Qed.

Lemma marked_oids Q w w' : marked Q w w' ->
  (oids_distinct w -> oids_distinct w') /\ (oids_i32 w -> oids_i32 w').
Proof.
  intros [].
  assert (Hback : forall sid s', own sid w' = Some s' -> exists s rs, own sid w = Some s /\ s' = marks (w_now w) rs s).
  { intros sid s' H. destruct (own sid w) as [s|] eqn:Hs; [|rewrite md_none0 in H; done].
    destruct (md_some0 _ _ Hs) as (rs & _ & H'). simplify_eq. eauto. }
  split.
  - intros Hd sid1 sid2 s1 s2 H1 H2. destruct (Hback _ _ H1) as (t1 & r1 & Ht1 & ->), (Hback _ _ H2) as (t2 & r2 & Ht2 & ->).
    rewrite !oid_marks. by apply Hd.
  - intros Hi sid s' H. destruct (Hback _ _ H) as (t & r & Ht & ->). rewrite oid_marks. by apply (Hi sid).
Qed.

(** The marking phase. *)
Lemma marking_phase w : exists w4,
  exec ProcessLeaves w = exec CheckAllLeft (exec (for_sessions detach_or_finalize) w4) /\
  marked real w w4 /\
  forall sid s, own sid w = Some s -> exists rs, Forall real rs /\ own sid w4 = Some (marks (w_now w) rs s) /\
    (room_expired w -> exists rs', rs = LR_DEAD :: rs') /\
    (oids_distinct w -> oids_i32 w -> body_dead s (w_room w) ->
       _leaveState (s_leave (marks (w_now w) rs s)) <> LS_NONE).
Proof.
  unfold ProcessLeaves. rewrite !exec_bind.
  set (w1 := exec expire_lifetime w). change (exec (gets _) w1) with w1.
  set (ids := eval (gets (fun w => dead_players (w_room w))) w1).
  set (w2 := exec (for_each ids mark_dead) w1). set (w3 := exec DetectDisconnectedSessions w2).
  set (w4 := exec clear_pending w3). exists w4. split; [done|].
  destruct (expire_marked w) as [H1 Hexp]. fold w1 in H1, Hexp.
  destruct (mark_dead_loop ids w1) as [H2 Hdead]. fold w2 in H2, Hdead.
  assert (H3 : marked real w2 w3) by (apply (marked_weaken _ _ _ _ (fun _ H => H)), DetectDisconnected_marked).
  assert (H4 : marked real w3 w4) by apply view_marked, clear_pending_view.
  assert (H24 : marked real w2 w4) by (by etrans).
  split; [etrans; [exact H1|]; by etrans|].
  intros sid s Hs.
  assert (Hw1 : exists rs1, Forall real rs1 /\ own sid w1 = Some (marks (w_now w) rs1 s) /\
    (room_expired w -> exists rs', rs1 = LR_DEAD :: rs')).
  { destruct (decide (_lifetimeExpired (w_room w) = false /\
      ROOM_LIFETIME_MS <= ElapsedMs (_createdAt (w_room w)) (w_now w))) as [He|He].
    - destruct (Hexp He sid s Hs) as (rs & Hrs & Ho). exists (LR_DEAD :: rs).
      split_and!; [by constructor|done|eauto].
    - destruct (md_some _ _ _ H1 sid s Hs) as (rs & Hrs & Ho). exists rs. split_and!; [done..|].
      intros Hx. by destruct He. }
  destruct Hw1 as (rs1 & Hrs1 & Ho1 & He1). pose proof (md_now _ _ _ H1) as Hn1.
  destruct (md_some _ _ _ H2 sid _ Ho1) as (rs2 & Hrs2 & Ho2). rewrite Hn1 in Ho2.
  pose proof (md_now _ _ _ H2) as Hn2. rewrite Hn1 in Hn2.
  destruct (md_some _ _ _ H24 sid _ Ho2) as (rs3 & Hrs3 & Ho3). rewrite Hn2 in Ho3.
  exists (rs1 ++ rs2 ++ rs3). rewrite !marks_app. split_and!.
  - apply Forall_app; split; [done|]. by apply Forall_app.
  - done.
  - intros He. destruct (He1 He) as [rs' ->]. eauto.
  - intros Hd Hi Hbody. destruct (marked_oids real w w1 H1) as [Hd1 Hi1].
    rewrite marks_pending; [apply (Hdead (Hd1 Hd) (Hi1 Hi) sid _ Ho1)|]; rewrite ?oid_marks.
    + apply Hbody.
    + rewrite <- (oid_marks (w_now w) rs1 s) at 1. apply dead_players_elem. destruct Hbody as (Hne & p & Hp & Hpd).
      split; [by rewrite oid_marks|]. rewrite oid_marks. exists p. by rewrite (md_players _ _ _ H1).
    + done.
    + apply (Hdead (Hd1 Hd) (Hi1 Hi) sid _ Ho1); rewrite ?oid_marks; [apply Hbody| |done].
      rewrite <- (oid_marks (w_now w) rs1 s) at 1. apply dead_players_elem. destruct Hbody as (Hne & p & Hp & Hpd).
      split; [by rewrite oid_marks|]. rewrite oid_marks. exists p. by rewrite (md_players _ _ _ H1).
Qed.

(** The departures do not report themselves. *)
Lemma for_sessions_room w :
  let w' := exec (for_sessions detach_or_finalize) w in
  _allLeftReported (w_room w') = _allLeftReported (w_room w) /\ _roomId (w_room w') = _roomId (w_room w).
Proof.
  set (I := fun w' => _allLeftReported (w_room w') = _allLeftReported (w_room w)
                      /\ _roomId (w_room w') = _roomId (w_room w)).
  apply (for_each_inv I); [|done]. intros sid w1 _ [Hr Hi]. unfold I.
  destruct (_playerSessions (w_room w1) !! sid) as [s|] eqn:Hs.
  - destruct (detach_or_finalize_takes (w_now w1) sid s w1 eq_refl Hs) as [[] _].
    unfold exec. rewrite Hs. by rewrite <- Hr, <- Hi.
  - unfold exec. by rewrite Hs.
Qed.

Lemma ProcessLeaves_steps w :
  uids_distinct w ->
  let w' := exec ProcessLeaves w in
  w_now w' = w_now w /\ (forall sid, own sid w = None -> own sid w' = None) /\
  (forall sid s, own sid w = Some s -> exists es,
     told (session_uid s) (w_out w') = told (session_uid s) (w_out w) ++ es /\ processed w w' sid s es) /\
  ((_allLeftReported (w_room w) = true \/ ~ all_finalized w') /\
     reserves (w_out w') = reserves (w_out w) /\ _allLeftReported (w_room w') = _allLeftReported (w_room w) \/
   _allLeftReported (w_room w) = false /\ all_finalized w' /\ _allLeftReported (w_room w') = true /\
     reserves (w_out w') = reserves (w_out w) ++ [OutReserveDestroy (_roomId (w_room w))]).
Proof.
  intros Hu. destruct (marking_phase w) as (w4 & -> & Hm & Hphase). cbn zeta.
  assert (Hu4 : uids_distinct w4) by (by eapply marked_uids).
  destruct (for_sessions_spec (depart (w_now w4)) detach_or_finalize w4
    (detach_or_finalize_takes (w_now w4)) Hu4) as (Hn5 & es & Hes & Hleft & Hnone & Hsome).
  set (w5 := exec (for_sessions detach_or_finalize) w4) in *.
  destruct (CheckAllLeft_spec w5) as (Hn6 & Ho6 & Hc). set (w6 := exec CheckAllLeft w5) in *.
  pose proof (md_now _ _ _ Hm) as Hn4.
  assert (Htold : forall uid, told uid (w_out w6) = told uid (w_out w) ++ told uid es).
  { intros uid. assert (told uid (w_out w6) = told uid (w_out w5)) as ->.
    { destruct Hc as [[_ ->]|(_ & _ & _ & ->)]; [done|]. rewrite told_app. cbn. by rewrite app_nil_r. }
    rewrite <- (told_side uid (w_out w5)), Hes, told_app, told_side. f_equal.
    rewrite <- (told_side uid (w_out w4)), (md_side _ _ _ Hm). apply told_side. }
  split_and!.
  - congruence.
  - intros sid Hs. rewrite Ho6. apply Hnone. by apply (md_none _ _ _ Hm).
  - intros sid s Hs. destruct (Hphase sid s Hs) as (rs & Hrs & Ho4 & Hexp & Hdead).
    destruct (Hsome sid _ Ho4) as (s' & e & Hs' & Hdep & He). rewrite marks_uid in He.
    exists e. split; [by rewrite Htold, He|].
    constructor; [congruence|]. exists rs, s'. split_and!; try done; [by rewrite Ho6|].
    by rewrite Hn4 in Hdep.
  - assert (Hres5 : reserves (w_out w5) = reserves (w_out w)).
    { rewrite <- reserves_side, Hes, reserves_app, (reserves_left _ Hleft), app_nil_r, reserves_side.
      rewrite <- reserves_side, (md_side _ _ _ Hm). apply reserves_side. }
    assert (Hall : all_finalized w6 <-> all_finalized w5).
    { split; intros H sid s Hs; apply (H sid); by rewrite Ho6 in *. }
    assert (Hrep : _allLeftReported (w_room w5) = _allLeftReported (w_room w)
                   /\ _roomId (w_room w5) = _roomId (w_room w)).
    { destruct (for_sessions_room w4) as [Hr1 Hr2]. fold w5 in Hr1, Hr2. rewrite Hr1, Hr2.
      split; [apply (md_reported _ _ _ Hm)|apply (md_id _ _ _ Hm)]. }
    destruct Hrep as [Hrep Hid]. rewrite Hrep, Hid in Hc.
    destruct Hc as [[[Hc|Hc] Heq]|(Hc & Hf & Hr & Hout)].
    + left. split; [by left|]. rewrite Heq. done.
    + left. split; [right; by rewrite Hall|]. rewrite Heq. done.
    + right. split_and!; [done|by apply Hall|done|]. rewrite Hout, reserves_app, Hres5. done.
Qed.
End process2.

(** ** Invariants of sessions *)

(** A session whose player has been detached has no object, no container, no
    recall; it only watches, while a dead player's grace lasts. *)
Definition gone (s : PlayerSession) : Prop :=
  2 <= leave_rank (_leaveState (s_leave s)) ->
  GetObjectId s = -1 /\ GetInteractingContainerId s = -1 /\ _isRecalling (s_recall s) = false /\
  _sessionState s = (if bool_decide (_leaveReason (s_leave s) = LR_DEAD)
                        && bool_decide (_leaveState (s_leave s) = LS_DETACHED) then SS_SPECTATING else SS_LEFT).
Definition session_inv (s : PlayerSession) : Prop := leave_ok s /\ gone s.
Definition sessions_inv (w : World) : Prop := forall sid s, own sid w = Some s -> session_inv s.

(** What the main process has heard of a session's player. *)
Definition heard (s : PlayerSession) (l : list Output) : Prop :=
  if 2 <=? leave_rank (_leaveState (s_leave s)) then
    exists m, told (session_uid s) l = [OutLeft m] /\ pl_leave_reason m = _leaveReason (s_leave s) /\
      (pl_leave_reason m <> LR_RECALLED -> pl_inventory m = [] /\ pl_equipment m = [])
  else told (session_uid s) l = [].

Lemma gone_inactive s : gone s -> 2 <= leave_rank (_leaveState (s_leave s)) -> IsActiveState s = false.
Proof.
  intros Hg H. destruct (Hg H) as (_ & _ & _ & Hst). unfold IsActiveState. rewrite Hst.
  by destruct (bool_decide (_leaveReason _ = _) && _).
Qed.

Lemma marks_inv now rs s : session_inv s -> session_inv (marks now rs s).
Proof.
  intros [Hl Hg]. split; [by apply marks_ok|]. intros H.
  destruct (Z.le_gt_cases 2 (leave_rank (_leaveState (s_leave s)))) as [Hs|Hs].
  { revert H. rewrite marks_late by done. auto. }
  exfalso. revert H. clear -Hs. revert s Hs. induction rs as [|r rs IH]; intros s Hs; [simpl; lia|].
  change (marks now (r :: rs) s) with (marks now rs (MarkLeaving r 0 now s)). apply IH.
  destruct (decide (r = LR_NONE)) as [->|Hr]; [done|]. destruct (MarkLeaving_reason r 0 now s Hr) as [_ ->].
  destruct (_leaveState (s_leave s)); simpl in *; lia.
Qed.

Lemma message_reason s :
  let m := NotifyPlayerLeftToMain s in
  pl_leave_reason m = _leaveReason (s_leave s) /\
  (pl_leave_reason m <> LR_RECALLED -> pl_inventory m = [] /\ pl_equipment m = []).
Proof.
  unfold NotifyPlayerLeftToMain. case_bool_decide; [|done]. destruct (SerializeInventoryForIPC _). by split.
Qed.

(** The session right after the detachment. *)
Lemma detached_facts c s :
  let d := detached_session c s in
  _leaveState (s_leave d) = LS_DETACHED /\ _leaveReason (s_leave d) = _leaveReason (s_leave s) /\
  _leaveMarkedAt (s_leave d) = _leaveMarkedAt (s_leave s) /\ _leftNotified (s_leave d) = true /\
  GetObjectId d = -1 /\ GetInteractingContainerId d = -1 /\ _isRecalling (s_recall d) = false /\
  _sessionState d = (if bool_decide (_leaveReason (s_leave s) = LR_DEAD) then SS_SPECTATING else SS_LEFT).
Proof. unfold detached_session, exec. rewrite NotifyLeftOnce_eq. by destruct c. Qed.

Lemma detached_inv c s : leave_ok s -> _leaveState (s_leave s) <> LS_NONE -> session_inv (strip (detached_session c s)).
Proof.
  intros [_ Hr] Hs. destruct (detached_facts c s) as (H1 & H2 & _ & H3 & H4 & H5 & H6 & H7).
  split.
  - unfold leave_ok. cbn [strip setf s_leave]. rewrite H1, H2, H3. simpl. naive_solver lia.
  - intros _. cbn [strip setf s_leave s_recall _sessionState]. change (GetObjectId (strip ?x)) with (GetObjectId x).
    change (GetInteractingContainerId (strip ?x)) with (GetInteractingContainerId x).
    rewrite H1, H2, H4, H5, H6, H7. by rewrite andb_true_r.
Qed.

Lemma final_inv s : leave_ok s -> gone s -> _leaveState (s_leave s) = LS_DETACHED -> session_inv (strip (final s)).
Proof.
  intros [_ Hr] Hg Hs. rewrite final_eq. destruct Hg as (H1 & H2 & H3 & _); [rewrite Hs; simpl; lia|]. split.
  - unfold leave_ok. simpl. rewrite Hs in Hr. naive_solver lia.
  - intros _. simpl. split_and!; [done..|]. by rewrite andb_false_r.
Qed.

Lemma settle_inv now s s' es :
  session_inv s -> _leaveState (s_leave s) = LS_DETACHED -> settle now s s' es ->
  session_inv s' /\ es = [] /\ session_uid s' = session_uid s /\
  _leaveReason (s_leave s') = _leaveReason (s_leave s) /\ _leaveMarkedAt (s_leave s') = _leaveMarkedAt (s_leave s) /\
  (_leaveState (s_leave s') = LS_DETACHED /\ grace_over now s = false \/
   _leaveState (s_leave s') = LS_FINALIZED /\ (_leaveReason (s_leave s) = LR_DEAD -> grace_over now s = true)).
Proof.
  intros [Hl Hg] Hs [(-> & -> & Hgr)|(-> & -> & Hgr)].
  - split_and!; try done. left. done.
  - assert (Hn : _leftNotified (s_leave s) = true) by (apply Hl; rewrite Hs; simpl; lia).
    unfold left_unless. rewrite Hn. split_and!; try done; [by apply final_inv|..]; rewrite final_eq; try done. right. done.
Qed.

(** One step of a departure keeps the invariant and tells the main process what it has to. *)
Lemma depart_inv now s s' es :
  session_inv s -> depart now s s' es ->
  session_inv s' /\ _leaveState (s_leave s') <> LS_PENDING /\ session_uid s' = session_uid s /\
  leave_rank (_leaveState (s_leave s)) <= leave_rank (_leaveState (s_leave s')) /\
  (_leaveState (s_leave s) <> LS_NONE ->
     2 <= leave_rank (_leaveState (s_leave s')) /\ _leaveReason (s_leave s') = _leaveReason (s_leave s) /\
     (grace_over now s = true -> _leaveState (s_leave s') = LS_FINALIZED)) /\
  (_leaveState (s_leave s) = LS_NONE -> s' = s) /\
  (_leaveReason (s_leave s') = LR_DEAD -> _leaveState (s_leave s') = LS_FINALIZED ->
     _leaveState (s_leave s) = LS_FINALIZED \/ DEATH_GRACE_MS <= ElapsedMs (_leaveMarkedAt (s_leave s')) now) /\
  (~ leave_rank (_leaveState (s_leave s)) < 2 <= leave_rank (_leaveState (s_leave s')) -> es = []) /\
  (leave_rank (_leaveState (s_leave s)) < 2 <= leave_rank (_leaveState (s_leave s')) ->
     exists m, es = [OutLeft m] /\ pl_leave_reason m = _leaveReason (s_leave s') /\
       (pl_leave_reason m <> LR_RECALLED -> pl_inventory m = [] /\ pl_equipment m = [])).
Proof.
  assert (Hgrace : forall s, _leaveReason (s_leave s) = LR_DEAD -> grace_over now s = true ->
    DEATH_GRACE_MS <= ElapsedMs (_leaveMarkedAt (s_leave s)) now).
  { intros t Ht. unfold grace_over. rewrite bool_decide_eq_true_2 by done. apply Z.leb_le. }
  intros Hs. unfold depart. destruct (_leaveState (s_leave s)) eqn:Hst.
  - intros [-> ->]. rewrite !Hst. split_and!; try done; simpl; try lia.
  - intros (c & es2 & _ & -> & Hset). destruct Hs as [Hl Hg].
    destruct (detached_facts c s) as (H1 & H2 & Hm & H3 & _).
    pose proof (detached_inv c s Hl ltac:(by rewrite Hst)) as Hd.
    set (d := strip (detached_session c s)) in *.
    destruct (settle_inv now d s' es2 Hd H1 Hset) as (Hi & -> & Hu & Hr & Hma & Hcase).
    assert (Hn : _leftNotified (s_leave s) = false).
    { apply not_true_iff_false. intros Hn. apply Hl in Hn. rewrite Hst in Hn. simpl in Hn. lia. }
    unfold left_unless. rewrite Hn, app_nil_r. change (_leaveReason (s_leave d)) with (_leaveReason (s_leave (detached_session c s))) in *.
    change (_leaveMarkedAt (s_leave d)) with (_leaveMarkedAt (s_leave (detached_session c s))) in *.
    assert (Hrank : 2 <= leave_rank (_leaveState (s_leave s'))) by (destruct Hcase as [[-> _]|[-> _]]; simpl; lia).
    assert (Hgd : grace_over now d = grace_over now s).
    { unfold grace_over, d. cbn [strip setf s_leave]. rewrite H2, Hm. f_equal.
      unfold detached_session, exec. rewrite NotifyLeftOnce_eq. by destruct c. }
    split_and!.
    + done.
    + destruct Hcase as [[-> _]|[-> _]]; done.
    + rewrite Hu. apply (uid_detached c s).
    + simpl; lia.
    + intros _. split_and!; [done|by rewrite Hr, H2|]. rewrite <- Hgd. intros Hg'.
      destruct Hcase as [[_ Hf]|[-> _]]; [congruence|done].
    + done.
    + intros Hdead Hfin. right. destruct Hcase as [[Hx _]|[_ Hx]]; [congruence|].
      rewrite Hma, Hm. apply Hgrace; [congruence|]. rewrite <- Hgd. apply Hx. congruence.
    + simpl. lia.
    + intros _. exists (NotifyPlayerLeftToMain d). split; [done|]. rewrite Hr. apply (message_reason d).
  - intros Hset. destruct (settle_inv now s s' es Hs Hst Hset) as (Hi & -> & Hu & Hr & Hma & Hcase).
    split_and!; try done.
    + destruct Hcase as [[-> _]|[-> _]]; done.
    + destruct Hcase as [[-> _]|[-> _]]; simpl; lia.
    + intros _. split_and!; [destruct Hcase as [[-> _]|[-> _]]; simpl; lia|done|].
      intros Hg'. destruct Hcase as [[_ Hf]|[-> _]]; [congruence|done].
    + intros Hdead Hfin. right. destruct Hcase as [[Hx _]|[_ Hx]]; [congruence|].
      rewrite Hma. apply Hgrace; [congruence|]. apply Hx. congruence.
    + simpl. lia.
  - intros [-> ->]. rewrite !Hst. split_and!; try done; simpl; try lia. by left.
Qed.

(** *** Time *)

Lemma marks_markedAt now rs s :
  let s' := marks now rs s in
  _leaveMarkedAt (s_leave s') = now \/
  _leaveMarkedAt (s_leave s') = _leaveMarkedAt (s_leave s) /\
    (_leaveState (s_leave s) = LS_NONE -> _leaveState (s_leave s') = LS_NONE).
Proof.
  revert s; induction rs as [|r rs IH]; intros s; [by right|]. cbn zeta in *.
  change (marks now (r :: rs) s) with (marks now rs (MarkLeaving r 0 now s)).
  destruct (IH (MarkLeaving r 0 now s)) as [H|[H Hst]]; [by left|]. rewrite H. clear H.
  assert (Hm : _leaveMarkedAt (s_leave (MarkLeaving r 0 now s)) = now \/ MarkLeaving r 0 now s = s).
  { unfold MarkLeaving. repeat case_match; simpl; auto. }
  destruct Hm as [->|Hm]; [by left|]. right. rewrite Hm in *. done.
Qed.

Lemma marks_rank now rs s :
  leave_rank (_leaveState (s_leave s)) < 2 -> leave_rank (_leaveState (s_leave (marks now rs s))) < 2.
Proof.
  revert s. induction rs as [|r rs IH]; intros s Hs; [done|].
  change (marks now (r :: rs) s) with (marks now rs (MarkLeaving r 0 now s)). apply IH.
  destruct (decide (r = LR_NONE)) as [->|Hr]; [done|]. destruct (MarkLeaving_reason r 0 now s Hr) as [_ ->].
  destruct (_leaveState (s_leave s)); simpl in *; lia.
Qed.

Lemma depart_markedAt now s s' es : depart now s s' es -> _leaveMarkedAt (s_leave s') = _leaveMarkedAt (s_leave s).
Proof.
  assert (Hset : forall s s' es, settle now s s' es -> _leaveMarkedAt (s_leave s') = _leaveMarkedAt (s_leave s)).
  { intros t t' es' [(-> & _)|(-> & _)]; [done|]. by rewrite final_eq. }
  unfold depart. destruct (_leaveState (s_leave s)); [by intros [-> ->]| |apply Hset|by intros [-> ->]].
  intros (c & es2 & _ & _ & H). rewrite (Hset _ _ _ H). apply (detached_facts c s).
Qed.

(** The marks lie in the past, by less than the 32 bits of the elapsed time hold. *)
Definition marks_past (w : World) : Prop := forall sid s, own sid w = Some s ->
  _leaveState (s_leave s) <> LS_NONE -> 0 <= w_now w - _leaveMarkedAt (s_leave s) < 2 ^ 31.

Definition wait (ms : Z) (w : World) : World := w <| w_now ::= fun t => t + ms |>.

Section liveness.
Context {E : External} {L : ExternalLaws E}.

(** What one run does to one session, from the invariant. *)
Lemma ProcessLeaves_session w sid s :
  uids_distinct w -> session_inv s -> own sid w = Some s ->
  let w' := exec ProcessLeaves w in
  exists s', own sid w' = Some s' /\ session_inv s' /\ _leaveState (s_leave s') <> LS_PENDING /\
    session_uid s' = session_uid s /\
    (_leaveMarkedAt (s_leave s') = w_now w \/
     _leaveMarkedAt (s_leave s') = _leaveMarkedAt (s_leave s) /\
       (_leaveState (s_leave s) = LS_NONE -> _leaveState (s_leave s') = LS_NONE)) /\
    (2 <= leave_rank (_leaveState (s_leave s)) -> 2 <= leave_rank (_leaveState (s_leave s')) /\
       _leaveReason (s_leave s') = _leaveReason (s_leave s) /\
       (grace_over (w_now w) s = true -> _leaveState (s_leave s') = LS_FINALIZED)) /\
    (_leaveState (s_leave s) = LS_PENDING -> 2 <= leave_rank (_leaveState (s_leave s'))) /\
    (room_expired w -> 2 <= leave_rank (_leaveState (s_leave s'))) /\
    (oids_distinct w -> oids_i32 w -> body_dead s (w_room w) -> 2 <= leave_rank (_leaveState (s_leave s'))) /\
    (_leaveReason (s_leave s') = LR_DEAD -> _leaveState (s_leave s') = LS_FINALIZED ->
      _leaveState (s_leave s) = LS_FINALIZED \/
      DEATH_GRACE_MS <= ElapsedMs (_leaveMarkedAt (s_leave s')) (w_now w)) /\
    (heard s (w_out w) -> heard s' (w_out w')).
Proof.
  intros Hu Hinv Hs. destruct (ProcessLeaves_steps w Hu) as (_ & _ & Hsteps & _).
  destruct (Hsteps sid s Hs) as (es & Htold & [Hnow (rs & s' & Hrs & Hs' & Hdep & Hexp & Hdead)]).
  pose proof (marks_inv (w_now w) rs s Hinv) as Hinv1.
  destruct (depart_inv _ _ _ _ Hinv1 Hdep) as (Hi & Hnp & Huid & Hmono & Hleft & Hnone & Hgrace & Hes0 & Hes1).
  assert (Hrank : _leaveState (s_leave (marks (w_now w) rs s)) <> LS_NONE ->
    2 <= leave_rank (_leaveState (s_leave s'))) by (intros H; by apply Hleft).
  assert (Hst : _leaveState (s_leave s) <> LS_NONE -> _leaveState (s_leave (marks (w_now w) rs s)) <> LS_NONE)
    by (intros H; by rewrite marks_pending).
  exists s'. split_and!; try done.
  - by rewrite Huid, marks_uid.
  - rewrite (depart_markedAt _ _ _ _ Hdep). destruct (marks_markedAt (w_now w) rs s) as [H|[H H']]; [by left|].
    right. split; [done|]. intros Hx. rewrite (Hnone (H' Hx)). auto.
  - intros H. rewrite (marks_late _ _ s H) in *. destruct Hleft as (? & ? & ?);
      [by destruct (_leaveState (s_leave s))|]. done.
  - intros H. apply Hrank, Hst. by rewrite H.
  - intros H. apply Hrank. destruct (Hexp H) as [rs' ->].
    change (marks (w_now w) (LR_DEAD :: rs') s) with (marks (w_now w) rs' (MarkLeaving LR_DEAD 0 (w_now w) s)).
    rewrite marks_pending; by apply mark_leaves.
  - intros H1 H2 H3. by apply Hrank, Hdead.
  - intros H1 H2. destruct (Hgrace H1 H2) as [H|H]; [left|by right].
    destruct (Z.le_gt_cases 2 (leave_rank (_leaveState (s_leave s)))) as [Hr|Hr].
    + by rewrite marks_late in H.
    + pose proof (marks_rank (w_now w) rs s ltac:(lia)) as Hx. rewrite H in Hx. simpl in Hx. lia.
  - unfold heard. rewrite Huid, marks_uid, Htold.
    destruct (Z.leb_spec 2 (leave_rank (_leaveState (s_leave s)))) as [Hr|Hr].
    + rewrite (marks_late _ _ s Hr) in *. destruct Hleft as (H2 & Hre & _); [by destruct (_leaveState (s_leave s))|].
      apply Z.leb_le in H2 as ->. rewrite Hes0 by lia. by rewrite app_nil_r, Hre.
    + pose proof (marks_rank (w_now w) rs s ltac:(lia)) as Hx. intros ->.
      destruct (Z.leb_spec 2 (leave_rank (_leaveState (s_leave s')))).
      * apply Hes1. lia.
      * apply Hes0. lia.
Qed.

(** Running it twice, the second time after everyone's grace. *)
Lemma ProcessLeaves_past w : uids_distinct w -> sessions_inv w -> marks_past w -> marks_past (exec ProcessLeaves w).
Proof.
  intros Hu Hi Hp sid s' Hs' Hne. destruct (ProcessLeaves_steps w Hu) as (Hn & Hnone & _).
  destruct (own sid w) as [s|] eqn:Hs; [|rewrite Hnone in Hs'; done].
  destruct (ProcessLeaves_session w sid s Hu (Hi _ _ Hs) Hs) as (s2 & Hs2 & _ & _ & _ & Hma & _).
  rewrite Hs2 in Hs'. simplify_eq. rewrite Hn. destruct Hma as [->|[-> Hst]]; [lia|].
  apply (Hp _ _ Hs). auto.
Qed.

Lemma ProcessLeaves_uids w : uids_distinct w -> sessions_inv w ->
  uids_distinct (exec ProcessLeaves w) /\ sessions_inv (exec ProcessLeaves w).
Proof.
  intros Hu Hi. destruct (ProcessLeaves_steps w Hu) as (_ & Hnone & _).
  assert (Hback : forall sid s', own sid (exec ProcessLeaves w) = Some s' ->
    exists s, own sid w = Some s /\ session_inv s' /\ session_uid s' = session_uid s).
  { intros sid s' Hs'. destruct (own sid w) as [s|] eqn:Hs; [|rewrite Hnone in Hs'; done].
    destruct (ProcessLeaves_session w sid s Hu (Hi _ _ Hs) Hs) as (s2 & Hs2 & Hi2 & _ & Hu2 & _).
    rewrite Hs2 in Hs'. simplify_eq. eauto. }
  split.
  - intros sid1 sid2 s1 s2 H1 H2 Heq. destruct (Hback _ _ H1) as (t1 & Ht1 & _ & E1), (Hback _ _ H2) as (t2 & Ht2 & _ & E2).
    apply (Hu sid1 sid2 t1 t2); congruence.
  - intros sid s' Hs'. by destruct (Hback _ _ Hs') as (_ & _ & H & _).
Qed.
End liveness.

(** *** The loot of the dead *)

(** The keys of the dynamic objects. *)
Definition has_dynamic (oid : Z) (w : World) : Prop := is_Some (_dynamicObjects (w_room w) !! oid).

Lemma upd_nonplayer_dom oid f w i :
  (has_dynamic i (exec (upd_nonplayer oid f) w) <-> has_dynamic i w) /\
  _nxtObjectId (w_room (exec (upd_nonplayer oid f) w)) = _nxtObjectId (w_room w).
Proof.
  unfold has_dynamic, upd_nonplayer, upd_room, modify, exec. cbn [snd setf w_room].
  destruct (_staticObjects (w_room w) !! oid); [done|]. cbn [setf _dynamicObjects _nxtObjectId].
  by rewrite lookup_alter_is_Some.
Qed.

Section loot.
Context {E : External} {L : ExternalLaws E}.

(** Steps that create and destroy nothing. *)
Definition same_things (w w' : World) : Prop :=
  (forall i, has_dynamic i w' <-> has_dynamic i w) /\ _nxtObjectId (w_room w') = _nxtObjectId (w_room w).
#[export] Instance same_things_preorder : PreOrder same_things.
Proof.
  split; [done|]. intros w1 w2 w3 [H1 N1] [H2 N2]. split; [|congruence]. intros i. by rewrite H2.
Qed.
Lemma view_same_things w w' : view w' = view w -> same_things w w'.
Proof.
  intros H. split; [|exact (f_equal (fun v => _nxtObjectId (w_room v)) H)].
  intros i. unfold has_dynamic. by rewrite (view_dynamic _ _ H).
Qed.

Lemma release_npc_same p oid w : same_things w (exec (release_npc p oid) w).
Proof.
  unfold release_npc, exec. destruct (_dynamicObjects (w_room w) !! oid) as [o|] eqn:Ho; [|reflexivity].
  cbn [mbind option_bind]. destruct (as_npc o) as [n|]; [|reflexivity]. destruct (negb _); [reflexivity|].
  destruct (ReleaseAuthority n) as [ok n'].
  set (w1 := w <| w_room ::= fun r => r <| _dynamicObjects ::= <[oid:=GNpc n']> |> |>).
  assert (H1 : same_things w w1).
  { split; [|done]. intros i. unfold has_dynamic, w1. cbn [setf w_room _dynamicObjects].
    destruct (decide (oid = i)) as [<-|]; [rewrite lookup_insert_eq, Ho; split; eauto|by rewrite lookup_insert_ne]. }
  destruct (negb ok); [exact H1|]. etrans; [exact H1|]. apply view_same_things, NotifyNpcAuthority_view.
Qed.

Lemma ReleaseNpcAuthority_same p w : same_things w (exec (ReleaseNpcAuthority p) w).
Proof.
  unfold ReleaseNpcAuthority, exec. destruct (p =? NO_TARGET); [reflexivity|].
  apply (for_each_inv (same_things w)); [|reflexivity]. intros x w1 _ H. etrans; [exact H|apply release_npc_same].
Qed.

Lemma ReleaseInteractingContainer_same sid w : same_things w (exec (ReleaseInteractingContainer sid) w).
Proof.
  unfold ReleaseInteractingContainer, exec. destruct (_playerSessions (w_room w) !! sid) as [s|]; [|reflexivity].
  set (w1 := snd (upd_session sid (SetInteractingContainerId (-1)) w)).
  assert (H1 : same_things w w1) by done.
  destruct (_ =? -1); [exact H1|]. destruct (FindContainer _ _); [|exact H1]. destruct (negb _); [exact H1|].
  etrans; [exact H1|]. split; [intros i|]; apply (upd_nonplayer_dom _ _ w1); exact 0.
Qed.

(** The loot container is there after the detachment. *)
Lemma SpawnPlayerLootContainer_dynamic p inv w :
  let oid := _nxtObjectId (w_room w) in
  ~ has_dynamic oid w ->
  _dynamicObjects (w_room (exec (SpawnPlayerLootContainer p inv) w)) !! oid =
    Some (GContainer (new_PlayerLootContainer oid (position (p_object p)) (yawAngle (p_object p)) inv)).
Proof.
  intros oid Hfresh. unfold SpawnPlayerLootContainer. rewrite exec_bind.
  change (eval GetNewObjectId w) with oid. set (w1 := exec GetNewObjectId w).
  set (o := GContainer _). unfold SpawnDynamicObject, exec.
  assert (Hid : objectId (object_of o) = oid).
  { unfold o. cbn [object_of]. unfold new_PlayerLootContainer.
    assert (Hf : forall l k n, k_object (fst (exec (for_each l place_loot) (k, n))) = k_object k).
    { intros l. induction l as [|s l IH]; intros k n; [done|]. rewrite exec_for_each_cons, place_loot_step.
      destruct (IsEmpty s); [apply IH|]. rewrite IH. unfold PlaceItem, exec. by destruct (_ || _). }
    unfold FillFrom. by rewrite Hf. }
  rewrite Hid. destruct (_dynamicObjects (w_room w1) !! oid) eqn:Hd.
  { exfalso. apply Hfresh. exists g. exact Hd. }
  match goal with |- context [NotifySpawnObject o ?x] => set (w2 := x) end.
  change (snd (NotifySpawnObject o w2)) with (exec (NotifySpawnObject o) w2).
  rewrite (view_dynamic _ _ (NotifySpawnObject_view o w2)). unfold w2. cbn [setf w_room _dynamicObjects].
  by rewrite lookup_insert_eq.
Qed.

Lemma leave_loot_dynamic sid s oidz p w :
  sess w !! sid = Some s ->
  let oid := _nxtObjectId (w_room w) in
  ~ has_dynamic oid w ->
  _dynamicObjects (w_room (exec (leave_loot sid oidz p) w)) !! oid =
    Some (GContainer (new_PlayerLootContainer oid (position (p_object p)) (yawAngle (p_object p)) (GetInventory s))).
Proof.
  intros Hs oid Hfresh. unfold leave_loot, exec. unfold sess in Hs. rewrite Hs. refold. rewrite !exec_bind.
  etrans; [|apply (SpawnPlayerLootContainer_dynamic p (GetInventory s) w Hfresh)].
  by erewrite view_dynamic by apply Broadcast_view.
Qed.

Lemma notify_left_dynamic sid step w :
  _dynamicObjects (w_room (exec (notify_left sid step) w)) = _dynamicObjects (w_room w).
Proof. unfold notify_left, exec. destruct (_ !! _) as [s|]; [|done]. destruct (step s) as [[] s']; done. Qed.

(** The end of the detachment of a dead player with an object. *)
Lemma detach_object_dynamic sid s oidz p w :
  sess w !! sid = Some s ->
  let oid := _nxtObjectId (w_room w) in
  ~ has_dynamic oid w ->
  _dynamicObjects (w_room (exec (detach_object sid oidz LR_DEAD p) w)) !! oid =
    Some (GContainer (new_PlayerLootContainer oid (position (p_object p)) (yawAngle (p_object p)) (GetInventory s))).
Proof.
  intros Hs oid Hfresh. unfold detach_object. rewrite !exec_bind. change (exec (mret tt) ?x) with x.
  erewrite view_dynamic by apply BroadcastExcept_view.
  change (_dynamicObjects (w_room (exec (RemovePlayerObject ?a) ?x))) with (_dynamicObjects (w_room x)).
  unfold lose_items. rewrite !bool_decide_eq_true_2 by done. cbn [orb]. rewrite exec_bind.
  by apply leave_loot_dynamic.
Qed.
End loot.

Lemma grand_Clear bp inv : bp <> 0 -> grand bp (Clear_inventory inv) = 0.
Proof.
  intros Hbp. unfold Clear_inventory, grand. cbn.
  assert (H : forall l, foldr (fun s n => count bp s + n) 0 (map Clear l) = 0).
  { intros l. induction l as [|s l IH]; [done|]. cbn [map foldr]. rewrite IH, count_Clear by done. done. }
  rewrite H, !count_Clear by done. done.
Qed.

(** *** Snapshots in chunks *)

Section chunks.
Context {E : External} {L : ExternalLaws E}.

Definition chunk_size (l : list UnityGameObjectMsg) : Z := foldr (fun o n => ext_object_size o + 5 + n) 0 l.
Definition fits (o : UnityGameObjectMsg) : Prop := ext_object_size o + 5 <= SAFE_PAYLOAD_LIMIT.

(** A numbered sequence of chunks carrying [objs], the last one flagged. *)
Record chunked (index : Z) (objs : list UnityGameObjectMsg) (cs : list (Z * bool * list UnityGameObjectMsg)) : Prop := {
  ck_objs : concat (map snd cs) = objs;
  ck_index : map (fun c => fst (fst c)) cs = map (fun i => index + Z.of_nat i) (seq 0 (length cs));
  ck_last : map (fun c => snd (fst c)) cs = replicate (pred (length cs)) false ++ [true];
  ck_fits : Forall (fun c => chunk_size (snd c) <= SAFE_PAYLOAD_LIMIT) cs }.

Lemma chunk_size_app l l' : chunk_size (l ++ l') = chunk_size l + chunk_size l'.
Proof. unfold chunk_size. induction l as [|o l IH]; [done|]. cbn [app foldr]. rewrite IH. lia. Qed.
Lemma chunk_size_pos o l : 0 < chunk_size (o :: l).
Proof.
  revert o. induction l as [|o' l IH]; intros o; pose proof (object_size_nonneg o) as [Ho _].
  - unfold chunk_size. cbn [foldr]. lia.
  - specialize (IH o'). change (chunk_size (o :: o' :: l)) with (ext_object_size o + 5 + chunk_size (o' :: l)). lia.
Qed.

Lemma chunked_cons index current objs cs :
  chunk_size current <= SAFE_PAYLOAD_LIMIT -> cs <> [] -> chunked (index + 1) objs cs ->
  chunked index (current ++ objs) ((index, false, current) :: cs).
Proof.
  intros Hc Hne []. constructor.
  - cbn. by rewrite ck_objs0.
  - cbn. f_equal; [lia|]. rewrite ck_index0, <- seq_shift, map_map. apply map_ext. intros. lia.
  - cbn. rewrite ck_last0. by destruct cs.
  - by constructor.
Qed.

Lemma fill_loop_spec objs current index :
  Forall fits objs -> chunk_size current <= SAFE_PAYLOAD_LIMIT -> (current = [] -> index = 0) ->
  0 <= index -> index + Z.of_nat (length objs) < 2 ^ 32 ->
  let cs := fill_loop objs current (chunk_size current) index in
  cs <> [] /\ chunked index (current ++ objs) cs.
Proof.
  revert current index. induction objs as [|o objs IH]; intros current index Hf Hc Hne Hi Hlen; cbn [fill_loop].
  - rewrite app_nil_r. destruct current as [|o l].
    + rewrite Hne by done. cbn. split; [done|]. by repeat constructor.
    + pose proof (chunk_size_pos o l). destruct (Z.ltb_spec 0 (chunk_size (o :: l))); [|lia].
      split; [done|]. constructor; cbn; [by rewrite app_nil_r|f_equal; lia|done|by repeat constructor].
  - apply Forall_cons in Hf as [Ho Hf]. unfold fits in Ho. pose proof (object_size_nonneg o).
    assert (i32 (ext_object_size o + 5) = ext_object_size o + 5) as ->.
    { apply i32_id. unfold is_i32. unfold SAFE_PAYLOAD_LIMIT in Ho. lia. }
    assert (Hone : ext_object_size o + 5 = chunk_size [o]) by (unfold chunk_size; cbn [foldr]; lia).
    cbn [length] in Hlen. rewrite Hone.
    destruct (Z.ltb_spec SAFE_PAYLOAD_LIMIT (chunk_size current + chunk_size [o])) as [Hbig|Hsmall].
    + rewrite u32_id by (unfold is_u32; lia). cbn zeta.
      destruct (IH [o] (index + 1) Hf ltac:(lia) ltac:(done) ltac:(lia) ltac:(lia)) as [Hcs Hck].
      split; [done|]. by apply chunked_cons.
    + rewrite <- chunk_size_app.
      destruct (IH (current ++ [o]) index Hf) as [Hcs Hck]; [by rewrite chunk_size_app| |lia|lia|].
      { intros Hx. by destruct current. }
      split; [done|]. by rewrite <- app_assoc in Hck.
Qed.
End chunks.

(** ** Theorems *)

Section theorems.
Context {E : External} {L : ExternalLaws E}.


(** When the lifetime of a room is over, one run of [ProcessLeaves] detaches everybody and
    the next, after the grace of the dead, finalizes them and finds that all have left. *)
Theorem expired_room_finalized d w :
  uids_distinct w -> sessions_inv w -> marks_past w -> room_expired w ->
  DEATH_GRACE_MS <= d < 2 ^ 31 ->
  let w2 := exec ProcessLeaves (wait d (exec ProcessLeaves w)) in
  all_finalized w2 /\ _allLeftReported (w_room w2) = true.
Proof.
  intros Hu Hi Hp Hexp Hd. set (w1 := exec ProcessLeaves w). set (v := wait d w1).
  destruct (ProcessLeaves_uids w Hu Hi) as [Hu1 Hi1]. pose proof (ProcessLeaves_past w Hu Hi Hp) as Hp1.
  fold w1 in Hu1, Hi1, Hp1. destruct (ProcessLeaves_steps w Hu) as (Hn & Hnone & _). fold w1 in Hn, Hnone.
  assert (Huv : uids_distinct v) by exact Hu1.
  destruct (ProcessLeaves_steps v Huv) as (_ & Hnone2 & _ & Hrep). cbn zeta. set (w2 := exec ProcessLeaves v) in *.
  assert (Hall : all_finalized w2).
  { intros sid s2 Hs2. destruct (own sid w1) as [s1|] eqn:Hs1; [|rewrite (Hnone2 sid Hs1) in Hs2; done].
    destruct (own sid w) as [s|] eqn:Hs; [|rewrite Hnone in Hs1; done].
    destruct (ProcessLeaves_session w sid s Hu (Hi _ _ Hs) Hs) as (s1' & Hs1' & _ & _ & _ & _ & _ & _ & He & _).
    fold w1 in Hs1'. rewrite Hs1 in Hs1'. simplify_eq. specialize (He Hexp).
    destruct (ProcessLeaves_session v sid s1' Huv (Hi1 _ _ Hs1) Hs1) as (s2' & Hs2' & _ & _ & _ & _ & Hl & _).
    fold w2 in Hs2'. rewrite Hs2 in Hs2'. simplify_eq. unfold is_finalized. apply bool_decide_eq_true_2.
    apply Hl; [done|]. specialize (Hp1 sid s1' Hs1 ltac:(by destruct (_leaveState (s_leave s1')))).
    change (w_now v) with (w_now w1 + d). unfold grace_over, ElapsedMs, DEATH_GRACE_MS, LEAVE_FINALIZE_TIMEOUT_MS in *.
    assert (He2 : 5000 <= u32 (w_now w1 + d - _leaveMarkedAt (s_leave s1'))) by (clear -Hp1 Hd; width).
    case_bool_decide; [by apply Z.leb_le|]. apply orb_true_iff. right. apply Z.leb_le. lia. }
  split; [exact Hall|]. destruct Hrep as [[[H|H] [_ Heq]]|(_ & _ & H & _)]; [congruence|done|done].
Qed.

(** C28. A player's death takes the items out of the player and puts them into the room:
    after the detachment of a dead player who has an object, a container stands where
    the player stood, free to be opened, holding of every blueprint what the player
    held; the session holds nothing any more, and its object is gone. *)
Theorem death_leaves_loot sid s p w :
  sess w !! sid = Some s -> _leaveReason (s_leave s) = LR_DEAD -> GetObjectId s <> -1 ->
  _playerObjects (w_room w) !! u32 (GetObjectId s) = Some p -> inv_core (GetInventory s) ->
  let oid := _nxtObjectId (w_room w) in
  ~ has_dynamic oid w ->
  let w' := exec (DetachPlayer sid) w in
  _playerObjects (w_room w') !! u32 (GetObjectId s) = None /\
  (exists k, _dynamicObjects (w_room w') !! oid = Some (GContainer k) /\
     container_ok k /\ _interactingPlayerId k = NO_INTERACTING_PLAYER /\
     forall bp, bp <> 0 -> Items.total bp (k_inventorySlots k) = grand bp (GetInventory s)) /\
  exists s', own sid w' = Some s' /\ forall bp, bp <> 0 -> grand bp (GetInventory s') = 0.
Proof.
  intros Hs Hr Hne Hp Hinv oid Hfresh w'. destruct (DetachPlayer_spec sid s w Hs) as (Ho & _ & _ & Hpl).
  fold w' in Ho, Hpl. apply Z.eqb_neq in Hne as Hneb. split_and!.
  - rewrite Hpl, Hneb. apply lookup_delete_eq.
  - exists (new_PlayerLootContainer oid (position (p_object p)) (yawAngle (p_object p)) (GetInventory s)).
    split.
    + unfold w', DetachPlayer, exec. unfold sess in Hs. rewrite Hs. refold. rewrite !exec_bind.
      rewrite notify_left_dynamic.
      change (_dynamicObjects (w_room (exec (upd_session ?a ?f) ?x))) with (_dynamicObjects (w_room x)).
      change (_dynamicObjects (w_room (exec (upd_session ?a ?f) ?x))) with (_dynamicObjects (w_room x)).
      set (w2 := exec (upd_session sid (SetSessionState _)) _).
      set (w4 := exec (ReleaseNpcAuthority _) _).
      assert (H4 : same_things w w4).
      { unfold w4. etrans; [|apply ReleaseNpcAuthority_same]. etrans; [|apply ReleaseInteractingContainer_same]. done. }
      assert (Hf4 : folk w4 = folk (exec (upd_session sid (SetInteractingContainerId (-1))) w2)).
      { unfold w4. rewrite ReleaseNpcAuthority_folk. apply ReleaseInteractingContainer_spec. }
      assert (Hinv4 : exists s4, sess w4 !! sid = Some s4 /\ GetInventory s4 = GetInventory s).
      { apply (folk_own _ _ sid) in Hf4. rewrite own_upd_session_eq in Hf4 by apply _.
        unfold w2 in Hf4. rewrite !own_upd_session_eq in Hf4 by apply _. unfold own at 2, sess in Hf4. rewrite Hs in Hf4.
        apply own_Some in Hf4 as (s4 & Hs4 & E4). exists s4. split; [done|].
        apply (f_equal GetInventory) in E4. symmetry. exact E4. }
      destruct Hinv4 as (s4 & Hs4 & <-). destruct H4 as [Hdom Hnxt].
      unfold detach_player_object, exec. rewrite Hneb. cbn [negb]. unfold FindPlayerObject.
      rewrite (folk_players _ _ Hf4). change (_playerObjects (w_room (exec _ w2))) with (_playerObjects (w_room w)).
      rewrite Hp, Hr. unfold oid. rewrite <- Hnxt. apply (detach_object_dynamic sid s4 _ p w4 Hs4).
      rewrite Hdom, Hnxt. exact Hfresh.
    + destruct (loot_container_complete oid (position (p_object p)) (yawAngle (p_object p)) (GetInventory s) Hinv)
        as (H1 & H2 & _ & H3). done.
  - exists (strip (detached_session (loses_items s (w_room w)) s)). split; [exact Ho|].
    intros bp Hbp. unfold loses_items. rewrite Hr, Hneb. unfold FindPlayerObject. cbn [negb]. rewrite Hp.
    rewrite !bool_decide_eq_true_2 by done. cbn [orb andb]. unfold detached_session, exec.
    rewrite NotifyLeftOnce_eq. by apply (grand_Clear bp (GetInventory s)).
Qed.

(** C37. The snapshot of a room's objects reaches a joining client whole: the chunks
    carry every object once, in the order of the map, numbered from 0, only the last
    flagged as last, and each within the payload a datagram can safely hold; an empty
    room is announced by one empty last chunk. *)
Theorem snapshot_complete (m : gmap Z GameObject) :
  Forall (fun o => fits (Geometry.Serialize (object_of o))) (values m) ->
  Z.of_nat (length (values m)) < 2 ^ 32 ->
  let objs := map (fun o => Geometry.Serialize (object_of o)) (values m) in
  fill_objects m <> [] /\ chunked 0 objs (fill_objects m) /\
  Permutation (values m) (map snd (map_to_list m)).
Proof.
  intros Hf Hlen objs.
  assert (Hp : Permutation (values m) (map snd (map_to_list m))).
  { unfold values. rewrite (keys_perm _ m). clear.
    assert (H : forall l : list (Z * GameObject), (forall kv, kv ∈ l -> m !! kv.1 = Some kv.2) ->
      omap (fun k => m !! k) (map fst l) = map snd l).
    { intros l. induction l as [|[k x] l IH]; intros Hl; [done|].
      pose proof (Hl (k, x) ltac:(by left)) as Hk. cbn in Hk |- *. rewrite Hk. cbn.
      f_equal. apply IH. set_solver. }
    rewrite H; [done|]. intros [k x] Hkx. by apply elem_of_map_to_list. }
  unfold fill_objects. case_decide as Hm.
  - assert (objs = []) as ->.
    { unfold objs. rewrite Hm in Hp |- *. rewrite map_to_list_empty in Hp. apply Permutation_nil_r in Hp. by rewrite Hp. }
    split; [done|]. split; [|done]. by repeat constructor.
  - destruct (fill_loop_spec objs [] 0) as [H1 H2]; try done.
    + unfold objs. apply Forall_map. exact Hf.
    + unfold objs. rewrite length_map. lia.
Qed.
End theorems.
