(* ===== verification/Handlers.v ===== *)
(** * The packet handlers

    Models src/src/DedicateProcess/ClientPacketHandler.cpp, one definition per
    handler, and [HandleClientPacket] of ClientPacketHandler.h, the gate every
    datagram passes: length, packet id, session, signature, sequence window,
    acknowledgements, then the handler of the table.

    A handler takes the id of its session, which the gate has looked up; [false] is
    the handler's result for a refused request. *)

From S2P Require Import Prelude Items Inventory Transport Geometry MapData Combat Container Buffers Protocol Session Room.
From stdpp Require Import strings.
Local Open Scope Z_scope.

Definition PLAYER_OBJECT_ID_SENTINEL : Z := 4294967295.      (* 0xFFFFFFFF *)
Definition INVENTORY_VERSION_NOT_SET : Z := 4294967295.      (* 0xFFFFFFFF *)
Definition RELOAD_SEQUENCE_COMPLETE : Z := 15.

Definition refuse : ST World bool := mret false.
Definition accept : ST World bool := mret true.

Section handlers.
Context {E : External}.

(** Handlers that find their session inactive refuse. *)
Definition active (sid : Z) (k : PlayerSession -> ST World bool) : ST World bool := fun w =>
  match _playerSessions (w_room w) !! sid with
  | None => (false, w)
  | Some s => if negb (IsActiveState s) then (false, w) else k s w
  end.
(** ... as do those whose session has no object or no room. *)
Definition with_object (s : PlayerSession) (k : Z -> ST World bool) : ST World bool :=
  if GetObjectId s =? -1 then refuse else k (GetObjectId s).
Definition with_room (s : PlayerSession) (k : ST World bool) : ST World bool :=
  match _pRoom s with None => refuse | Some _ => k end.
Definition with_player (objectId : Z) (k : PlayerObject -> ST World bool) : ST World bool := fun w =>
  match FindPlayerObject (u32 objectId) (w_room w) with None => (false, w) | Some p => k p w end.

(** ** Joining *)

(** [ntohs] of the sender's port, which [SetPort] turns back. *)
Definition Handle_C2D_ChannelOpen (echo : string) (clientAddr : sockaddr_in) (sid : Z) : ST World bool := fun w =>
  match _playerSessions (w_room w) !! sid with
  | None => (false, w)
  | Some s =>
      (_ ← (if bool_decide (_sessionState s = SS_INIT)
            then upd_session sid (fun s => SetSessionState SS_CONNECTED (SetPort (htons (sin_port clientAddr)) s))
            else mret tt);
       _ ← Send sid (D2CResponseChannelOpen echo);
       accept) w
  end.

Definition Handle_C2D_HeartBeat (sid : Z) : ST World bool := fun w =>
  match _playerSessions (w_room w) !! sid with
  | None => (false, w)
  | Some s => if negb (IsActiveState s) && negb (IsSpectating s) then (false, w)
              else (_ ← Send sid D2CHeartBeat; accept) w
  end.

Definition Handle_C2D_RequestBlueprint (sid : Z) : ST World bool :=
  active sid (fun s => with_room s (
    pkts ← gets (fun w => FillStaticObjects (w_room w));
    _ ← for_each pkts (Send sid);
    accept)).

Definition Handle_C2D_RequestSpawnByObjectId (object_id : Z) (sid : Z) : ST World bool :=
  active sid (fun s => with_object s (fun _ => with_room s (fun w =>
    if object_id <? 0 then (false, w)
    else match FindNonplayerObject object_id (w_room w) with
    | Some o => (_ ← Send sid (D2CResponseSpawnByObjectId (Geometry.Serialize (object_of o))); accept) w
    | None => match FindPlayerObject object_id (w_room w) with
              | Some p => (_ ← Send sid (D2CSpawnPlayerObject (spawn_player_msg p)); accept) w
              | None => (true, w)
              end
    end))).

Definition apply_npc_state (sessionObjectId : Z) (info : GameObjectMovementInfo) : ST World unit := fun w =>
  match FindHostileNpc (mi_object_id info) (w_room w) with
  | None => (tt, w)
  | Some n => if negb (IsAuthority sessionObjectId n) then (tt, w)
              else upd_npc (mi_object_id info) (ApplyMovementInfo info) w
  end.

Definition Handle_C2D_UpdatePlayerState (st : PlayerState) (states : list GameObjectMovementInfo)
    (sid : Z) : ST World bool :=
  active sid (fun s => with_object s (fun sessionObjectId => with_room s (
    match ps_movement_info st with
    | None => refuse
    | Some info =>
        if negb (mi_object_id info =? u32 sessionObjectId) then refuse
        else with_player sessionObjectId (fun _ =>
          _ ← upd_player (u32 sessionObjectId) (ApplyState st);
          _ ← for_each states (apply_npc_state sessionObjectId);
          accept)
    end))).

(** The player's object as [RequestSpawnMe] makes it. *)
Definition spawned_player (oid : Z) (spot : Vector3) (s : PlayerSession) : PlayerObject :=
  let inv := GetInventory s in
  let p := new_PlayerObject oid spot (pl_characterType (_player s)) (_userId (_player s)) in
  let p1 := SetArmor (blueprintId (item (_armorSlot inv)))
              (SetWeapons (blueprintId (item (_primaryWeaponSlot inv)))
                          (blueprintId (item (_secondaryWeaponSlot inv))) p) in
  p1 <| p_combat ::= fun c => ChargeShield (_maxShield c) c |>.

Definition Handle_C2D_RequestSpawnMe (sid : Z) : ST World bool :=
  active sid (fun s => with_room s (
    spot ← SetSpawnSpot;
    oid ← GetNewObjectId;
    _ ← SpawnPlayerObject (spawned_player oid spot s) sid;
    _ ← upd_session sid (SetObjectId (i32 oid));
    remaining ← gets GetRemainingLifetimeMs;
    _ ← Send sid (D2CResponseSpawnMeSpawnSpot spot (pl_characterType (_player s)) oid remaining);
    _ ← Send sid (D2CFullInventorySync (SerializeFullInventory (GetInventory s)));
    pkts ← gets (fun w => FillDynamicObjects (w_room w));
    _ ← for_each pkts (Send sid);
    accept)).

Definition Handle_C2D_RequestSpawnPlayerObjects (sid : Z) : ST World bool :=
  active sid (fun s => with_object s (fun _ => with_room s (
    players ← gets (fun w => FillPlayerObjects (w_room w));
    _ ← Send sid (D2CSpawnPlayerObjects players);
    accept))).

Definition Handle_C2D_NotifyLoadingComplete (sid : Z) : ST World bool := fun w =>
  match _playerSessions (w_room w) !! sid with
  | None => (false, w)
  | Some s => if negb (bool_decide (_sessionState s = SS_CONNECTED)) then (false, w)
              else (_ ← upd_session sid (SetSessionState SS_INPLAY); accept) w
  end.

(** ** Containers *)

(** Whether the holder of a container keeps it: it is someone else, still near. *)
Definition held_by_other (k : Container) (playerObjectId : Z) : bool :=
  negb (_interactingPlayerId k =? NO_INTERACTING_PLAYER) && negb (_interactingPlayerId k =? u32 playerObjectId).

(** Evicting the session of a holder that walked away. *)
Definition evict_holder (holderId : Z) : ST World unit := fun w =>
  match FindSessionByObjectId (i32 holderId) (w_room w) with
  | Some h => upd_session h (SetInteractingContainerId (-1)) w
  | None => (tt, w)
  end.

Definition Handle_C2D_RequestOpenContainer (containerId : Z) (sid : Z) : ST World bool :=
  active sid (fun s => with_room s (fun w =>
    match FindContainer containerId (w_room w) with
    | None => (false, w)
    | Some k =>
        let playerObjectId := GetObjectId s in
        if playerObjectId =? -1 then (false, w)
        else if negb (IsPlayerNearContainer (u32 playerObjectId) containerId (w_room w)) then (false, w)
        else if held_by_other k playerObjectId &&
                IsPlayerNearContainer (_interactingPlayerId k) containerId (w_room w) then (false, w)
        else
          (_ ← (if held_by_other k playerObjectId then evict_holder (_interactingPlayerId k) else mret tt);
           _ ← ReleaseInteractingContainer sid;
           _ ← upd_container containerId (SetInteractingPlayerId (u32 playerObjectId));
           _ ← upd_session sid (SetInteractingContainerId (i32 containerId));
           info ← gets (fun w => SerializeOpenContainer <$> FindContainer containerId (w_room w));
           _ ← (match info with Some i => Send sid (D2CResponseOpenContainer i) | None => mret tt end);
           accept) w
    end)).

Definition Handle_C2D_CloseContainer (sid : Z) : ST World bool :=
  active sid (fun s =>
    if GetInteractingContainerId s =? -1 then refuse
    else match _pRoom s with
    | None => _ ← upd_session sid (SetInteractingContainerId (-1)); accept
    | Some _ => _ ← ReleaseInteractingContainer sid; accept
    end).

(** *** Moving items *)

(** The two ends of a move: slots of the player's inventory or of the open container. *)
Inductive SlotPtr := PlayerSlot (i : nat) | ContSlot (i : nat).
#[export] Instance SlotPtr_eq_dec : EqDecision SlotPtr.
Proof. solve_decision. Defined.

(** The inventory and the container a request works on; [b_cont] is [pContainer]. *)
Record Bags := mk_bags { b_inv : PlayerInventory; b_cont : option Container }.
#[export] Instance eta_Bags : Eta Bags := fun r => mk_bags (b_inv r) (b_cont r).

Definition read_slot (p : SlotPtr) (b : Bags) : Slot :=
  match p with
  | PlayerSlot i => default slot_default (_inventorySlots (b_inv b) !! i)
  | ContSlot i => default slot_default (b_cont b ≫= fun k => k_inventorySlots k !! i)
  end.
Definition write_slot (p : SlotPtr) (s : Slot) (b : Bags) : Bags :=
  match p with
  | PlayerSlot i => b <| b_inv ::= fun inv => inv <| _inventorySlots ::= <[ i := s ]> |> |>
  | ContSlot i => b <| b_cont ::= fmap (fun k : Container => k <| k_inventorySlots ::= <[ i := s ]> |>) |>
  end.

(** A check that fails with a deny mask. *)
Definition Denied (A : Type) : Type := Z + A.
#[export] Instance Denied_bind : MBind Denied :=
  fun A B f m => match m with inl d => inl d | inr a => f a end.
#[export] Instance Denied_ret : MRet Denied := fun A a => inr a.
Definition deny {A} (d : Z) : Denied A := inl d.
Definition require (b : bool) (d : Z) : Denied unit := if b then inr tt else inl d.

(** The container a session has open, if it may use it. *)
Definition open_container (s : PlayerSession) (r : GameRoom) : Denied (Z * Container) :=
  let containerId := GetInteractingContainerId s in
  _ ← require (negb (containerId =? -1)) DENY_CONTAINER_NOT_OPEN;
  match _pRoom s with
  | None => deny DENY_SERVER_INTERNAL
  | Some _ =>
      match FindNonplayerObject (u32 containerId) r ≫= as_container with
      | None => deny DENY_SERVER_INTERNAL
      | Some k =>
          _ ← require (negb (GetObjectId s =? -1)) DENY_SERVER_INTERNAL;
          _ ← require (IsPlayerNearContainer (u32 (GetObjectId s)) (u32 containerId) r) DENY_OUT_OF_RANGE;
          mret (containerId, k)
      end
  end.

(** One end of the request: its object, version and slot. *)
Definition resolve_end (objectId version slotIdx containerId : Z) (b : Bags) : Denied (option SlotPtr) :=
  if objectId =? PLAYER_OBJECT_ID_SENTINEL then
    _ ← require (version =? _inventoryVersion (b_inv b)) DENY_VERSION_MISMATCH;
    mret (PlayerSlot <$> GetSlotMutable (i32 slotIdx))
  else
    _ ← require (objectId =? u32 containerId) DENY_CONTAINER_NOT_OPEN;
    match b_cont b with
    | None => deny DENY_SERVER_INTERNAL
    | Some k =>
        _ ← require (version =? _containerVersion k) DENY_VERSION_MISMATCH;
        mret (ContSlot <$> GetContainerSlot slotIdx k)
    end.

(** What remains in the start slot. *)
Definition reduce_slot (n : Z) (s : Slot) : Slot :=
  let s' := s <| Items.quantity ::= fun q => q - n |> in
  if Items.quantity s' <=? 0 then Clear s' else s'.

(** The switch over the kind of move, on two different slots, the start one not empty. *)
Definition move_items (interactType n : Z) (p q : SlotPtr) (b : Bags) : Denied Bags :=
  let start := read_slot p b in
  let dest := read_slot q b in
  if interactType =? 0 then
    _ ← require (IsEmpty dest) DENY_SLOT_NOT_EMPTY;
    _ ← require (negb ((n <=? 0) || (Items.quantity start <? n))) DENY_INVALID_QUANTITY;
    mret (write_slot p (reduce_slot n start)
            (write_slot q (dest <| item := item start |> <| Items.quantity := n |>) b))
  else if interactType =? 1 then
    _ ← require (negb (IsEmpty dest)) DENY_SLOT_ALREADY_EMPTY;
    mret (write_slot p (put dest start) (write_slot q (put start dest) b))
  else
    _ ← require (negb (IsEmpty dest)) DENY_SLOT_ALREADY_EMPTY;
    _ ← require (blueprintId (item start) =? blueprintId (item dest)) DENY_BLUEPRINT_MISMATCH;
    let itemType := GetType (blueprintId (item start)) in
    _ ← require (negb (bool_decide (itemType = WEAPON) || bool_decide (itemType = ARMOR))) DENY_ITEM_TYPE_MISMATCH;
    _ ← require (negb ((n <=? 0) || (Items.quantity start <? n))) DENY_INVALID_QUANTITY;
    mret (write_slot p (reduce_slot n start)
            (write_slot q (dest <| Items.quantity ::= fun q => q + n |>) b)).

(** The versions after a move. *)
Definition bump_versions (startIsPlayer endIsPlayer : bool) (b : Bags) : Bags :=
  let b1 := if startIsPlayer || endIsPlayer
            then b <| b_inv ::= fun inv => IncrementInventoryVersion (UpdateFirstEmptySlotIndex inv) |> else b in
  if negb startIsPlayer || negb endIsPlayer
  then b1 <| b_cont ::= fmap IncrementContainerVersion |> else b1.

(** The request on a session of a room: the container used, the bags after it and
    the answer, or the deny mask. *)
Definition interact (pkt : InteractMsg) (s : PlayerSession) (r : GameRoom)
    : Denied (Z * Bags * InteractMsg) :=
  _ ← require (ic_interact_type pkt <=? 2) DENY_SERVER_INTERNAL;
  let startIsPlayer := ic_start_object_id pkt =? PLAYER_OBJECT_ID_SENTINEL in
  let endIsPlayer := ic_end_object_id pkt =? PLAYER_OBJECT_ID_SENTINEL in
  opened ← (if negb startIsPlayer || negb endIsPlayer
            then '(c, k) ← open_container s r; mret (c, Some k)
            else mret (-1, None));
  let '(containerId, cont) := opened in
  let b := mk_bags (GetInventory s) cont in
  startSlot ← resolve_end (ic_start_object_id pkt) (ic_start_version pkt) (ic_start_slot_idx pkt) containerId b;
  endSlot ← resolve_end (ic_end_object_id pkt) (ic_end_version pkt) (ic_end_slot_idx pkt) containerId b;
  match startSlot, endSlot with
  | Some p, Some q =>
      _ ← require (negb (bool_decide (p = q))) DENY_SERVER_INTERNAL;
      _ ← require (negb (IsEmpty (read_slot p b))) DENY_SLOT_EMPTY;
      b1 ← move_items (ic_interact_type pkt) (i32 (ic_quantity pkt)) p q b;
      let b2 := bump_versions startIsPlayer endIsPlayer b1 in
      let version (isPlayer : bool) := if isPlayer then _inventoryVersion (b_inv b2)
                                       else default 0 (_containerVersion <$> b_cont b2) in
      mret (containerId, b2,
            mk_interact (ic_interact_type pkt) (ic_start_object_id pkt) (version startIsPlayer)
              (ic_start_slot_idx pkt) (i32 (ic_quantity pkt)) (ic_end_object_id pkt) (version endIsPlayer)
              (ic_end_slot_idx pkt))
  | _, _ => deny DENY_SERVER_INTERNAL
  end.

(** Writing the bags back through the pointers. *)
Definition store_bags (sid containerId : Z) (b : Bags) : ST World unit :=
  _ ← upd_session sid (update_inventory (fun _ => b_inv b));
  match b_cont b with
  | Some k => upd_container (u32 containerId) (fun _ => k)
  | None => mret tt
  end.

Definition Handle_C2D_RequestInteractContainerObject (pkt : InteractMsg) (sid : Z) : ST World bool :=
  active sid (fun s w =>
    match interact pkt s (w_room w) with
    | inl denyMask => (_ ← Send sid (D2CResponseInteractContainerObjectDeny denyMask); refuse) w
    | inr (containerId, b, response) =>
        (_ ← store_bags sid containerId b;
         _ ← Send sid (D2CResponseInteractContainerObject response);
         accept) w
    end).

(** *** Equipping *)

(** The slot the request names: the inventory and the open container's slot. *)
Definition resolve_equip (pkt : EquipRequest) (s : PlayerSession) (r : GameRoom)
    : Denied (SlotRef * option (Z * Container * nat)) :=
  if eq_object_id pkt =? PLAYER_OBJECT_ID_SENTINEL then
    _ ← require (eq_object_version pkt =? _inventoryVersion (GetInventory s)) DENY_VERSION_MISMATCH;
    match GetSlotMutable (i32 (eq_object_slot_idx pkt)) with
    | None => deny DENY_SERVER_INTERNAL
    | Some i => mret (OwnSlot i, None)
    end
  else
    _ ← require (negb (GetInteractingContainerId s =? -1)) DENY_CONTAINER_NOT_OPEN;
    _ ← require (eq_object_id pkt =? u32 (GetInteractingContainerId s)) DENY_CONTAINER_NOT_OPEN;
    '(containerId, k) ← open_container s r;
    _ ← require (eq_object_version pkt =? _containerVersion k) DENY_VERSION_MISMATCH;
    match GetContainerSlot (eq_object_slot_idx pkt) k with
    | None => deny DENY_SERVER_INTERNAL
    | Some i =>
        _ ← require (eq_my_version pkt =? _inventoryVersion (GetInventory s)) DENY_VERSION_MISMATCH;
        mret (ContainerSlot, Some (containerId, k, i))
    end.

(** The operation of the inventory; its deny mask, the slot the magazine went to. *)
Definition equip_operation (actionType equipSlotType : Z) (r : SlotRef) (e : Equip)
    : bool * Z * Z * Equip :=
  let isPrimary := equipSlotType =? 0 in
  if actionType =? 0 then
    if equipSlotType <=? 1 then
      let '((ok, d, u), e') := EquipWeaponFromSlot r isPrimary 0 (-1) e in (ok, d, u, e')
    else let '((ok, d), e') := EquipArmorFromSlot r 0 e in (ok, d, -1, e')
  else
    if equipSlotType <=? 1 then
      let '((ok, d, u), e') := UnequipWeaponToSlot r isPrimary 0 (-1) e in (ok, d, u, e')
    else let '((ok, d), e') := UnequipArmorToSlot r 0 e in (ok, d, -1, e').

Definition FillWeaponChanged (objectId : Z) (p : PlayerObject) : WeaponChanged :=
  mk_weapon_changed objectId (GetCurrentWeaponId p) (if _isUsingPrimary p then 0 else 1) INVENTORY_VERSION_NOT_SET.

(** The player's object follows the equipment. *)
Definition show_equipment (sid equipSlotType : Z) : ST World unit := fun w =>
  match _playerSessions (w_room w) !! sid with
  | None => (tt, w)
  | Some s =>
      let oid := GetObjectId s in
      let inv := GetInventory s in
      if (oid =? -1) || negb (bool_decide (is_Some (_pRoom s))) then (tt, w)
      else match FindPlayerObject (u32 oid) (w_room w) with
      | None => (tt, w)
      | Some p =>
          if equipSlotType =? 2 then upd_player (u32 oid) (SetArmor (blueprintId (item (_armorSlot inv)))) w
          else
            let p' := SetWeapons (blueprintId (item (_primaryWeaponSlot inv)))
                                 (blueprintId (item (_secondaryWeaponSlot inv))) p in
            let w1 := exec (upd_player (u32 oid) (fun _ => p')) w in
            (tt, exec (BroadcastExcept (D2CNotifyWeaponChanged (FillWeaponChanged (u32 oid) p')) sid) w1)
      end
  end.

(** The container with its slot written back; [pContainer->IncrementContainerVersion]
    on success. *)
Definition put_back (k : Container) (i : nat) (slot : Slot) (ok : bool) : Container :=
  let k' := k <| k_inventorySlots ::= <[ i := slot ]> |> in
  if ok then IncrementContainerVersion k' else k'.

Definition Handle_C2D_RequestEquipItem (pkt : EquipRequest) (sid : Z) : ST World bool :=
  active sid (fun s w =>
    let denied d := (_ ← Send sid (D2CResponseEquipItemDeny d); refuse) in
    if 1 <? eq_action_type pkt then denied DENY_SERVER_INTERNAL w
    else if 2 <? eq_equipment_slot_type pkt then denied DENY_SERVER_INTERNAL w
    else match resolve_equip pkt s (w_room w) with
    | inl d => denied d w
    | inr (ref, cont) =>
        let ext := match cont with
                   | Some (_, k, i) => default slot_default (k_inventorySlots k !! i)
                   | None => slot_default end in
        let '(ok, d, unloadedSlotIdx, e) :=
          equip_operation (eq_action_type pkt) (eq_equipment_slot_type pkt) ref (mk_equip (GetInventory s) ext) in
        let stored :=
          _ ← upd_session sid (update_inventory (fun _ => e_inv e));
          match cont with
          | Some (c, k, i) => upd_container (u32 c) (fun _ => put_back k i (e_ext e) ok)
          | None => mret tt
          end in
        if negb ok then (_ ← stored; denied d) w
        else
          let own := eq_object_id pkt =? PLAYER_OBJECT_ID_SENTINEL in
          let version := match cont with
                         | Some (_, k, i) => _containerVersion (put_back k i (e_ext e) ok)
                         | None => _inventoryVersion (e_inv e) end in
          (_ ← stored;
           _ ← show_equipment sid (eq_equipment_slot_type pkt);
           _ ← Send sid (D2CResponseEquipItem
                 (mk_equip_response (eq_action_type pkt) (eq_equipment_slot_type pkt) (eq_object_id pkt)
                    (if own then _inventoryVersion (e_inv e) else version) (eq_object_slot_idx pkt)
                    (if own then 0 else _inventoryVersion (e_inv e))
                    (if unloadedSlotIdx =? -1 then None else SerializeSlot unloadedSlotIdx (e_inv e))));
           accept) w
    end).

Definition Handle_C2D_RequestRecentInventoryInfo (oid : Z) (sid : Z) : ST World bool :=
  active sid (fun s w =>
    if oid =? PLAYER_OBJECT_ID_SENTINEL then
      (_ ← Send sid (D2CFullInventorySync (SerializeFullInventory (GetInventory s))); accept) w
    else
      let containerId := GetInteractingContainerId s in
      if containerId =? -1 then (false, w)
      else if negb (oid =? u32 containerId) then (false, w)
      else with_room s (fun w =>
        match FindContainer oid (w_room w) with
        | None => (false, w)
        | Some k => (_ ← Send sid (D2CResponseRecentContainerInfo (SerializeRecentContainerInfo k)); accept) w
        end) w).

(** ** Fighting *)

Definition send_weapon_state (sid sessionObjectId inventoryVersion : Z) (p : PlayerObject) : ST World unit :=
  Send sid (D2CNotifyWeaponChanged
    ((FillWeaponChanged (u32 sessionObjectId) p) <| wc_inventory_version := inventoryVersion |>)).

Definition Handle_C2D_RequestSwitchWeapon (targetSlot my_version : Z) (sid : Z) : ST World bool :=
  active sid (fun s => with_object s (fun oid => with_room s (with_player oid (fun p w =>
    let inventoryVersion := _inventoryVersion (GetInventory s) in
    let toPrimary := targetSlot =? 0 in
    let targetWeaponId := if toPrimary then _primaryWeaponId p else _secondaryWeaponId p in
    if (1 <? targetSlot) || negb (my_version =? inventoryVersion) || (targetWeaponId =? 0) then
      (_ ← send_weapon_state sid oid inventoryVersion p; refuse) w
    else
      let p' := SetUsingPrimary toPrimary p in
      (_ ← upd_player (u32 oid) (fun _ => p');
       _ ← BroadcastExcept (D2CNotifyWeaponChanged (FillWeaponChanged (u32 oid) p')) sid;
       _ ← send_weapon_state sid oid inventoryVersion p';
       accept) w)))).

(** The round leaves the magazine. *)
Definition fire_round (isPrimary : bool) (inv : PlayerInventory) : PlayerInventory :=
  let m := magazineOf isPrimary inv in
  let m' := m <| Items.quantity ::= fun q => q - 1 |> in
  set_magazine isPrimary (if Items.quantity m' <=? 0 then Clear m' else m') inv.

(** The health report to the player hit; a dying player waits for its receipt. *)
Definition notify_health (hit : Z) (c : CombatObject) (reason : HealthChangeReason) (attacker : Z)
    : ST World unit :=
  let m := D2CNotifyHealthChange (mk_health (_currentHp c) (_currentShield c) reason attacker) in
  _ ← Send hit m;
  if IsAlive c then mret tt
  else upd_session hit (fun s => SetLeaveNotifyRSeq (GetLastSentRSeq (s_rudp s)) s).

(** A hit on a player. *)
Definition hit_player (hitObjectId damage attacker : Z) (p : PlayerObject) : ST World unit := fun w =>
  let p' := p <| p_combat ::= TakeDamage damage attacker |> in
  let w1 := exec (upd_player hitObjectId (fun _ => p')) w in
  match FindSessionByObjectId (i32 hitObjectId) (w_room w1) with
  | None => (tt, w1)
  | Some h =>
      match _playerSessions (w_room w1) !! h with
      | Some hs => if IsInplay hs then notify_health h (p_combat p') REASON_WEAPON_HIT attacker w1 else (tt, w1)
      | None => (tt, w1)
      end
  end.

(** A hit on a hostile object, which no session stands for: destroyed when its
    death is pending, else it turns on its attacker. *)
Definition hit_npc (hitObjectId damage attacker sessionObjectId : Z) (n : HostileNPC) : ST World unit := fun w =>
  let n1 := n <| n_combat ::= TakeDamage damage attacker |> in
  let w1 := exec (upd_npc hitObjectId (fun _ => n1)) w in
  let w2 :=
    match FindSessionByObjectId (i32 hitObjectId) (w_room w1) with
    | None => w1
    | Some h =>
        match _playerSessions (w_room w1) !! h with
        | Some hs => if IsInplay hs
                     then exec (notify_health h (n_combat n1) REASON_WEAPON_HIT attacker) w1 else w1
        | None => w1
        end
    end in
  if _deathPending (n_combat n1) then DestroyDeadObject hitObjectId w2
  else
    let '(result, n2) := ApplyDamageAuthority sessionObjectId n1 in
    let w3 := exec (upd_npc hitObjectId (fun _ => n2)) w2 in
    match result with
    | AUTHORITY_CHANGED => NotifyNpcAuthority n2 w3
    | _ => (tt, w3)
    end.

Definition resolve_hit (hitObjectId weapon_dbid sessionObjectId : Z) : ST World unit := fun w =>
  match GetWeaponSpec weapon_dbid with
  | None => (tt, w)
  | Some spec =>
      match FindPlayerObject hitObjectId (w_room w) with
      | Some p => if IsAlive (p_combat p)
                  then hit_player hitObjectId (baseDamage spec) (u32 sessionObjectId) p w else (tt, w)
      | None =>
          match FindHostileNpc hitObjectId (w_room w) with
          | Some n => if IsAlive (n_combat n)
                      then hit_npc hitObjectId (baseDamage spec) (u32 sessionObjectId) sessionObjectId n w
                      else (tt, w)
          | None => (tt, w)
          end
      end
  end.

Definition Handle_C2D_RequestWeaponFire (fire_sequence weapon_dbid : Z) (hit_point : option Vector3)
    (hitObjectId : Z) (sid : Z) : ST World bool :=
  active sid (fun s => with_object s (fun oid => with_room s (fun w =>
    if i32 (fire_sequence - _fireSequence (_player s)) <? 0 then (false, w)
    else
      (_ ← upd_session sid (SetNextFireSequence (u32 (fire_sequence + 1)));
       with_player oid (fun p w =>
         if negb (GetCurrentWeaponId p =? weapon_dbid) then (false, w)
         else
           let magazineSlot := magazineOf (_isUsingPrimary p) (GetInventory s) in
           if IsEmpty magazineSlot || (Items.quantity magazineSlot <=? 0) then (false, w)
           else
             (_ ← upd_session sid (update_inventory (fire_round (_isUsingPrimary p)));
              _ ← (if hitObjectId =? 4294967295 then mret tt else resolve_hit hitObjectId weapon_dbid oid);
              _ ← BroadcastExcept (D2CBroadcastWeaponFire (u32 oid) hit_point) sid;
              accept) w)) w))).

Definition BroadcastReloadSequence (sid objectId sequenceNum : Z) : ST World unit :=
  _ ← BroadcastExcept (D2CNotifyReloadSequence sequenceNum objectId) sid; mret tt.

(** The size check of the response only writes to the log. *)
Definition Handle_C2D_RequestReload (my_version : Z) (sid : Z) : ST World bool :=
  active sid (fun s => with_object s (fun oid => with_room s (with_player oid (fun p w =>
    let inv := GetInventory s in
    let '(denyMask, inv') :=
      if negb (my_version =? _inventoryVersion inv) then (DENY_VERSION_MISMATCH, inv)
      else let '(ok, inv') := ReloadMagazine (_isUsingPrimary p) inv in
           (if ok then 0 else DENY_SLOT_EMPTY, inv') in
    (_ ← upd_session sid (update_inventory (fun _ => inv'));
     _ ← (if denyMask =? 0 then BroadcastReloadSequence sid (u32 oid) RELOAD_SEQUENCE_COMPLETE else mret tt);
     _ ← Send sid (D2CResponseReload (denyMask =? 0) denyMask (_fireSequence (_player s))
                     (SerializeFullInventory inv'));
     mret (denyMask =? 0)) w)))).

Definition Handle_C2D_NotifyReloadSequence (sequence_num : Z) (sid : Z) : ST World bool :=
  active sid (fun s => with_object s (fun oid => with_room s (with_player oid (fun p =>
    if sequence_num =? RELOAD_SEQUENCE_COMPLETE then refuse
    else if GetCurrentWeaponId p =? 0 then refuse
    else (_ ← BroadcastReloadSequence sid (u32 oid) sequence_num; accept))))).

(** ** Recall *)

Definition ScheduleRecallTick (sessionId uid generation : Z) : ST World unit :=
  emit (OutTimer RECALL_TICK_INTERVAL_MS sessionId uid generation).

(** The reliable number of the notification. *)
Definition SendRecallResult (sid : Z) (result : bool) (spotIndex : Z) (reason : RecallResultReason)
    : ST World Z :=
  _ ← Send sid (D2CNotifyRecallResult result spotIndex reason);
  gets (fun w => match _playerSessions (w_room w) !! sid with
                 | Some s => GetLastSentRSeq (s_rudp s) | None => 0 end).

Definition CancelRecall (sid spotIndex : Z) (reason : RecallResultReason) : ST World unit := fun w =>
  let w1 := exec (upd_session sid EndRecall) w in
  match _playerSessions (w_room w1) !! sid with
  | Some s => if negb (IsActiveState s) then (tt, w1)
              else (tt, exec (SendRecallResult sid false spotIndex reason) w1)
  | None => (tt, w1)
  end.

(** What stops the recall of a session, if anything. *)
Definition recall_obstacle (s : PlayerSession) (r : GameRoom) : option RecallResultReason :=
  if negb (IsInplay s) then Some RECALL_RESULT_SESSION_LOST
  else if IsLeaving s then Some RECALL_RESULT_SESSION_LOST
  else
    let oid := GetObjectId s in
    match (if bool_decide (is_Some (_pRoom s)) && negb (oid =? -1) then FindPlayerObject (u32 oid) r else None) with
    | None => Some RECALL_RESULT_SERVER_INTERNAL
    | Some p =>
        if negb (IsAlive (p_combat p)) then Some RECALL_RESULT_PLAYER_DEAD
        else if negb (IsInRecallZone (_recallSpotIndex (s_recall s)) (position (p_object p)) r)
        then Some RECALL_RESULT_OUT_OF_ZONE
        else None
    end.

(** The callback of the timer; [GetPlayerSession] finds the session in its room. *)
Definition RecallTick (sid uid generation : Z) : ST World unit := fun w =>
  match _playerSessions (w_room w) !! sid with
  | None => (tt, w)
  | Some s =>
      if negb (_isRecalling (s_recall s)) || negb (_recallGeneration (s_recall s) =? generation) then (tt, w)
      else if negb (_uid (_player s) =? uid) then (tt, w)
      else
        let spotIndex := _recallSpotIndex (s_recall s) in
        match recall_obstacle s (w_room w) with
        | Some reason => CancelRecall sid spotIndex reason w
        | None =>
            let '(passes, s1) := AddRecallPass s in
            let w1 := exec (upd_session sid (fun _ => s1)) w in
            if passes <? RECALL_REQUIRED_PASS_COUNT then ScheduleRecallTick sid uid generation w1
            else
              (_ ← upd_session sid EndRecall;
               notifyRSeq ← SendRecallResult sid true spotIndex RECALL_RESULT_SUCCESS;
               mark_leaving sid LR_RECALLED notifyRSeq) w1
        end
  end.

Definition Handle_C2D_RequestRecall (recallSpotIndex : Z) (sid : Z) : ST World bool :=
  active sid (fun s =>
    if IsLeaving s then refuse
    else with_object s (fun oid => with_room s (with_player oid (fun p w =>
      if _isRecalling (s_recall s) then (true, w)
      else
        let result := IsInRecallZone recallSpotIndex (position (p_object p)) (w_room w) in
        (_ ← Send sid (D2CResponseRecall result recallSpotIndex);
         if negb result then accept
         else
           _ ← upd_session sid (exec (BeginRecall recallSpotIndex));
           generation ← gets (fun w => match _playerSessions (w_room w) !! sid with
                                       | Some s => _recallGeneration (s_recall s) | None => 0 end);
           _ ← ScheduleRecallTick sid (_uid (_player s)) generation;
           accept) w)))).

(** ** Hostile objects *)

Definition ResolveHostileNpcRequest (npcObjectId : Z) (sid : Z)
    (k : HostileNPC -> Z -> ST World bool) : ST World bool :=
  active sid (fun s => with_object s (fun oid => with_room s (fun w =>
    match FindHostileNpc npcObjectId (w_room w) with
    | None => (false, w)
    | Some n => k n oid w
    end))).

(** The end of the two requests, which differ in the rule applied. *)
Definition npc_request (npcObjectId : Z) (rule : Z -> ST HostileNPC RequestResult) (sid : Z) : ST World bool :=
  ResolveHostileNpcRequest npcObjectId sid (fun n oid w =>
    let '(result, n') := rule oid n in
    let w1 := exec (upd_npc npcObjectId (fun _ => n')) w in
    match result with
    | REJECTED => (false, w1)
    | AUTHORITY_CHANGED => (_ ← NotifyNpcAuthority n'; accept) w1
    | AGGRO_CHANGED => (true, w1)
    end).

Definition Handle_C2D_RequestNpcAggro (npcObjectId aggro : Z) (sid : Z) : ST World bool :=
  npc_request npcObjectId (fun oid => ApplyAggroRequest oid aggro) sid.
Definition Handle_C2D_RequestNpcAuthority (npcObjectId aggro : Z) (sid : Z) : ST World bool :=
  npc_request npcObjectId (fun oid => ApplyAuthorityRequest oid aggro) sid.

Definition Handle_C2D_ReportNpcAttack (npcObjectId hitObjectId : Z) (hit_point : option Vector3)
    (sid : Z) : ST World bool :=
  ResolveHostileNpcRequest npcObjectId sid (fun n oid w =>
    if negb (IsAuthority oid n) then (false, w)
    else if negb (hitObjectId =? PLAYER_OBJECT_ID_SENTINEL) && negb (hitObjectId =? u32 oid) then (false, w)
    else
      let npcId := objectId (n_object n) in
      let w1 :=
        if hitObjectId =? PLAYER_OBJECT_ID_SENTINEL then w
        else match FindPlayerObject hitObjectId (w_room w) with
        | Some p =>
            if IsAlive (p_combat p) then
              let p' := p <| p_combat ::= TakeDamage (_attackDamage n) npcId |> in
              let w1 := exec (upd_player hitObjectId (fun _ => p')) w in
              exec (notify_health sid (p_combat p') REASON_NPC_ATTACK npcId) w1
            else w
        | None => w
        end in
      (_ ← BroadcastExcept (D2CBroadcastNpcAttack npcId hit_point) sid; accept) w1).

(** ** The gate *)

(** [GClientPacketHandler], filled by [Init]: the handler of each message. *)
Definition handle_message (m : C2DMsg) (clientAddr : sockaddr_in) (sid : Z) : ST World bool :=
  match m with
  | C2DChannelOpen echo => Handle_C2D_ChannelOpen echo clientAddr sid
  | C2DHeartBeat => Handle_C2D_HeartBeat sid
  | C2DRequestBlueprint => Handle_C2D_RequestBlueprint sid
  | C2DRequestSpawnMe => Handle_C2D_RequestSpawnMe sid
  | C2DRequestSpawnByObjectId oid => Handle_C2D_RequestSpawnByObjectId oid sid
  | C2DUpdatePlayerState st states => Handle_C2D_UpdatePlayerState st states sid
  | C2DRequestSpawnPlayerObjects => Handle_C2D_RequestSpawnPlayerObjects sid
  | C2DNotifyLoadingComplete => Handle_C2D_NotifyLoadingComplete sid
  | C2DRequestOpenContainer c => Handle_C2D_RequestOpenContainer c sid
  | C2DCloseContainer => Handle_C2D_CloseContainer sid
  | C2DRequestInteractContainerObject pkt => Handle_C2D_RequestInteractContainerObject pkt sid
  | C2DRequestEquipItem pkt => Handle_C2D_RequestEquipItem pkt sid
  | C2DRequestRecentInventoryInfo oid => Handle_C2D_RequestRecentInventoryInfo oid sid
  | C2DRequestWeaponFire q w hp hit => Handle_C2D_RequestWeaponFire q w hp hit sid
  | C2DRequestRecall i => Handle_C2D_RequestRecall i sid
  | C2DRequestSwitchWeapon t v => Handle_C2D_RequestSwitchWeapon t v sid
  | C2DRequestReload v => Handle_C2D_RequestReload v sid
  | C2DNotifyReloadSequence n => Handle_C2D_NotifyReloadSequence n sid
  | C2DRequestNpcAggro oid a => Handle_C2D_RequestNpcAggro oid a sid
  | C2DRequestNpcAuthority oid a => Handle_C2D_RequestNpcAuthority oid a sid
  | C2DReportNpcAttack oid hit hp => Handle_C2D_ReportNpcAttack oid hit hp sid
  end.

(** The channel's part of the gate: the sequence window, then the acknowledgement
    and the time stamps; the flag is whether the packet is new. *)
Definition receive_header (nowMs : Z) (h : UDPHeader) : ST (Rudp Packet) bool := fun ch =>
  let '(ok, ch1) := if negb (Z.land (flags h) FLAG_RELIABLE =? 0)
                    then UpdateRRecvState (rSeqNum h) ch else UpdateURecvState (uSeqNum h) ch in
  if negb ok then (false, ch1)
  else
    let ch2 := ProcessIncomingAck (ackRSeqNum h) (ackBitfield h) ch1 in
    let ch3 := if negb (timestamp h =? 0) then SetLastRecvTimestamp (timestamp h) ch2 else ch2 in
    let ch4 := if negb (timestampEcho h =? 0) then UpdateRtt (timestampEcho h) nowMs ch3 else ch3 in
    (true, ch4).

(** [HandleClientPacket] from the lookup of the session on: the room is the
    session's, the session id has been read from the header. *)
Definition HandleClientPacket (bytes : list Z) (clientAddr : sockaddr_in) : ST World bool := fun w =>
  if Z.of_nat (length bytes) <? UDP_HEADER_SIZE then (false, w)
  else
    let h := decode_udp bytes in
    if PKT_ID_MAX <=? packetId h then (false, w)
    else
      let sid := i16 (h_sessionId h) in
      match _playerSessions (w_room w) !! sid with
      | None => (false, w)
      | Some s =>
          if negb (check_signature bytes (_securityKey s)) then (false, w)
          else
            let '(ok, ch) := receive_header (NowMs w) h (s_rudp s) in
            let w1 := exec (upd_session sid (fun s => s <| s_rudp := ch |>)) w in
            if negb ok then (false, w1)
            else match ext_parse (packetId h) (drop 35 bytes) with
            | None => (false, w1)
            | Some m => handle_message m clientAddr sid w1
            end
      end.
End handlers.
