(* ===== verification/Calm.v ===== *)
(** * Steps of a room that open, close, spawn and leave nothing

    The steps of a room (a datagram, the timer of a recall, the two periodic updates,
    the passing of time) as a labelled transition function, the invariants a room
    keeps, and the relation [calm] between the worlds before and after a step that
    leaves departures, object ids and open containers as they are: most handlers take
    calm steps, and calm steps keep every invariant.  Safety.v treats the others. *)

From S2P Require Import Prelude Items Inventory Transport Geometry MapData Combat Container Buffers Protocol Session Room Handlers.
From stdpp Require Import strings.
Local Open Scope Z_scope.
#[local] Set Warnings "-clear-no-such-hyp".

(** ** Steps *)

Inductive Label :=
| LPacket (bytes : list Z) (addr : sockaddr_in)
| LRecallTimer (sid uid generation : Z)
| LUpdate
| LUpdateNpcs
| LRetransmit (sid : Z)
| LBindIp (sid : Z) (ip : option Z)
| LClock (ms : Z).

(** The part of [UpdateGameRooms] for the room's phase, and the other one. *)
Definition room_update {E : External} : ST World unit := _ ← ProcessLeaves; Update.

Definition step {E : External} (l : Label) (w : World) : World :=
  match l with
  | LPacket bytes addr => exec (HandleClientPacket bytes addr) w
  | LRecallTimer sid uid generation => exec (RecallTick sid uid generation) w
  | LUpdate => exec room_update w
  | LUpdateNpcs => exec UpdateNpcStates w
  | LRetransmit sid => exec (Retransmit sid) w
  | LBindIp sid ip => exec (upd_session sid (SetIp ip)) w
  | LClock ms => wait ms w
  end.

Fixpoint run {E : External} (ls : list Label) (w : World) : World :=
  match ls with [] => w | l :: ls' => run ls' (step l w) end.

(** ** Invariants *)

Definition is_thing (oid : Z) (w : World) : Prop := is_Some (FindNonplayerObject oid (w_room w)).
Definition nxt (w : World) : Z := _nxtObjectId (w_room w).
(** Who has a container open, as the container says. *)
Definition occupant (oid : Z) (w : World) : option Z := _interactingPlayerId <$> FindContainer oid (w_room w).

(** Object ids: those of the room are below the counter, those of the players are
    ids of the room, and no two players have the same. *)
Record ids_ok (w : World) : Prop := {
  io_nxt : 0 <= nxt w < 2 ^ 31;
  io_things : forall i, is_thing i w -> 0 <= i < nxt w;
  io_range : forall sid s, own sid w = Some s -> GetObjectId s = -1 \/ 0 <= GetObjectId s < nxt w;
  io_distinct : oids_distinct w }.

(** The destruction of the room is reserved once, when everybody has left. *)
Definition report_ok (w : World) : Prop :=
  if _allLeftReported (w_room w) then
    reserves (w_out w) = [OutReserveDestroy (_roomId (w_room w))] /\ all_finalized w
  else reserves (w_out w) = [].

Record room_inv (w : World) : Prop := {
  ri_uids : uids_distinct w;
  ri_sessions : sessions_inv w;
  ri_heard : forall sid s, own sid w = Some s -> heard s (w_out w);
  ri_report : report_ok w;
  ri_ids : ids_ok w }.

(** A session's open container says so too. *)
Definition hold_inv (w : World) : Prop := forall sid s,
  own sid w = Some s -> GetInteractingContainerId s <> -1 ->
  GetObjectId s <> -1 /\ occupant (u32 (GetInteractingContainerId s)) w = Some (u32 (GetObjectId s)).

(** ** Calm steps: those that open, close, spawn and leave nothing *)

Record calm_session (s s' : PlayerSession) : Prop := {
  cs_uid : session_uid s' = session_uid s;
  cs_state : _leaveState (s_leave s') = _leaveState (s_leave s);
  cs_reason : _leaveReason (s_leave s') = _leaveReason (s_leave s);
  cs_notified : _leftNotified (s_leave s') = _leftNotified (s_leave s);
  cs_oid : GetObjectId s' = GetObjectId s;
  cs_container : GetInteractingContainerId s' = GetInteractingContainerId s;
  cs_gone : gone s -> gone s' }.

Record calm (w w' : World) : Prop := {
  cm_told : forall uid, told uid (w_out w') = told uid (w_out w);
  cm_reserves : reserves (w_out w') = reserves (w_out w);
  cm_reported : _allLeftReported (w_room w') = _allLeftReported (w_room w);
  cm_id : _roomId (w_room w') = _roomId (w_room w);
  cm_nxt : nxt w' = nxt w;
  cm_none : forall sid, own sid w = None -> own sid w' = None;
  cm_some : forall sid s, own sid w = Some s -> exists s', own sid w' = Some s' /\ calm_session s s';
  cm_occupant : forall oid, occupant oid w' = occupant oid w;
  cm_things : forall oid, is_thing oid w' -> is_thing oid w }.

#[export] Instance calm_session_preorder : PreOrder calm_session.
Proof.
  split; [by constructor|]. intros s1 s2 s3 [] []. constructor; try congruence. auto.
Qed.
#[export] Instance calm_preorder : PreOrder calm.
Proof.
  split.
  - intros w. constructor; try done. intros sid s Hs. exists s. split; [done|reflexivity].
  - intros w1 w2 w3 [] []. constructor; try congruence; auto.
    + intros sid s Hs. destruct (cm_some0 _ _ Hs) as (s' & Hs' & H1). destruct (cm_some1 _ _ Hs') as (s'' & Hs'' & H2).
      exists s''. split; [done|]. by etrans.
Qed.

Lemma calm_back w w' sid s' : calm w w' -> own sid w' = Some s' ->
  exists s, own sid w = Some s /\ calm_session s s'.
Proof.
  intros [] Hs'. destruct (own sid w) as [s|] eqn:Hs; [|rewrite cm_none0 in Hs'; done].
  destruct (cm_some0 _ _ Hs) as (s2 & Hs2 & H). simplify_eq. eauto.
Qed.

(** Calm steps keep every invariant. *)
Lemma calm_session_inv s s' : calm_session s s' -> session_inv s -> session_inv s'.
Proof. intros [] [H1 H2]. split; [|auto]. unfold leave_ok in *. by rewrite cs_state0, cs_reason0, cs_notified0. Qed.

Lemma calm_heard s s' l l' : calm_session s s' -> (forall uid, told uid l' = told uid l) -> heard s l -> heard s' l'.
Proof. intros [] Hl. unfold heard. by rewrite cs_state0, cs_uid0, cs_reason0, Hl. Qed.

Lemma calm_room_inv w w' : calm w w' -> room_inv w -> room_inv w'.
Proof.
  intros Hc []. pose proof (fun sid s' => calm_back w w' sid s' Hc) as Hback. constructor.
  - intros sid1 sid2 s1 s2 H1 H2 Heq. destruct (Hback _ _ H1) as (t1 & Ht1 & C1), (Hback _ _ H2) as (t2 & Ht2 & C2).
    apply (ri_uids0 sid1 sid2 t1 t2); [done..|]. by rewrite <- (cs_uid _ _ C1), <- (cs_uid _ _ C2).
  - intros sid s' H. destruct (Hback _ _ H) as (s & Hs & C). eapply calm_session_inv; eauto.
  - intros sid s' H. destruct (Hback _ _ H) as (s & Hs & C). eapply calm_heard; [exact C|apply (cm_told _ _ Hc)|eauto].
  - unfold report_ok in *. rewrite (cm_reported _ _ Hc), (cm_reserves _ _ Hc), (cm_id _ _ Hc).
    destruct (_allLeftReported (w_room w)); [|done]. destruct ri_report0 as [H1 H2]. split; [done|].
    intros sid s' H. destruct (Hback _ _ H) as (s & Hs & C). unfold is_finalized. rewrite (cs_state _ _ C). by apply (H2 sid).
  - destruct ri_ids0. constructor.
    + by rewrite (cm_nxt _ _ Hc).
    + intros i Hi. rewrite (cm_nxt _ _ Hc). by apply io_things0, (cm_things _ _ Hc).
    + intros sid s' H. destruct (Hback _ _ H) as (s & Hs & C). rewrite (cs_oid _ _ C), (cm_nxt _ _ Hc). eauto.
    + intros sid1 sid2 s1 s2 H1 H2. destruct (Hback _ _ H1) as (t1 & Ht1 & C1), (Hback _ _ H2) as (t2 & Ht2 & C2).
      rewrite (cs_oid _ _ C1), (cs_oid _ _ C2). by apply io_distinct0.
Qed.

Lemma calm_hold_inv w w' : calm w w' -> hold_inv w -> hold_inv w'.
Proof.
  intros Hc Hh sid s' H. destruct (calm_back w w' sid s' Hc H) as (s & Hs & C).
  rewrite (cs_container _ _ C), (cs_oid _ _ C), (cm_occupant _ _ Hc). by apply (Hh sid).
Qed.

(** *** The calm building blocks *)

Lemma view_find w w' : view w' = view w -> forall oid, FindNonplayerObject oid (w_room w') = FindNonplayerObject oid (w_room w).
Proof. intros H oid. unfold FindNonplayerObject. by rewrite (view_static _ _ H), (view_dynamic _ _ H). Qed.

Lemma view_calm w w' : view w' = view w -> calm w w'.
Proof.
  intros H. pose proof (view_find _ _ H) as Hf. pose proof (view_side _ _ H) as Hs. constructor.
  - intros uid. by rewrite <- told_side, Hs, told_side.
  - by rewrite <- reserves_side, Hs, reserves_side.
  - by apply view_reported.
  - exact (f_equal (fun v => _roomId (w_room v)) H).
  - exact (f_equal (fun v => _nxtObjectId (w_room v)) H).
  - intros sid. by rewrite (view_own _ _ _ H).
  - intros sid s. rewrite (view_own _ _ _ H). intros. exists s. by split.
  - intros oid. unfold occupant, FindContainer. by rewrite Hf.
  - intros oid. unfold is_thing. by rewrite Hf.
Qed.

Lemma calm_upd_session sid f w :
  (forall s, sess w !! sid = Some s -> calm_session (strip s) (strip (f s))) ->
  calm w (exec (upd_session sid f) w).
Proof.
  intros Hf. destruct (sess w !! sid) as [s0|] eqn:Hs0; [|rewrite upd_session_absent by done; reflexivity].
  assert (Ho : own sid (exec (upd_session sid f) w) = Some (strip (f s0))).
  { unfold own, sess, exec, upd_session, upd_room, modify. cbn [setf snd w_room _playerSessions].
    rewrite lookup_alter_eq. unfold sess in Hs0. by rewrite Hs0. }
  constructor; try done.
  - intros sid' H. destruct (decide (sid = sid')) as [<-|]; [|by rewrite own_upd_session_ne].
    unfold own in H. by rewrite Hs0 in H.
  - intros sid' s H. destruct (decide (sid = sid')) as [<-|].
    + exists (strip (f s0)). split; [done|]. unfold own in H. rewrite Hs0 in H. injection H as <-. by apply Hf.
    + exists s. rewrite own_upd_session_ne by done. by split.
Qed.

(** Functions that touch neither departure, object, container, recall nor state. *)
Class Bland (f : PlayerSession -> PlayerSession) : Prop := bland : forall s,
  session_uid (f s) = session_uid s /\ GetObjectId (f s) = GetObjectId s /\
  GetInteractingContainerId (f s) = GetInteractingContainerId s /\
  _leaveState (s_leave (f s)) = _leaveState (s_leave s) /\ _leaveReason (s_leave (f s)) = _leaveReason (s_leave s) /\
  _leftNotified (s_leave (f s)) = _leftNotified (s_leave s) /\
  _isRecalling (s_recall (f s)) = _isRecalling (s_recall s) /\ _sessionState (f s) = _sessionState s.

Lemma bland_calm f s : Bland f -> calm_session (strip s) (strip (f s)).
Proof.
  intros Hf. destruct (Hf s) as (H1 & H2 & H3 & H4 & H5 & H6 & H7 & H8). constructor; try done.
  intros Hg H. change (2 <= leave_rank (_leaveState (s_leave (f s)))) in H. rewrite H4 in H. specialize (Hg H).
  change (GetObjectId (f s) = -1 /\ GetInteractingContainerId (f s) = -1 /\ _isRecalling (s_recall (f s)) = false /\
    _sessionState (f s) = (if bool_decide (_leaveReason (s_leave (f s)) = LR_DEAD)
                        && bool_decide (_leaveState (s_leave (f s)) = LS_DETACHED) then SS_SPECTATING else SS_LEFT)).
  rewrite H2, H3, H4, H5, H7, H8. exact Hg.
Qed.

Lemma calm_upd_bland sid f w : Bland f -> calm w (exec (upd_session sid f) w).
Proof. intros Hf. apply calm_upd_session. intros s _. by apply bland_calm. Qed.

#[export] Instance update_inventory_bland f : Bland (update_inventory f).
Proof. done. Qed.
#[export] Instance SetNextFireSequence_bland n : Bland (SetNextFireSequence n).
Proof. done. Qed.
#[export] Instance notify_seq_bland : Bland (fun s => SetLeaveNotifyRSeq (GetLastSentRSeq (s_rudp s)) s).
Proof. done. Qed.
#[export] Instance SetIp_bland ip : Bland (SetIp ip).
Proof. destruct ip; by constructor. Qed.
#[export] Instance rudp_bland ch : Bland (fun s => s <| s_rudp := ch |>).
Proof. done. Qed.

(** Objects. *)
Lemma find_upd_nonplayer oid f w i :
  FindNonplayerObject i (w_room (exec (upd_nonplayer oid f) w)) =
  if decide (i = oid) then f <$> FindNonplayerObject i (w_room w) else FindNonplayerObject i (w_room w).
Proof.
  unfold upd_nonplayer, upd_room, modify, exec, FindNonplayerObject. cbn [snd setf w_room].
  destruct (_staticObjects (w_room w) !! oid) as [o|] eqn:Ho; cbn [setf _staticObjects _dynamicObjects].
  - case_decide as Hi; [subst i; by rewrite lookup_alter_eq, Ho|by rewrite lookup_alter_ne].
  - case_decide as Hi; [subst i; by rewrite Ho, lookup_alter_eq|]. by rewrite lookup_alter_ne.
Qed.

Lemma folk_rest w w' : folk w' = folk w ->
  (forall uid, told uid (w_out w') = told uid (w_out w)) /\ reserves (w_out w') = reserves (w_out w) /\
  _allLeftReported (w_room w') = _allLeftReported (w_room w) /\ _roomId (w_room w') = _roomId (w_room w) /\
  forall sid, own sid w' = own sid w.
Proof.
  intros H. pose proof (folk_side _ _ H) as Hs. split_and!.
  - intros uid. by rewrite <- told_side, Hs, told_side.
  - by rewrite <- reserves_side, Hs, reserves_side.
  - exact (f_equal (fun v => _allLeftReported (w_room v)) H).
  - exact (f_equal (fun v => _roomId (w_room v)) H).
  - intros sid. by apply folk_own.
Qed.

Lemma calm_upd_nonplayer oid f w :
  (forall o, FindNonplayerObject oid (w_room w) = Some o ->
     _interactingPlayerId <$> as_container (f o) = _interactingPlayerId <$> as_container o) ->
  calm w (exec (upd_nonplayer oid f) w).
Proof.
  intros Hf. destruct (folk_rest _ _ (upd_nonplayer_folk oid f w)) as (H1 & H2 & H3 & H4 & H5). constructor; try done.
  - apply (upd_nonplayer_dom oid f w 0).
  - intros sid. by rewrite H5.
  - intros sid s Hs. exists s. rewrite H5. by split.
  - intros i. unfold occupant, FindContainer. rewrite find_upd_nonplayer. case_decide as Hi; [subst i|done].
    destruct (FindNonplayerObject oid (w_room w)) as [o|] eqn:Ho; [|done]. cbn. by apply Hf.
  - intros i. unfold is_thing. rewrite find_upd_nonplayer. case_decide; [by rewrite fmap_is_Some|done].
Qed.

Lemma calm_upd_npc oid f w : calm w (exec (upd_npc oid f) w).
Proof. apply calm_upd_nonplayer. by intros []. Qed.

Lemma calm_upd_container oid f w :
  (forall k, FindContainer oid (w_room w) = Some k -> _interactingPlayerId (f k) = _interactingPlayerId k) ->
  calm w (exec (upd_container oid f) w).
Proof.
  intros Hf. apply calm_upd_nonplayer. intros [k|n] Ho; [|done]. cbn. f_equal. apply Hf.
  unfold FindContainer. by rewrite Ho.
Qed.

Lemma calm_upd_player oid f w : calm w (exec (upd_player oid f) w).
Proof. constructor; try done. intros sid s Hs. exists s. by split. Qed.

Lemma calm_emit o w : is_left o = false -> reserves [o] = [] -> calm w (exec (emit o) w).
Proof.
  intros H1 H2. constructor; try done.
  - intros uid. unfold emit, modify, exec. cbn [snd setf w_out]. rewrite told_app. destruct o; try done; by rewrite app_nil_r.
  - unfold emit, modify, exec. cbn [snd setf w_out]. by rewrite reserves_app, H2, app_nil_r.
  - intros sid s Hs. exists s. by split.
Qed.

Create HintDb calm discriminated.
#[export] Hint Resolve calm_upd_npc calm_upd_player calm_upd_bland : calm.
#[export] Hint Extern 1 (Bland _) => typeclasses eauto : calm.

(** *** Walking through a handler

    A relation between the worlds before and after a step that sending respects. *)

Class Walk {E : External} (R : relation World) : Prop := {
  walk_preorder :: PreOrder R;
  walk_Send : forall sid m w, R w (exec (Send sid m) w) }.

Section walk.
Context {E : External} (R : relation World) {HR : Walk R}.

Lemma walk_bind {A B} (m : ST World A) (f : A -> ST World B) w :
  R w (exec m w) -> R (exec m w) (exec (f (eval m w)) (exec m w)) -> R w (exec (m ≫= f) w).
Proof. intros H1 H2. rewrite exec_bind. by etrans. Qed.
Lemma walk_for_each {A} (xs : list A) (body : A -> ST World unit) w :
  (forall x w, R w (exec (body x) w)) -> R w (exec (for_each xs body) w).
Proof. intros H. apply (for_each_inv (R w)); [|reflexivity]. intros x w1 _ H1. by etrans. Qed.

Lemma walk_broadcast_loop keys m x n w : R w (exec (broadcast_loop keys m x n) w).
Proof.
  revert n w. induction keys as [|sid keys IH]; intros n w; [reflexivity|]. unfold exec. cbn [broadcast_loop].
  destruct (_playerSessions (w_room w) !! sid) as [s|]; [|apply IH]. destruct (negb _ || _); [apply IH|].
  etrans; [apply (walk_Send sid m)|apply IH].
Qed.
Lemma walk_BroadcastExcept m x w : R w (exec (BroadcastExcept m x) w).
Proof. apply walk_broadcast_loop. Qed.
Lemma walk_Broadcast m w : R w (exec (Broadcast m) w).
Proof. apply walk_bind; [apply walk_BroadcastExcept|reflexivity]. Qed.
Lemma walk_NotifyNpcAuthority n w : R w (exec (NotifyNpcAuthority n) w).
Proof. apply walk_Broadcast. Qed.

Lemma walk_active sid k w :
  (forall s, sess w !! sid = Some s -> IsActiveState s = true -> R w (exec (k s) w)) ->
  R w (exec (active sid k) w).
Proof.
  intros Hk. unfold active, exec. destruct (_playerSessions (w_room w) !! sid) as [s|] eqn:Hs; [|reflexivity].
  destruct (IsActiveState s) eqn:Ha; [|reflexivity]. by apply Hk.
Qed.
Lemma walk_with_object s k w :
  (GetObjectId s <> -1 -> R w (exec (k (GetObjectId s)) w)) -> R w (exec (with_object s k) w).
Proof. intros Hk. unfold with_object. destruct (Z.eqb_spec (GetObjectId s) (-1)); [reflexivity|auto]. Qed.
Lemma walk_with_room s k w : R w (exec k w) -> R w (exec (with_room s k) w).
Proof. intros Hk. unfold with_room. destruct (_pRoom s); [done|reflexivity]. Qed.
Lemma walk_with_player oid k w :
  (forall p, FindPlayerObject (u32 oid) (w_room w) = Some p -> R w (exec (k p) w)) ->
  R w (exec (with_player oid k) w).
Proof.
  intros Hk. unfold with_player, exec. destruct (FindPlayerObject _ _) eqn:Hp; [|reflexivity]. by apply Hk.
Qed.
End walk.

(** The walk, with what is known of the steps met on the way. *)
Ltac walks known :=
  lazymatch goal with
  | |- ?R ?w ?w => reflexivity
  | |- ?R ?w (exec (mret _) ?w) => reflexivity
  | |- ?R ?w (exec refuse ?w) => reflexivity
  | |- ?R ?w (exec accept ?w) => reflexivity
  | |- ?R ?w (exec (gets _) ?w) => reflexivity
  | |- ?R ?w (exec (?m ≫= ?f) ?w) => apply (walk_bind R); [walks known|cbn beta; walks known]
  | |- ?R ?w (exec (Send _ _) ?w) => apply walk_Send
  | |- ?R ?w (exec (Broadcast _) ?w) => apply (walk_Broadcast R)
  | |- ?R ?w (exec (BroadcastExcept _ _) ?w) => apply (walk_BroadcastExcept R)
  | |- ?R ?w (exec (NotifyNpcAuthority _) ?w) => apply (walk_NotifyNpcAuthority R)
  | |- ?R ?w (exec (for_each _ _) ?w) => apply (walk_for_each R); intros ? ?; walks known
  | |- ?R ?w (exec (active _ _) ?w) => apply (walk_active R); intros ? ? ?; walks known
  | |- ?R ?w (exec (with_object _ _) ?w) => apply (walk_with_object R); intros ?; walks known
  | |- ?R ?w (exec (with_room _ _) ?w) => apply (walk_with_room R); walks known
  | |- ?R ?w (exec (with_player _ _) ?w) => apply (walk_with_player R); intros ? ?; walks known
  | |- ?R ?w (exec (if ?b then _ else _) ?w) => destruct b eqn:?; walks known
  | |- ?R ?w (exec (match ?x with _ => _ end) ?w) => destruct x eqn:?; walks known
  | |- ?R ?w (exec (fun v => @?F v) ?w) => let t := eval cbv beta zeta in (F w) in change (R w (snd t)); walks known
  | |- ?R ?w (snd (if ?b then _ else _)) => destruct b eqn:?; walks known
  | |- ?R ?w (snd (match ?x with _ => _ end)) => destruct x eqn:?; walks known
  | |- ?R ?w (snd (_, ?w')) => change (R w w'); walks known
  | |- ?R ?w (snd (?k ?w')) => change (R w (exec k w')); walks known
  | |- ?R ?w (exec ?m ?w) => try solve [known]
  | |- ?R ?w (exec _ ?w') => transitivity w'; walks known
  | |- ?R ?w (if ?b then _ else _) => destruct b eqn:?; walks known
  | |- ?R ?w (match ?x with _ => _ end) => destruct x eqn:?; walks known
  | |- _ => try solve [known]
  end.

#[export] Instance calm_walk {E : External} {L : ExternalLaws E} : Walk calm.
Proof. split; [apply _|]. intros. apply view_calm, Send_view. Qed.
Ltac calms := walks ltac:(auto with calm nocore).

(** *** The handlers *)

Section calm_handlers2.
Context {E : External} {L : ExternalLaws E}.

Lemma calm_HeartBeat sid w : calm w (exec (Handle_C2D_HeartBeat sid) w).
Proof. unfold Handle_C2D_HeartBeat. calms. Qed.
Lemma calm_RequestBlueprint sid w : calm w (exec (Handle_C2D_RequestBlueprint sid) w).
Proof. unfold Handle_C2D_RequestBlueprint. calms. Qed.
Lemma calm_RequestSpawnByObjectId oid sid w : calm w (exec (Handle_C2D_RequestSpawnByObjectId oid sid) w).
Proof. unfold Handle_C2D_RequestSpawnByObjectId. calms. Qed.
Lemma calm_apply_npc_state oid info w : calm w (exec (apply_npc_state oid info) w).
Proof. unfold apply_npc_state. calms. Qed.
#[local] Hint Resolve calm_apply_npc_state : calm.
Lemma calm_UpdatePlayerState st states sid w : calm w (exec (Handle_C2D_UpdatePlayerState st states sid) w).
Proof. unfold Handle_C2D_UpdatePlayerState. calms. Qed.
Lemma calm_RequestSpawnPlayerObjects sid w : calm w (exec (Handle_C2D_RequestSpawnPlayerObjects sid) w).
Proof. unfold Handle_C2D_RequestSpawnPlayerObjects. calms. Qed.
Lemma calm_RecentInventoryInfo oid sid w : calm w (exec (Handle_C2D_RequestRecentInventoryInfo oid sid) w).
Proof. unfold Handle_C2D_RequestRecentInventoryInfo. calms. Qed.
Lemma calm_SwitchWeapon t v sid w : calm w (exec (Handle_C2D_RequestSwitchWeapon t v sid) w).
Proof. unfold Handle_C2D_RequestSwitchWeapon, send_weapon_state. calms. Qed.
Lemma calm_BroadcastReloadSequence sid oid n w : calm w (exec (BroadcastReloadSequence sid oid n) w).
Proof. unfold BroadcastReloadSequence. calms. Qed.
#[local] Hint Resolve calm_BroadcastReloadSequence : calm.
Lemma calm_Reload v sid w : calm w (exec (Handle_C2D_RequestReload v sid) w).
Proof. unfold Handle_C2D_RequestReload. calms. Qed.
Lemma calm_NotifyReloadSequence n sid w : calm w (exec (Handle_C2D_NotifyReloadSequence n sid) w).
Proof. unfold Handle_C2D_NotifyReloadSequence. calms. Qed.

Lemma calm_notify_health h c r a w : calm w (exec (notify_health h c r a) w).
Proof. unfold notify_health. calms. Qed.
#[local] Hint Resolve calm_notify_health : calm.

Lemma calm_npc_request oid rule sid w : calm w (exec (npc_request oid rule sid) w).
Proof.
  unfold npc_request, ResolveHostileNpcRequest. calms.
Qed.
Lemma calm_ReportNpcAttack oid hit hp sid w : calm w (exec (Handle_C2D_ReportNpcAttack oid hit hp sid) w).
Proof. unfold Handle_C2D_ReportNpcAttack, ResolveHostileNpcRequest. calms. Qed.

(** Destroying an object that is no container frees none. *)
Lemma calm_DestroyDeadObject oid w :
  FindContainer oid (w_room w) = None -> calm w (exec (DestroyDeadObject oid) w).
Proof.
  intros Hno. unfold DestroyDeadObject, exec. destruct (_dynamicObjects (w_room w) !! oid) as [o|] eqn:Ho; [|reflexivity].
  set (w1 := w <| w_room ::= fun r => r <| _dynamicObjects ::= delete oid |> |>).
  assert (H1 : calm w w1).
  { assert (Hf : forall i, i <> oid -> FindNonplayerObject i (w_room w1) = FindNonplayerObject i (w_room w)).
    { intros i Hi. unfold FindNonplayerObject, w1. cbn [setf w_room _staticObjects _dynamicObjects].
      destruct (_ !! i); [done|]. by rewrite lookup_delete_ne. }
    assert (Hsub : forall i o', FindNonplayerObject i (w_room w1) = Some o' -> FindNonplayerObject i (w_room w) = Some o').
    { intros i o'. unfold FindNonplayerObject, w1. cbn [setf w_room _staticObjects _dynamicObjects].
      destruct (_ !! i); [done|]. intros H. destruct (decide (i = oid)) as [->|]; [by rewrite lookup_delete_eq in H|].
      by rewrite lookup_delete_ne in H. }
    constructor; try done.
    - intros sid s Hs. exists s. by split.
    - intros i. unfold occupant, FindContainer. destruct (decide (i = oid)) as [->|Hi]; [|by rewrite Hf].
      unfold FindContainer in Hno. rewrite Hno. destruct (FindNonplayerObject oid (w_room w1)) as [o'|] eqn:Hx; [|done].
      apply Hsub in Hx. rewrite Hx in Hno. cbn in *. by rewrite Hno.
    - intros i [o' Hx]. apply Hsub in Hx. by exists o'. }
  etrans; [exact H1|]. apply (walk_Broadcast calm).
Qed.

Lemma npc_no_container oid n r : FindNonplayerObject oid r = Some (GNpc n) -> FindContainer oid r = None.
Proof. intros H. unfold FindContainer. by rewrite H. Qed.

Lemma calm_no_container w w' oid : calm w w' -> FindContainer oid (w_room w) = None -> FindContainer oid (w_room w') = None.
Proof.
  intros Hc H. pose proof (cm_occupant _ _ Hc oid) as Ho. unfold occupant in Ho. rewrite H in Ho.
  by destruct (FindContainer oid (w_room w')).
Qed.

Lemma calm_hit_player oid d a p w : calm w (exec (hit_player oid d a p) w).
Proof. unfold hit_player. calms. Qed.
#[local] Hint Resolve calm_hit_player : calm.

Lemma calm_hit_npc oid d a soid n w :
  FindHostileNpc oid (w_room w) = Some n -> calm w (exec (hit_npc oid d a soid n) w).
Proof.
  intros Hn.
  assert (Hno : FindContainer oid (w_room w) = None).
  { unfold FindHostileNpc in Hn. destruct (FindNonplayerObject oid (w_room w)) as [[k|n']|] eqn:Ho; try done.
    by apply npc_no_container in Ho. }
  unfold hit_npc, exec. set (n1 := n <| n_combat ::= TakeDamage d a |>).
  fold (exec (upd_npc oid (fun _ => n1)) w). set (w1 := exec (upd_npc oid (fun _ => n1)) w).
  assert (H1 : calm w w1) by apply calm_upd_npc.
  match goal with |- context [DestroyDeadObject oid ?x] => set (w2 := x) end.
  assert (H2 : calm w w2).
  { etrans; [exact H1|]. unfold w2. destruct (FindSessionByObjectId _ _); [|reflexivity].
    destruct (_ !! _) as [hs|]; [|reflexivity]. destruct (IsInplay hs); [apply calm_notify_health|reflexivity]. }
  destruct (_deathPending (n_combat n1)).
  - etrans; [exact H2|]. apply calm_DestroyDeadObject. by apply (calm_no_container w).
  - destruct (ApplyDamageAuthority soid n1) as [result n2].
    etrans; [exact H2|]. set (w3 := snd (upd_npc oid (fun _ => n2) w2)).
    assert (H3 : calm w2 w3) by apply calm_upd_npc.
    destruct result; [exact H3|exact H3|]. etrans; [exact H3|]. apply (walk_NotifyNpcAuthority calm).
Qed.

Lemma calm_resolve_hit oid wid soid w : calm w (exec (resolve_hit oid wid soid) w).
Proof.
  unfold resolve_hit, exec. destruct (GetWeaponSpec wid); [|reflexivity].
  destruct (FindPlayerObject oid (w_room w)).
  - destruct (IsAlive _); [apply calm_hit_player|reflexivity].
  - destruct (FindHostileNpc oid (w_room w)) eqn:Hn; [|reflexivity].
    destruct (IsAlive _); [by apply calm_hit_npc|reflexivity].
Qed.
#[local] Hint Resolve calm_resolve_hit : calm.

Lemma calm_WeaponFire q wid hp hit sid w : calm w (exec (Handle_C2D_RequestWeaponFire q wid hp hit sid) w).
Proof. unfold Handle_C2D_RequestWeaponFire. calms. Qed.

(** *** Moving and equipping keep the occupant *)

Lemma Denied_bind_inr {A B} (m : Denied A) (f : A -> Denied B) x :
  m ≫= f = inr x -> exists a, m = inr a /\ f a = inr x.
Proof. destruct m; [done|]. intros H. by exists a. Qed.
Lemma require_inr b d x : require b d = inr x -> b = true.
Proof. by destruct b. Qed.

Lemma open_container_spec s r c k :
  open_container s r = inr (c, k) ->
  c = GetInteractingContainerId s /\ c <> -1 /\ FindContainer (u32 c) r = Some k /\ GetObjectId s <> -1 /\
  IsPlayerNearContainer (u32 (GetObjectId s)) (u32 c) r = true.
Proof.
  unfold open_container. intros ([] & H1%require_inr & H)%Denied_bind_inr.
  destruct (_pRoom s); [|done]. unfold FindContainer. destruct (_ ≫= as_container) as [k'|] eqn:Hk; [|done].
  apply Denied_bind_inr in H as ([] & H2%require_inr & H). apply Denied_bind_inr in H as ([] & H3%require_inr & H).
  injection H as <- <-. apply negb_true_iff, Z.eqb_neq in H1, H2. done.
Qed.

Definition bag_occupant (b : Bags) : option Z := _interactingPlayerId <$> b_cont b.

Lemma bag_occupant_write p s b : bag_occupant (write_slot p s b) = bag_occupant b.
Proof. destruct p, b as [inv [k|]]; done. Qed.

Lemma move_items_occupant t n p q b b1 : move_items t n p q b = inr b1 -> bag_occupant b1 = bag_occupant b.
Proof.
  unfold move_items. destruct (t =? 0); [|destruct (t =? 1)]; intros H;
    repeat (apply Denied_bind_inr in H as ([] & _ & H)); injection H as <-; by rewrite !bag_occupant_write.
Qed.

Lemma bump_versions_occupant x y b : bag_occupant (bump_versions x y b) = bag_occupant b.
Proof. destruct x, y, b as [inv [k|]]; done. Qed.

Lemma interact_occupant pkt s r c b m :
  interact pkt s r = inr (c, b, m) ->
  forall k', b_cont b = Some k' ->
  exists k, FindContainer (u32 c) r = Some k /\ _interactingPlayerId k' = _interactingPlayerId k.
Proof.
  unfold interact. intros ([] & _ & H)%Denied_bind_inr.
  apply Denied_bind_inr in H as ([c' cont] & Hopen & H).
  apply Denied_bind_inr in H as (p & _ & H). apply Denied_bind_inr in H as (q & _ & H).
  destruct p as [p|], q as [q|]; try done.
  apply Denied_bind_inr in H as ([] & _ & H). apply Denied_bind_inr in H as ([] & _ & H).
  apply Denied_bind_inr in H as (b1 & Hm & H). injection H as <- <- _. intros k' Hk'.
  assert (Ho : bag_occupant (mk_bags (GetInventory s) cont) = Some (_interactingPlayerId k')).
  { rewrite <- (move_items_occupant _ _ _ _ _ _ Hm). erewrite <- bump_versions_occupant.
    unfold bag_occupant. by rewrite Hk'. }
  destruct (negb _ || negb _); [|injection Hopen as <- <-; done].
  apply Denied_bind_inr in Hopen as ([c2 k] & Hopen & H). injection H as <- <-.
  apply open_container_spec in Hopen as (_ & _ & Hf & _). exists k. split; [done|].
  unfold bag_occupant in Ho. cbn in Ho. congruence.
Qed.

Lemma calm_store_bags sid c b w :
  (forall k', b_cont b = Some k' ->
     exists k, FindContainer (u32 c) (w_room w) = Some k /\ _interactingPlayerId k' = _interactingPlayerId k) ->
  calm w (exec (store_bags sid c b) w).
Proof.
  intros Hb. unfold store_bags. apply (walk_bind calm); [apply calm_upd_bland, _|]. destruct (b_cont b) as [k'|]; [|reflexivity].
  destruct (Hb k' eq_refl) as (k & Hk & Heq). apply calm_upd_container. intros k2 Hk2.
  change (FindContainer (u32 c) (w_room w) = Some k2) in Hk2. congruence.
Qed.

Lemma calm_Interact pkt sid w : calm w (exec (Handle_C2D_RequestInteractContainerObject pkt sid) w).
Proof.
  unfold Handle_C2D_RequestInteractContainerObject. apply (walk_active calm). intros s Hs _.
  unfold exec. destruct (interact pkt s (w_room w)) as [d|[[c b] m]] eqn:Hi; refold.
  - calms.
  - rewrite exec_bind. etrans; [apply (calm_store_bags sid c b w), (interact_occupant _ _ _ _ _ _ Hi)|]. calms.
Qed.

Lemma resolve_equip_spec pkt s r ref c k i :
  resolve_equip pkt s r = inr (ref, Some (c, k, i)) -> FindContainer (u32 c) r = Some k.
Proof.
  unfold resolve_equip. destruct (_ =? _).
  - intros ([] & _ & H)%Denied_bind_inr. by destruct (GetSlotMutable _).
  - intros ([] & _ & H)%Denied_bind_inr. apply Denied_bind_inr in H as ([] & _ & H).
    apply Denied_bind_inr in H as ([c2 k2] & Hopen & H). apply Denied_bind_inr in H as ([] & _ & H).
    destruct (GetContainerSlot _ _); [|done]. apply Denied_bind_inr in H as ([] & _ & H). injection H as _ <- <- _.
    by apply open_container_spec in Hopen as (_ & _ & ? & _).
Qed.

Lemma calm_show_equipment sid t w : calm w (exec (show_equipment sid t) w).
Proof. unfold show_equipment. calms. Qed.
#[local] Hint Resolve calm_show_equipment : calm.

Lemma calm_Equip pkt sid w : calm w (exec (Handle_C2D_RequestEquipItem pkt sid) w).
Proof.
  unfold Handle_C2D_RequestEquipItem. apply (walk_active calm). intros s Hs _. unfold exec.
  destruct (1 <? _); [refold; calms|]. destruct (2 <? _); [refold; calms|].
  destruct (resolve_equip pkt s (w_room w)) as [d|[ref cont]] eqn:Hr; [refold; calms|].
  destruct (equip_operation _ _ _ _) as [[[ok d] u] e].
  assert (Hst : forall w', w_room w' = w_room w -> calm w' (exec (_ ← upd_session sid (update_inventory (fun _ => e_inv e));
          match cont with
          | Some (c, k, i) => upd_container (u32 c) (fun _ => put_back k i (e_ext e) ok)
          | None => mret tt
          end) w')).
  { intros w' Hw'. apply (walk_bind calm); [apply calm_upd_bland, _|]. destruct cont as [[[c k] i]|]; [|reflexivity].
    apply calm_upd_container. intros k2 Hk2. apply resolve_equip_spec in Hr.
    change (FindContainer (u32 c) (w_room w') = Some k2) in Hk2. rewrite Hw' in Hk2.
    assert (k2 = k) as -> by congruence. by destruct ok. }
  destruct (negb ok); refold; rewrite exec_bind; (etrans; [by apply Hst|]); calms.
Qed.

Lemma calm_state_change sid st w s0 :
  own sid w = Some s0 -> _sessionState s0 <> SS_SPECTATING -> _sessionState s0 <> SS_LEFT ->
  forall g, (forall s, session_uid (g s) = session_uid s /\ GetObjectId (g s) = GetObjectId s /\
    GetInteractingContainerId (g s) = GetInteractingContainerId s /\ s_leave (g s) = s_leave s) ->
  calm w (exec (upd_session sid (fun s => SetSessionState st (g s))) w).
Proof.
  intros Ho H1 H2 g Hg. apply calm_upd_session. intros s Hs.
  assert (Hst : _sessionState s = _sessionState s0).
  { unfold own in Ho. rewrite Hs in Ho. by injection Ho as <-. }
  destruct (Hg s) as (G1 & G2 & G3 & G4). constructor; try done; try (cbn; by rewrite G4).
  intros Hgone H. change (2 <= leave_rank (_leaveState (s_leave (g s)))) in H. rewrite G4 in H.
  destruct (Hgone H) as (_ & _ & _ & Hx). change (_sessionState (strip s)) with (_sessionState s) in Hx.
  rewrite Hst in Hx. by destruct (_ && _).
Qed.

Lemma calm_ChannelOpen echo addr sid w : calm w (exec (Handle_C2D_ChannelOpen echo addr sid) w).
Proof.
  unfold Handle_C2D_ChannelOpen, exec. destruct (_playerSessions (w_room w) !! sid) as [s|] eqn:Hs; [|reflexivity].
  refold. apply (walk_bind calm); [|calms]. case_bool_decide as Hst; [|reflexivity].
  assert (Ho : own sid w = Some (strip s)) by (unfold own, sess; by rewrite Hs).
  by apply (calm_state_change sid SS_CONNECTED w (strip s) Ho); cbn; rewrite ?Hst.
Qed.

Lemma calm_LoadingComplete sid w : calm w (exec (Handle_C2D_NotifyLoadingComplete sid) w).
Proof.
  unfold Handle_C2D_NotifyLoadingComplete, exec. destruct (_playerSessions (w_room w) !! sid) as [s|] eqn:Hs; [|reflexivity].
  case_bool_decide as Hst; [|reflexivity]. cbn [negb]. refold. apply (walk_bind calm); [|reflexivity].
  assert (Ho : own sid w = Some (strip s)) by (unfold own, sess; by rewrite Hs).
  by apply (calm_state_change sid SS_INPLAY w (strip s) Ho) with (g := fun s => s); cbn; rewrite ?Hst.
Qed.

(** *** Recall *)

Lemma calm_EndRecall sid w : calm w (exec (upd_session sid EndRecall) w).
Proof.
  apply calm_upd_session. intros s _. constructor; try done. intros Hg H. destruct (Hg H) as (? & ? & _ & ?). by split_and!.
Qed.

Lemma calm_CancelRecall sid i r w : calm w (exec (CancelRecall sid i r) w).
Proof.
  unfold CancelRecall, exec at 1. set (w1 := exec (upd_session sid EndRecall) w).
  assert (H1 : calm w w1) by apply calm_EndRecall. destruct (_ !! sid) as [s|]; [|exact H1].
  destruct (negb _); [exact H1|]. cbn [snd]. etrans; [exact H1|]. unfold SendRecallResult. calms.
Qed.

(** An active session has not been detached. *)
Lemma active_early s : session_inv s -> IsActiveState s = true -> leave_rank (_leaveState (s_leave s)) < 2.
Proof.
  intros [_ Hg] Ha. destruct (Z.lt_ge_cases (leave_rank (_leaveState (s_leave s))) 2); [done|].
  by rewrite (gone_inactive s Hg) in Ha.
Qed.

Lemma calm_early sid f w s0 :
  own sid w = Some s0 -> leave_rank (_leaveState (s_leave s0)) < 2 ->
  (forall s, session_uid (f s) = session_uid s /\ GetObjectId (f s) = GetObjectId s /\
    GetInteractingContainerId (f s) = GetInteractingContainerId s /\ s_leave (f s) = s_leave s) ->
  calm w (exec (upd_session sid f) w).
Proof.
  intros (s1 & Hs1 & ->)%own_Some Hr Hf. apply calm_upd_session. intros s Hs.
  assert (s = s1) as -> by congruence. destruct (Hf s1) as (H1 & H2 & H3 & H4).
  constructor; try done; try (cbn; by rewrite H4). intros _ H.
  change (2 <= leave_rank (_leaveState (s_leave (f s1)))) in H. rewrite H4 in H. cbn in Hr. lia.
Qed.

Lemma BeginRecall_frame i s :
  let s' := exec (BeginRecall i) s in
  session_uid s' = session_uid s /\ GetObjectId s' = GetObjectId s /\
  GetInteractingContainerId s' = GetInteractingContainerId s /\ s_leave s' = s_leave s.
Proof. unfold BeginRecall, exec. by destruct (_isRecalling _). Qed.

Lemma calm_RequestRecall i sid w : calm w (exec (Handle_C2D_RequestRecall i sid) w).
Proof.
  unfold Handle_C2D_RequestRecall. apply (walk_active calm). intros s Hs _. destruct (IsLeaving s) eqn:Hl; [reflexivity|].
  apply (walk_with_object calm). intros _. apply (walk_with_room calm), (walk_with_player calm). intros p _. unfold exec.
  destruct (_isRecalling _); [reflexivity|]. cbn zeta. refold. apply (walk_bind calm); [apply walk_Send|].
  destruct (negb _); [reflexivity|]. set (w1 := exec (Send _ _) w).
  assert (Ho : own sid w1 = Some (strip s)).
  { unfold w1. rewrite (view_own _ _ _ (Send_view sid _ w)). unfold own. by rewrite Hs. }
  apply (walk_bind calm); [|unfold ScheduleRecallTick; calms; apply calm_emit; done].
  apply (calm_early sid _ _ (strip s)); [done| |intros; apply BeginRecall_frame].
  unfold IsLeaving in Hl. apply negb_false_iff, bool_decide_eq_true in Hl. cbn. rewrite Hl. cbn. lia.
Qed.

(** The timer's callback ends calmly, but for a recall that succeeds. *)
Lemma RecallTick_calm sid uid g w :
  calm w (exec (RecallTick sid uid g) w) \/
  exists w1 n, calm w w1 /\ exec (RecallTick sid uid g) w = exec (mark_leaving sid LR_RECALLED n) w1.
Proof.
  unfold RecallTick, exec at 1 4. destruct (_playerSessions (w_room w) !! sid) as [s|] eqn:Hs; [|left; reflexivity].
  destruct (_ || _); [left; reflexivity|]. destruct (negb _); [left; reflexivity|].
  destruct (recall_obstacle s (w_room w)); [left; apply calm_CancelRecall|].
  destruct (AddRecallPass s) as [passes s1] eqn:Hp. set (w1 := exec (upd_session sid (fun _ => s1)) w).
  assert (H1 : calm w w1).
  { apply calm_upd_session. intros s' Hs'. unfold sess in Hs'. assert (s' = s) as -> by congruence.
    injection Hp as <- <-. constructor; done. }
  destruct (_ <? _).
  - left. etrans; [exact H1|]. apply calm_emit; done.
  - right. refold. rewrite !exec_bind. set (w2 := exec (upd_session sid EndRecall) w1).
    assert (H2 : calm w1 w2) by apply calm_EndRecall.
    match goal with |- context [SendRecallResult ?a ?b ?c ?d] => set (m := SendRecallResult a b c d) end.
    exists (exec m w2), (eval m w2). split; [|done]. etrans; [exact H1|]. etrans; [exact H2|].
    unfold m, SendRecallResult. calms.
Qed.

(** *** The updates *)

Lemma calm_RegenPlayerShields w : calm w (exec RegenPlayerShields w).
Proof.
  unfold RegenPlayerShields, exec. destruct (_ =? 0); (constructor; try done; intros sid s Hs; exists s; by split).
Qed.
Lemma calm_BroadcastPlayerStates w : calm w (exec BroadcastPlayerStates w).
Proof. unfold BroadcastPlayerStates, exec. case_decide; [reflexivity|]. apply (walk_Broadcast calm). Qed.
Lemma calm_Update w : calm w (exec Update w).
Proof. unfold Update. apply (walk_bind calm); [apply calm_RegenPlayerShields|apply calm_BroadcastPlayerStates]. Qed.
Lemma calm_UpdateNpcStates w : calm w (exec UpdateNpcStates w).
Proof. unfold UpdateNpcStates, exec. destruct (npc_states _); [reflexivity|]. apply (walk_Broadcast calm). Qed.
Lemma calm_Retransmit sid w : calm w (exec (Retransmit sid) w).
Proof. apply view_calm, Retransmit_view. Qed.
Lemma calm_wait ms w : calm w (wait ms w).
Proof. constructor; try done. intros sid s Hs. exists s. by split. Qed.
End calm_handlers2.
