(* ===== verification/Safety.v ===== *)
(** * Safety of a room over its whole life

    The steps that are not calm (opening and closing containers, spawning, the
    departures), the invariants over whole runs, and what follows for every run: the
    main process hears of every departure exactly once, the room's destruction is
    reserved once, detached players are powerless, and a container has one user at a
    time. *)

From S2P Require Import Prelude Items Inventory Transport Geometry MapData Combat Container Buffers Protocol Session Room Handlers Calm.
From stdpp Require Import strings.
Local Open Scope Z_scope.
#[local] Set Warnings "-clear-no-such-hyp".

(** ** Departures: [soft] steps *)

(** What the invariants of departures need of a step. *)
Record soft_session (s s' : PlayerSession) : Prop := {
  so_uid : session_uid s' = session_uid s;
  so_inv : session_inv s -> session_inv s';
  so_heard : forall l, heard s l -> heard s' l;
  so_early : leave_rank (_leaveState (s_leave s)) < 2 -> leave_rank (_leaveState (s_leave s')) < 2;
  so_final : is_finalized s = true -> is_finalized s' = true }.
Record soft (w w' : World) : Prop := {
  sf_told : forall uid, told uid (w_out w') = told uid (w_out w);
  sf_reserves : reserves (w_out w') = reserves (w_out w);
  sf_reported : _allLeftReported (w_room w') = _allLeftReported (w_room w);
  sf_id : _roomId (w_room w') = _roomId (w_room w);
  sf_none : forall sid, own sid w = None -> own sid w' = None;
  sf_some : forall sid s, own sid w = Some s -> exists s', own sid w' = Some s' /\ soft_session s s' }.

#[export] Instance soft_session_preorder : PreOrder soft_session.
Proof. split; [by constructor|]. intros s1 s2 s3 [] []. constructor; auto; congruence. Qed.
#[export] Instance soft_preorder : PreOrder soft.
Proof.
  split.
  - intros w. constructor; try done. intros sid s Hs. exists s. by split.
  - intros w1 w2 w3 [] []. constructor; try congruence; auto.
    intros sid s Hs. destruct (sf_some0 _ _ Hs) as (s' & Hs' & H1). destruct (sf_some1 _ _ Hs') as (s'' & Hs'' & H2).
    exists s''. split; [done|]. by etrans.
Qed.

Lemma soft_back w w' sid s' : soft w w' -> own sid w' = Some s' ->
  exists s, own sid w = Some s /\ soft_session s s'.
Proof.
  intros [] Hs'. destruct (own sid w) as [s|] eqn:Hs; [|rewrite sf_none0 in Hs'; done].
  destruct (sf_some0 _ _ Hs) as (s2 & Hs2 & H). simplify_eq. eauto.
Qed.

Lemma calm_soft w w' : calm w w' -> soft w w'.
Proof.
  intros []. constructor; try done. intros sid s Hs. destruct (cm_some _ _ Hs) as (s' & Hs' & C). exists s'. split; [done|].
  constructor; [apply C|by apply calm_session_inv| | |].
  - intros l. by apply calm_heard.
  - by rewrite (cs_state _ _ C).
  - unfold is_finalized. by rewrite (cs_state _ _ C).
Qed.

(** The part of [room_inv] that is about departures. *)
Record leave_inv (w : World) : Prop := {
  li_uids : uids_distinct w;
  li_sessions : sessions_inv w;
  li_heard : forall sid s, own sid w = Some s -> heard s (w_out w);
  li_report : report_ok w }.

Lemma leave_inv_ids w : room_inv w <-> leave_inv w /\ ids_ok w.
Proof. split; [intros []; split; [by constructor|done]|intros [[] ?]; by constructor]. Qed.

Lemma soft_leave_inv w w' : soft w w' -> leave_inv w -> leave_inv w'.
Proof.
  intros Hc []. pose proof (fun sid s' => soft_back w w' sid s' Hc) as Hback. constructor.
  - intros sid1 sid2 s1 s2 H1 H2 Heq. destruct (Hback _ _ H1) as (t1 & Ht1 & C1), (Hback _ _ H2) as (t2 & Ht2 & C2).
    apply (li_uids0 sid1 sid2 t1 t2); [done..|]. by rewrite <- (so_uid _ _ C1), <- (so_uid _ _ C2).
  - intros sid s' H. destruct (Hback _ _ H) as (s & Hs & C). apply (so_inv _ _ C). eauto.
  - intros sid s' H. destruct (Hback _ _ H) as (s & Hs & C). apply (so_heard _ _ C).
    pose proof (li_heard0 _ _ Hs) as Hh. unfold heard in *. by rewrite (sf_told _ _ Hc).
  - unfold report_ok in *. rewrite (sf_reported _ _ Hc), (sf_reserves _ _ Hc), (sf_id _ _ Hc).
    destruct (_allLeftReported (w_room w)); [|done]. destruct li_report0 as [H1 H2]. split; [done|].
    intros sid s' H. destruct (Hback _ _ H) as (s & Hs & C). apply (so_final _ _ C). by apply (H2 sid).
Qed.

(** One session changed: its invariant may not be lost while its departure stands still. *)
Lemma soft_upd_session sid f w :
  (forall s, sess w !! sid = Some s -> session_uid (f s) = session_uid s /\
     (session_inv (strip s) -> session_inv (strip (f s))) /\
     (leave_rank (_leaveState (s_leave s)) < 2 -> leave_rank (_leaveState (s_leave (f s))) < 2) /\
     (2 <= leave_rank (_leaveState (s_leave s)) -> s_leave (f s) = s_leave s)) ->
  soft w (exec (upd_session sid f) w).
Proof.
  intros Hf. destruct (sess w !! sid) as [s0|] eqn:Hs0; [|rewrite upd_session_absent by done; reflexivity].
  destruct (Hf s0 eq_refl) as (H1 & H2 & H3 & H4).
  assert (Ho : own sid (exec (upd_session sid f) w) = Some (strip (f s0))).
  { unfold own, sess, exec, upd_session, upd_room, modify. cbn [setf snd w_room _playerSessions].
    rewrite lookup_alter_eq. unfold sess in Hs0. by rewrite Hs0. }
  constructor; try done.
  - intros sid' H. destruct (decide (sid = sid')) as [<-|]; [|by rewrite own_upd_session_ne].
    unfold own in H. by rewrite Hs0 in H.
  - intros sid' s H. destruct (decide (sid = sid')) as [<-|]; [|exists s; rewrite own_upd_session_ne by done; by split].
    exists (strip (f s0)). split; [done|]. unfold own in H. rewrite Hs0 in H. injection H as <-.
    constructor; [done|done| |done|].
    + intros l. unfold heard. change (session_uid (strip ?x)) with (session_uid x).
      change (s_leave (strip ?x)) with (s_leave x). rewrite H1.
      destruct (Z.leb_spec 2 (leave_rank (_leaveState (s_leave s0)))) as [Hr|Hr].
      * rewrite (H4 Hr). apply Z.leb_le in Hr. by rewrite Hr.
      * specialize (H3 Hr). destruct (Z.leb_spec 2 (leave_rank (_leaveState (s_leave (f s0))))); [lia|done].
    + unfold is_finalized. change (s_leave (strip ?x)) with (s_leave x). intros Hfin.
      rewrite H4; [done|]. apply bool_decide_eq_true in Hfin. rewrite Hfin. simpl. lia.
Qed.

(** ** Object ids and open containers: [still] steps and their bookkeeping *)

Record still_session (s s' : PlayerSession) : Prop := {
  ss_oid : GetObjectId s' = GetObjectId s;
  ss_container : GetInteractingContainerId s' = GetInteractingContainerId s }.
Record still (w w' : World) : Prop := {
  st_nxt : nxt w' = nxt w;
  st_none : forall sid, own sid w = None -> own sid w' = None;
  st_some : forall sid s, own sid w = Some s -> exists s', own sid w' = Some s' /\ still_session s s';
  st_occupant : forall oid, occupant oid w' = occupant oid w;
  st_things : forall oid, is_thing oid w' -> is_thing oid w }.

(** [adv k P]: a step that hands out at most [k] object ids keeps the ids right, and
    the open containers too when [P]. *)
Definition adv (k : Z) (P : Prop) (w w' : World) : Prop :=
  ids_ok w -> nxt w + k < 2 ^ 31 ->
  ids_ok w' /\ nxt w <= nxt w' <= nxt w + k /\ (P -> hold_inv w -> hold_inv w').

Lemma calm_still w w' : calm w w' -> still w w'.
Proof.
  intros []. constructor; try done. intros sid s Hs. destruct (cm_some _ _ Hs) as (s' & Hs' & C). exists s'. split; [done|].
  constructor; apply C.
Qed.
#[export] Instance still_preorder : PreOrder still.
Proof.
  split.
  - intros w. constructor; try done. intros sid s Hs. by exists s.
  - intros w1 w2 w3 [] []. constructor; try congruence; auto. intros sid s Hs.
    destruct (st_some0 _ _ Hs) as (s' & Hs' & [E1 E2]). destruct (st_some1 _ _ Hs') as (s'' & Hs'' & [E3 E4]).
    exists s''. split; [done|]. constructor; congruence.
Qed.

Lemma still_adv w w' P : still w w' -> adv 0 P w w'.
Proof.
  intros Hc Hi Hb. destruct Hi.
  assert (Hback : forall sid s', own sid w' = Some s' -> exists s, own sid w = Some s /\ still_session s s').
  { intros sid s' Hs'. destruct (own sid w) as [s|] eqn:Hs; [|rewrite (st_none _ _ Hc) in Hs'; done].
    destruct (st_some _ _ Hc _ _ Hs) as (s2 & Hs2 & H). simplify_eq. eauto. }
  split_and!; rewrite ?(st_nxt _ _ Hc); [constructor|lia|lia|]; rewrite ?(st_nxt _ _ Hc).
  - done.
  - intros i Hx. by apply io_things, (st_things _ _ Hc).
  - intros sid s' H. destruct (Hback _ _ H) as (s & Hs & [-> _]). eauto.
  - intros sid1 sid2 s1 s2 H1 H2. destruct (Hback _ _ H1) as (t1 & Ht1 & [-> _]), (Hback _ _ H2) as (t2 & Ht2 & [-> _]).
    by apply io_distinct.
  - intros _ Hh sid s' H. destruct (Hback _ _ H) as (s & Hs & [-> ->]). rewrite (st_occupant _ _ Hc). by apply (Hh sid).
Qed.

Lemma adv_trans k1 k2 P1 P2 w w1 w2 : 0 <= k1 -> 0 <= k2 ->
  adv k1 P1 w w1 -> adv k2 P2 w1 w2 -> adv (k1 + k2) (P1 /\ P2) w w2.
Proof.
  intros ? ? H1 H2 Hi Hb. destruct (H1 Hi ltac:(lia)) as (Hi1 & Hn1 & Hh1).
  destruct (H2 Hi1 ltac:(lia)) as (Hi2 & Hn2 & Hh2). split_and!; [done|lia|lia|]. intros [? ?] ?. auto.
Qed.
Lemma adv_0 P w w1 w2 k : 0 <= k -> adv 0 P w w1 -> adv k P w1 w2 -> adv k P w w2.
Proof.
  intros Hk H1 H2 Hi Hb. destruct (adv_trans 0 k P P w w1 w2 ltac:(lia) Hk H1 H2 Hi ltac:(lia)) as (? & ? & ?).
  split_and!; [done|lia|lia|auto].
Qed.
Lemma adv_mono k k' P w w' : k <= k' -> adv k P w w' -> adv k' P w w'.
Proof. intros Hk H Hi Hb. destruct (H Hi ltac:(lia)) as (? & ? & ?). split_and!; [done|lia|lia|done]. Qed.
Lemma adv_seq k P w w1 w2 : 0 <= k -> adv k P w w1 -> adv 0 P w1 w2 -> adv k P w w2.
Proof.
  intros Hk H1 H2 Hi Hb. destruct (adv_trans k 0 P P w w1 w2 Hk ltac:(lia) H1 H2 Hi ltac:(lia)) as (? & ? & ?).
  split_and!; [done|lia|lia|auto].
Qed.

(** Functions of a session that change neither its object nor its container. *)
Lemma still_upd_session sid f w :
  (forall s, sess w !! sid = Some s -> GetObjectId (f s) = GetObjectId s /\
     GetInteractingContainerId (f s) = GetInteractingContainerId s) ->
  still w (exec (upd_session sid f) w).
Proof.
  intros Hf. destruct (sess w !! sid) as [s0|] eqn:Hs0; [|rewrite upd_session_absent by done; reflexivity].
  assert (Ho : own sid (exec (upd_session sid f) w) = Some (strip (f s0))).
  { unfold own, sess, exec, upd_session, upd_room, modify. cbn [setf snd w_room _playerSessions].
    rewrite lookup_alter_eq. unfold sess in Hs0. by rewrite Hs0. }
  destruct (Hf s0 eq_refl) as [H1 H2]. constructor; try done.
  - intros sid' H. destruct (decide (sid = sid')) as [<-|]; [|by rewrite own_upd_session_ne].
    unfold own in H. by rewrite Hs0 in H.
  - intros sid' s H. destruct (decide (sid = sid')) as [<-|]; [|exists s; rewrite own_upd_session_ne by done; by split].
    exists (strip (f s0)). split; [done|]. unfold own in H. rewrite Hs0 in H. by injection H as <-.
Qed.

Lemma MarkLeaving_still r n now s :
  GetObjectId (MarkLeaving r n now s) = GetObjectId s /\
  GetInteractingContainerId (MarkLeaving r n now s) = GetInteractingContainerId s.
Proof. unfold GetObjectId, GetInteractingContainerId. by destruct (MarkLeaving_frame r n now s) as [-> _]. Qed.

Lemma mark_leaving_still sid r n w : still w (exec (mark_leaving sid r n) w).
Proof. apply (still_upd_session sid (MarkLeaving r n (w_now w))). intros. apply MarkLeaving_still. Qed.

(** Marking a session that its client asked to leave. *)
Lemma mark_leaving_soft sid r n w : r <> LR_NONE -> soft w (exec (mark_leaving sid r n) w).
Proof.
  intros Hr. apply (soft_upd_session sid (MarkLeaving r n (w_now w))). intros s _.
  destruct (MarkLeaving_frame r n (w_now w) s) as (Hp & _ & _ & Hrc & _ & _ & Hn & _).
  destruct (MarkLeaving_reason r n (w_now w) s Hr) as [Hr' Hs'].
  assert (Hlt : leave_rank (_leaveState (s_leave s)) < 2 ->
    leave_rank (_leaveState (s_leave (MarkLeaving r n (w_now w) s))) < 2).
  { rewrite Hs'. destruct (_leaveState (s_leave s)); simpl; lia. }
  split_and!.
  - unfold session_uid. by rewrite Hp.
  - intros [Hl Hg]. destruct (Z.lt_ge_cases (leave_rank (_leaveState (s_leave s))) 2) as [Hlo|Hhi].
    + split.
      * pose proof (leave_op_step (OpMark r n (w_now w)) (strip s) Hl) as Hstep. cbn in Hstep.
        destruct Hstep as [Hok _ _ _ _]. by rewrite <- channelless in Hok.
      * intros H. specialize (Hlt Hlo). change (s_leave (strip ?x)) with (s_leave x) in H. lia.
    + rewrite MarkLeaving_late by done. by split.
  - done.
  - intros Hhi. by rewrite MarkLeaving_late.
Qed.

(** *** Opening and closing *)

Lemma ids_u32 w sid1 sid2 s1 s2 :
  ids_ok w -> own sid1 w = Some s1 -> own sid2 w = Some s2 -> GetObjectId s1 <> -1 ->
  u32 (GetObjectId s1) = u32 (GetObjectId s2) -> sid1 = sid2.
Proof.
  intros [Hn _ Hr Hd] H1 H2 Hne Heq. apply (Hd sid1 sid2 s1 s2); [done|done| |done].
  pose proof (Hr _ _ H1). pose proof (Hr _ _ H2). clear -Hn Hne Heq H H0. width.
Qed.

Lemma occupant_upd_container oid f w i :
  occupant i (exec (upd_container oid f) w) =
  if decide (i = oid) then (fun k => _interactingPlayerId (f k)) <$> FindContainer oid (w_room w) else occupant i w.
Proof.
  unfold occupant, FindContainer, upd_container. rewrite find_upd_nonplayer. case_decide as Hi; [subst i|done].
  by destruct (FindNonplayerObject oid (w_room w)) as [[]|].
Qed.

Lemma thing_upd_nonplayer oid f w i : is_thing i (exec (upd_nonplayer oid f) w) <-> is_thing i w.
Proof. unfold is_thing. rewrite find_upd_nonplayer. case_decide as Hi; [subst i; by rewrite fmap_is_Some|done]. Qed.
Lemma nxt_upd_nonplayer oid f w : nxt (exec (upd_nonplayer oid f) w) = nxt w.
Proof. apply (upd_nonplayer_dom oid f w 0). Qed.

(** A change of containers only. *)
Lemma ids_upd_container oid f w : ids_ok w -> ids_ok (exec (upd_container oid f) w).
Proof.
  intros []. unfold upd_container. destruct (folk_rest _ _ (upd_nonplayer_folk oid (on_container f) w)) as (_ & _ & _ & _ & H5).
  constructor; rewrite ?nxt_upd_nonplayer.
  - done.
  - intros i. rewrite thing_upd_nonplayer. auto.
  - intros sid s. rewrite H5. eauto.
  - intros sid1 sid2 s1 s2. rewrite !H5. apply io_distinct.
Qed.

(** A session without a container may lose its object. *)
Lemma adv_upd_session sid f w P :
  (forall s, sess w !! sid = Some s -> (GetObjectId (f s) = GetObjectId s \/ GetObjectId (f s) = -1) /\
     GetInteractingContainerId (f s) = -1) ->
  adv 0 P w (exec (upd_session sid f) w).
Proof.
  intros Hf [Hn Ht Hr Hd] Hb. set (w' := exec (upd_session sid f) w). change (nxt w') with (nxt w).
  assert (Hback : forall sid' s', own sid' w' = Some s' -> exists s, own sid' w = Some s /\
    (GetObjectId s' = GetObjectId s \/ GetObjectId s' = -1) /\
    (GetInteractingContainerId s' <> -1 -> s' = s)).
  { intros sid' s' Hs'. destruct (decide (sid = sid')) as [<-|Hne].
    - unfold own, sess, w', exec, upd_session, upd_room, modify in Hs'. cbn [setf snd w_room _playerSessions] in Hs'.
      rewrite lookup_alter_eq in Hs'. destruct (_playerSessions (w_room w) !! sid) as [s|] eqn:Hs; [|done].
      injection Hs' as <-. destruct (Hf s Hs) as [H1 H2]. exists (strip s). unfold own, sess. rewrite Hs. by split_and!.
    - unfold w' in Hs'. rewrite own_upd_session_ne in Hs' by done. exists s'. split_and!; auto. }
  split_and!; [constructor|lia|lia|].
  - done.
  - exact Ht.
  - intros sid' s' H. destruct (Hback _ _ H) as (s & Hs & [E|E] & _); [rewrite E; eauto|by left].
  - intros sid1 sid2 s1 s2 H1 H2 Heq Hne. destruct (Hback _ _ H1) as (t1 & Ht1 & [E1|E1] & _); [|congruence].
    destruct (Hback _ _ H2) as (t2 & Ht2 & [E2|E2] & _); [|congruence]. apply (Hd sid1 sid2 t1 t2); congruence.
  - intros _ Hh sid' s' H Hc. destruct (Hback _ _ H) as (s & Hs & _ & E). specialize (E Hc). subst s'. by apply (Hh sid' s).
Qed.

Lemma adv_unhold sid w P : adv 0 P w (exec (upd_session sid (SetInteractingContainerId (-1))) w).
Proof. apply adv_upd_session. intros s _. split; [by left|done]. Qed.

Lemma own_unhold sid w s :
  own sid (exec (upd_session sid (SetInteractingContainerId (-1))) w) = Some s -> GetInteractingContainerId s = -1.
Proof. rewrite own_upd_session_eq by apply _. destruct (own sid w); [|done]. by intros [= <-]. Qed.

Lemma adv_release sid w P : adv 0 P w (exec (ReleaseInteractingContainer sid) w).
Proof.
  unfold ReleaseInteractingContainer, exec. destruct (_playerSessions (w_room w) !! sid) as [s|] eqn:Hs; [|apply still_adv; reflexivity].
  set (c := GetInteractingContainerId s). set (w1 := snd (upd_session sid (SetInteractingContainerId (-1)) w)).
  assert (H1 : adv 0 P w w1) by apply adv_unhold.
  destruct (c =? -1); [exact H1|]. destruct (FindContainer (u32 c) (w_room w1)) as [k|] eqn:Hk; [|exact H1].
  destruct (Z.eqb_spec (_interactingPlayerId k) (u32 (GetObjectId s))) as [Heq|]; [|exact H1]. cbn [negb].
  eapply adv_seq; [done|exact H1|]. intros Hi Hb. set (w2 := snd _).
  assert (Ho1 : own sid w1 = Some (SetInteractingContainerId (-1) (strip s))).
  { change w1 with (exec (upd_session sid (SetInteractingContainerId (-1))) w).
    rewrite own_upd_session_eq by apply _. unfold own, sess. by rewrite Hs. }
  assert (H5 : forall sid, own sid w2 = own sid w1)
    by (apply (folk_rest _ _ (upd_nonplayer_folk (u32 c) _ w1))).
  split_and!.
  - by apply ids_upd_container.
  - unfold w2. change (snd (upd_container ?a ?b ?c)) with (exec (upd_container a b) c).
    unfold upd_container. rewrite nxt_upd_nonplayer. lia.
  - unfold w2. change (snd (upd_container ?a ?b ?c)) with (exec (upd_container a b) c).
    unfold upd_container. rewrite nxt_upd_nonplayer. lia.
  - intros _ Hh sid' s' Hs' Hne. rewrite H5 in Hs'. destruct (Hh _ _ Hs' Hne) as [Hoid Hocc]. split; [done|].
    unfold w2. change (snd (upd_container ?a ?b ?c)) with (exec (upd_container a b) c).
    rewrite occupant_upd_container. case_decide as Hi'; [|done]. exfalso.
    rewrite Hi' in Hocc. unfold occupant in Hocc. rewrite Hk in Hocc. injection Hocc as Hocc.
    assert (sid' = sid) as ->.
    { apply (ids_u32 w1 sid' sid s' _ Hi Hs' Ho1 Hoid). rewrite <- Hocc. exact Heq. }
    rewrite Ho1 in Hs'. injection Hs' as <-. by apply Hne.
Qed.

Lemma release_own sid w s' :
  own sid (exec (ReleaseInteractingContainer sid) w) = Some s' -> GetInteractingContainerId s' = -1.
Proof. rewrite (folk_own _ _ sid (ReleaseInteractingContainer_spec sid w)). apply own_unhold. Qed.

Section opening.
Context {E : External} {L : ExternalLaws E}.

Lemma evict_own h w sid : own sid (exec (evict_holder h) w) =
  (if decide (FindSessionByObjectId (i32 h) (w_room w) = Some sid)
   then SetInteractingContainerId (-1) <$> own sid w else own sid w).
Proof.
  unfold evict_holder, exec. destruct (FindSessionByObjectId _ _) as [h'|]; case_decide as Hd; try done; simplify_eq.
  - by rewrite <- (own_upd_session_eq sid) by apply _.
  - apply own_upd_session_ne. congruence.
Qed.
Lemma evict_occupant h w i : occupant i (exec (evict_holder h) w) = occupant i w.
Proof. unfold evict_holder, exec. by destruct (FindSessionByObjectId _ _). Qed.
Lemma adv_evict h w P : adv 0 P w (exec (evict_holder h) w).
Proof. unfold evict_holder, exec. destruct (FindSessionByObjectId _ _); [apply adv_unhold|apply still_adv; reflexivity]. Qed.

Lemma release_others sid w sid' : sid' <> sid -> own sid' (exec (ReleaseInteractingContainer sid) w) = own sid' w.
Proof. intros. rewrite (folk_own _ _ sid' (ReleaseInteractingContainer_spec sid w)). by apply own_upd_session_ne. Qed.

(** Releasing leaves a container's occupant or frees it. *)
Lemma release_occupant sid w i :
  occupant i (exec (ReleaseInteractingContainer sid) w) = occupant i w \/
  occupant i (exec (ReleaseInteractingContainer sid) w) = Some NO_INTERACTING_PLAYER.
Proof.
  unfold ReleaseInteractingContainer, exec. destruct (_ !! sid) as [s|]; [|by left].
  destruct (_ =? -1); [by left|]. destruct (FindContainer _ _) as [k|] eqn:Hk; [|by left].
  destruct (negb _); [by left|]. change (snd (upd_container ?a ?b ?c)) with (exec (upd_container a b) c).
  rewrite occupant_upd_container. case_decide; [|by left]. right. by rewrite Hk.
Qed.

Definition make_room (k : Container) (oid : Z) (sid : Z) : ST World unit :=
  _ ← (if held_by_other k oid then evict_holder (_interactingPlayerId k) else mret tt);
  ReleaseInteractingContainer sid.

(** When the way is free, nobody but [sid] has the container open. *)
Lemma open_alone w cid sid s k :
  ids_ok w -> hold_inv w -> own sid w = Some s -> GetObjectId s <> -1 -> FindContainer cid (w_room w) = Some k ->
  forall sid' s', sid' <> sid -> own sid' (exec (make_room k (GetObjectId s) sid) w) = Some s' ->
    GetInteractingContainerId s' <> -1 -> u32 (GetInteractingContainerId s') <> cid.
Proof.
  intros Hi Hh Hs Hoid Hk sid' s' Hne Hs' Hc Heq. unfold make_room in Hs'. rewrite exec_bind, release_others in Hs' by done.
  assert (Hs0 : own sid' w = Some s').
  { destruct (held_by_other k (GetObjectId s)); [|exact Hs']. rewrite evict_own in Hs'. case_decide; [|exact Hs'].
    destruct (own sid' w); [|done]. injection Hs' as <-. by destruct Hc. }
  destruct (Hh _ _ Hs0 Hc) as [Hoid' Hocc]. rewrite Heq in Hocc. unfold occupant in Hocc. rewrite Hk in Hocc.
  injection Hocc as Hocc. destruct (io_range _ Hi _ _ Hs0) as [|Hr]; [done|]. pose proof (io_nxt _ Hi) as Hn.
  assert (Hu : u32 (GetObjectId s') = GetObjectId s') by (apply u32_id; unfold is_u32; lia).
  assert (Hheld : held_by_other k (GetObjectId s) = true).
  { unfold held_by_other. rewrite Hocc. apply andb_true_iff. split; apply negb_true_iff, Z.eqb_neq.
    - rewrite Hu. unfold NO_INTERACTING_PLAYER. clear -Hr Hn. change (2 ^ 31) with 2147483648 in Hn. lia.
    - intros Hx. apply Hne. by apply (ids_u32 w sid' sid s' s). }
  rewrite Hheld, evict_own in Hs'. rewrite decide_True in Hs'; [|].
  - rewrite Hs0 in Hs'. apply Hc. injection Hs' as Hx. by rewrite <- Hx.
  - rewrite Hocc, Hu, i32_id by (unfold is_i32; lia).
    apply (FindSession_unique sid' s' _ w Hs0 eq_refl Hoid'). intros sid2 s2 Hs2 Ho2.
    apply (io_distinct _ Hi sid2 sid' s2 s'); congruence.
Qed.

(** Taking a container nobody else has open. *)
Lemma adv_take w cid sid s k (P : Prop) :
  own sid w = Some s -> GetObjectId s <> -1 -> FindContainer cid (w_room w) = Some k ->
  (P -> forall sid' s', sid' <> sid -> own sid' w = Some s' -> GetInteractingContainerId s' <> -1 ->
     u32 (GetInteractingContainerId s') <> cid) ->
  adv 0 P w (exec (_ ← upd_container cid (SetInteractingPlayerId (u32 (GetObjectId s)));
                   upd_session sid (SetInteractingContainerId (i32 cid))) w).
Proof.
  intros Hs Hoid Hk Halone Hi Hb. rewrite exec_bind. set (w1 := exec (upd_container _ _) w).
  assert (Hi1 : ids_ok w1) by by apply ids_upd_container.
  assert (Ho1 : forall sid, own sid w1 = own sid w)
    by (apply (folk_rest _ _ (upd_nonplayer_folk cid _ w))).
  assert (Hn1 : nxt w1 = nxt w) by apply nxt_upd_nonplayer.
  set (w2 := exec (upd_session _ _) w1).
  assert (Hown : own sid w2 = Some (SetInteractingContainerId (i32 cid) s)).
  { unfold w2. rewrite own_upd_session_eq by apply _. by rewrite Ho1, Hs. }
  assert (Hoth : forall sid', sid' <> sid -> own sid' w2 = own sid' w).
  { intros. unfold w2. by rewrite own_upd_session_ne. }
  assert (Hback : forall sid' s', own sid' w2 = Some s' -> exists s0, own sid' w = Some s0 /\ GetObjectId s' = GetObjectId s0).
  { intros sid' s' H. destruct (decide (sid' = sid)) as [->|]; [|rewrite Hoth in H by done; eauto].
    rewrite Hown in H. injection H as <-. eauto. }
  assert (Hcid : 0 <= cid < nxt w).
  { apply (io_things _ Hi). unfold is_thing. unfold FindContainer in Hk. by destruct (FindNonplayerObject cid _). }
  change (nxt w2) with (nxt w1). rewrite Hn1. split_and!; [constructor|lia|lia|].
  - change (nxt w2) with (nxt w1). rewrite Hn1. apply Hi.
  - intros i. change (is_thing i w2) with (is_thing i w1). change (nxt w2) with (nxt w1). apply (io_things _ Hi1).
  - intros sid' s' H. destruct (Hback _ _ H) as (s0 & Hs0 & ->). change (nxt w2) with (nxt w1). rewrite Hn1.
    by apply (io_range _ Hi sid').
  - intros sid1 sid2 s1 s2 H1 H2. destruct (Hback _ _ H1) as (t1 & Ht1 & ->), (Hback _ _ H2) as (t2 & Ht2 & ->).
    by apply (io_distinct _ Hi).
  - intros HP Hh sid' s' H Hc. change (occupant ?a w2) with (occupant a w1). unfold w1. rewrite occupant_upd_container.
    pose proof (io_nxt _ Hi) as Hn.
    destruct (decide (sid' = sid)) as [->|Hne].
    + rewrite Hown in H. injection H as <-. split; [done|].
      change (GetInteractingContainerId (SetInteractingContainerId ?c ?x)) with c.
      change (GetObjectId (SetInteractingContainerId ?c ?x)) with (GetObjectId x).
      rewrite (i32_id cid), u32_id by (unfold is_i32, is_u32; lia). rewrite decide_True by done. by rewrite Hk.
    + rewrite Hoth in H by done. destruct (Hh _ _ H Hc) as [H1 H2]. split; [done|].
      case_decide as Hx; [|done]. exfalso. by apply (Halone HP sid' s').
Qed.

Lemma adv_make_room k oid sid w P : adv 0 P w (exec (make_room k oid sid) w).
Proof.
  unfold make_room. rewrite exec_bind. eapply adv_0; [done| |apply adv_release].
  destruct (held_by_other _ _); [apply adv_evict|apply still_adv; reflexivity].
Qed.

Lemma make_room_own k oid sid w s : own sid w = Some s ->
  exists s', own sid (exec (make_room k oid sid) w) = Some s' /\ GetObjectId s' = GetObjectId s /\
    GetInteractingContainerId s' = -1.
Proof.
  intros Hs. unfold make_room. rewrite exec_bind. set (w1 := exec (if held_by_other k oid then evict_holder (_interactingPlayerId k) else mret tt) w).
  assert (H1 : exists s1, own sid w1 = Some s1 /\ GetObjectId s1 = GetObjectId s).
  { unfold w1. destruct (held_by_other k oid); [|by exists s]. rewrite evict_own, Hs. case_decide; eauto. }
  destruct H1 as (s1 & Hs1 & <-). exists (SetInteractingContainerId (-1) s1).
  rewrite (folk_own _ _ sid (ReleaseInteractingContainer_spec sid w1)), own_upd_session_eq, Hs1 by apply _. done.
Qed.

Lemma make_room_container k oid sid w cid :
  is_Some (FindContainer cid (w_room w)) -> is_Some (FindContainer cid (w_room (exec (make_room k oid sid) w))).
Proof.
  intros H. assert (Ho : is_Some (occupant cid (exec (make_room k oid sid) w))).
  { unfold make_room. rewrite exec_bind. set (w1 := exec (if held_by_other k oid then evict_holder (_interactingPlayerId k) else mret tt) w).
    destruct (release_occupant sid w1 cid) as [->| ->]; [|done]. unfold w1.
    destruct (held_by_other _ _); rewrite ?evict_occupant; by apply fmap_is_Some. }
  unfold occupant in Ho. by apply fmap_is_Some in Ho.
Qed.
End opening.

(** *** Soft pieces *)

Lemma soft_upd_nonplayer oid f w : soft w (exec (upd_nonplayer oid f) w).
Proof.
  destruct (folk_rest _ _ (upd_nonplayer_folk oid f w)) as (H1 & H2 & H3 & H4 & H5). constructor; try done.
  - intros sid. by rewrite H5.
  - intros sid s. rewrite H5. exists s. by split.
Qed.

Lemma soft_unhold sid w : soft w (exec (upd_session sid (SetInteractingContainerId (-1))) w).
Proof.
  apply soft_upd_session. intros s _. split_and!; try done. intros [Hl Hg]. split; [done|].
  intros H. destruct (Hg H) as (? & _ & ? & ?). by split_and!.
Qed.

Lemma soft_early sid f w s0 :
  own sid w = Some s0 -> leave_rank (_leaveState (s_leave s0)) < 2 ->
  (forall s, session_uid (f s) = session_uid s /\ s_leave (f s) = s_leave s) ->
  soft w (exec (upd_session sid f) w).
Proof.
  intros (s1 & Hs1 & ->)%own_Some Hr Hf. apply soft_upd_session. intros s Hs. assert (s = s1) as -> by congruence.
  destruct (Hf s1) as [H1 H2]. change (s_leave (strip ?x)) with (s_leave x) in *. split_and!.
  - done.
  - intros [Hl Hg]. split.
    + unfold leave_ok in *. change (s_leave (strip ?x)) with (s_leave x) in *. by rewrite H2.
    + intros H. change (s_leave (strip ?x)) with (s_leave x) in H. rewrite H2 in H. lia.
  - by rewrite H2.
  - done.
Qed.

Section softer.
Context {E : External} {L : ExternalLaws E}.

Lemma soft_evict h w : soft w (exec (evict_holder h) w).
Proof. unfold evict_holder, exec. destruct (FindSessionByObjectId _ _); [apply soft_unhold|reflexivity]. Qed.

Lemma soft_release sid w : soft w (exec (ReleaseInteractingContainer sid) w).
Proof.
  unfold ReleaseInteractingContainer, exec. destruct (_ !! sid) as [s|]; [|reflexivity].
  destruct (_ =? -1); [apply soft_unhold|]. destruct (FindContainer _ _); [|apply soft_unhold].
  destruct (negb _); [apply soft_unhold|]. etrans; [apply soft_unhold|apply soft_upd_nonplayer].
Qed.

Lemma soft_make_room k oid sid w : soft w (exec (make_room k oid sid) w).
Proof.
  unfold make_room. rewrite exec_bind. etrans; [|apply soft_release].
  destruct (held_by_other _ _); [apply soft_evict|reflexivity].
Qed.

(** *** The handlers that open, close and spawn *)

(** A request to open a container, when it is granted. *)
Lemma OpenContainer_opens cid sid s k w :
  sess w !! sid = Some s -> IsActiveState s = true -> _pRoom s <> None -> GetObjectId s <> -1 ->
  FindContainer cid (w_room w) = Some k -> IsPlayerNearContainer (u32 (GetObjectId s)) cid (w_room w) = true ->
  held_by_other k (GetObjectId s) && IsPlayerNearContainer (_interactingPlayerId k) cid (w_room w) = false ->
  let w2 := exec (_ ← upd_container cid (SetInteractingPlayerId (u32 (GetObjectId s)));
                  upd_session sid (SetInteractingContainerId (i32 cid)))
              (exec (make_room k (GetObjectId s) sid) w) in
  view (exec (Handle_C2D_RequestOpenContainer cid sid) w) = view w2.
Proof.
  intros Hs Ha Hr Hoid%Z.eqb_neq Hk Hnear Hfree. cbn zeta. unfold sess in Hs.
  unfold Handle_C2D_RequestOpenContainer, active, exec at 1. rewrite Hs, Ha. unfold with_room. cbn [negb].
  destruct (_pRoom s); [|done]. rewrite Hk, Hoid, Hnear, Hfree. cbn [negb].
  refold. unfold make_room. rewrite !exec_bind. set (w3 := exec (upd_session sid _) _).
  change (exec accept ?x) with x. change (exec (gets ?f) ?x) with x.
  destruct (eval _ w3); [apply Send_view|done].
Qed.
Lemma OpenContainer_path cid sid w :
  let w' := exec (Handle_C2D_RequestOpenContainer cid sid) w in
  w' = w \/
  exists s k, sess w !! sid = Some s /\ IsActiveState s = true /\ GetObjectId s <> -1 /\
    FindContainer cid (w_room w) = Some k /\
    let w2 := exec (_ ← upd_container cid (SetInteractingPlayerId (u32 (GetObjectId s)));
                    upd_session sid (SetInteractingContainerId (i32 cid)))
                (exec (make_room k (GetObjectId s) sid) w) in
    view w' = view w2.
Proof.
  cbn zeta. set (w' := exec (Handle_C2D_RequestOpenContainer cid sid) w).
  assert (Hw : w' = snd (Handle_C2D_RequestOpenContainer cid sid w)) by done.
  unfold Handle_C2D_RequestOpenContainer, active in Hw.
  destruct (_playerSessions (w_room w) !! sid) as [s|] eqn:Hs; [|by left].
  destruct (IsActiveState s) eqn:Ha; [|by left]. cbn [negb] in Hw. unfold with_room in Hw. destruct (_pRoom s) eqn:Hr; [|by left].
  destruct (FindContainer cid (w_room w)) as [k|] eqn:Hk; [|by left].
  destruct (Z.eqb_spec (GetObjectId s) (-1)) as [|Hoid]; [by left|].
  destruct (IsPlayerNearContainer (u32 _) _ _) eqn:Hn in Hw; [|by left]. cbn [negb] in Hw. destruct (_ && _) eqn:Hf in Hw; [by left|].
  right. exists s, k. split_and!; try done. apply OpenContainer_opens; try done. by rewrite Hr.
Qed.

Lemma adv_OpenContainer cid sid w P : adv 0 P w (exec (Handle_C2D_RequestOpenContainer cid sid) w).
Proof.
  destruct (OpenContainer_path cid sid w) as [->|(s & k & Hs & Ha & Hoid & Hk & Hv)]; [apply still_adv; reflexivity|].
  cbn zeta in Hv. set (w1 := exec (make_room k (GetObjectId s) sid) w) in *. set (w2 := exec _ w1) in *.
  assert (Ho : own sid w = Some (strip s)) by (unfold own; by rewrite Hs).
  destruct (make_room_own k (GetObjectId s) sid w (strip s) Ho) as (s1 & Hs1 & Hoid1 & _). fold w1 in Hs1.
  change (GetObjectId (strip s)) with (GetObjectId s) in Hoid1.
  destruct (make_room_container k (GetObjectId s) sid w cid (mk_is_Some _ _ Hk)) as [k1 Hk1]. fold w1 in Hk1.
  assert (Hv2 : forall Q, adv 0 Q w2 (exec (Handle_C2D_RequestOpenContainer cid sid) w))
    by (intros Q; by apply still_adv, calm_still, view_calm).
  intros Hi Hb. destruct (adv_make_room k (GetObjectId s) sid w P Hi Hb) as (Hi1 & Hn1 & Hh1). fold w1 in Hi1, Hn1, Hh1.
  assert (H12 : adv 0 (hold_inv w) w1 w2).
  { unfold w2. rewrite <- Hoid1. apply (adv_take w1 cid sid s1 k1); [done|by rewrite Hoid1|done|].
    intros Hh. apply (open_alone w cid sid (strip s) k Hi Hh Ho Hoid Hk). }
  destruct (adv_seq 0 (hold_inv w) w1 w2 _ ltac:(done) H12 (Hv2 _) Hi1 ltac:(lia)) as (Hi3 & Hn3 & Hh3).
  split_and!; [done|lia|lia|auto].
Qed.

Lemma soft_OpenContainer cid sid w : sessions_inv w -> soft w (exec (Handle_C2D_RequestOpenContainer cid sid) w).
Proof.
  intros Hinv. destruct (OpenContainer_path cid sid w) as [->|(s & k & Hs & Ha & _ & Hk & Hv)]; [reflexivity|].
  cbn zeta in Hv. set (w1 := exec (make_room k (GetObjectId s) sid) w) in *.
  assert (Ho : own sid w = Some (strip s)) by (unfold own; by rewrite Hs).
  assert (H1 : soft w w1) by apply soft_make_room.
  destruct (make_room_own k (GetObjectId s) sid w (strip s) Ho) as (s1 & Hs1 & _). fold w1 in Hs1.
  etrans; [exact H1|]. etrans; [|apply calm_soft, view_calm; exact Hv]. rewrite exec_bind.
  etrans; [apply soft_upd_nonplayer|]. set (w2 := exec (upd_container _ _) w1).
  apply (soft_early sid _ w2 s1); [| |done].
  - rewrite <- Hs1. apply (folk_rest _ _ (upd_nonplayer_folk cid _ w1)).
  - destruct (soft_back _ _ _ _ H1 Hs1) as (s0 & Hs0 & C). apply (so_early _ _ C).
    rewrite Ho in Hs0. injection Hs0 as <-. apply active_early; [by apply (Hinv sid)|exact Ha].
Qed.

Lemma CloseContainer_path sid w :
  let w' := exec (Handle_C2D_CloseContainer sid) w in
  w' = w \/ w' = exec (upd_session sid (SetInteractingContainerId (-1))) w \/ w' = exec (ReleaseInteractingContainer sid) w.
Proof.
  cbn zeta. unfold Handle_C2D_CloseContainer, active, exec at 1 2 4.
  destruct (_playerSessions (w_room w) !! sid) as [s|]; [|by left]. destruct (negb _); [by left|].
  destruct (_ =? -1); [by left|]. right. destruct (_pRoom s); [right|left]; refold; by rewrite exec_bind.
Qed.

Lemma adv_CloseContainer sid w P : adv 0 P w (exec (Handle_C2D_CloseContainer sid) w).
Proof.
  destruct (CloseContainer_path sid w) as [->|[->| ->]]; [apply still_adv; reflexivity|apply adv_unhold|apply adv_release].
Qed.
Lemma soft_CloseContainer sid w : soft w (exec (Handle_C2D_CloseContainer sid) w).
Proof.
  destruct (CloseContainer_path sid w) as [->|[->| ->]]; [reflexivity|apply soft_unhold|apply soft_release].
Qed.

(** Taking an object id. *)
Lemma soft_GetNewObjectId w : soft w (exec GetNewObjectId w).
Proof. constructor; try done. intros sid s Hs. exists s. by split. Qed.
Lemma nxt_GetNewObjectId w : 0 <= nxt w -> nxt w + 1 < 2 ^ 31 -> nxt (exec GetNewObjectId w) = nxt w + 1.
Proof. intros. unfold nxt, GetNewObjectId, exec. cbn. apply u32_id. unfold is_u32, nxt in *. lia. Qed.

(** Giving a session the id that was just taken. *)
Lemma adv_new_id w sid w1 s :
  own sid w = Some s -> still (exec GetNewObjectId w) w1 ->
  adv 1 (GetInteractingContainerId s = -1) w (exec (upd_session sid (SetObjectId (i32 (nxt w)))) w1).
Proof.
  intros Hs Hst Hi Hb. pose proof (io_nxt _ Hi) as Hn. rewrite (i32_id (nxt w)) by (unfold is_i32; lia).
  set (w2 := exec (upd_session _ _) w1).
  assert (Hn1 : nxt w2 = nxt w + 1).
  { change (nxt w2) with (nxt w1). rewrite (st_nxt _ _ Hst). apply nxt_GetNewObjectId; lia. }
  assert (Hback : forall sid' s', own sid' w2 = Some s' -> exists s0, own sid' w = Some s0 /\
     GetInteractingContainerId s' = GetInteractingContainerId s0 /\
     GetObjectId s' = (if decide (sid' = sid) then nxt w else GetObjectId s0)).
  { intros sid' s' H.
    assert (Hx : exists s1, own sid' w1 = Some s1 /\ s' = (if decide (sid' = sid) then SetObjectId (nxt w) s1 else s1)).
    { case_decide as Hd; [subst sid'|]; unfold w2 in H.
      - rewrite own_upd_session_eq in H by apply _. destruct (own sid w1) as [s1|]; [|done].
        exists s1. by injection H as <-.
      - rewrite own_upd_session_ne in H by done. by exists s'. }
    destruct Hx as (s1 & Hs1 & ->).
    destruct (own sid' w) as [s0|] eqn:Hs0; [|rewrite (st_none _ _ Hst) in Hs1; done].
    destruct (st_some _ _ Hst sid' s0 Hs0) as (s1' & Hs1' & [E1 E2]). rewrite Hs1 in Hs1'. injection Hs1' as <-.
    exists s0. split; [done|]. by case_decide. }
  assert (Hocc : forall i, occupant i w2 = occupant i w) by (intros i; apply (st_occupant _ _ Hst)).
  rewrite Hn1. split_and!; [constructor; rewrite ?Hn1|lia|lia|].
  - lia.
  - intros i Hti. apply (st_things _ _ Hst) in Hti. pose proof (io_things _ Hi i Hti). lia.
  - intros sid' s' H. destruct (Hback _ _ H) as (s0 & Hs0 & _ & Ex). rewrite Ex. case_decide; [right; lia|].
    destruct (io_range _ Hi _ _ Hs0); [by left|right; lia].
  - intros sid1 sid2 s1 s2 H1 H2. destruct (Hback _ _ H1) as (t1 & Ht1 & _ & ->), (Hback _ _ H2) as (t2 & Ht2 & _ & ->).
    intros Heq Hne. pose proof (io_range _ Hi _ _ Ht1). pose proof (io_range _ Hi _ _ Ht2).
    repeat case_decide; subst; try done; try lia. by apply (io_distinct _ Hi sid1 sid2 t1 t2).
  - intros Hnone Hh sid' s' H Hc. destruct (Hback _ _ H) as (s0 & Hs0 & E1 & E2). rewrite E1 in Hc |- *. rewrite Hocc, E2.
    case_decide as Hd; [subst sid'; congruence|]. by apply (Hh sid').
Qed.

Lemma calm_SpawnPlayerObject p o w : calm w (exec (SpawnPlayerObject p o) w).
Proof.
  unfold SpawnPlayerObject, exec. destruct (_playerObjects (w_room w) !! _); [reflexivity|].
  match goal with |- calm w (snd (NotifySpawnPlayerObject p o ?x)) => transitivity x end.
  - constructor; try done. intros sid s Hs. by exists s.
  - apply view_calm, NotifySpawnPlayerObject_view.
Qed.

(** The spawn, up to broadcasts and the sender's channel. *)
Lemma SpawnMe_path sid w :
  let w' := exec (Handle_C2D_RequestSpawnMe sid) w in
  w' = w \/
  exists s w0 w1, own sid w = Some s /\ IsActiveState s = true /\ calm w w0 /\
    calm (exec GetNewObjectId w0) w1 /\ calm (exec (upd_session sid (SetObjectId (i32 (nxt w0)))) w1) w'.
Proof.
  cbn zeta. unfold Handle_C2D_RequestSpawnMe, active, exec at 1 4.
  destruct (_playerSessions (w_room w) !! sid) as [s|] eqn:Hs; [|by left].
  destruct (IsActiveState s) eqn:Ha; [|by left]. cbn [negb]. unfold with_room. destruct (_pRoom s); [|by left].
  right. refold. rewrite !exec_bind. set (w0 := exec SetSpawnSpot w). exists (strip s), w0.
  change (eval GetNewObjectId w0) with (nxt w0).
  set (w1 := exec (SpawnPlayerObject _ _) _). exists w1. split_and!.
  - unfold own, sess. by rewrite Hs.
  - exact Ha.
  - constructor; try done. intros sid' s' Hs'. by exists s'.
  - apply calm_SpawnPlayerObject.
  - set (w2 := exec (upd_session _ _) w1). calms.
Qed.

Lemma SpawnMe_adv sid s w : own sid w = Some s ->
  adv 1 (GetInteractingContainerId s = -1) w (exec (Handle_C2D_RequestSpawnMe sid) w).
Proof.
  intros Hs. destruct (SpawnMe_path sid w) as [->|(s' & w0 & w1 & Hs' & Ha & H0 & H1 & H2)].
  { apply (adv_mono 0); [done|]. by apply still_adv. }
  rewrite Hs in Hs'. injection Hs' as <-. apply calm_still in H0 as S0. apply calm_still in H1, H2.
  destruct (cm_some _ _ H0 _ _ Hs) as (s0 & Hs0 & C0). rewrite <- (cs_container _ _ C0).
  eapply adv_0; [done|apply still_adv; exact S0|]. eapply adv_seq; [done| |apply still_adv; exact H2].
  by apply adv_new_id.
Qed.

Lemma SpawnMe_soft sid w : sessions_inv w -> soft w (exec (Handle_C2D_RequestSpawnMe sid) w).
Proof.
  intros Hinv. destruct (SpawnMe_path sid w) as [->|(s & w0 & w1 & Hs & Ha & H0 & H1 & H2)]; [reflexivity|].
  apply calm_soft in H0, H1, H2.
  assert (H01 : soft w w1) by (etrans; [exact H0|]; etrans; [apply soft_GetNewObjectId|exact H1]).
  etrans; [exact H01|]. etrans; [|exact H2].
  destruct (sf_some _ _ H01 _ _ Hs) as (s1 & Hs1 & C). apply (soft_early sid _ w1 s1); [done| |done].
  apply (so_early _ _ C). apply active_early; [by apply (Hinv sid)|done].
Qed.
End softer.

(** *** Departures *)

Section leaving.
Context {E : External} {L : ExternalLaws E}.

Lemma release_npc_still p oid w : still w (exec (release_npc p oid) w).
Proof.
  unfold release_npc, exec. destruct (_dynamicObjects (w_room w) !! oid) as [[k|n]|] eqn:Ho; try reflexivity.
  cbn [mbind option_bind as_npc]. destruct (negb _); [reflexivity|]. destruct (ReleaseAuthority n) as [ok n'].
  set (w1 := w <| w_room ::= fun r => r <| _dynamicObjects ::= <[oid:=GNpc n']> |> |>).
  assert (Hf : forall i, FindNonplayerObject i (w_room w1) = FindNonplayerObject i (w_room w) \/
    FindNonplayerObject i (w_room w1) = Some (GNpc n') /\ FindNonplayerObject i (w_room w) = Some (GNpc n)).
  { intros i. unfold FindNonplayerObject, w1. cbn [setf w_room _staticObjects _dynamicObjects].
    destruct (_ !! i); [by left|]. destruct (decide (oid = i)) as [<-|].
    - right. by rewrite lookup_insert_eq, Ho.
    - left. by rewrite lookup_insert_ne. }
  assert (H1 : still w w1).
  { constructor; try done.
    - intros sid s Hs. by exists s.
    - intros i. unfold occupant, FindContainer. destruct (Hf i) as [->|[-> ->]]; done.
    - intros i. unfold is_thing. destruct (Hf i) as [->|[-> ->]]; done. }
  destruct (negb ok); [exact H1|]. etrans; [exact H1|]. apply calm_still, view_calm, NotifyNpcAuthority_view.
Qed.

Lemma ReleaseNpcAuthority_still p w : still w (exec (ReleaseNpcAuthority p) w).
Proof.
  unfold ReleaseNpcAuthority, exec. destruct (p =? NO_TARGET); [reflexivity|].
  apply (for_each_inv (still w)); [|reflexivity]. intros x w1 _ H. etrans; [exact H|apply release_npc_still].
Qed.

Lemma loot_id oid pos yaw inv : objectId (k_object (new_PlayerLootContainer oid pos yaw inv)) = oid.
Proof.
  unfold new_PlayerLootContainer, FillFrom.
  assert (Hf : forall l k n, k_object (fst (exec (for_each l place_loot) (k, n))) = k_object k).
  { intros l. induction l as [|s l IH]; intros k n; [done|]. rewrite exec_for_each_cons, place_loot_step.
    destruct (IsEmpty s); [apply IH|]. rewrite IH. unfold PlaceItem, exec. by destruct (_ || _). }
  by rewrite Hf.
Qed.

(** A new object of the room, under the id just taken. *)
Lemma adv_new_object o w P :
  objectId (object_of o) = nxt w -> adv 1 P w (exec (SpawnDynamicObject o) (exec GetNewObjectId w)).
Proof.
  intros Hid Hi Hb. pose proof (io_nxt _ Hi) as Hn. set (w1 := exec GetNewObjectId w).
  assert (Hn1 : nxt w1 = nxt w + 1) by (apply nxt_GetNewObjectId; lia).
  assert (Hno : FindNonplayerObject (nxt w) (w_room w) = None).
  { destruct (FindNonplayerObject (nxt w) (w_room w)) as [x|] eqn:Hx; [|done]. exfalso.
    pose proof (io_things _ Hi (nxt w) (mk_is_Some _ _ Hx)). lia. }
  unfold SpawnDynamicObject, exec. rewrite Hid.
  assert (Hd : _dynamicObjects (w_room w1) !! nxt w = None).
  { change (_dynamicObjects (w_room w1)) with (_dynamicObjects (w_room w)).
    unfold FindNonplayerObject in Hno. by destruct (_staticObjects (w_room w) !! nxt w). }
  rewrite Hd. set (w2 := w1 <| w_room ::= _ |>).
  change (snd (NotifySpawnObject o w2)) with (exec (NotifySpawnObject o) w2).
  assert (Hf : forall i, i <> nxt w -> FindNonplayerObject i (w_room w2) = FindNonplayerObject i (w_room w)).
  { intros i Hi'. unfold FindNonplayerObject, w2. cbn [setf w_room _staticObjects _dynamicObjects].
    change (_staticObjects (w_room w1)) with (_staticObjects (w_room w)).
    change (_dynamicObjects (w_room w1)) with (_dynamicObjects (w_room w)).
    destruct (_ !! i); [done|]. by rewrite lookup_insert_ne. }
  assert (H2 : adv 1 P w w2).
  { intros _ _. change (nxt w2) with (nxt w1). rewrite Hn1. split_and!; [constructor|lia|lia|]; change (nxt w2) with (nxt w1); rewrite ?Hn1.
    - lia.
    - intros i Ht. destruct (decide (i = nxt w)) as [->|]; [lia|]. unfold is_thing in Ht. rewrite Hf in Ht by done.
      pose proof (io_things _ Hi i Ht). lia.
    - intros sid s Hs. destruct (io_range _ Hi sid s Hs); [by left|right; lia].
    - exact (io_distinct _ Hi).
    - intros _ Hh sid s Hs Hc. destruct (Hh sid s Hs Hc) as [H1 H2]. split; [done|]. rewrite <- H2.
      unfold occupant, FindContainer. rewrite Hf; [done|]. intros Heq. rewrite Heq in H2.
      unfold occupant, FindContainer in H2. by rewrite Hno in H2. }
  eapply adv_seq; [done|exact H2|apply still_adv, calm_still, view_calm, NotifySpawnObject_view|done|done].
Qed.

Lemma adv_leave_loot sid oid p w P : adv 1 P w (exec (leave_loot sid oid p) w).
Proof.
  unfold leave_loot, exec. destruct (_ !! sid) as [s|]; [|by apply (adv_mono 0), still_adv].
  refold. rewrite !exec_bind. eapply adv_seq; [done| |apply still_adv, calm_still, view_calm, Broadcast_view].
  change (exec (gets _) ?x) with x. unfold SpawnPlayerLootContainer. rewrite exec_bind.
  apply adv_new_object. apply loot_id.
Qed.

Lemma adv_detach_object sid oid r p w P : adv 1 P w (exec (detach_object sid oid r p) w).
Proof.
  unfold detach_object. rewrite !exec_bind. change (exec (mret tt) ?x) with x.
  eapply adv_seq; [done| |apply still_adv, calm_still, view_calm, BroadcastExcept_view].
  eapply (adv_seq 1 P w (exec (lose_items sid oid r p) w)); [done| |].
  - unfold lose_items. destruct (_ || _); [|by apply (adv_mono 0), still_adv]. rewrite exec_bind.
    eapply (adv_seq 1 P w); [done| |apply still_adv, calm_still, calm_upd_bland, _].
    destruct (bool_decide _); [apply adv_leave_loot|by apply (adv_mono 0), still_adv].
  - apply still_adv. constructor; try done. intros sid' s Hs. by exists s.
Qed.

Lemma adv_detach_player sid oid r w P : adv 1 P w (exec (detach_player_object sid oid r) w).
Proof.
  unfold detach_player_object, exec. destruct (if negb _ then _ else _); [apply adv_detach_object|by apply (adv_mono 0), still_adv].
Qed.

Lemma notify_left_still sid step w :
  (forall s, GetObjectId (snd (step s)) = GetObjectId s /\
     GetInteractingContainerId (snd (step s)) = GetInteractingContainerId s) ->
  still w (exec (notify_left sid step) w).
Proof.
  intros Hstep. unfold notify_left, exec. destruct (_playerSessions (w_room w) !! sid) as [s|] eqn:Hs; [|reflexivity].
  destruct (step s) as [sent s'] eqn:Hx. specialize (Hstep s). rewrite Hx in Hstep. cbn in Hstep.
  set (w1 := w <| w_room ::= fun r => r <| _playerSessions ::= <[sid:=s']> |> |>).
  assert (H1 : still w w1).
  { assert (Ho : forall sid', own sid' w1 = if decide (sid' = sid) then Some (strip s') else own sid' w).
    { intros sid'. unfold own, sess, w1. cbn [setf w_room _playerSessions]. case_decide as Hd; [subst sid'; by rewrite lookup_insert_eq|].
      by rewrite lookup_insert_ne. }
    constructor; try done.
    - intros sid'. rewrite Ho. case_decide as Hd; [subst sid'|done]. unfold own, sess. by rewrite Hs.
    - intros sid' s0. rewrite Ho. case_decide as Hd; [subst sid'|by exists s0].
      unfold own, sess. rewrite Hs. intros [= <-]. exists (strip s'). split; [done|]. constructor; apply Hstep. }
  destruct sent; [|exact H1]. etrans; [exact H1|]. constructor; try done. intros sid' s0 H0. by exists s0.
Qed.

Lemma NotifyLeftOnce_still s : GetObjectId (snd (NotifyLeftOnce s)) = GetObjectId s /\
  GetInteractingContainerId (snd (NotifyLeftOnce s)) = GetInteractingContainerId s.
Proof. by rewrite NotifyLeftOnce_eq. Qed.
Lemma FinalizeLeave_still s : GetObjectId (snd (FinalizeLeave s)) = GetObjectId s /\
  GetInteractingContainerId (snd (FinalizeLeave s)) = GetInteractingContainerId s.
Proof. unfold FinalizeLeave. by rewrite NotifyLeftOnce_eq. Qed.

Lemma adv_DetachPlayer sid w P : adv 1 P w (exec (DetachPlayer sid) w).
Proof.
  unfold DetachPlayer, exec. destruct (_playerSessions (w_room w) !! sid) as [s|] eqn:Hs; [|by apply (adv_mono 0), still_adv].
  refold. rewrite !exec_bind. set (oid := GetObjectId s). set (reason := _leaveReason (s_leave s)).
  set (w1 := exec (upd_session sid EndRecall) w). set (w2 := exec (upd_session sid (SetSessionState _)) w1).
  set (w3 := exec (ReleaseInteractingContainer sid) w2). set (w4 := exec (ReleaseNpcAuthority oid) w3).
  set (w5 := exec (detach_player_object sid oid reason) w4). set (w6 := exec (upd_session sid (SetObjectId (-1))) w5).
  set (w7 := exec (upd_session sid (SetLeaveState LS_DETACHED)) w6).
  assert (H4 : adv 0 P w w4).
  { eapply adv_seq; [done| |apply still_adv, ReleaseNpcAuthority_still].
    eapply adv_0; [done| |apply adv_release]. apply still_adv.
    etrans; apply still_upd_session; done. }
  assert (Hc : forall s5, own sid w5 = Some s5 -> GetInteractingContainerId s5 = -1).
  { intros s5. destruct (detach_player_object_spec sid oid reason w4) as [Ho _]. fold w5 in Ho. rewrite Ho. clear Ho.
    unfold w4. rewrite (folk_own _ _ sid (ReleaseNpcAuthority_folk oid w3)).
    pose proof (release_own sid w2) as Hr. fold w3 in Hr. destruct (own sid w3) as [s3|]; [|by case_match].
    specialize (Hr s3 eq_refl). case_match; simpl; intros [= <-]; exact Hr. }
  eapply adv_0; [done|exact H4|]. eapply adv_seq; [done|eapply adv_seq; [done|eapply adv_seq; [done|apply adv_detach_player|]|]|].
  - fold w5. apply (adv_upd_session sid (SetObjectId (-1)) w5). intros s5 Hs5. split; [by right|].
    apply (Hc (strip s5)). unfold own. by rewrite Hs5.
  - fold w5 w6. by apply still_adv, (still_upd_session sid (SetLeaveState LS_DETACHED)).
  - apply still_adv, notify_left_still. intros. apply NotifyLeftOnce_still.
Qed.

Lemma adv_detach_or_finalize sid s w P : adv 1 P w (exec (detach_or_finalize sid s) w).
Proof.
  unfold detach_or_finalize. rewrite exec_bind.
  match goal with |- adv _ _ _ (exec _ ?w1) => apply (adv_seq 1 P w w1); [done| |] end.
  - case_bool_decide; [apply adv_DetachPlayer|by apply (adv_mono 0), still_adv].
  - apply still_adv. match goal with |- still ?x _ => set (w1 := x) end. unfold finalize_if_ready, exec.
    destruct (_playerSessions (w_room w1) !! sid); [|reflexivity]. destruct (_ && _); [|reflexivity].
    apply notify_left_still. intros. apply FinalizeLeave_still.
Qed.

Lemma adv_for_each {A} (xs : list A) (body : A -> ST World unit) w P :
  (forall x w, adv 1 P w (exec (body x) w)) -> adv (Z.of_nat (length xs)) P w (exec (for_each xs body) w).
Proof.
  intros Hb. revert w. induction xs as [|x xs IH]; intros w; [by apply still_adv|].
  rewrite exec_for_each_cons. intros Hi Hn. cbn [length] in Hn.
  destruct (adv_trans 1 (Z.of_nat (length xs)) P P _ _ _ ltac:(lia) ltac:(lia) (Hb x w) (IH _) Hi ltac:(lia)) as (? & ? & ?).
  cbn [length]. split_and!; [done|lia|lia|auto].
Qed.

Lemma still_for_each {A} (xs : list A) (body : A -> ST World unit) w :
  (forall x w, still w (exec (body x) w)) -> still w (exec (for_each xs body) w).
Proof. intros Hb. apply (for_each_inv (still w)); [|reflexivity]. intros x w1 _ H. etrans; [exact H|apply Hb]. Qed.

Lemma still_for_sessions body w :
  (forall sid s w, still w (exec (body sid s) w)) -> still w (exec (for_sessions body) w).
Proof.
  intros Hb. unfold for_sessions. apply (still_for_each (ext_keys _ (_playerSessions (w_room w)))).
  intros sid w1. unfold exec. destruct (_ !! sid); [apply Hb|reflexivity].
Qed.

(** How many sessions a room has; no step changes their ids. *)
Definition sessions (w : World) : Z := Z.of_nat (size (sess w)).

Lemma keys_sessions w : Z.of_nat (length (ext_keys _ (_playerSessions (w_room w)))) = sessions w.
Proof.
  unfold sessions, sess. rewrite (Permutation_length (keys_perm _ (_playerSessions (w_room w)))).
  by rewrite length_map, length_map_to_list.
Qed.
Lemma same_sessions w w' : (forall sid, own sid w' = None <-> own sid w = None) -> sessions w' = sessions w.
Proof.
  intros H. unfold sessions. f_equal. rewrite <- !size_dom. f_equal. apply set_eq. intros sid.
  rewrite !elem_of_dom, <- !own_is_Some, <- !not_eq_None_Some, H. done.
Qed.

Lemma adv_ProcessLeaves w P : adv (sessions w) P w (exec ProcessLeaves w).
Proof.
  unfold ProcessLeaves. rewrite !exec_bind. change (exec (gets _) ?x) with x.
  set (w1 := exec expire_lifetime w). set (w2 := exec (for_each _ mark_dead) w1).
  set (w3 := exec DetectDisconnectedSessions w2). set (w4 := exec clear_pending w3).
  assert (H1 : still w w1).
  { unfold w1, expire_lifetime, exec. destruct (_ && _); [|reflexivity].
    transitivity (w <| w_room ::= fun r => r <| _lifetimeExpired := true |> |>).
    - constructor; try done. intros sid s Hs. by exists s.
    - apply (still_for_sessions (fun sid _ => mark_leaving sid LR_DEAD 0)). intros. apply mark_leaving_still. }
  assert (H2 : still w1 w2).
  { apply still_for_each. intros oid v. unfold mark_dead, exec.
    destruct (FindSessionByObjectId _ _); [apply mark_leaving_still|reflexivity]. }
  assert (H3 : still w2 w3).
  { unfold w3, DetectDisconnectedSessions. apply (still_for_sessions (fun sid s w => _)). intros sid s v. unfold exec.
    repeat case_match; try reflexivity. apply mark_leaving_still. }
  assert (H4 : still w3 w4) by apply calm_still, view_calm, clear_pending_view.
  assert (H : still w w4) by (etrans; [exact H1|]; etrans; [exact H2|]; by etrans).
  assert (Hsz : sessions w4 = sessions w).
  { apply same_sessions. intros sid. split; [|apply (st_none _ _ H)].
    intros Hn. destruct (own sid w) eqn:Hs; [|done]. destruct (st_some _ _ H _ _ Hs) as (? & ? & _). congruence. }
  eapply adv_0; [unfold sessions; lia|apply still_adv; exact H|]. eapply adv_seq; [unfold sessions; lia| |].
  - rewrite <- Hsz, <- keys_sessions.
    apply (adv_for_each (ext_keys _ (_playerSessions (w_room w4))) (fun sid w =>
      match _playerSessions (w_room w) !! sid with
      | None => (tt, w) | Some s => detach_or_finalize sid s w end)). intros sid v. unfold exec.
    destruct (_playerSessions (w_room v) !! sid); [apply adv_detach_or_finalize|by apply (adv_mono 0), still_adv].
  - apply still_adv. unfold CheckAllLeft, exec. destruct (_allLeftReported _); [reflexivity|].
    destruct (forallb _ _); [|reflexivity]. constructor; try done. intros sid s Hs. by exists s.
Qed.
End leaving.

(** *** What one run of [ProcessLeaves] keeps *)

Section processing.
Context {E : External} {L : ExternalLaws E}.

Lemma ProcessLeaves_id w : _roomId (w_room (exec ProcessLeaves w)) = _roomId (w_room w).
Proof.
  destruct (marking_phase w) as (w4 & -> & Hm & _). destruct (for_sessions_room w4) as [_ Hid].
  rewrite <- (md_id _ _ _ Hm), <- Hid. unfold CheckAllLeft, exec at 1.
  destruct (_allLeftReported _); [done|]. by destruct (forallb _ _).
Qed.

Lemma ProcessLeaves_final w sid s : uids_distinct w -> own sid w = Some s -> is_finalized s = true ->
  own sid (exec ProcessLeaves w) = Some s.
Proof.
  intros Hu Hs Hf. apply bool_decide_eq_true in Hf. destruct (ProcessLeaves_steps w Hu) as (_ & _ & Hsteps & _).
  destruct (Hsteps sid s Hs) as (es & _ & [_ (rs & s' & _ & Hs' & Hdep & _)]).
  rewrite marks_late in Hdep by (rewrite Hf; simpl; lia). unfold depart in Hdep. rewrite Hf in Hdep.
  by destruct Hdep as [-> _].
Qed.

Lemma ProcessLeaves_leave_inv w : leave_inv w -> leave_inv (exec ProcessLeaves w).
Proof.
  intros [Hu Hi Hh Hr]. destruct (ProcessLeaves_uids w Hu Hi) as [Hu' Hi'].
  destruct (ProcessLeaves_steps w Hu) as (_ & Hnone & _ & Hrep). constructor; [done|done| |].
  - intros sid s' Hs'. destruct (own sid w) as [s|] eqn:Hs; [|by rewrite Hnone in Hs'].
    destruct (ProcessLeaves_session w sid s Hu (Hi _ _ Hs) Hs) as (s2 & Hs2 & _ & _ & _ & _ & _ & _ & _ & _ & _ & Hhe).
    rewrite Hs2 in Hs'. injection Hs' as <-. by apply Hhe, (Hh sid).
  - unfold report_ok in *. rewrite ProcessLeaves_id.
    destruct Hrep as [(_ & -> & ->)|(E1 & E2 & E3 & E4)].
    + destruct (_allLeftReported (w_room w)); [|done]. destruct Hr as [Hr Hall]. split; [done|].
      intros sid s' Hs'. destruct (own sid w) as [s|] eqn:Hs; [|by rewrite Hnone in Hs'].
      pose proof (Hall sid s Hs) as Hf. rewrite (ProcessLeaves_final w sid s Hu Hs Hf) in Hs'. by injection Hs' as <-.
    + rewrite E1 in Hr. rewrite E3, E4, Hr. by split.
Qed.

(** ** Every step *)

(** A client asks to be spawned only while it has no container open. *)
Definition polite_step (l : Label) (w : World) : Prop :=
  match l with
  | LPacket bytes _ =>
      let h := decode_udp bytes in
      ext_parse (packetId h) (drop 35 bytes) = Some C2DRequestSpawnMe ->
      forall s, own (i16 (h_sessionId h)) w = Some s -> GetInteractingContainerId s = -1
  | _ => True
  end.

Lemma handle_message_soft m addr sid w : sessions_inv w -> soft w (exec (handle_message m addr sid) w).
Proof.
  intros Hi. destruct m; cbn [handle_message]; try (by apply SpawnMe_soft); try (by apply soft_OpenContainer);
    try (apply soft_CloseContainer); apply calm_soft.
  - apply calm_ChannelOpen.
  - apply calm_HeartBeat.
  - apply calm_RequestBlueprint.
  - apply calm_RequestSpawnByObjectId.
  - apply calm_UpdatePlayerState.
  - apply calm_RequestSpawnPlayerObjects.
  - apply calm_LoadingComplete.
  - apply calm_Interact.
  - apply calm_Equip.
  - apply calm_RecentInventoryInfo.
  - apply calm_WeaponFire.
  - apply calm_RequestRecall.
  - apply calm_SwitchWeapon.
  - apply calm_Reload.
  - apply calm_NotifyReloadSequence.
  - apply calm_npc_request.
  - apply calm_npc_request.
  - apply calm_ReportNpcAttack.
Qed.

Definition spawns_politely (m : C2DMsg) (sid : Z) (w : World) : Prop :=
  m = C2DRequestSpawnMe -> forall s, own sid w = Some s -> GetInteractingContainerId s = -1.

Lemma handle_message_adv m addr sid w s :
  own sid w = Some s -> adv 1 (spawns_politely m sid w) w (exec (handle_message m addr sid) w).
Proof.
  intros Hs. assert (Hcalm : forall w', calm w w' -> adv 1 (spawns_politely m sid w) w w').
  { intros w' Hc. apply (adv_mono 0); [done|]. by apply still_adv, calm_still. }
  destruct m; cbn [handle_message].
  - apply Hcalm, calm_ChannelOpen.
  - apply Hcalm, calm_HeartBeat.
  - apply Hcalm, calm_RequestBlueprint.
  - intros Hi Hb. destruct (SpawnMe_adv sid s w Hs Hi Hb) as (? & ? & ?). split_and!; [done|lia|lia|].
    intros Hp. auto.
  - apply Hcalm, calm_RequestSpawnByObjectId.
  - apply Hcalm, calm_UpdatePlayerState.
  - apply Hcalm, calm_RequestSpawnPlayerObjects.
  - apply Hcalm, calm_LoadingComplete.
  - apply (adv_mono 0); [done|]. apply adv_OpenContainer.
  - apply (adv_mono 0); [done|]. apply adv_CloseContainer.
  - apply Hcalm, calm_Interact.
  - apply Hcalm, calm_Equip.
  - apply Hcalm, calm_RecentInventoryInfo.
  - apply Hcalm, calm_WeaponFire.
  - apply Hcalm, calm_RequestRecall.
  - apply Hcalm, calm_SwitchWeapon.
  - apply Hcalm, calm_Reload.
  - apply Hcalm, calm_NotifyReloadSequence.
  - apply Hcalm, calm_npc_request.
  - apply Hcalm, calm_npc_request.
  - apply Hcalm, calm_ReportNpcAttack.
Qed.

(** The gate: dropped, or the channel brought up to date and, for a packet that is
    new and parses, the handler run. *)
Lemma HandleClientPacket_path bytes addr w :
  let w' := exec (HandleClientPacket bytes addr) w in
  let sid := i16 (h_sessionId (decode_udp bytes)) in
  w' = w \/
  exists s ch, sess w !! sid = Some s /\ UDP_HEADER_SIZE <= Z.of_nat (length bytes) /\
    packetId (decode_udp bytes) < PKT_ID_MAX /\ check_signature bytes (_securityKey s) = true /\
    let w1 := exec (upd_session sid (fun s => s <| s_rudp := ch |>)) w in
    w' = w1 \/
    exists m, ext_parse (packetId (decode_udp bytes)) (drop 35 bytes) = Some m /\ w' = exec (handle_message m addr sid) w1.
Proof.
  cbn zeta. set (w' := exec (HandleClientPacket bytes addr) w).
  assert (Hw : w' = snd (HandleClientPacket bytes addr w)) by done. clearbody w'. unfold HandleClientPacket in Hw.
  destruct (Z.ltb_spec (Z.of_nat (length bytes)) UDP_HEADER_SIZE); [by left|].
  destruct (Z.leb_spec PKT_ID_MAX (packetId (decode_udp bytes))); [by left|].
  set (sid := i16 _) in *. destruct (_playerSessions (w_room w) !! sid) as [s|] eqn:Hs; [|by left].
  destruct (check_signature bytes (_securityKey s)) eqn:Hsig; [|by left]. cbn [negb] in Hw.
  destruct (receive_header _ _ _) as [ok ch]. right. exists s, ch. split_and!; try done.
  destruct ok; [|by left]. cbn [negb] in Hw. destruct (ext_parse _ _) as [m|]; [|by left]. right. by exists m.
Qed.

Definition step_cost (w : World) : Z := sessions w + 1.

(** The sessions of a room stay the same. *)
Definition kept (w w' : World) : Prop :=
  leave_inv w' /\ forall sid, own sid w' = None <-> own sid w = None.

Lemma soft_kept w w' : leave_inv w -> soft w w' -> kept w w'.
Proof.
  intros Hl Hs. split; [by eapply soft_leave_inv|]. intros sid. split; [|apply (sf_none _ _ Hs)].
  intros Hn. destruct (own sid w) eqn:Ho; [|done]. destruct (sf_some _ _ Hs _ _ Ho) as (? & ? & _). congruence.
Qed.
Lemma kept_trans w w1 w2 : kept w w1 -> kept w1 w2 -> kept w w2.
Proof. intros [_ H1] [H2 H3]. split; [done|]. intros sid. by rewrite H3, H1. Qed.
Lemma ProcessLeaves_kept w : leave_inv w -> kept w (exec ProcessLeaves w).
Proof.
  intros Hl. split; [by apply ProcessLeaves_leave_inv|]. intros sid.
  destruct (ProcessLeaves_steps w (li_uids _ Hl)) as (_ & Hnone & Hsome & _). split; [|apply Hnone].
  intros Hn. destruct (own sid w) eqn:Ho; [|done].
  destruct (Hsome _ _ Ho) as (es & _ & [_ (rs & s' & _ & Hs' & _)]). congruence.
Qed.

Lemma step_kept l w : leave_inv w -> kept w (step l w).
Proof.
  intros Hl. destruct l as [bytes addr|sid uid g| | |sid|sid ip|ms]; cbn [step].
  - destruct (HandleClientPacket_path bytes addr w) as [->|(s & ch & Hs & _ & _ & _ & Hp)]; [by apply soft_kept|].
    set (w1 := exec (upd_session _ _) w) in Hp. cbn zeta in Hp.
    assert (H1 : kept w w1) by (apply soft_kept, calm_soft, calm_upd_bland, _; done).
    destruct Hp as [->|(m & _ & ->)]; [done|]. eapply kept_trans; [exact H1|].
    apply soft_kept; [apply H1|apply handle_message_soft, H1].
  - apply soft_kept; [done|]. destruct (RecallTick_calm sid uid g w) as [H|(w1 & n & H1 & ->)]; [by apply calm_soft|].
    etrans; [apply calm_soft; exact H1|by apply mark_leaving_soft].
  - unfold room_update. rewrite exec_bind. pose proof (ProcessLeaves_kept w Hl) as H1.
    eapply kept_trans; [exact H1|]. apply soft_kept; [apply H1|apply calm_soft, calm_Update].
  - by apply soft_kept, calm_soft, calm_UpdateNpcStates.
  - by apply soft_kept, calm_soft, calm_Retransmit.
  - by apply soft_kept, calm_soft, calm_upd_bland, _.
  - by apply soft_kept, calm_soft, calm_wait.
Qed.

Lemma step_adv l w : adv (step_cost w) (polite_step l w) w (step l w).
Proof.
  assert (Hc : 0 <= sessions w) by (unfold sessions; lia). unfold step_cost.
  assert (H0 : forall P w', adv 0 P w w' -> adv (sessions w + 1) P w w') by (intros; apply (adv_mono 0); [lia|done]).
  destruct l as [bytes addr|sid uid g| | |sid|sid ip|ms]; cbn [step polite_step].
  - destruct (HandleClientPacket_path bytes addr w) as [->|(s & ch & Hs & _ & _ & _ & Hp)]; [by apply H0, still_adv|].
    set (sid := i16 _) in *. set (w1 := exec (upd_session _ _) w) in Hp. cbn zeta in Hp.
    assert (H1 : calm w w1) by apply calm_upd_bland, _.
    destruct Hp as [->|(m & Hm & ->)]; [by apply H0, still_adv, calm_still|].
    assert (Ho : own sid w = Some (strip s)) by (unfold own; by rewrite Hs).
    destruct (cm_some _ _ H1 _ _ Ho) as (s1 & Hs1 & C1).
    apply (adv_mono 1); [lia|]. intros Hi Hb.
    destruct (still_adv w w1 True (calm_still _ _ H1) Hi ltac:(lia)) as (Hi1 & Hn1 & Hh1).
    destruct (handle_message_adv m addr sid w1 s1 Hs1 Hi1 ltac:(lia)) as (Hi2 & Hn2 & Hh2).
    split_and!; [done|lia|lia|]. intros Hp Hh. apply Hh2; [|by apply Hh1].
    intros -> s2 Hs2. rewrite Hs1 in Hs2. injection Hs2 as <-. rewrite (cs_container _ _ C1). by apply Hp.
  - apply H0. destruct (RecallTick_calm sid uid g w) as [H|(w1 & n & H1 & ->)]; [by apply still_adv, calm_still|].
    apply still_adv. etrans; [apply calm_still; exact H1|apply mark_leaving_still].
  - unfold room_update. rewrite exec_bind. apply (adv_mono (sessions w)); [lia|].
    eapply adv_seq; [lia|apply adv_ProcessLeaves|apply still_adv, calm_still, calm_Update].
  - by apply H0, still_adv, calm_still, calm_UpdateNpcStates.
  - by apply H0, still_adv, calm_still, calm_Retransmit.
  - by apply H0, still_adv, calm_still, calm_upd_bland, _.
  - by apply H0, still_adv, calm_still, calm_wait.
Qed.

(** *** Runs *)

Fixpoint polite (ls : list Label) (w : World) : Prop :=
  match ls with [] => True | l :: ls' => polite_step l w /\ polite ls' (step l w) end.

(** The same, decided. *)
Definition polite_stepb (l : Label) (w : World) : bool :=
  match l with
  | LPacket bytes _ =>
      let h := decode_udp bytes in
      match ext_parse (packetId h) (drop 35 bytes) with
      | Some C2DRequestSpawnMe =>
          match own (i16 (h_sessionId h)) w with
          | Some s => GetInteractingContainerId s =? -1
          | None => true
          end
      | _ => true
      end
  | _ => true
  end.
Fixpoint politeb (ls : list Label) (w : World) : bool :=
  match ls with [] => true | l :: ls' => polite_stepb l w && politeb ls' (step l w) end.

Lemma politeb_spec ls w : politeb ls w = true -> polite ls w.
Proof.
  revert w. induction ls as [|l ls IH]; intros w; [done|]. cbn [politeb polite]. intros [H1 H2]%andb_true_iff.
  split; [|by apply IH]. destruct l as [bytes addr| | | | | |]; try done. cbn [polite_step polite_stepb] in *.
  intros Hx s Hs. rewrite Hx, Hs in H1. by apply Z.eqb_eq.
Qed.

(** Enough object ids are left for a run of [n] steps: a step hands out at most one
    per session, for the loot of the dead, and one for a player spawned. *)
Definition ids_left (n : nat) (w : World) : Prop := nxt w + Z.of_nat n * (sessions w + 1) < 2 ^ 31.

Lemma run_inv ls w :
  room_inv w -> ids_left (length ls) w ->
  room_inv (run ls w) /\ (polite ls w -> hold_inv w -> hold_inv (run ls w)).
Proof.
  revert w. induction ls as [|l ls IH]; intros w Hr Hb; [by split|].
  apply leave_inv_ids in Hr as [Hl Hi]. destruct (step_kept l w Hl) as [Hl1 Hown].
  pose proof (same_sessions w (step l w) Hown) as Hs1. assert (Hpos : 0 <= sessions w) by (unfold sessions; lia).
  unfold ids_left in Hb. cbn [length] in Hb. rewrite Nat2Z.inj_succ in Hb.
  destruct (step_adv l w Hi ltac:(unfold step_cost; nia)) as (Hi1 & Hn1 & Hh1). unfold step_cost in Hn1.
  destruct (IH (step l w)) as [H1 H2].
  - by apply leave_inv_ids.
  - unfold ids_left. rewrite Hs1. nia.
  - cbn [run polite]. split; [exact H1|]. intros [Hp1 Hp2] Hh. auto.
Qed.
End processing.

(** ** A concrete room

    Two players in play, one container where they spawn. *)

Definition player_at (sid uid : Z) (name : string) : PlayerSession :=
  (new_PlayerSession "ticket" "token" sid 0 uid name 1000 sample_bag sample_equipment 1 4242)
    <| _sessionState := SS_INPLAY |>.

Definition sample_world : World :=
  mk_world ((new_GameRoom 1 1 0)
    <| _playerSessions := {[ 0 := player_at 0 77 "ana"; 1 := player_at 1 78 "bo" ]} |>
    <| _spawnSpots := [vector3_zero] |> <| _nxtObjectId := 1 |>
    <| _staticObjects := {[ 0 := GContainer (InitializeSlots 8 (new_Container 0 OT_PlayerLoot true vector3_zero)) ]} |>)
    1000 [] false.

Lemma sample_world_own sid s : own sid sample_world = Some s ->
  sid = 0 /\ s = strip (player_at 0 77 "ana") \/ sid = 1 /\ s = strip (player_at 1 78 "bo").
Proof.
  unfold own, sess. change (_playerSessions (w_room sample_world)) with
    ({[ 0 := player_at 0 77 "ana"; 1 := player_at 1 78 "bo" ]} : gmap Z PlayerSession).
  rewrite fmap_Some. intros (s0 & H & ->). apply lookup_insert_Some in H as [[<- <-]|[_ H]]; [by left|].
  apply lookup_singleton_Some in H as [<- <-]. by right.
Qed.

Lemma sample_world_inv : room_inv sample_world /\ hold_inv sample_world.
Proof.
  assert (Hown := sample_world_own). split.
  - constructor.
    + intros sid1 sid2 s1 s2 H1 H2. destruct (Hown _ _ H1) as [[-> ->]|[-> ->]], (Hown _ _ H2) as [[-> ->]|[-> ->]]; done.
    + intros sid s H.
      destruct (Hown _ _ H) as [[-> ->]|[-> ->]]; (split; [split; vm_compute; [split; [done|intros []; done]|done]|vm_compute; intros []; done]).
    + intros sid s H. destruct (Hown _ _ H) as [[-> ->]|[-> ->]]; reflexivity.
    + reflexivity.
    + constructor.
      * vm_compute. done.
      * intros i [o Ho]. unfold FindNonplayerObject in Ho.
        change (_staticObjects (w_room sample_world)) with
          ({[ 0 := GContainer (InitializeSlots 8 (new_Container 0 OT_PlayerLoot true vector3_zero)) ]} : gmap Z GameObject) in Ho.
        change (_dynamicObjects (w_room sample_world)) with (∅ : gmap Z GameObject) in Ho.
        destruct (_ !! i) eqn:Hi in Ho; [|by rewrite lookup_empty in Ho].
        apply lookup_singleton_Some in Hi as [<- _]. by vm_compute.
      * intros sid s H. left. by destruct (Hown _ _ H) as [[-> ->]|[-> ->]].
      * intros sid1 sid2 s1 s2 H1 H2 _ Hne. exfalso. apply Hne. by destruct (Hown _ _ H1) as [[-> ->]|[-> ->]].
  - intros sid s H Hc. exfalso. apply Hc. by destruct (Hown _ _ H) as [[-> ->]|[-> ->]].
Qed.

#[local] Existing Instance sample_external.

(** A reliable datagram of a client, signed with the session's key. *)
Definition datagram (id sid rseq : Z) (payload : list Z) : Label :=
  let h := mk_udp 0 id sid rseq 0 FLAG_RELIABLE 0 0 0 0 in
  LPacket (encode_udp (h <| signature := sign (encode_udp h ++ payload) 4242 |>) ++ payload) (mk_sockaddr 0 0).

(** Both enter, the first opens the container, the second tries to; then the room's
    time is over. *)
Definition sample_run : list Label :=
  [datagram 6 0 1 []; datagram 6 1 1 []; datagram 18 0 2 [0]; datagram 18 1 2 [0];
   LClock 700000; LUpdate; LClock 6000; LUpdate; LUpdateNpcs].

(** ** Theorems *)

Section theorems.
Context {E : External} {L : ExternalLaws E}.

(** C1. Whatever datagrams arrive, timers fire and updates run, in any order: the main
    process is told of every player who has been detached from the room, exactly once,
    with the final reason and with items only for a recalled one; it is told of nobody
    who has not; and the destruction of the room is asked for at most once, when
    every session is finalized. *)
Theorem departures_heard_once ls w :
  room_inv w -> ids_left (length ls) w ->
  let w' := run ls w in
  (forall sid s, own sid w' = Some s ->
     if 2 <=? leave_rank (_leaveState (s_leave s)) then
       exists m, told (session_uid s) (w_out w') = [OutLeft m] /\ pl_leave_reason m = _leaveReason (s_leave s) /\
         (pl_leave_reason m <> LR_RECALLED -> pl_inventory m = [] /\ pl_equipment m = [])
     else told (session_uid s) (w_out w') = []) /\
  (reserves (w_out w') = [] \/
   reserves (w_out w') = [OutReserveDestroy (_roomId (w_room w'))] /\ all_finalized w').
Proof.
  intros Hr Hb w'. destruct (run_inv ls w Hr Hb) as [[_ _ Hh Hrep _] _]. fold w' in Hh, Hrep. split; [exact Hh|].
  unfold report_ok in Hrep. destruct (_allLeftReported (w_room w')); [by right|by left].
Qed.

(** C6. Detached players are powerless in every run: a session whose player has been
    detached has no object, no open container and no recall running, and may at most
    watch, which only the dead may during their grace. *)
Theorem detached_stay_powerless ls w sid s :
  room_inv w -> ids_left (length ls) w -> own sid (run ls w) = Some s ->
  2 <= leave_rank (_leaveState (s_leave s)) ->
  GetObjectId s = -1 /\ GetInteractingContainerId s = -1 /\ _isRecalling (s_recall s) = false /\
  IsActiveState s = false /\ (IsSpectating s = true -> _leaveReason (s_leave s) = LR_DEAD).
Proof.
  intros Hr Hb Hs Hrank. destruct (run_inv ls w Hr Hb) as [[_ Hi _ _ _] _]. destruct (Hi sid s Hs) as [_ Hg].
  destruct (Hg Hrank) as (H1 & H2 & H3 & H4). split_and!; try done; [by apply gone_inactive|].
  unfold IsSpectating. rewrite H4. by destruct (bool_decide_reflect (_leaveReason (s_leave s) = LR_DEAD)).
Qed.

(** C20. A room whose lifetime is over goes away: when [ProcessLeaves] has run once and
    again after the grace of the dead, every session is finalized and the room's
    destruction has been reserved, exactly once in the room's life, whatever the clients
    sent or failed to acknowledge before. *)
Theorem expired_room_is_destroyed d w :
  room_inv w -> marks_past w -> room_expired w -> DEATH_GRACE_MS <= d < 2 ^ 31 ->
  let w2 := exec ProcessLeaves (wait d (exec ProcessLeaves w)) in
  all_finalized w2 /\ reserves (w_out w2) = [OutReserveDestroy (_roomId (w_room w))].
Proof.
  intros [Hi _]%leave_inv_ids Hp Hexp Hd w2.
  destruct (expired_room_finalized d w (li_uids _ Hi) (li_sessions _ Hi) Hp Hexp Hd) as [Hall Hrep]. fold w2 in Hall, Hrep. split; [done|].
  assert (Hi1 : leave_inv (wait d (exec ProcessLeaves w))) by (destruct (ProcessLeaves_leave_inv w Hi); by constructor).
  pose proof (li_report _ (ProcessLeaves_leave_inv _ Hi1)) as H. unfold report_ok in H. fold w2 in H. rewrite Hrep in H.
  destruct H as [-> _]. unfold w2. rewrite ProcessLeaves_id. change (_roomId (w_room (wait d ?x))) with (_roomId (w_room x)). by rewrite ProcessLeaves_id.
Qed.

(** C5. A container has one user at a time: over every run in which clients ask to be
    spawned only while they have no container open, two sessions never have the same
    container open, and the container knows the object of the one that does. *)
Theorem container_has_one_user ls w sid1 sid2 s1 s2 :
  room_inv w -> hold_inv w -> ids_left (length ls) w -> polite ls w ->
  own sid1 (run ls w) = Some s1 -> own sid2 (run ls w) = Some s2 ->
  GetInteractingContainerId s1 <> -1 -> GetInteractingContainerId s2 = GetInteractingContainerId s1 ->
  sid1 = sid2 /\
  occupant (u32 (GetInteractingContainerId s1)) (run ls w) = Some (u32 (GetObjectId s1)).
Proof.
  intros Hr Hh Hb Hp H1 H2 Hne Heq. destruct (run_inv ls w Hr Hb) as [Hr' Hh']. specialize (Hh' Hp Hh).
  destruct (Hh' _ _ H1 Hne) as [Ho1 Hc1]. destruct (Hh' sid2 s2 H2) as [Ho2 Hc2]; [congruence|].
  split; [|exact Hc1]. apply (ids_u32 _ sid1 sid2 s1 s2 (ri_ids _ Hr')); [done..|]. rewrite Heq in Hc2. congruence.
Qed.
End theorems.

(** ** A second spawn *)

Section respawn.
Context {E : External} {L : ExternalLaws E}.






End respawn.

(** ** Witnesses *)

#[local] Existing Instance sample_laws.

Lemma sample_ids_left : ids_left (length sample_run) sample_world.
Proof. vm_compute. done. Qed.

Definition summary (o : option PlayerSession) : option (Z * LeaveState * Z * Z) :=
  (fun s => (session_uid s, _leaveState (s_leave s), GetObjectId s, GetInteractingContainerId s)) <$> o.

Lemma summary_Some o x : summary o = Some x -> exists s, o = Some s /\
  (session_uid s, _leaveState (s_leave s), GetObjectId s, GetInteractingContainerId s) = x.
Proof. destruct o as [s|]; [|done]. intros [= <-]. by exists s. Qed.

Lemma departures_heard_once_witness :
  (exists m, told 77 (w_out (run sample_run sample_world)) = [OutLeft m]) /\
  (exists m, told 78 (w_out (run sample_run sample_world)) = [OutLeft m]) /\
  reserves (w_out (run sample_run sample_world)) = [OutReserveDestroy 1].
Proof.
  destruct (departures_heard_once sample_run sample_world (proj1 sample_world_inv) sample_ids_left) as [H _].
  assert (E0 : summary (own 0 (run sample_run sample_world)) = Some (77, LS_FINALIZED, -1, -1)) by (vm_compute; reflexivity).
  assert (E1 : summary (own 1 (run sample_run sample_world)) = Some (78, LS_FINALIZED, -1, -1)) by (vm_compute; reflexivity).
  apply summary_Some in E0 as (s0 & Hs0 & E0), E1 as (s1 & Hs1 & E1). injection E0 as Hu0 Hl0 _ _. injection E1 as Hu1 Hl1 _ _.
  pose proof (H 0 s0 Hs0) as H0. pose proof (H 1 s1 Hs1) as H1. rewrite Hl0, Hu0 in H0. rewrite Hl1, Hu1 in H1.
  split_and!; [by destruct H0 as (m & Hm & _); exists m|by destruct H1 as (m & Hm & _); exists m|vm_compute; reflexivity].
Defined.

Lemma detached_stay_powerless_witness :
  exists s, own 0 (run sample_run sample_world) = Some s /\ IsActiveState s = false /\ GetObjectId s = -1.
Proof.
  assert (E0 : summary (own 0 (run sample_run sample_world)) = Some (77, LS_FINALIZED, -1, -1)) by (vm_compute; reflexivity).
  apply summary_Some in E0 as (s0 & Hs0 & E0). injection E0 as _ Hl0 _ _. exists s0.
  destruct (detached_stay_powerless sample_run sample_world 0 s0 (proj1 sample_world_inv) sample_ids_left Hs0
              ltac:(rewrite Hl0; done)) as (H1 & _ & _ & H4 & _).
  split; [exact Hs0|split; [exact H4|exact H1]].
Defined.

Lemma container_has_one_user_witness :
  exists s, own 0 (run (take 4 sample_run) sample_world) = Some s /\ GetInteractingContainerId s = 0 /\
    occupant 0 (run (take 4 sample_run) sample_world) = Some 1.
Proof.
  assert (E0 : summary (own 0 (run (take 4 sample_run) sample_world)) = Some (77, LS_NONE, 1, 0)) by (vm_compute; reflexivity).
  apply summary_Some in E0 as (s0 & Hs0 & E0). injection E0 as _ _ Ho0 Hc0. exists s0.
  assert (Hp : polite (take 4 sample_run) sample_world) by (apply politeb_spec; vm_compute; reflexivity).
  destruct (container_has_one_user (take 4 sample_run) sample_world 0 0 s0 s0 (proj1 sample_world_inv)
    (proj2 sample_world_inv) ltac:(vm_compute; done) Hp Hs0 Hs0 ltac:(rewrite Hc0; discriminate) eq_refl) as [_ Hocc].
  rewrite Hc0, Ho0 in Hocc. split; [exact Hs0|split; [exact Hc0|exact Hocc]].
Defined.









Definition late_world : World := sample_world <| w_now := 700000 |>.

Lemma expired_room_is_destroyed_witness :
  let w2 := exec ProcessLeaves (wait 5000 (exec ProcessLeaves late_world)) in
  all_finalized w2 /\ reserves (w_out w2) = [OutReserveDestroy 1].
Proof.
  assert (Hinv : room_inv late_world) by (destruct (proj1 sample_world_inv) as [H1 H2 H3 H4 [H5 H6 H7 H8]]; by constructor).
  refine (expired_room_is_destroyed 5000 late_world Hinv _ _ _).
  - intros sid s Hs Hl. exfalso. apply Hl. by destruct (sample_world_own sid s Hs) as [[_ ->]|[_ ->]].
  - by vm_compute.
  - by vm_compute.
Defined.

(** The first player lies dead with what it entered with. *)
Definition fallen : PlayerSession :=
  SetObjectId 5 (player_at 0 77 "ana") <| s_leave := mk_leave LS_PENDING LR_DEAD 1000 0 false |>.
Definition fallen_object : PlayerObject := new_PlayerObject 5 vector3_zero 1 "ana".
Definition fallen_world : World :=
  sample_world <| w_room ::= fun r => r <| _playerSessions := {[ 0 := fallen ]} |>
    <| _nxtObjectId := 6 |> <| _playerObjects := {[ 5 := fallen_object ]} |> |>.

Lemma death_leaves_loot_witness :
  exists k, _dynamicObjects (w_room (exec (DetachPlayer 0) fallen_world)) !! 6 = Some (GContainer k) /\
    Items.total 5 (k_inventorySlots k) = 40.
Proof.
  destruct (death_leaves_loot 0 fallen fallen_object fallen_world eq_refl eq_refl ltac:(done) eq_refl
              (ok_core _ sample_ok) ltac:(intros [o Ho]; by vm_compute in Ho))
    as (_ & (k & Hk & _ & _ & H) & _).
  exists k. split; [exact Hk|]. rewrite (H 5 ltac:(done)). vm_compute. reflexivity.
Defined.

Lemma snapshot_complete_witness :
  chunked 0 (map (fun o => Geometry.Serialize (object_of o)) (values (_staticObjects (w_room sample_world))))
    (fill_objects (_staticObjects (w_room sample_world))).
Proof.
  refine (proj1 (proj2 (snapshot_complete (_staticObjects (w_room sample_world)) _ _))).
  - change (_staticObjects (w_room sample_world)) with
      ({[ 0 := GContainer (InitializeSlots 8 (new_Container 0 OT_PlayerLoot true vector3_zero)) ]} : gmap Z GameObject).
    apply Forall_true. intros o. by vm_compute.
  - by vm_compute.
Defined.
