(* ===== verification/Goods.v ===== *)
(** * What a room holds

    What a room holds of a blueprint: in the bags of the players the main process has
    not been told about, in its containers, and in the rows the main process has been
    told.  A step is frugal when it keeps bags and containers well formed and lets this
    sum only fall.  This file has the sums over maps, the frugal changes of a session
    and of an object, and the accounts of the requests that move items between the
    two; Thrift.v has the steps of a room. *)

From S2P Require Import Prelude Items Inventory Transport Geometry MapData Combat Container Buffers.
From S2P Require Import Protocol Session Room Handlers Calm Safety.
Local Open Scope Z_scope.

(** ** Sums over maps *)

Definition msum {A} (f : A -> Z) (m : gmap Z A) : Z := map_fold (fun _ x n => f x + n) 0 m.

(** ** What a room holds *)

Definition purse (bp : Z) (s : PlayerSession) : Z :=
  if _leftNotified (s_leave s) then 0 else grand bp (GetInventory s).
Definition crate (o : GameObject) : list Slot :=
  match o with GContainer k => k_inventorySlots k | GNpc _ => [] end.
Definition told_rows (bp : Z) (o : Output) : Z :=
  match o with OutLeft m => rows_total bp (pl_inventory m) + rows_total bp (pl_equipment m) | _ => 0 end.
Definition reported (bp : Z) (l : list Output) : Z := foldr (fun o n => told_rows bp o + n) 0 l.

Definition goods (bp : Z) (w : World) : Z :=
  msum (purse bp) (sess w) + msum (fun o => total bp (crate o)) (_staticObjects (w_room w))
  + msum (fun o => total bp (crate o)) (_dynamicObjects (w_room w)) + reported bp (w_out w).

(** Bags and containers are well formed, and nobody who stays has been reported. *)
Record bag_ok (s : PlayerSession) : Prop := {
  bo_inv : inv_ok (GetInventory s);
  bo_version : is_u32 (_inventoryVersion (GetInventory s));
  bo_early : leave_rank (_leaveState (s_leave s)) < 2 -> _leftNotified (s_leave s) = false }.
Definition crate_ok (o : GameObject) : Prop := Forall slot_wf (crate o).

Record bags_ok (w : World) : Prop := {
  bs_sessions : map_Forall (fun _ => bag_ok) (sess w);
  bs_static : map_Forall (fun _ => crate_ok) (_staticObjects (w_room w));
  bs_dynamic : map_Forall (fun _ => crate_ok) (_dynamicObjects (w_room w));
  bs_out : forall bp, bp <> 0 -> 0 <= reported bp (w_out w) }.

(** A step that duplicates nothing, and one that moreover reports nobody. *)
Definition frugal (w w' : World) : Prop :=
  bags_ok w -> bags_ok w' /\ forall bp, bp <> 0 -> goods bp w' <= goods bp w.
Definition unsent (sid : Z) (w : World) : Prop :=
  forall s, own sid w = Some s -> _leftNotified (s_leave s) = false.
Record hush (w w' : World) : Prop := {
  hu_frugal : frugal w w';
  hu_unsent : forall sid, unsent sid w -> unsent sid w' }.

(** ** Lemmas on sums *)

Lemma insert_alter {A} (m : gmap Z A) i x y : m !! i = Some x -> <[i := y]> m = alter (fun _ => y) i m.
Proof.
  intros H. apply map_eq. intros j. destruct (decide (i = j)) as [<-|].
  - by rewrite lookup_insert_eq, lookup_alter_eq, H.
  - by rewrite lookup_insert_ne, lookup_alter_ne.
Qed.

Section sums.
Context {A : Type} (f : A -> Z).
Implicit Types m : gmap Z A.

Lemma msum_insert m i x : m !! i = None -> msum f (<[i := x]> m) = f x + msum f m.
Proof. intros H. unfold msum. apply (map_fold_insert_L (fun _ x n => f x + n)); [intros; lia|done]. Qed.
Lemma msum_delete m i x : m !! i = Some x -> msum f (delete i m) = msum f m - f x.
Proof.
  intros H. unfold msum. rewrite (map_fold_delete_L (fun _ x n => f x + n) 0 i x m); [lia|intros; lia|done].
Qed.
Lemma msum_alter g m i x : m !! i = Some x -> msum f (alter g i m) = msum f m - f x + f (g x).
Proof.
  intros H. assert (Ha : alter g i m = <[i := g x]> (delete i m)).
  { apply map_eq. intros j. destruct (decide (i = j)) as [<-|].
    - by rewrite lookup_alter_eq, lookup_insert_eq, H.
    - by rewrite lookup_alter_ne, lookup_insert_ne, lookup_delete_ne. }
  rewrite Ha, msum_insert, (msum_delete m i x) by (done || apply lookup_delete_eq). lia.
Qed.
Lemma msum_fmap {B} (g : B -> A) (m : gmap Z B) : msum f (g <$> m) = msum (fun x => f (g x)) m.
Proof. unfold msum. by rewrite map_fold_fmap. Qed.
Lemma msum_nonneg m : map_Forall (fun _ x => 0 <= f x) m -> 0 <= msum f m.
Proof.
  induction m as [|i x m Hi IH] using map_ind; [done|].
  intros H. rewrite msum_insert by done. apply map_Forall_insert in H as [H1 H2]; [|done]. specialize (IH H2). lia.
Qed.
Lemma msum_elem m i x : map_Forall (fun _ x => 0 <= f x) m -> m !! i = Some x -> f x <= msum f m.
Proof.
  intros H Hi. pose proof (msum_delete m i x Hi). pose proof (msum_nonneg (delete i m) (map_Forall_delete _ _ _ H)). lia.
Qed.
End sums.

Lemma reported_app bp l l' : reported bp (l ++ l') = reported bp l + reported bp l'.
Proof. induction l as [|o l IH]; simpl; [done|]. rewrite IH. lia. Qed.
Lemma reported_side bp l : reported bp (side l) = reported bp l.
Proof. induction l as [|[] l IH]; simpl; rewrite ?IH; lia. Qed.

Lemma grand_nonneg bp inv : inv_ok inv -> 0 <= grand bp inv.
Proof.
  intros [[_ Hs Hw Ha Hm] _]. unfold grand. pose proof (total_nonneg bp _ Hs).
  pose proof (count_nonneg bp _ (Hw true)). pose proof (count_nonneg bp _ (Hw false)). pose proof (count_nonneg bp _ Ha).
  pose proof (count_nonneg bp _ (proj1 (Hm true))). pose proof (count_nonneg bp _ (proj1 (Hm false))).
  simpl in *. lia.
Qed.

(** Writing a slot, in range or not. *)
Lemma total_write bp i s (l : list Slot) : bp <> 0 -> slot_wf s ->
  total bp (<[i := s]> l) <= total bp l - count bp (default slot_default (l !! i)) + count bp s.
Proof.
  intros Hbp Hs. pose proof (count_nonneg bp s Hs). revert i; induction l as [|x l IH]; intros i; simpl.
  - assert (count bp slot_default = 0) by by apply count_empty. lia.
  - destruct i as [|i]; simpl; [lia|]. specialize (IH i). lia.
Qed.

(** ** Frugal steps *)

#[export] Instance frugal_preorder : PreOrder frugal.
Proof.
  split; [by intros w H; split; [|intros; lia]|]. intros w1 w2 w3 F1 F2 Hb. 
  destruct (F1 Hb) as [Hb2 G1]. destruct (F2 Hb2) as [Hb3 G2].
  split; [done|]. intros bp Hbp. specialize (G1 bp Hbp). specialize (G2 bp Hbp). lia.
Qed.
#[export] Instance hush_preorder : PreOrder hush.
Proof. split; [by split|]. intros w1 w2 w3 [] []. split; [by etrans|auto]. Qed.

(** What [bags_ok] and [goods] see of a world. *)
Lemma bags_fmap (m m' : gmap Z PlayerSession) : strip <$> m' = strip <$> m ->
  map_Forall (fun _ => bag_ok) m -> map_Forall (fun _ => bag_ok) m'.
Proof.
  intros Hm H sid s' Hs'. assert (Hl : strip <$> m !! sid = Some (strip s')).
  { by rewrite <- lookup_fmap, <- Hm, lookup_fmap, Hs'. }
  destruct (m !! sid) as [s|] eqn:Hs; [|done]. apply (inj Some) in Hl. destruct (H sid s Hs) as [H1 H2 H3].
  change (GetInventory s) with (GetInventory (strip s)) in H1, H2. change (s_leave s) with (s_leave (strip s)) in H3.
  rewrite Hl in H1, H2, H3. by constructor.
Qed.

Lemma purses_fmap bp (m m' : gmap Z PlayerSession) : strip <$> m' = strip <$> m -> msum (purse bp) m' = msum (purse bp) m.
Proof.
  intros Hm. assert (H : forall m, msum (purse bp) m = msum (purse bp) (strip <$> m)) by (intros; by rewrite msum_fmap).
  by rewrite (H m), (H m'), Hm.
Qed.

Lemma frugal_view w w' : view w' = view w -> frugal w w'.
Proof.
  intros Hv. assert (Hm : strip <$> sess w' = strip <$> sess w) by exact (f_equal (fun v => _playerSessions (w_room v)) Hv).
  pose proof (view_static _ _ Hv) as Hs. pose proof (view_dynamic _ _ Hv) as Hd.
  assert (Hr : forall bp, reported bp (w_out w') = reported bp (w_out w)).
  { intros bp. by rewrite <- (reported_side bp (w_out w')), (view_side _ _ Hv), reported_side. }
  intros []. split.
  - constructor; rewrite ?Hs, ?Hd; [by eapply bags_fmap|done..|]. intros bp. rewrite Hr. auto.
  - intros bp _. unfold goods. rewrite Hs, Hd, (purses_fmap bp _ _ Hm), Hr. lia.
Qed.
Lemma hush_view w w' : view w' = view w -> hush w w'.
Proof. intros Hv. split; [by apply frugal_view|]. intros sid. unfold unsent. by rewrite (view_own _ _ _ Hv). Qed.
#[export] Instance hush_walk {E : External} {L : ExternalLaws E} : Walk hush.
Proof. split; [apply _|]. intros. apply hush_view, Send_view. Qed.
#[export] Instance frugal_walk {E : External} {L : ExternalLaws E} : Walk frugal.
Proof. split; [apply _|]. intros. apply frugal_view, Send_view. Qed.

(** A step that touches none of it. *)
Lemma hush_same w w' :
  sess w' = sess w -> _staticObjects (w_room w') = _staticObjects (w_room w) ->
  _dynamicObjects (w_room w') = _dynamicObjects (w_room w) -> (forall bp, reported bp (w_out w') = reported bp (w_out w)) ->
  hush w w'.
Proof.
  intros H1 H2 H3 H4. split.
  - intros []. split; [constructor; rewrite ?H1, ?H2, ?H3; try done; intros bp; rewrite H4; auto|]. intros bp _.
    unfold goods. rewrite H1, H2, H3, H4. lia.
  - intros sid. unfold unsent, own. by rewrite H1.
Qed.

(** Changing a session. *)
Lemma sess_upd_session sid f w : sess (exec (upd_session sid f) w) = alter f sid (sess w).
Proof. done. Qed.

Lemma bags_upd_session sid f w : bags_ok w -> (forall s, sess w !! sid = Some s -> bag_ok (f s)) ->
  bags_ok (exec (upd_session sid f) w).
Proof.
  intros [] Hf. constructor; [|done..]. rewrite sess_upd_session. intros i s Hi.
  apply lookup_alter_Some in Hi as [(<- & s0 & Hs0 & ->)|[_ Hi]]; eauto.
Qed.
Lemma goods_upd_session bp sid f w s : sess w !! sid = Some s ->
  goods bp (exec (upd_session sid f) w) = goods bp w - purse bp s + purse bp (f s).
Proof.
  intros Hs. unfold goods. rewrite sess_upd_session, (msum_alter _ f _ sid s) by done.
  change (w_out (exec (upd_session sid f) w)) with (w_out w).
  change (_staticObjects (w_room (exec (upd_session sid f) w))) with (_staticObjects (w_room w)).
  change (_dynamicObjects (w_room (exec (upd_session sid f) w))) with (_dynamicObjects (w_room w)). lia.
Qed.

(** A change that keeps the bag good and adds nothing to it. *)
Record thrifty (s s' : PlayerSession) : Prop := {
  th_sent : _leftNotified (s_leave s') = _leftNotified (s_leave s);
  th_bag : bag_ok s -> bag_ok s' /\ forall bp, bp <> 0 -> purse bp s' <= purse bp s }.

Lemma unsent_upd_session sid f w i :
  (forall s, sess w !! sid = Some s -> _leftNotified (s_leave (f s)) = _leftNotified (s_leave s)) ->
  unsent i w -> unsent i (exec (upd_session sid f) w).
Proof.
  intros Hf Hu s' (s1 & Hs1 & ->)%own_Some. rewrite sess_upd_session in Hs1.
  apply lookup_alter_Some in Hs1 as [(<- & s & Hs & ->)|[_ Hi]].
  - change (_leftNotified (s_leave (f s)) = false). rewrite (Hf s Hs). apply (Hu (strip s)). unfold own. by rewrite Hs.
  - apply (Hu (strip s1)). unfold own. by rewrite Hi.
Qed.

Lemma hush_upd_session sid f w : (forall s, sess w !! sid = Some s -> thrifty s (f s)) -> hush w (exec (upd_session sid f) w).
Proof.
  intros Hf. destruct (sess w !! sid) as [s|] eqn:Hs; [|rewrite upd_session_absent by done; reflexivity].
  destruct (Hf s eq_refl) as [Hsent Hbag]. split.
  - intros Hb. destruct (Hbag (bs_sessions _ Hb sid s Hs)) as [H1 H2]. split.
    + apply bags_upd_session; [done|]. intros s' Hs'. by assert (s' = s) as -> by congruence.
    + intros bp Hbp. rewrite (goods_upd_session bp sid f w s Hs). specialize (H2 bp Hbp). lia.
  - intros i. apply unsent_upd_session. intros s' Hs'. by assert (s' = s) as -> by congruence.
Qed.

(** Most changes leave the bag alone. *)
Class Keeps (f : PlayerSession -> PlayerSession) : Prop := keeps : forall s,
  GetInventory (f s) = GetInventory s /\ _leftNotified (s_leave (f s)) = _leftNotified (s_leave s) /\
  (leave_rank (_leaveState (s_leave (f s))) < 2 -> leave_rank (_leaveState (s_leave s)) < 2).

Lemma keeps_thrifty f s : Keeps f -> thrifty s (f s).
Proof.
  intros Hf. destruct (Hf s) as (H1 & H2 & H3). split; [done|]. intros [B1 B2 B3]. split.
  - constructor; rewrite ?H1, ?H2; auto.
  - intros bp _. unfold purse. rewrite H1, H2. lia.
Qed.
Lemma hush_keeps sid f w : Keeps f -> hush w (exec (upd_session sid f) w).
Proof. intros Hf. apply hush_upd_session. intros s _. by apply keeps_thrifty. Qed.

#[export] Instance SetInteractingContainerId_keeps c : Keeps (SetInteractingContainerId c).
Proof. done. Qed.
#[export] Instance SetObjectId_keeps c : Keeps (SetObjectId c).
Proof. done. Qed.
#[export] Instance SetSessionState_keeps st : Keeps (SetSessionState st).
Proof. done. Qed.
#[export] Instance EndRecall_keeps : Keeps EndRecall.
Proof. done. Qed.
#[export] Instance BeginRecall_keeps i : Keeps (exec (BeginRecall i)).
Proof. intros s. unfold BeginRecall, exec. by destruct (_isRecalling _). Qed.
#[export] Instance SetLeaveState_keeps : Keeps (SetLeaveState LS_DETACHED).
Proof. intros s. by split_and!. Qed.
#[export] Instance SetIp_keeps ip : Keeps (SetIp ip).
Proof. by destruct ip. Qed.
#[export] Instance SetNextFireSequence_keeps n : Keeps (SetNextFireSequence n).
Proof. done. Qed.
#[export] Instance notify_seq_keeps : Keeps (fun s => SetLeaveNotifyRSeq (GetLastSentRSeq (s_rudp s)) s).
Proof. done. Qed.
#[export] Instance rudp_keeps g : Keeps (fun s => s <| s_rudp ::= g s |>).
Proof. done. Qed.
#[export] Instance channel_keeps ch : Keeps (fun s => s <| s_rudp := ch |>).
Proof. done. Qed.
#[export] Instance connect_keeps p : Keeps (fun s => SetSessionState SS_CONNECTED (SetPort p s)).
Proof. done. Qed.
#[export] Instance MarkLeaving_keeps r n now : Keeps (MarkLeaving r n now).
Proof.
  intros s. destruct (MarkLeaving_frame r n now s) as (H1 & _ & _ & _ & _ & _ & H2 & _).
  split_and!; [unfold GetInventory; by rewrite H1|done|]. intros H. apply Z.nle_gt. intros Hr.
  rewrite (MarkLeaving_late r n now s Hr) in H. lia.
Qed.

(** Changing an object. *)
Lemma goods_upd_nonplayer bp oid f w o : FindNonplayerObject oid (w_room w) = Some o ->
  goods bp (exec (upd_nonplayer oid f) w) = goods bp w - total bp (crate o) + total bp (crate (f o)).
Proof.
  unfold FindNonplayerObject, goods, upd_nonplayer, upd_room, modify, exec. cbn [snd setf w_room w_out].
  destruct (_staticObjects (w_room w) !! oid) as [o'|] eqn:Ho; intros; simplify_eq;
    cbn [setf _staticObjects _dynamicObjects]; unfold sess; cbn [setf w_room _playerSessions].
  - rewrite (msum_alter _ f _ oid o) by done. lia.
  - rewrite (msum_alter _ f (_dynamicObjects (w_room w)) oid o) by done. lia.
Qed.
Lemma bags_upd_nonplayer oid f w : bags_ok w ->
  (forall o, FindNonplayerObject oid (w_room w) = Some o -> crate_ok (f o)) -> bags_ok (exec (upd_nonplayer oid f) w).
Proof.
  intros [H1 H2 H3 H4]. unfold FindNonplayerObject, upd_nonplayer, upd_room, modify, exec. cbn [snd setf w_room].
  destruct (_staticObjects (w_room w) !! oid) as [o|] eqn:Ho; intros Hf;
    (constructor; [done| | |done]); cbn [setf w_room _staticObjects _dynamicObjects]; try done;
    intros i x Hi; apply lookup_alter_Some in Hi as [(<- & y & Hy & ->)|[_ Hi]]; simplify_eq; eauto.
Qed.
Lemma absent_upd_nonplayer oid f w : FindNonplayerObject oid (w_room w) = None -> hush w (exec (upd_nonplayer oid f) w).
Proof.
  unfold FindNonplayerObject, upd_nonplayer. intros Hn. unfold upd_room, modify, exec. cbn [snd].
  destruct (_staticObjects (w_room w) !! oid) as [o|] eqn:Ho; [done|].
  apply hush_same; unfold sess; cbn [setf w_room]; rewrite ?Ho; try done. cbn [setf _dynamicObjects].
  apply map_eq. intros j. destruct (decide (oid = j)) as [<-|]; [by rewrite lookup_alter_eq, Hn|by rewrite lookup_alter_ne].
Qed.
Lemma hush_upd_nonplayer oid f w :
  (forall o, FindNonplayerObject oid (w_room w) = Some o -> crate_ok o ->
     crate_ok (f o) /\ forall bp, bp <> 0 -> total bp (crate (f o)) <= total bp (crate o)) ->
  hush w (exec (upd_nonplayer oid f) w).
Proof.
  intros Hf. destruct (FindNonplayerObject oid (w_room w)) as [o|] eqn:Ho; [|by apply absent_upd_nonplayer]. split.
  - intros Hb. assert (Hc : crate_ok o).
    { unfold FindNonplayerObject in Ho. destruct (_ !! oid) eqn:Hs in Ho; simplify_eq;
        [by eapply (bs_static _ Hb)|by eapply (bs_dynamic _ Hb)]. }
    destruct (Hf o eq_refl Hc) as [H1 H2]. split.
    + apply bags_upd_nonplayer; [done|]. intros o' Ho'. by assert (o' = o) as -> by congruence.
    + intros bp Hbp. rewrite (goods_upd_nonplayer bp oid f w o Ho). specialize (H2 bp Hbp). lia.
  - intros sid. unfold unsent. by rewrite (folk_own _ _ _ (upd_nonplayer_folk oid f w)).
Qed.
Lemma hush_upd_npc oid f w : hush w (exec (upd_npc oid f) w).
Proof. apply hush_upd_nonplayer. intros [k|n] _ Hc; (split; [done|]; intros; simpl; lia). Qed.
Lemma hush_occupant oid i w : hush w (exec (upd_container oid (SetInteractingPlayerId i)) w).
Proof. apply hush_upd_nonplayer. intros [k|n] _ Hc; (split; [done|]; intros; simpl; lia). Qed.
Lemma hush_upd_player oid f w : hush w (exec (upd_player oid f) w).
Proof. by apply hush_same. Qed.

Lemma goods_emit bp o w : goods bp (exec (emit o) w) = goods bp w + told_rows bp o.
Proof.
  unfold goods, emit, modify, exec, sess. cbn [snd setf w_room w_out]. rewrite reported_app. cbn [reported foldr]. lia.
Qed.
Lemma hush_emit o w : is_left o = false -> hush w (exec (emit o) w).
Proof.
  intros Ho. apply hush_same; try done. intros bp. unfold emit, modify, exec. cbn [snd setf w_out].
  rewrite reported_app. destruct o; simpl in *; try done; lia.
Qed.

(** ** Moving items *)

Definition bag_total (bp : Z) (b : Bags) : Z :=
  grand bp (b_inv b) + from_option (fun k => total bp (k_inventorySlots k)) 0 (b_cont b).
Record bags_core (b : Bags) : Prop := {
  bc_inv : inv_core (b_inv b);
  bc_cont : forall k, b_cont b = Some k -> Forall slot_wf (k_inventorySlots k) }.

Lemma default_wf i l : Forall slot_wf l -> slot_wf (default slot_default (l !! i)).
Proof. intros H. destruct (l !! i) eqn:Hi; [by eapply Forall_lookup_1|by left]. Qed.

Lemma read_wf p b : bags_core b -> slot_wf (read_slot p b).
Proof.
  intros [[_ Hi _ _ _] Hc]. destruct p as [i|i]; cbn [read_slot]; [by apply default_wf|].
  destruct (b_cont b) as [k|]; [by apply default_wf, Hc|by left].
Qed.

Lemma read_write p q s b : p <> q -> read_slot q (write_slot p s b) = read_slot q b.
Proof.
  intros Hne. destruct p as [i|i], q as [j|j]; cbn; try done.
  - rewrite list_lookup_insert_ne; [done|congruence].
  - destruct (b_cont b); [|done]. cbn. rewrite list_lookup_insert_ne; [done|congruence].
Qed.

Lemma write_total bp p s b : bp <> 0 -> slot_wf s ->
  bag_total bp (write_slot p s b) <= bag_total bp b - count bp (read_slot p b) + count bp s.
Proof.
  intros Hbp Hs. destruct p as [i|i]; unfold bag_total, grand; cbn.
  - pose proof (total_write bp i s (_inventorySlots (b_inv b)) Hbp Hs) as H. unfold Items.total in *. lia.
  - destruct (b_cont b) as [k|]; cbn.
    + pose proof (total_write bp i s (k_inventorySlots k) Hbp Hs) as H. unfold Items.total in *. lia.
    + pose proof (count_nonneg bp s Hs). rewrite (count_empty bp slot_default) by done. lia.
Qed.

Lemma write_core p s b : bags_core b -> slot_wf s -> slotIndex s = slotIndex (read_slot p b) ->
  bags_core (write_slot p s b).
Proof.
  intros [Hi Hc] Hs Hx. destruct p as [i|i]; cbn in *; split; cbn; try done.
  - apply core_slots; [done| |by apply Forall_insert; [apply (ok_slots _ Hi)|]].
    apply (indexed_same (_inventorySlots (b_inv b))); [apply length_insert| |apply Hi].
    intros j x Hj. apply list_lookup_insert_Some in Hj as [(<- & <- & Hlt)|[_ Hj]]; [|eauto].
    destruct (lookup_lt_is_Some_2 _ _ Hlt) as [y Hy]. rewrite Hy in Hx. eauto.
  - intros k' Hk. destruct (b_cont b) as [k|]; [|done]. injection Hk as <-. apply Forall_insert; [by apply Hc|done].
Qed.

(** Writing both ends of a move. *)
Lemma write_both p q s t b : p <> q -> bags_core b -> slot_wf s -> slot_wf t ->
  slotIndex s = slotIndex (read_slot p b) -> slotIndex t = slotIndex (read_slot q b) ->
  (forall bp, bp <> 0 -> count bp s + count bp t <= count bp (read_slot p b) + count bp (read_slot q b)) ->
  let b' := write_slot p s (write_slot q t b) in
  bags_core b' /\ forall bp, bp <> 0 -> bag_total bp b' <= bag_total bp b.
Proof.
  intros Hne Hb Hs Ht Hxs Hxt Hcount. cbn zeta.
  assert (Hr : read_slot p (write_slot q t b) = read_slot p b) by (apply read_write; congruence).
  split; [apply write_core; [by apply write_core|done|by rewrite Hr]|]. intros bp Hbp.
  pose proof (write_total bp p s (write_slot q t b) Hbp Hs) as H1. pose proof (write_total bp q t b Hbp Ht) as H2.
  rewrite Hr in H1. specialize (Hcount bp Hbp). lia.
Qed.

(** What a part of a stack becomes, and what remains of it. *)
Lemma reduce_wf n s : slot_wf s -> IsEmpty s = false -> 0 < n <= Items.quantity s ->
  slot_wf (reduce_slot n s) /\ slotIndex (reduce_slot n s) = slotIndex s /\
  forall bp, bp <> 0 -> count bp (reduce_slot n s) = count bp s - if blueprintId (item s) =? bp then n else 0.
Proof.
  intros Hs He Hn. apply not_IsEmpty_wf in He as [Hb Hq]; [|done]. unfold reduce_slot. cbn [setf Items.quantity].
  destruct (Z.leb_spec (Items.quantity s - n) 0) as [Hle|Hlt].
  - split_and!; [by left|done|]. intros bp Hbp. rewrite count_Clear by done. unfold count. destruct (_ =? bp); lia.
  - split_and!; [by right|done|]. intros bp _. unfold count. cbn [setf item Items.quantity]. destruct (_ =? bp); lia.
Qed.

Lemma count_other bp s : slot_wf s -> IsEmpty s = true -> count bp s = 0.
Proof. intros Hs [_ Hq]%IsEmpty_wf; [|done]. unfold count. rewrite Hq. by destruct (_ =? bp). Qed.

Lemma move_items_accounts t n p q b b1 : move_items t n p q b = inr b1 -> p <> q -> bags_core b ->
  IsEmpty (read_slot p b) = false ->
  bags_core b1 /\ forall bp, bp <> 0 -> bag_total bp b1 <= bag_total bp b.
Proof.
  intros H Hne Hb He. pose proof (read_wf p b Hb) as Hs. pose proof (read_wf q b Hb) as Ht. unfold move_items in H.
  destruct (t =? 0); [|destruct (t =? 1)].
  - apply Denied_bind_inr in H as ([] & Hd%require_inr & H). apply Denied_bind_inr in H as ([] & Hn%require_inr & H).
    injection H as <-. apply negb_true_iff, orb_false_iff in Hn as [Hn1%Z.leb_gt Hn2%Z.ltb_ge].
    destruct (reduce_wf n _ Hs He ltac:(lia)) as (R1 & R2 & R3). apply not_IsEmpty_wf in He as [Hbp _]; [|done].
    apply write_both; try done; [by right|]. intros bp Hbp0. rewrite R3, (count_other bp (read_slot q b)) by done.
    unfold count at 2. cbn [setf item Items.quantity]. destruct (_ =? bp); lia.
  - apply Denied_bind_inr in H as ([] & Hd%require_inr & H). injection H as <-.
    apply write_both; try done; [by apply slot_wf_put..|]. intros bp _. rewrite !count_put. lia.
  - apply Denied_bind_inr in H as ([] & Hd%require_inr & H). apply Denied_bind_inr in H as ([] & Hbp%require_inr%Z.eqb_eq & H).
    apply Denied_bind_inr in H as ([] & _ & H). apply Denied_bind_inr in H as ([] & Hn%require_inr & H).
    injection H as <-. apply negb_true_iff, orb_false_iff in Hn as [Hn1%Z.leb_gt Hn2%Z.ltb_ge].
    apply negb_true_iff, not_IsEmpty_wf in Hd as [Hd1 Hd2]; [|done].
    destruct (reduce_wf n _ Hs He ltac:(lia)) as (R1 & R2 & R3).
    apply write_both; try done; [right; cbn [setf item Items.quantity]; split; [done|lia]|].
    intros bp Hbp0. rewrite R3, Hbp by done. unfold count at 2 4. cbn [setf item Items.quantity]. destruct (_ =? bp); lia.
Qed.

(** The player's part of it. *)
Lemma write_version p s b : _inventoryVersion (b_inv (write_slot p s b)) = _inventoryVersion (b_inv b).
Proof. by destruct p. Qed.
Lemma write_cont_inv i s b : b_inv (write_slot (ContSlot i) s b) = b_inv b.
Proof. done. Qed.

Lemma move_items_inv t n p q b b1 : move_items t n p q b = inr b1 ->
  _inventoryVersion (b_inv b1) = _inventoryVersion (b_inv b) /\
  (forall i j, p = ContSlot i -> q = ContSlot j -> b_inv b1 = b_inv b).
Proof.
  unfold move_items. destruct (t =? 0); [|destruct (t =? 1)]; intros H;
    repeat (apply Denied_bind_inr in H as ([] & _ & H)); injection H as <-;
    (split; [by rewrite !write_version|by intros i j -> ->]).
Qed.

(** Versions and the cached index are brought up to date. *)
Lemma bump_accounts x y b : bags_core b -> is_u32 (_inventoryVersion (b_inv b)) ->
  (x = false -> y = false -> inv_ok (b_inv b)) ->
  let b' := bump_versions x y b in
  inv_ok (b_inv b') /\ is_u32 (_inventoryVersion (b_inv b')) /\ bags_core b' /\
  forall bp, bag_total bp b' = bag_total bp b.
Proof.
  intros [Hi Hc] Hv Hok. destruct b as [inv cont]. cbn [b_inv b_cont] in *.
  set (inv' := if x || y then IncrementInventoryVersion (UpdateFirstEmptySlotIndex inv) else inv).
  assert (Hinv : inv_ok inv' /\ is_u32 (_inventoryVersion inv') /\ forall bp, grand bp inv' = grand bp inv).
  { unfold inv'. destruct x, y; cbn [orb]; [..|by auto];
      (split_and!; [by apply ok_update_version, core_update_first|apply u32_range|];
       intros bp; by rewrite grand_update_version, grand_update_first). }
  destruct Hinv as (H1 & H2 & H3).
  assert (Hb : bump_versions x y (mk_bags inv cont) =
    mk_bags inv' (if negb x || negb y then IncrementContainerVersion <$> cont else cont)) by by destruct x, y.
  cbn zeta. rewrite Hb. cbn [b_inv b_cont]. split_and!; [done..| |].
  - split; [apply H1|]. cbn [b_cont]. intros k'. destruct (negb x || negb y); [|by apply Hc].
    destruct cont as [k|]; [|done]. intros [= <-]. by apply (Hc k).
  - intros bp. unfold bag_total. cbn [b_inv b_cont]. rewrite H3. by destruct (negb x || negb y), cont.
Qed.

(** The whole request: what the bags hold after it, they held before. *)
Lemma interact_resolves pkt s r c b m : interact pkt s r = inr (c, b, m) ->
  exists cont p q b1,
    (cont = None \/ exists k, cont = Some k /\ FindContainer (u32 c) r = Some k) /\
    p <> q /\ IsEmpty (read_slot p (mk_bags (GetInventory s) cont)) = false /\
    move_items (ic_interact_type pkt) (i32 (ic_quantity pkt)) p q (mk_bags (GetInventory s) cont) = inr b1 /\
    let x := ic_start_object_id pkt =? PLAYER_OBJECT_ID_SENTINEL in
    let y := ic_end_object_id pkt =? PLAYER_OBJECT_ID_SENTINEL in
    b = bump_versions x y b1 /\ (x = false -> exists i, p = ContSlot i) /\ (y = false -> exists j, q = ContSlot j).
Proof.
  unfold interact. intros ([] & _ & H)%Denied_bind_inr.
  apply Denied_bind_inr in H as ([c' cont] & Hopen & H).
  apply Denied_bind_inr in H as (p & Hp & H). apply Denied_bind_inr in H as (q & Hq & H).
  destruct p as [p|], q as [q|]; try done.
  apply Denied_bind_inr in H as ([] & Hne%require_inr & H). apply Denied_bind_inr in H as ([] & He%require_inr & H).
  apply Denied_bind_inr in H as (b1 & Hm & H). injection H as -> <- _.
  apply negb_true_iff in Hne, He. apply bool_decide_eq_false in Hne. exists cont, p, q, b1. split_and!; try done.
  - destruct (negb _ || negb _); [|injection Hopen as _ <-; by left].
    apply Denied_bind_inr in Hopen as ([c2 k] & Hopen & H). injection H as <- <-.
    apply open_container_spec in Hopen as (_ & _ & Hf & _). right. by exists k.
  - intros Hx. unfold resolve_end in Hp. rewrite Hx in Hp. apply Denied_bind_inr in Hp as ([] & _ & Hp).
    cbn [b_cont] in Hp. destruct cont as [k|]; [|done]. apply Denied_bind_inr in Hp as ([] & _ & Hp).
    injection Hp as Hp. apply fmap_Some in Hp as (i & _ & ->). by exists i.
  - intros Hx. unfold resolve_end in Hq. rewrite Hx in Hq. apply Denied_bind_inr in Hq as ([] & _ & Hq).
    cbn [b_cont] in Hq. destruct cont as [k|]; [|done]. apply Denied_bind_inr in Hq as ([] & _ & Hq).
    injection Hq as Hq. apply fmap_Some in Hq as (j & _ & ->). by exists j.
Qed.

Lemma move_items_cont t n p q b b1 : move_items t n p q b = inr b1 -> is_Some (b_cont b1) <-> is_Some (b_cont b).
Proof.
  assert (Hw : forall p s b, is_Some (b_cont (write_slot p s b)) <-> is_Some (b_cont b)).
  { intros [] s0 b0; [done|]. cbn. apply fmap_is_Some. }
  unfold move_items. destruct (t =? 0); [|destruct (t =? 1)]; intros H;
    repeat (apply Denied_bind_inr in H as ([] & _ & H)); injection H as <-; by rewrite !Hw.
Qed.

(** What a session and a container get for what they had. *)
Record exchange (inv : PlayerInventory) (cont : option Container) (inv' : PlayerInventory) (cont' : option Container) : Prop := {
  ex_inv : inv_ok inv';
  ex_version : is_u32 (_inventoryVersion inv');
  ex_cont : is_Some cont' <-> is_Some cont;
  ex_crate : forall k, cont' = Some k -> Forall slot_wf (k_inventorySlots k);
  ex_total : forall bp, bp <> 0 -> bag_total bp (mk_bags inv' cont') <= bag_total bp (mk_bags inv cont) }.

Lemma interact_exchange pkt s r c b m : interact pkt s r = inr (c, b, m) ->
  exists cont, (cont = None \/ exists k, cont = Some k /\ FindContainer (u32 c) r = Some k) /\
    (bag_ok s -> (forall k, FindContainer (u32 c) r = Some k -> Forall slot_wf (k_inventorySlots k)) ->
     exchange (GetInventory s) cont (b_inv b) (b_cont b)).
Proof.
  intros H. destruct (interact_resolves _ _ _ _ _ _ H) as (cont & p & q & b1 & Hc & Hne & He & Hm & Hb & Hp & Hq).
  cbn zeta in *. exists cont. split; [done|]. intros [Hi Hv _] Hk. set (b0 := mk_bags (GetInventory s) cont) in *.
  assert (H0 : bags_core b0).
  { split; [apply Hi|]. intros k Hk0. destruct Hc as [Hc|(k0 & Hc & Hf)]; cbn in Hk0; rewrite Hc in Hk0; simplify_eq; eauto. }
  destruct (move_items_accounts _ _ _ _ _ _ Hm Hne H0 He) as [H1 H2].
  destruct (move_items_inv _ _ _ _ _ _ Hm) as [V1 V2].
  destruct (bump_accounts (ic_start_object_id pkt =? PLAYER_OBJECT_ID_SENTINEL)
    (ic_end_object_id pkt =? PLAYER_OBJECT_ID_SENTINEL) b1 H1)
    as (B1 & B2 & B3 & B4).
  { by rewrite V1. }
  { intros Hx Hy. destruct (Hp Hx) as [i Hpi], (Hq Hy) as [j Hqj]. by rewrite (V2 i j Hpi Hqj). }
  rewrite <- Hb in B1, B2, B3, B4. split; [done|done| |apply B3|].
  - rewrite <- (move_items_cont _ _ _ _ _ _ Hm : _ <-> is_Some cont). rewrite Hb.
    destruct b1 as [inv1 [k1|]], (_ =? _), (_ =? _); done.
  - intros bp Hbp. specialize (H2 bp Hbp). rewrite <- B4 in H2. by destruct b.
Qed.

(** ** Writing back *)

Lemma update_inventory_sent f s : _leftNotified (s_leave (update_inventory f s)) = _leftNotified (s_leave s).
Proof. done. Qed.

Lemma container_wf oid k w : bags_ok w -> FindContainer oid (w_room w) = Some k -> Forall slot_wf (k_inventorySlots k).
Proof.
  intros [_ H1 H2 _] Hk. unfold FindContainer, FindNonplayerObject in Hk.
  destruct (_staticObjects (w_room w) !! oid) as [[k0|]|] eqn:Ho; simplify_eq/=; [exact (H1 _ _ Ho)|].
  destruct (_dynamicObjects (w_room w) !! oid) as [[k0|]|] eqn:Hd; simplify_eq/=. exact (H2 _ _ Hd).
Qed.

(** Writing back what a request made of a bag and a container. *)
Lemma hush_store sid s cid inv' cont cont' w :
  sess w !! sid = Some s -> _leftNotified (s_leave s) = false ->
  (cont = None \/ exists k, cont = Some k /\ FindContainer cid (w_room w) = Some k) ->
  (bags_ok w -> exchange (GetInventory s) cont inv' cont') ->
  hush w (exec (_ ← upd_session sid (update_inventory (fun _ => inv'));
                match cont' with Some k' => upd_container cid (fun _ => k') | None => mret tt end) w).
Proof.
  intros Hs Hsent Hc Hex. rewrite exec_bind. set (w1 := exec (upd_session sid _) w). cbn beta.
  set (m := match cont' with Some _ => _ | None => _ end).
  assert (Hg : forall bp, goods bp w1 = goods bp w - grand bp (GetInventory s) + grand bp inv').
  { intros bp. unfold w1. rewrite (goods_upd_session bp sid _ w s Hs). unfold purse. by rewrite update_inventory_sent, Hsent. }
  split.
  - intros Hb. destruct (Hex Hb) as [X1 X2 X3 X4 X5].
    assert (Hb1 : bags_ok w1).
    { apply bags_upd_session; [done|]. intros s' Hs'. assert (s' = s) as -> by congruence.
      constructor; [done..|]. apply (bo_early _ (bs_sessions _ Hb sid s Hs)). }
    unfold m. clear m. unfold bag_total in X5. cbn [b_inv b_cont] in X5. destruct Hc as [->|(k & -> & Hk)].
    + destruct cont' as [k'|]; [by destruct (proj1 X3 ltac:(done))|]. split; [done|]. intros bp Hbp.
      change (exec (mret tt) w1) with w1. specialize (X5 bp Hbp). simpl in X5. rewrite Hg. lia.
    + destruct cont' as [k'|]; [|by destruct (proj2 X3 ltac:(done))].
      assert (Ho : FindNonplayerObject cid (w_room w1) = Some (GContainer k)).
      { change (FindNonplayerObject cid (w_room w1)) with (FindNonplayerObject cid (w_room w)). unfold FindContainer in Hk.
        destruct (FindNonplayerObject cid (w_room w)) as [[]|]; by simplify_eq/=. }
      split; [apply bags_upd_nonplayer; [done|]; intros o Ho'; assert (o = GContainer k) as -> by congruence; by apply X4|].
      intros bp Hbp. unfold upd_container. rewrite (goods_upd_nonplayer bp cid _ w1 _ Ho), Hg.
      specialize (X5 bp Hbp). cbn [on_container crate from_option] in *. lia.
  - intros i Hu. assert (Hu1 : unsent i w1) by by apply unsent_upd_session.
    unfold m. destruct cont' as [k'|]; [|done]. unfold unsent, upd_container.
    by rewrite (folk_own _ _ _ (upd_nonplayer_folk cid _ w1)).
Qed.

Lemma fire_round_thrifty p s : thrifty s (update_inventory (fire_round p) s).
Proof.
  split; [done|]. intros [[Hc Hf] Hv He]. set (inv := GetInventory s) in *.
  set (m := magazineOf p inv). set (m' := m <| Items.quantity ::= fun q => q - 1 |>).
  set (m2 := if Items.quantity m' <=? 0 then Clear m' else m').
  assert (Hm : mag_ok (weaponOf p inv) m2 /\ forall bp, bp <> 0 -> count bp m2 <= count bp m).
  { destruct (ok_mag _ Hc p) as [Hwf Hm]. fold m in Hwf, Hm. unfold m2. destruct (Z.leb_spec (Items.quantity m') 0) as [Hle|Hlt].
    - split; [apply mag_ok_empty|]. intros bp Hbp. rewrite count_Clear by done. by apply count_nonneg.
    - assert (Hq : Items.quantity m' = Items.quantity m - 1) by done. rewrite Hq in Hlt. split; [split|].
      + destruct Hwf as [[Hi Hq0]|[Hb _]]; [lia|by right].
      + destruct Hm as [[Hi Hq0]%IsEmpty_wf|(spec & Hs & Hbp & Hmax)]; [lia|done|]. right. exists spec. split_and!; [done..|lia].
      + intros bp _. unfold count. change (item m') with (item m). rewrite Hq. destruct (_ =? bp); lia. }
  destruct Hm as [Hm Hcount]. assert (Hinv : GetInventory (update_inventory (fire_round p) s) = set_magazine p m2 inv) by done.
  split.
  - constructor; rewrite ?Hinv; [|by rewrite version_set_magazine|done].
    split; [by apply core_set_magazine|]. by rewrite first_set_magazine, slots_set_magazine.
  - intros bp Hbp. unfold purse. rewrite update_inventory_sent, Hinv. destruct (_leftNotified _); [done|].
    rewrite grand_set_magazine. fold m inv. specialize (Hcount bp Hbp). lia.
Qed.

Lemma reload_thrifty p s :
  thrifty s (update_inventory (fun _ => snd (ReloadMagazine p (GetInventory s))) s).
Proof.
  split; [done|]. intros [Hi Hv He]. set (e := mk_equip (GetInventory s) slot_default).
  assert (Hok : equip_ok e) by (split; [done|by left]).
  pose proof (run_op_accounts (OpReload p) e Hok Hv I) as H. unfold run_op, e in H. cbn [e_inv] in H.
  set (inv := GetInventory s) in *.
  assert (Hinv : GetInventory (update_inventory (fun _ => snd (ReloadMagazine p inv)) s) = snd (ReloadMagazine p inv)) by done.
  destruct (ReloadMagazine p inv) as [ok inv']. cbn [snd] in *. split.
  - constructor; rewrite ?Hinv; [apply (oe_ok _ _ _ _ _ H)|apply (op_effect_version _ _ _ _ _ H Hv)|done].
  - intros bp Hbp. unfold purse. rewrite update_inventory_sent, Hinv. destruct (_leftNotified _); [done|]. fold inv.
    pose proof (op_effect_le _ _ _ _ _ H ltac:(done) bp Hbp) as Hle. unfold held in Hle. cbn [setf e_inv e_ext] in Hle. lia.
Qed.

Lemma equip_operation_run a t r e : op_ref_ok (OpEquipWeapon r true) ->
  exists op, op_ref_ok op /\ run_op op e = let '(ok, d, _, e') := equip_operation a t r e in (ok, d, e').
Proof.
  intros Hr. unfold equip_operation. destruct (a =? 0), (t <=? 1).
  - exists (OpEquipWeapon r (t =? 0)). split; [done|]. cbn [run_op]. by destruct (EquipWeaponFromSlot _ _ _ _ _) as [[[]]].
  - exists (OpEquipArmor r). split; [done|]. cbn [run_op]. by destruct (EquipArmorFromSlot _ _ _) as [[]].
  - exists (OpUnequipWeapon r (t =? 0)). split; [done|]. cbn [run_op]. by destruct (UnequipWeaponToSlot _ _ _ _ _) as [[[]]].
  - exists (OpUnequipArmor r). split; [done|]. cbn [run_op]. by destruct (UnequipArmorToSlot _ _ _) as [[]].
Qed.

(** The slot an equip request names. *)
Lemma resolve_equip_refs pkt s r ref cont : resolve_equip pkt s r = inr (ref, cont) ->
  op_ref_ok (OpEquipWeapon ref true) /\
  (cont = None \/ exists c k i, cont = Some (c, k, i) /\ FindContainer (u32 c) r = Some k).
Proof.
  intros H. assert (Hc : forall c k i, cont = Some (c, k, i) -> FindContainer (u32 c) r = Some k).
  { intros c k i ->. by eapply resolve_equip_spec. }
  split; [|destruct cont as [[[c k] i]|]; [right; exists c, k, i; split; [done|by apply (Hc c k i)]|by left]]. clear Hc.
  revert H. unfold resolve_equip.
  destruct (_ =? _).
  - intros ([] & _ & H)%Denied_bind_inr. unfold GetSlotMutable in H. destruct (_ || _) eqn:Hr; [done|].
    injection H as <- _. apply orb_false_iff in Hr as [H1%Z.ltb_ge H2%Z.leb_gt]. cbn. unfold INVENTORY_SLOT_COUNT in H2. lia.
  - intros ([] & _ & H)%Denied_bind_inr. apply Denied_bind_inr in H as ([] & _ & H).
    apply Denied_bind_inr in H as ([c k] & _ & H). apply Denied_bind_inr in H as ([] & _ & H).
    destruct (GetContainerSlot _ _) as [i|]; [|done]. apply Denied_bind_inr in H as ([] & _ & H). injection H as <- _. done.
Qed.

(** An equipment operation on the bag and the slot of a container, as an exchange. *)
Definition equipped (cont : option (Z * Container * nat)) (e : Equip) (ok : bool) : option Container :=
  (fun '(_, k, i) => put_back k i (e_ext e) ok) <$> cont.
Definition ext_slot (cont : option (Z * Container * nat)) : Slot :=
  match cont with Some (_, k, i) => default slot_default (k_inventorySlots k !! i) | None => slot_default end.

Lemma equip_exchange a t r s cont : bag_ok s -> op_ref_ok (OpEquipWeapon r true) ->
  (forall c k i, cont = Some (c, k, i) -> Forall slot_wf (k_inventorySlots k)) ->
  let '(ok, _, _, e) := equip_operation a t r (mk_equip (GetInventory s) (ext_slot cont)) in
  exchange (GetInventory s) ((fun '(_, k, _) => k) <$> cont) (e_inv e) (equipped cont e ok).
Proof.
  intros [Hi Hv _] Hr Hk. set (e := mk_equip (GetInventory s) (ext_slot cont)).
  assert (Hok : equip_ok e).
  { split; [done|]. unfold e, ext_slot. cbn [e_ext]. destruct cont as [[[c k] i]|]; [|by left]. apply default_wf. by eapply Hk. }
  destruct (equip_operation_run a t r e Hr) as (op & Hop & Hrun). pose proof (run_op_accounts op e Hok Hv Hop) as H.
  rewrite Hrun in H. destruct (equip_operation a t r e) as [[[ok d] u] e'].
  assert (Hle : forall bp, bp <> 0 -> held bp e' <= held bp e).
  { apply (op_effect_le _ _ _ _ _ H). intros bp. by apply op_loss_nonneg. }
  destruct (oe_ok _ _ _ _ _ H) as [Hi' Hx']. split; [done|apply (op_effect_version _ _ _ _ _ H Hv)| | |].
  - unfold equipped. by rewrite !fmap_is_Some.
  - intros k'. unfold equipped. destruct cont as [[[c k] i]|]; [|done]. intros [= <-].
    assert (Hf : Forall slot_wf (<[i := e_ext e']> (k_inventorySlots k))) by (apply Forall_insert; [by eapply Hk|done]).
    by destruct ok.
  - intros bp Hbp. specialize (Hle bp Hbp). unfold held, e in Hle. cbn [e_inv e_ext] in Hle. unfold bag_total. cbn [b_inv b_cont].
    unfold equipped, ext_slot in *. destruct cont as [[[c k] i]|]; cbn [fmap option_fmap option_map from_option].
    + pose proof (total_write bp i (e_ext e') (k_inventorySlots k) Hbp Hx') as Hw.
      assert (Hp : k_inventorySlots (put_back k i (e_ext e') ok) = <[i := e_ext e']> (k_inventorySlots k)) by by destruct ok.
      rewrite Hp. lia.
    + pose proof (count_nonneg bp _ Hx'). rewrite (count_empty bp slot_default) in Hle by done. lia.
Qed.
