(* ===== verification/Thrift.v ===== *)
(** * Nothing is duplicated in a room

    Every step of a room is frugal in the sense of Goods.v: moving, equipping,
    reloading, firing, dying, leaving and being reported included; so is every run. *)

From S2P Require Import Prelude Items Inventory Transport Geometry MapData Combat Container Buffers.
From S2P Require Import Protocol Session Room Handlers Calm Safety Goods.
Local Open Scope Z_scope.

(** ** The handlers *)

Create HintDb hush discriminated.
#[export] Hint Resolve hush_upd_npc hush_upd_player hush_keeps hush_occupant : hush.
#[export] Hint Extern 1 (Keeps _) => typeclasses eauto : hush.
Ltac hushes := walks ltac:(auto with hush nocore).

Section handlers.
Context {E : External} {L : ExternalLaws E}.

(** An active session has not been reported. *)
Lemma active_unsent sid s w : sessions_inv w -> sess w !! sid = Some s -> IsActiveState s = true ->
  _leftNotified (s_leave s) = false.
Proof.
  intros Hi Hs Ha. assert (Ho : own sid w = Some (strip s)) by (unfold own; by rewrite Hs).
  pose proof (active_early _ (Hi _ _ Ho) Ha) as Hr. destruct (Hi _ _ Ho) as [[[Hn _] _] _].
  change (s_leave (strip s)) with (s_leave s) in *. destruct (_leftNotified (s_leave s)); [|done]. specialize (Hn eq_refl). lia.
Qed.

Lemma hush_Interact pkt sid w : sessions_inv w -> hush w (exec (Handle_C2D_RequestInteractContainerObject pkt sid) w).
Proof.
  intros Hi. unfold Handle_C2D_RequestInteractContainerObject. apply (walk_active hush). intros s Hs Ha.
  pose proof (active_unsent sid s w Hi Hs Ha) as Hsent.
  unfold exec. destruct (interact pkt s (w_room w)) as [d|[[c b] m]] eqn:Hx; refold; [hushes|].
  destruct (interact_exchange _ _ _ _ _ _ Hx) as (cont & Hc & Hex).
  apply (walk_bind hush); [|hushes]. apply (hush_store sid s (u32 c) (b_inv b) cont); [done..|]. intros Hb.
  apply Hex; [by apply (bs_sessions _ Hb sid)|]. intros k. by apply container_wf.
Qed.

Lemma hush_show_equipment sid t w : hush w (exec (show_equipment sid t) w).
Proof. unfold show_equipment. hushes. Qed.
#[local] Hint Resolve hush_show_equipment : hush.

Lemma hush_Equip pkt sid w : sessions_inv w -> hush w (exec (Handle_C2D_RequestEquipItem pkt sid) w).
Proof.
  intros Hi. unfold Handle_C2D_RequestEquipItem. apply (walk_active hush). intros s Hs Ha.
  pose proof (active_unsent sid s w Hi Hs Ha) as Hsent. unfold exec.
  destruct (1 <? _); [refold; hushes|]. destruct (2 <? _); [refold; hushes|].
  destruct (resolve_equip pkt s (w_room w)) as [d|[ref cont]] eqn:Hr; [refold; hushes|].
  destruct (resolve_equip_refs _ _ _ _ _ Hr) as [Href Hc].
  pose proof (equip_exchange (eq_action_type pkt) (eq_equipment_slot_type pkt) ref s cont) as Hex.
  change (match cont with Some (_, k, i) => _ | None => slot_default end) with (ext_slot cont).
  destruct (equip_operation _ _ _ _) as [[[ok d] u] e].
  assert (Hst : hush w (exec (_ ← upd_session sid (update_inventory (fun _ => e_inv e));
          match cont with
          | Some (c, k, i) => upd_container (u32 c) (fun _ => put_back k i (e_ext e) ok)
          | None => mret tt
          end) w)).
  { pose proof (fun cid => hush_store sid s cid (e_inv e) ((fun '(_, k, _) => k) <$> cont) (equipped cont e ok) w Hs Hsent) as H.
    assert (Hw : forall c k i, bags_ok w -> cont = Some (c, k, i) -> Forall slot_wf (k_inventorySlots k)).
    { intros c k i Hb ->. destruct Hc as [|(c' & k' & i' & [= <- <- <-] & Hf)]; [done|]. by eapply container_wf. }
    assert (He : bags_ok w -> exchange (GetInventory s) ((fun '(_, k, _) => k) <$> cont) (e_inv e) (equipped cont e ok)).
    { intros Hb. apply Hex; [by apply (bs_sessions _ Hb sid)|done|]. intros c k i. by apply Hw. }
    destruct Hc as [->|(c & k & i & -> & Hf)]; [apply (H 0); [by left|done]|].
    apply (H (u32 c)); [right; by exists k|done]. }
  destruct (negb ok); refold; (apply (walk_bind hush); [exact Hst|hushes]).
Qed.

Lemma hush_Reload v sid w : hush w (exec (Handle_C2D_RequestReload v sid) w).
Proof.
  unfold Handle_C2D_RequestReload, BroadcastReloadSequence. apply (walk_active hush). intros s Hs _.
  apply (walk_with_object hush). intros _. apply (walk_with_room hush), (walk_with_player hush). intros p _. unfold exec.
  cbn zeta.
  assert (Ht : thrifty s (update_inventory (fun _ => snd (ReloadMagazine (_isUsingPrimary p) (GetInventory s))) s))
    by apply reload_thrifty.
  assert (Hn : thrifty s (update_inventory (fun _ => GetInventory s) s)).
  { split; [done|]. intros []. by split. }
  destruct (negb _); [|destruct (ReloadMagazine _ _) as [ok inv']]; refold; (apply (walk_bind hush); [|hushes]);
    apply hush_upd_session; intros s' Hs'; by assert (s' = s) as -> by (unfold sess in *; congruence).
Qed.

Lemma hush_Broadcast_reload sid oid n w : hush w (exec (BroadcastReloadSequence sid oid n) w).
Proof. unfold BroadcastReloadSequence. hushes. Qed.

Lemma hush_DestroyDeadObject oid w : hush w (exec (DestroyDeadObject oid) w).
Proof.
  unfold DestroyDeadObject, exec. destruct (_dynamicObjects (w_room w) !! oid) as [o|] eqn:Ho; [|reflexivity].
  etrans; [|apply (walk_Broadcast hush)]. split; [|done]. intros [H1 H2 H3 H4]. split.
  - constructor; [done..| |done]. by apply map_Forall_delete.
  - intros bp Hbp. unfold goods, sess. cbn [setf w_room w_out _playerSessions _staticObjects _dynamicObjects].
    rewrite (msum_delete _ _ _ _ Ho). cbn beta. pose proof (total_nonneg bp _ (H3 _ _ Ho)). lia.
Qed.
#[local] Hint Resolve hush_DestroyDeadObject hush_Broadcast_reload : hush.

Lemma hush_notify_health h c r a w : hush w (exec (notify_health h c r a) w).
Proof. unfold notify_health. hushes. Qed.
#[local] Hint Resolve hush_notify_health : hush.
Lemma hush_hit_player oid d a p w : hush w (exec (hit_player oid d a p) w).
Proof. unfold hit_player. hushes. Qed.
Lemma hush_hit_npc oid d a soid n w : hush w (exec (hit_npc oid d a soid n) w).
Proof. unfold hit_npc. hushes. Qed.
#[local] Hint Resolve hush_hit_player hush_hit_npc : hush.
Lemma hush_resolve_hit oid wid soid w : hush w (exec (resolve_hit oid wid soid) w).
Proof. unfold resolve_hit. hushes. Qed.
Lemma hush_fire_round sid p w : hush w (exec (upd_session sid (update_inventory (fire_round p))) w).
Proof. apply hush_upd_session. intros s _. apply fire_round_thrifty. Qed.
#[local] Hint Resolve hush_resolve_hit hush_fire_round : hush.
Lemma hush_WeaponFire q wid hp hit sid w : hush w (exec (Handle_C2D_RequestWeaponFire q wid hp hit sid) w).
Proof. unfold Handle_C2D_RequestWeaponFire. hushes. Qed.

Lemma hush_mark_leaving sid r n w : hush w (exec (mark_leaving sid r n) w).
Proof. apply hush_keeps, _. Qed.
Lemma hush_apply_npc_state oid info w : hush w (exec (apply_npc_state oid info) w).
Proof. unfold apply_npc_state. hushes. Qed.
Lemma hush_evict h w : hush w (exec (evict_holder h) w).
Proof. unfold evict_holder. hushes. Qed.
Lemma hush_release sid w : hush w (exec (ReleaseInteractingContainer sid) w).
Proof. unfold ReleaseInteractingContainer. hushes. Qed.
Lemma hush_SpawnPlayerObject p o w : hush w (exec (SpawnPlayerObject p o) w).
Proof.
  unfold SpawnPlayerObject, NotifySpawnPlayerObject, exec. destruct (_ !! _); [reflexivity|].
  refold. match goal with |- hush _ (exec _ ?w1) => transitivity w1 end; [by apply hush_same|hushes].
Qed.
Lemma hush_SetSpawnSpot w : hush w (exec SetSpawnSpot w).
Proof. by apply hush_same. Qed.
Lemma hush_GetNewObjectId w : hush w (exec GetNewObjectId w).
Proof. by apply hush_same. Qed.
Lemma hush_timer d sid uid g w : hush w (exec (emit (OutTimer d sid uid g)) w).
Proof. by apply hush_emit. Qed.
#[local] Hint Resolve hush_mark_leaving hush_apply_npc_state hush_evict hush_release hush_SpawnPlayerObject
  hush_SetSpawnSpot hush_GetNewObjectId hush_timer : hush.

Lemma handle_message_hush m addr sid w : sessions_inv w -> hush w (exec (handle_message m addr sid) w).
Proof.
  intros Hi. destruct m; cbn [handle_message]; try (by apply hush_Interact); try (by apply hush_Equip);
    try apply hush_Reload; try apply hush_WeaponFire.
  - unfold Handle_C2D_ChannelOpen. hushes.
  - unfold Handle_C2D_HeartBeat. hushes.
  - unfold Handle_C2D_RequestBlueprint. hushes.
  - unfold Handle_C2D_RequestSpawnMe. hushes.
  - unfold Handle_C2D_RequestSpawnByObjectId. hushes.
  - unfold Handle_C2D_UpdatePlayerState. hushes.
  - unfold Handle_C2D_RequestSpawnPlayerObjects. hushes.
  - unfold Handle_C2D_NotifyLoadingComplete. hushes.
  - unfold Handle_C2D_RequestOpenContainer. hushes.
  - unfold Handle_C2D_CloseContainer. hushes.
  - unfold Handle_C2D_RequestRecentInventoryInfo. hushes.
  - unfold Handle_C2D_RequestRecall, ScheduleRecallTick. hushes.
  - unfold Handle_C2D_RequestSwitchWeapon, send_weapon_state. hushes.
  - unfold Handle_C2D_NotifyReloadSequence. hushes.
  - unfold Handle_C2D_RequestNpcAggro, npc_request, ResolveHostileNpcRequest. hushes.
  - unfold Handle_C2D_RequestNpcAuthority, npc_request, ResolveHostileNpcRequest. hushes.
  - unfold Handle_C2D_ReportNpcAttack, ResolveHostileNpcRequest. hushes.
Qed.
End handlers.

(** ** Leaving *)

Lemma Clear_thrifty s : thrifty s (update_inventory Clear_inventory s).
Proof.
  split; [done|]. intros [Hi Hv He]. split.
  - constructor; [|apply u32_range|done]. change (inv_ok (Clear_inventory (GetInventory s))).
    apply core_update_first, core_update_version. destruct (ok_core _ Hi) as [H1 _ _ _ _].
    constructor; cbn; try (intros []; cbn); try apply slot_wf_Clear; try apply mag_ok_empty.
    + revert H1. apply indexed_same; [apply length_map|]. intros i x Hx. rewrite list_lookup_fmap in Hx.
      destruct (_ !! i) as [y|]; [|done]. injection Hx as <-. by exists y.
    + apply Forall_fmap, Forall_true. intros x. apply slot_wf_Clear.
  - intros bp Hbp. unfold purse. rewrite update_inventory_sent. destruct (_leftNotified _); [done|].
    change (GetInventory (update_inventory Clear_inventory s)) with (Clear_inventory (GetInventory s)).
    rewrite grand_Clear by done. by apply grand_nonneg.
Qed.

Section leaving.
Context {E : External} {L : ExternalLaws E}.

(** The loot of a player is what the player has. *)
Lemma loot_accounts p inv w : inv_ok inv -> bags_ok w ->
  let w' := exec (SpawnPlayerLootContainer p inv) w in
  bags_ok w' /\ forall bp, bp <> 0 -> goods bp w' <= goods bp w + grand bp inv.
Proof.
  intros Hi Hb. cbn zeta. unfold SpawnPlayerLootContainer. rewrite exec_bind. set (w1 := exec GetNewObjectId w).
  set (oid := eval GetNewObjectId w). destruct (hu_frugal _ _ (hush_GetNewObjectId w) Hb) as [Hb1 Hg1]. fold w1 in Hb1, Hg1.
  set (k := new_PlayerLootContainer oid _ _ inv).
  destruct (loot_container_complete oid (position (p_object p)) (yawAngle (p_object p)) inv (ok_core _ Hi)) as (Hk & _ & _ & Ht).
  fold k in Hk, Ht. unfold SpawnDynamicObject, exec. destruct (_dynamicObjects (w_room w1) !! _) as [o|] eqn:Ho.
  - split; [done|]. intros bp Hbp. specialize (Hg1 bp Hbp). pose proof (grand_nonneg bp inv Hi). cbn [snd]. lia.
  - set (w2 := w1 <| w_room ::= _ |>).
    assert (Hb2 : bags_ok w2).
    { destruct Hb1. constructor; [done..| |done]. apply map_Forall_insert_2; [apply Hk|done]. }
    assert (Hg2 : forall bp, bp <> 0 -> goods bp w2 = goods bp w1 + grand bp inv).
    { intros bp Hbp. unfold goods, w2, sess. cbn [setf w_room w_out _playerSessions _staticObjects _dynamicObjects].
      rewrite msum_insert by done. cbn beta. cbn [crate]. rewrite Ht by done. lia. }
    destruct (frugal_view w2 (exec (NotifySpawnObject (GContainer k)) w2) (NotifySpawnObject_view _ _) Hb2) as [H1 H2].
    split; [exact H1|]. intros bp Hbp. specialize (H2 bp Hbp). specialize (Hg1 bp Hbp). rewrite Hg2 in H2 by done.
    change (snd (NotifySpawnObject (GContainer k) w2)) with (exec (NotifySpawnObject (GContainer k)) w2). lia.
Qed.

Lemma leave_loot_accounts sid oid p s w : sess w !! sid = Some s -> bags_ok w ->
  let w' := exec (leave_loot sid oid p) w in
  bags_ok w' /\ forall bp, bp <> 0 -> goods bp w' <= goods bp w + grand bp (GetInventory s).
Proof.
  intros Hs Hb. cbn zeta. unfold leave_loot, exec. unfold sess in Hs. rewrite Hs. refold. rewrite exec_bind.
  destruct (loot_accounts p (GetInventory s) w (bo_inv _ (bs_sessions _ Hb sid s Hs)) Hb) as [Hb1 Hg1].
  set (w1 := exec (SpawnPlayerLootContainer p (GetInventory s)) w) in *.
  match goal with |- context [exec ?m w1] => assert (H : hush w1 (exec m w1)) by hushes end.
  destruct (hu_frugal _ _ H Hb1) as [H1 H2]. split; [exact H1|]. intros bp Hbp. specialize (H2 bp Hbp).
  specialize (Hg1 bp Hbp). lia.
Qed.

(** Losing the items: a container has them, or nobody. *)
Lemma frugal_lose_items sid oid reason p w : unsent sid w -> frugal w (exec (lose_items sid oid reason p) w).
Proof.
  intros Hu. unfold lose_items. destruct (_ || _) eqn:Hr; [|reflexivity].
  assert (Hclear : forall w1, hush w1 (exec (upd_session sid (update_inventory Clear_inventory)) w1)).
  { intros w1. apply hush_upd_session. intros s _. apply Clear_thrifty. }
  case_bool_decide; [|apply (walk_bind frugal); [reflexivity|apply Hclear]].
  rewrite exec_bind. set (w1 := exec (leave_loot sid oid p) w).
  assert (Ho : own sid w1 = own sid w) by apply folk_own, leave_loot_folk.
  destruct (sess w !! sid) as [s|] eqn:Hs.
  - intros Hb. destruct (leave_loot_accounts sid oid p s w Hs Hb) as [Hb1 Hg1]. fold w1 in Hb1, Hg1.
    assert (Ho1 : own sid w1 = Some (strip s)) by (rewrite Ho; unfold own; by rewrite Hs).
    apply own_Some in Ho1 as (s1 & Hs1 & Hst). destruct (hu_frugal _ _ (Hclear w1) Hb1) as [Hb2 _]. split; [exact Hb2|].
    intros bp Hbp. specialize (Hg1 bp Hbp). rewrite (goods_upd_session bp sid _ w1 s1 Hs1).
    assert (Hp : purse bp s1 = grand bp (GetInventory s)).
    { change (purse bp s1) with (purse bp (strip s1)). rewrite <- Hst. unfold purse.
      by rewrite (Hu (strip s)) by (unfold own; by rewrite Hs). }
    assert (Hz : purse bp (update_inventory Clear_inventory s1) = 0).
    { unfold purse. destruct (_leftNotified _); [done|]. by apply grand_Clear. }
    lia.
  - assert (Hw : w1 = w) by (unfold w1, leave_loot, exec; unfold sess in Hs; by rewrite Hs).
    rewrite Hw. apply Hclear.
Qed.

Lemma hush_RemovePlayerObject oid w : hush w (exec (RemovePlayerObject oid) w).
Proof. by apply hush_same. Qed.

Lemma frugal_detach_player_object sid oid reason w : unsent sid w -> frugal w (exec (detach_player_object sid oid reason) w).
Proof.
  intros Hu. unfold detach_player_object, exec. destruct (if negb _ then _ else _) as [p|]; [|reflexivity].
  unfold detach_object. refold. apply (walk_bind frugal); [by apply frugal_lose_items|].
  apply (walk_bind frugal); [apply hush_RemovePlayerObject|]. apply hu_frugal. hushes.
Qed.

(** The report carries at most what the player has. *)
Lemma told_at_most bp s : bp <> 0 -> inv_ok (GetInventory s) ->
  0 <= told_rows bp (OutLeft (NotifyPlayerLeftToMain s)) <= grand bp (GetInventory s).
Proof.
  intros Hbp Hi. unfold NotifyPlayerLeftToMain. pose proof (grand_nonneg bp _ Hi) as Hg.
  destruct (bool_decide _); [|cbn; lia]. pose proof (ipc_rows_complete bp (GetInventory s) Hbp) as H.
  unfold SerializeInventoryForIPC in *. destruct H as [H _]. cbn [told_rows pl_inventory pl_equipment].
  pose proof (count_nonneg bp _ (proj1 (ok_mag _ (ok_core _ Hi) true))).
  pose proof (count_nonneg bp _ (proj1 (ok_mag _ (ok_core _ Hi) false))).
  rewrite H. rewrite !rows_total_ipc in H by done. pose proof (total_nonneg bp _ (ok_slots _ (ok_core _ Hi))).
  assert (0 <= total bp [_primaryWeaponSlot (GetInventory s); _secondaryWeaponSlot (GetInventory s);
    _armorSlot (GetInventory s)]); [|lia].
  apply total_nonneg. destruct (ok_core _ Hi) as [_ _ Hw Ha _].
  apply Forall_cons; split; [apply (Hw true)|apply Forall_cons; split; [apply (Hw false)|by apply Forall_singleton]].
Qed.

(** A report is sent once, by a session that has left. *)
Definition reports (step : ST PlayerSession bool) (s : PlayerSession) : Prop :=
  let '(sent, s') := step s in
  GetInventory s' = GetInventory s /\ _leftNotified (s_leave s') = true /\ sent = negb (_leftNotified (s_leave s)) /\
  2 <= leave_rank (_leaveState (s_leave s')).

Lemma frugal_notify_left sid step w : (forall s, sess w !! sid = Some s -> reports step s) ->
  frugal w (exec (notify_left sid step) w).
Proof.
  intros Hr. unfold notify_left, exec. destruct (_playerSessions (w_room w) !! sid) as [s|] eqn:Hs; [|reflexivity].
  specialize (Hr s Hs). unfold reports in Hr. destruct (step s) as [sent s'] eqn:Hst. destruct Hr as (H1 & H2 & H3 & H4).
  set (w1 := w <| w_room ::= _ |>).
  assert (Hw1 : w1 = exec (upd_session sid (fun _ => s')) w).
  { unfold w1, upd_session, upd_room, modify, exec. cbn [snd]. destruct w as [r t o th]. unfold setf. cbn in Hs |- *.
    do 2 f_equal. by apply (insert_alter _ _ s). }
  intros Hb. pose proof (bs_sessions _ Hb sid s Hs) as [Bi Bv Be].
  assert (Hb1 : bags_ok w1).
  { rewrite Hw1. apply bags_upd_session; [done|]. intros _ _. constructor; rewrite ?H1; [done..|]. lia. }
  assert (Hg1 : forall bp, goods bp w1 = goods bp w - purse bp s).
  { intros bp. rewrite Hw1, (goods_upd_session bp sid _ w s Hs). unfold purse at 2. rewrite H2. lia. }
  destruct sent; cbn [snd].
  - split.
    { destruct Hb1 as [B1 B2 B3 B4]. constructor; [done..|]. intros bp Hbp. unfold emit, modify. cbn [snd setf w_out].
      rewrite reported_app.
      specialize (B4 bp Hbp). pose proof (told_at_most bp s' Hbp ltac:(by rewrite H1)). cbn [reported foldr]. lia. }
    intros bp Hbp. specialize (Hg1 bp). pose proof (goods_emit bp (OutLeft (NotifyPlayerLeftToMain s')) w1) as Hg2.
    unfold exec in Hg2. pose proof (told_at_most bp s' Hbp ltac:(by rewrite H1)) as Ht. rewrite H1 in Ht.
    assert (Hp : purse bp s = grand bp (GetInventory s)) by (unfold purse; by destruct (_leftNotified (s_leave s))).
    lia.
  - split; [done|]. intros bp Hbp. rewrite Hg1. assert (0 <= purse bp s); [|lia].
    unfold purse. destruct (_leftNotified (s_leave s)); [lia|by apply grand_nonneg].
Qed.
End leaving.

(** ** The steps of a room *)

Section steps.
Context {E : External} {L : ExternalLaws E}.

Lemma release_npc_hush p oid w : hush w (exec (release_npc p oid) w).
Proof.
  unfold release_npc, exec. destruct (_dynamicObjects (w_room w) !! oid) as [[k|n]|] eqn:Ho; [reflexivity| |reflexivity].
  cbn [mbind option_bind as_npc]. destruct (negb _); [reflexivity|]. destruct (ReleaseAuthority n) as [ok n'].
  set (w1 := w <| w_room ::= _ |>). assert (H : hush w w1).
  { split; [|done]. intros [H1 H2 H3 H4]. split.
    - constructor; [done..| |done]. apply map_Forall_insert_2; [apply Forall_nil_2|done].
    - intros bp _. unfold goods, w1, sess. cbn [setf w_room w_out _playerSessions _staticObjects _dynamicObjects].
      rewrite (insert_alter _ _ _ _ Ho), (msum_alter _ _ _ _ _ Ho). cbn. lia. }
  destruct (negb ok); [exact H|]. etrans; [exact H|]. apply (walk_NotifyNpcAuthority hush).
Qed.
Lemma ReleaseNpcAuthority_hush p w : hush w (exec (ReleaseNpcAuthority p) w).
Proof.
  unfold ReleaseNpcAuthority. destruct (_ =? _); [reflexivity|]. apply (walk_for_each hush). intros. apply release_npc_hush.
Qed.

Lemma reports_NotifyLeftOnce s : 2 <= leave_rank (_leaveState (s_leave s)) -> reports NotifyLeftOnce s.
Proof. intros Hr. unfold reports, NotifyLeftOnce. destruct (_leftNotified (s_leave s)) eqn:Hn; by split_and!. Qed.
Lemma reports_FinalizeLeave s : reports FinalizeLeave s.
Proof.
  unfold reports, FinalizeLeave, NotifyLeftOnce. cbn zeta.
  change (_leftNotified (s_leave (SetSessionState SS_LEFT _))) with (_leftNotified (s_leave s)).
  destruct (_leftNotified (s_leave s)) eqn:Hn; (split_and!; [done..|cbn; lia]).
Qed.

Lemma frugal_DetachPlayer sid w : unsent sid w -> frugal w (exec (DetachPlayer sid) w).
Proof.
  intros Hu. unfold DetachPlayer, exec. destruct (_playerSessions (w_room w) !! sid) as [s|] eqn:Hs; [|reflexivity].
  refold. rewrite !exec_bind. set (oid := GetObjectId s). set (reason := _leaveReason (s_leave s)).
  set (w1 := exec (upd_session sid EndRecall) w). set (w2 := exec (upd_session sid (SetSessionState _)) w1).
  set (w3 := exec (ReleaseInteractingContainer sid) w2). set (w4 := exec (ReleaseNpcAuthority oid) w3).
  set (w5 := exec (detach_player_object sid oid reason) w4). set (w6 := exec (upd_session sid (SetObjectId (-1))) w5).
  assert (H4 : hush w w4).
  { etrans; [apply (hush_keeps sid EndRecall), _|]. etrans; [eapply (hush_keeps sid); apply SetSessionState_keeps|].
    etrans; [apply hush_release|apply ReleaseNpcAuthority_hush]. }
  etrans; [apply H4|]. etrans; [apply frugal_detach_player_object, (hu_unsent _ _ H4), Hu|]. fold w5.
  etrans; [apply hu_frugal, (hush_keeps sid (SetObjectId (-1))), _|]. fold w6.
  etrans; [apply hu_frugal, (hush_keeps sid (SetLeaveState LS_DETACHED)), _|].
  apply frugal_notify_left. intros s' Hs'. apply reports_NotifyLeftOnce. rewrite sess_upd_session in Hs'.
  apply lookup_alter_Some in Hs' as [(_ & s0 & _ & ->)|[Hne _]]; [cbn; lia|done].
Qed.

Lemma frugal_detach_or_finalize sid s w : sess w !! sid = Some s -> frugal w (exec (detach_or_finalize sid s) w).
Proof.
  intros Hs Hb. pose proof (bo_early _ (bs_sessions _ Hb sid s Hs)) as Hn. revert Hb.
  change (frugal w (exec (detach_or_finalize sid s) w)).
  unfold detach_or_finalize. apply (walk_bind frugal).
  - case_bool_decide as Hp; [|reflexivity]. apply frugal_DetachPlayer. intros s' Ho. unfold own in Ho. rewrite Hs in Ho.
    apply (inj Some) in Ho. rewrite <- Ho. apply Hn. rewrite Hp. cbn. lia.
  - unfold finalize_if_ready, exec at 2. set (w1 := exec _ w).
    destruct (_playerSessions (w_room w1) !! sid) as [s1|]; [|reflexivity].
    destruct (_ && _); [|reflexivity]. apply frugal_notify_left. intros s' _. apply reports_FinalizeLeave.
Qed.

Lemma frugal_for_sessions body w :
  (forall sid s w, sess w !! sid = Some s -> frugal w (exec (body sid s) w)) -> frugal w (exec (for_sessions body) w).
Proof.
  intros Hb. unfold for_sessions. apply (walk_for_each frugal). intros sid w1. unfold exec.
  destruct (_playerSessions (w_room w1) !! sid) as [s|] eqn:Hs; [|reflexivity]. by apply Hb.
Qed.

Lemma frugal_mark sid r n w : frugal w (exec (mark_leaving sid r n) w).
Proof. apply hu_frugal, hush_mark_leaving. Qed.

Lemma ProcessLeaves_frugal w : frugal w (exec ProcessLeaves w).
Proof.
  unfold ProcessLeaves. apply (walk_bind frugal).
  { unfold expire_lifetime, exec. destruct (_ && _); [|reflexivity].
    transitivity (w <| w_room ::= fun r => r <| _lifetimeExpired := true |> |>).
    - by apply hu_frugal, hush_same.
    - apply frugal_for_sessions. intros. apply frugal_mark. }
  apply (walk_bind frugal); [reflexivity|]. apply (walk_bind frugal).
  { apply (walk_for_each frugal). intros oid w1. unfold mark_dead, exec.
    destruct (FindSessionByObjectId _ _); [apply frugal_mark|reflexivity]. }
  apply (walk_bind frugal).
  { apply frugal_for_sessions. intros sid s w1 _. unfold exec. destruct (_ || _); [reflexivity|]. cbn zeta.
    destruct (_ =? 0); [reflexivity|]. destruct (_ <? _); [reflexivity|]. apply frugal_mark. }
  apply (walk_bind frugal).
  { apply frugal_for_sessions. intros sid s w1 _. case_bool_decide; [|reflexivity]. apply hu_frugal, hush_keeps. done. }
  apply (walk_bind frugal); [apply frugal_for_sessions, frugal_detach_or_finalize|].
  unfold CheckAllLeft, exec. destruct (_allLeftReported _); [reflexivity|]. destruct (forallb _ _); [|reflexivity].
  match goal with |- frugal ?v (snd (emit ?o ?v1)) => transitivity v1;
    [by apply hu_frugal, hush_same|by apply hu_frugal, hush_emit] end.
Qed.

Lemma AddRecallPass_thrifty s : thrifty s (snd (AddRecallPass s)).
Proof. split; [done|]. intros []. by split. Qed.

Lemma RecallTick_hush sid uid g w : hush w (exec (RecallTick sid uid g) w).
Proof.
  unfold RecallTick, exec. destruct (_playerSessions (w_room w) !! sid) as [s|] eqn:Hs; [|reflexivity].
  destruct (_ || _); [reflexivity|]. destruct (negb _); [reflexivity|]. cbn zeta.
  destruct (recall_obstacle s (w_room w)) as [reason|].
  { change (hush w (exec (CancelRecall sid (_recallSpotIndex (s_recall s)) reason) w)).
    unfold CancelRecall, SendRecallResult. hushes. }
  pose proof (AddRecallPass_thrifty s) as Ht. destruct (AddRecallPass s) as [passes s1].
  change (snd (upd_session sid (fun _ => s1) w)) with (exec (upd_session sid (fun _ => s1)) w).
  set (w1 := exec (upd_session _ _) w).
  assert (H1 : hush w w1).
  { apply (hush_upd_session sid (fun _ => s1)). intros s' Hs'. by assert (s' = s) as -> by (unfold sess in *; congruence). }
  clearbody w1. destruct (_ <? _); (etrans; [exact H1|]).
  - unfold ScheduleRecallTick. by apply hush_emit.
  - refold. unfold SendRecallResult. hushes. apply hush_mark_leaving.
Qed.

Lemma step_frugal l w : leave_inv w -> frugal w (step l w).
Proof.
  intros Hl. destruct l as [bytes addr|sid uid g| | |sid|sid ip|ms]; cbn [step].
  - destruct (HandleClientPacket_path bytes addr w) as [->|(s & ch & Hs & _ & _ & _ & Hp)]; [reflexivity|].
    set (w1 := exec (upd_session _ _) w) in Hp. cbn zeta in Hp.
    assert (H1 : frugal w w1) by (apply hu_frugal, hush_keeps; done).
    assert (K1 : leave_inv w1) by (apply (soft_leave_inv w); [apply calm_soft, calm_upd_bland, _|done]).
    destruct Hp as [->|(m & _ & ->)]; [done|]. etrans; [exact H1|]. apply hu_frugal, handle_message_hush, K1.
  - apply hu_frugal, RecallTick_hush.
  - apply (walk_bind frugal); [apply ProcessLeaves_frugal|]. set (w1 := exec ProcessLeaves w).
    unfold Update, RegenPlayerShields, BroadcastPlayerStates. apply (walk_bind frugal).
    + unfold exec. destruct (_ =? 0); by apply hu_frugal, hush_same.
    + set (w2 := exec _ w1). unfold exec. case_decide; [reflexivity|]. apply (walk_Broadcast frugal).
  - unfold UpdateNpcStates, exec. destruct (npc_states _); [reflexivity|]. apply (walk_Broadcast frugal).
  - apply frugal_view, Retransmit_view.
  - apply hu_frugal, hush_keeps, _.
  - by apply hu_frugal, hush_same.
Qed.

Lemma run_frugal ls w : leave_inv w -> frugal w (run ls w).
Proof.
  revert w; induction ls as [|l ls IH]; intros w Hl; cbn [run]; [reflexivity|].
  etrans; [by apply step_frugal|]. apply IH, (step_kept l w Hl).
Qed.
End steps.

(** ** Theorems *)

(** A stack that lies in the bag of somebody in the room, or in a container. *)
Definition stored (sl : Slot) (w : World) : Prop :=
  (exists sid s, sess w !! sid = Some s /\ _leftNotified (s_leave s) = false /\ sl ∈ _inventorySlots (GetInventory s)) \/
  (exists oid k, FindContainer oid (w_room w) = Some k /\ sl ∈ k_inventorySlots k).

Lemma total_elem bp sl l : Forall slot_wf l -> sl ∈ l -> count bp sl <= total bp l.
Proof. intros Hl (i & Hi)%list_elem_of_lookup. by eapply count_le_total. Qed.

Lemma purses_nonneg bp w : bags_ok w -> map_Forall (fun _ s => 0 <= purse bp s) (sess w).
Proof.
  intros Hb sid s Hs. pose proof (grand_nonneg bp _ (bo_inv _ (bs_sessions _ Hb sid s Hs))). unfold purse.
  destruct (_leftNotified (s_leave s)); lia.
Qed.
Lemma crates_nonneg bp (m : gmap Z GameObject) :
  map_Forall (fun _ => crate_ok) m -> map_Forall (fun _ o => 0 <= total bp (crate o)) m.
Proof. intros H i o Ho. by apply total_nonneg, (H i o). Qed.

(** What is stored, and what has been reported, is part of what the room holds. *)
Lemma stored_goods sl w : bags_ok w -> stored sl w -> IsEmpty sl = false -> slot_wf sl /\ 
  quantity sl + reported (blueprintId (item sl)) (w_out w) <= goods (blueprintId (item sl)) w.
Proof.
  intros Hb Hst He. set (bp := blueprintId (item sl)).
  pose proof (purses_nonneg bp w Hb) as P1. pose proof (crates_nonneg bp _ (bs_static _ Hb)) as P2.
  pose proof (crates_nonneg bp _ (bs_dynamic _ Hb)) as P3. pose proof (msum_nonneg _ _ P1). pose proof (msum_nonneg _ _ P2).
  pose proof (msum_nonneg _ _ P3). assert (Hq : count bp sl = quantity sl) by (unfold count, bp; by rewrite Z.eqb_refl).
  unfold goods. destruct Hst as [(sid & s & Hs & Hn & Hin)|(oid & k & Hk & Hin)].
  - destruct (bo_inv _ (bs_sessions _ Hb sid s Hs)) as [[_ Hsl Hw Ha Hm] _].
    pose proof (msum_elem _ _ _ _ P1 Hs) as Hp. pose proof (total_elem bp sl _ Hsl Hin) as Ht.
    split; [by eapply Forall_forall in Hin|].
    unfold purse in Hp at 1. rewrite Hn in Hp. unfold grand in Hp.
    pose proof (count_nonneg bp _ (Hw true)). pose proof (count_nonneg bp _ (Hw false)). pose proof (count_nonneg bp _ Ha).
    pose proof (count_nonneg bp _ (proj1 (Hm true))). pose proof (count_nonneg bp _ (proj1 (Hm false))).
    cbn [weaponOf magazineOf] in *. lia.
  - pose proof (container_wf oid k w Hb Hk) as Hsl. pose proof (total_elem bp sl _ Hsl Hin).
    split; [by eapply Forall_forall in Hin|].
    unfold FindContainer, FindNonplayerObject in Hk.
    destruct (_staticObjects (w_room w) !! oid) as [[k0|]|] eqn:Ho; simplify_eq/=.
    + pose proof (msum_elem _ _ _ _ P2 Ho) as Hp. cbn beta in Hp. cbn [crate] in Hp. lia.
    + destruct (_dynamicObjects (w_room w) !! oid) as [[k0|]|] eqn:Hd; simplify_eq/=.
      pose proof (msum_elem _ _ _ _ P3 Hd) as Hp. cbn beta in Hp. cbn [crate] in Hp. lia.
Qed.

Section theorems.
Context {E : External} {L : ExternalLaws E}.

(** C4. Nothing is duplicated: whatever datagrams arrive, timers fire and updates run in a
    room, the quantity of each item in the bags of those who are in it, in its
    containers and in the rows reported to the main process together never grows;
    bags and containers stay well formed, no stack exceeds what the room began with,
    so no 32-bit quantity overflows, and the main process is never told of more. *)
Theorem nothing_duplicated ls w :
  leave_inv w -> bags_ok w ->
  let w' := run ls w in
  bags_ok w' /\
  (forall bp, bp <> 0 -> 0 <= reported bp (w_out w') <= goods bp w' /\ goods bp w' <= goods bp w) /\
  (forall sl, stored sl w' -> IsEmpty sl = false -> 0 < quantity sl <= goods (blueprintId (item sl)) w).
Proof.
  intros Hl Hb w'. destruct (run_frugal ls w Hl Hb) as [Hb' Hg]. fold w' in Hb', Hg. split_and!; [done| |].
  - intros bp Hbp. specialize (Hg bp Hbp). pose proof (bs_out _ Hb' bp Hbp).
    pose proof (msum_nonneg _ _ (purses_nonneg bp w' Hb')). pose proof (msum_nonneg _ _ (crates_nonneg bp _ (bs_static _ Hb'))).
    pose proof (msum_nonneg _ _ (crates_nonneg bp _ (bs_dynamic _ Hb'))). unfold goods in *. lia.
  - intros sl Hst He. destruct (stored_goods sl w' Hb' Hst He) as [Hwf Hle]. apply not_IsEmpty_wf in He as [Hbp Hq]; [|done].
    specialize (Hg _ Hbp). pose proof (bs_out _ Hb' _ Hbp). lia.
Qed.
End theorems.

(** ** A concrete exchange

    The first player enters, opens the container and puts four rounds into it; then
    the room's time is over and what both players had is lost or left behind. *)

#[local] Existing Instance sample_external.
#[local] Existing Instance sample_laws.

Definition trade : list Label :=
  [datagram 6 0 1 []; datagram 18 0 2 [0]; datagram 21 0 3 [0; 255; 1; 0; 4; 0; 0; 2];
   LClock 700000; LUpdate; LClock 6000; LUpdate].

Lemma sample_bags_ok : bags_ok sample_world.
Proof.
  constructor.
  - intros sid s Hs. assert (Ho : own sid sample_world = Some (strip s)) by (unfold own; by rewrite Hs).
    assert (Hb : GetInventory (strip s) = sample /\ _leftNotified (s_leave (strip s)) = false).
    { destruct (sample_world_own sid _ Ho) as [[_ ->]|[_ ->]]; done. }
    destruct Hb as [Hi Hn]. change (GetInventory (strip s)) with (GetInventory s) in Hi.
    constructor; [rewrite Hi; apply sample_ok|rewrite Hi; by vm_compute|done].
  - intros i o Ho. change (_staticObjects (w_room sample_world)) with
      ({[ 0 := GContainer (InitializeSlots 8 (new_Container 0 OT_PlayerLoot true vector3_zero)) ]} : gmap Z GameObject) in Ho.
    apply lookup_singleton_Some in Ho as [_ <-].
    apply (ko_slots _ (container_ok_init 8 (new_Container 0 OT_PlayerLoot true vector3_zero) ltac:(lia))).
  - intros i o Ho. change (_dynamicObjects (w_room sample_world)) with (∅ : gmap Z GameObject) in Ho.
    by rewrite lookup_empty in Ho.
  - done.
Qed.

Lemma nothing_duplicated_witness :
  goods 5 sample_world = 80 /\ goods 5 (run trade sample_world) <= 80 /\
  (fun k => total 5 (k_inventorySlots k)) <$> FindContainer 0 (w_room (run trade sample_world)) = Some 4.
Proof.
  assert (E0 : goods 5 sample_world = 80) by (vm_compute; reflexivity).
  assert (Hl : leave_inv sample_world) by (apply leave_inv_ids, sample_world_inv).
  destruct (nothing_duplicated trade sample_world Hl sample_bags_ok) as (_ & H & _).
  destruct (H 5) as [_ Hg]; [done|]. rewrite E0 in Hg. split; [exact E0|]. split; [exact Hg|by vm_compute].
Defined.
