(* ===== verification/Rooms.v ===== *)
(** * The rooms as they are built

    Models the construction of the two kinds of room of
    src/src/DedicateProcess/GameRoom.h and .cpp: the test room with its box and the
    Tenerife room, whose vehicles and turrets come from the map tables and whose loot is drawn.

    A [uniform_int_distribution] over the process's generator is the class [Rng]: the
    n-th draw, of a range.  The law is the documented one, that a draw is in its range;
    nothing is assumed of its distribution.  A container is referred to by its object
    id. *)

From S2P Require Import Prelude Items Geometry MapData Combat Container Protocol Session Room.
Local Open Scope Z_scope.

Class Rng := { rng_int : nat -> Z -> Z -> Z }.
Class RngLaws (G : Rng) : Prop := { rng_range n lo hi : lo <= hi -> lo <= rng_int n lo hi <= hi }.

(** The world a room is built in and the draws made so far. *)
Record Build := mk_build { b_world : World; b_draws : nat }.
#[export] Instance eta_Build : Eta Build := fun b => mk_build (b_world b) (b_draws b).

Definition on_world {A} (f : ST World A) : ST Build A := fun b =>
  let '(a, w) := f (b_world b) in (a, b <| b_world := w |>).

Definition swap {A} (i j : nat) (l : list A) : list A :=
  match l !! i, l !! j with Some x, Some y => <[ i := y ]> (<[ j := x ]> l) | _, _ => l end.

Section rooms.
Context {E : External} {G : Rng}.

Definition draw (lo hi : Z) : ST Build Z := fun b =>
  (rng_int (b_draws b) lo hi, b <| b_draws ::= S |>).

(** The first [k] steps from position [i] on. *)
Fixpoint shuffle_loop (k i : nat) (indices : list nat) : ST Build (list nat) :=
  match k with
  | O => mret indices
  | S k' =>
      j ← draw (Z.of_nat i) (Z.of_nat (length indices) - 1);
      shuffle_loop k' (S i) (swap i (Z.to_nat j) indices)
  end.
Definition PartialShuffle (indices : list nat) (pickCount : nat) : ST Build (list nat) :=
  shuffle_loop pickCount 0 indices.

(** [pContainer->PlaceInitialLoot(bp, qty, _nextWorldItemUid++)]. *)
Definition place_initial (oid bp qty : Z) : ST Build unit := on_world (fun w =>
  let uid := _nextWorldItemUid (w_room w) in
  upd_container oid (exec (PlaceInitialLoot bp qty uid))
    (w <| w_room ::= fun r => r <| _nextWorldItemUid := u64 (uid + 1) |> |>)).

Definition placeAmmo (ammoPool : list Z) (oid minQty maxQty : Z) : ST Build unit :=
  pick ← draw 0 (Z.of_nat (length ammoPool) - 1);
  qty ← draw minQty maxQty;
  place_initial oid (nth (Z.to_nat pick) ammoPool 0) qty.

(** The inner loop: [k] pieces of [bp] from [cursor] on; the new cursor. *)
Fixpoint equip_loop (k : nat) (bp : Z) (containers : list Z) (indices : list nat) (equipTotal cursor : nat)
    : ST Build nat :=
  match k with
  | O => mret cursor
  | S k' =>
      if (cursor <? equipTotal)%nat then
        _ ← place_initial (nth (nth cursor indices O) containers 0) bp 1;
        equip_loop k' bp containers indices equipTotal (S cursor)
      else mret cursor
  end.
Definition is_equipment (bp : Z) : bool :=
  bool_decide (GetType bp = WEAPON) || bool_decide (GetType bp = ARMOR).
Fixpoint quota_loop (quotas : list MapLootEquipQuota) (containers : list Z) (indices : list nat)
    (equipTotal cursor : nat) : ST Build unit :=
  match quotas with
  | [] => mret tt
  | q :: quotas' =>
      if (cursor <? equipTotal)%nat then
        let n := Z.to_nat (quota_containerCount q) in
        if negb (is_equipment (quota_blueprintId q))
        then quota_loop quotas' containers indices equipTotal (cursor + n)%nat
        else
          cursor' ← equip_loop n (quota_blueprintId q) containers indices equipTotal cursor;
          quota_loop quotas' containers indices equipTotal cursor'
      else mret tt
  end.

Definition DistributeLoot (containers : list Z) : ST Build unit := fun b =>
  let mapId := _mapId (w_room (b_world b)) in
  match containers with
  | [] => (tt, b)
  | _ =>
    (let ammoPool := List.filter (fun bp => bool_decide (GetType bp = AMMO)) (default [] (GetLootAmmoPool mapId)) in
     let count := length containers in
     let indices := seq 0 count in
     indices ←
       (match ammoPool with
        | [] => mret indices
        | _ =>
            _ ← for_each containers (fun oid => placeAmmo ammoPool oid TENERIFE_BASE_AMMO_MIN TENERIFE_BASE_AMMO_MAX);
            let extraCount := Nat.min (Z.to_nat TENERIFE_EXTRA_AMMO_CONTAINERS) count in
            indices ← PartialShuffle indices extraCount;
            _ ← for_each (take extraCount indices) (fun i =>
                  placeAmmo ammoPool (nth i containers 0) TENERIFE_EXTRA_AMMO_MIN TENERIFE_EXTRA_AMMO_MAX);
            mret indices
        end);
     match GetLootEquipQuotas mapId with
     | None | Some [] => mret tt
     | Some quotas =>
         let equipTotal := Nat.min (foldr (fun q n => Z.to_nat (quota_containerCount q) + n)%nat O quotas) count in
         indices ← PartialShuffle indices equipTotal;
         quota_loop quotas containers indices equipTotal 0
     end) b
  end.

(** One vehicle; the containers so far. An unknown type uses up an object id. *)
Definition spawn_container (containers : list Z) (spawn : MapSpawn) : ST Build (list Z) :=
  oid ← on_world GetNewObjectId;
  match new_Vehicle (sp_type spawn) oid (sp_position spawn) (sp_yawAngle spawn) with
  | None => mret containers
  | Some k => _ ← on_world (SpawnStaticObject (GContainer k)); mret (containers ++ [oid])
  end.
Fixpoint spawn_containers (spawns : list MapSpawn) (containers : list Z) : ST Build (list Z) :=
  match spawns with
  | [] => mret containers
  | s :: spawns' => containers' ← spawn_container containers s; spawn_containers spawns' containers'
  end.
Definition spawn_npc (spawn : MapSpawn) : ST Build unit :=
  oid ← on_world GetNewObjectId;
  match sp_type spawn with
  | OT_Turret => on_world (SpawnDynamicObject (GNpc (new_Turret oid (sp_position spawn) (sp_yawAngle spawn))))
  | _ => mret tt
  end.

Definition InitTenerifeGameRoom : ST Build unit := fun b =>
  let mapId := _mapId (w_room (b_world b)) in
  match GetContainerSpawns mapId with
  | None => (tt, b)
  | Some spawns =>
      (containers ← spawn_containers spawns [];
       _ ← DistributeLoot containers;
       match GetHostileNpcSpawns mapId with
       | None => mret tt
       | Some npcs => for_each npcs spawn_npc
       end) b
  end.

Definition InitTestGameRoom : ST Build unit :=
  oid ← on_world GetNewObjectId;
  on_world (SpawnStaticObject (GContainer (new_TestItemBox oid vector3_zero))).

Definition test_spots : list Vector3 :=
  [cents3 1000 0 0; cents3 (-1000) 0 0; cents3 0 0 1000; cents3 0 0 (-1000)].
Definition tenerife_spots : list Vector3 :=
  [cents3 14800 26 2700; cents3 6600 20 (-8850); cents3 (-15700) 20 (-5300); cents3 (-9000) 20 (-1400)].

(** The constructors: the room and the draws made. *)
Definition construct (roomId mapId now : Z) (spots : list Vector3) (init : ST Build unit) (draws : nat) : GameRoom * nat :=
  let b := exec init (mk_build (mk_world ((new_GameRoom roomId mapId now) <| _spawnSpots := spots |>) now [] false) draws) in
  (w_room (b_world b), b_draws b).
Definition new_TestGameRoom (roomId now : Z) : nat -> GameRoom * nat :=
  construct roomId MAP_ID_TUTORIAL now test_spots InitTestGameRoom.
Definition new_TenerifeGameRoom (roomId now : Z) : nat -> GameRoom * nat :=
  construct roomId MAP_ID_TENERIFE now tenerife_spots InitTenerifeGameRoom.
End rooms.

(** ** Lemmas *)

Section loot.
Context {E : External} {G : Rng} {L : RngLaws G}.

(** From a state of [P] the call ends in a state, with a result, of [Q]. *)
Definition builds {A} (P : Build -> Prop) (f : ST Build A) (Q : A -> Build -> Prop) : Prop :=
  forall b, P b -> let '(a, b') := f b in Q a b'.

(** Reads a goal about every build with [P] as one about [builds]. *)
Ltac as_builds P :=
  match goal with |- forall b, _ -> let '(a, b') := ?f b in @?Q a b' => change (builds P f Q) end.

Lemma builds_bind {A B} P (f : ST Build A) Q (g : A -> ST Build B) R :
  builds P f Q -> (forall a, builds (Q a) (g a) R) -> builds P (f ≫= g) R.
Proof.
  intros Hf Hg b Hb. specialize (Hf b Hb). unfold mbind, ST_bind. destruct (f b) as [a b1]. by apply Hg.
Qed.
Lemma builds_ret {A} (a : A) (Q : A -> Build -> Prop) : builds (Q a) (mret a) Q.
Proof. by intros b. Qed.
Lemma builds_weaken {A} (P P' : Build -> Prop) (f : ST Build A) (Q Q' : A -> Build -> Prop) :
  (forall b, P b -> P' b) -> (forall a b, Q' a b -> Q a b) -> builds P' f Q' -> builds P f Q.
Proof. intros H1 H2 Hf b Hb. specialize (Hf b (H1 b Hb)). destruct (f b). auto. Qed.
Lemma builds_each {A} (I : list A -> Build -> Prop) (xs : list A) (body : A -> ST Build unit) :
  (forall l x k, xs = l ++ x :: k -> builds (I l) (body x) (fun _ => I (l ++ [x]))) ->
  builds (I []) (for_each xs body) (fun _ => I xs).
Proof.
  intros H. assert (Hg : forall l k, xs = l ++ k -> builds (I l) (for_each k body) (fun _ => I xs)); [|by apply (Hg [])].
  intros l k. revert l. induction k as [|x k IH]; intros l Hl.
  - rewrite app_nil_r in Hl. subst. apply (builds_ret tt (fun _ => I l)).
  - eapply builds_bind; [by apply (H l x k)|]. intros []. apply IH. by rewrite <- app_assoc.
Qed.

(** A draw is in its range, and what is only about the world knows nothing of it. *)
Class WorldOnly (P : Build -> Prop) : Prop := world_only : forall b b', b_world b' = b_world b -> P b -> P b'.
Lemma builds_draw (P : Build -> Prop) `{!WorldOnly P} lo hi : lo <= hi ->
  builds P (draw lo hi) (fun x b => lo <= x <= hi /\ P b).
Proof. intros H b Hb. cbn. split; [by apply rng_range|]. by apply (world_only b). Qed.

Lemma swap_Permutation {A} i j (l : list A) : Permutation (swap i j l) l.
Proof.
  unfold swap. destruct (l !! i) as [x|] eqn:Hi; [|done]. destruct (l !! j) as [y|] eqn:Hj; [|done].
  destruct (decide (i = j)) as [->|Hne].
  { assert (x = y) as -> by congruence. by rewrite !list_insert_id by (rewrite ?list_insert_id; done). }
  apply Permutation_inj. split; [by rewrite !length_insert|].
  exists (fun k => if decide (k = i) then j else if decide (k = j) then i else k). split.
  - intros a b. repeat case_decide; congruence.
  - pose proof (lookup_lt_Some _ _ _ Hi). pose proof (lookup_lt_Some _ _ _ Hj). intros k. repeat case_decide; subst.
    + rewrite list_lookup_insert_eq by (by rewrite length_insert). by rewrite Hj.
    + rewrite list_lookup_insert_ne, list_lookup_insert_eq by done. by rewrite Hi.
    + by rewrite !list_lookup_insert_ne by congruence.
Qed.
Lemma swap_length {A} i j (l : list A) : length (swap i j l) = length l.
Proof. apply Permutation_length, swap_Permutation. Qed.

Lemma shuffle_builds (P : Build -> Prop) `{!WorldOnly P} k i l : (i + k <= length l)%nat ->
  builds P (shuffle_loop k i l) (fun l' b => Permutation l' l /\ P b).
Proof.
  revert i l. induction k as [|k IH]; intros i l Hk; cbn [shuffle_loop]; [by intros b Hb|].
  eapply builds_bind; [apply builds_draw; [apply _|lia]|]. intros j b [Hj Hb].
  specialize (IH (S i) (swap i (Z.to_nat j) l)). rewrite swap_length in IH. specialize (IH ltac:(lia) b Hb).
  destruct (shuffle_loop _ _ _ b) as [l' b']. destruct IH as [H1 H2]. split; [|done]. by rewrite H1, swap_Permutation.
Qed.

(** *** Placements *)

Record Placement := mk_placement { at_oid : Z; at_bp : Z; at_qty : Z }.
Definition placed_at (oid : Z) (l : list Placement) : list Placement := List.filter (fun p => at_oid p =? oid) l.
Definition amount (bp : Z) (l : list Placement) : Z :=
  foldr (fun p n => (if at_bp p =? bp then at_qty p else 0) + n) 0 l.

Definition static_container (b : Build) (oid : Z) : option Container :=
  match _staticObjects (w_room (b_world b)) !! oid with Some (GContainer k) => Some k | _ => None end.

(** The containers hold exactly what has been placed. *)
Record stocked (containers : list Z) (placed : list Placement) (b : Build) : Prop := {
  sk_map : _mapId (w_room (b_world b)) = MAP_ID_TENERIFE;
  sk_dom : forall oid, is_Some (_staticObjects (w_room (b_world b)) !! oid) -> oid ∈ containers;
  sk_loot : forall oid, oid ∈ containers -> exists k, static_container b oid = Some k /\ loot_ok k /\
    container_size k = DEFAULT_CONTAINER_VOLUME /\ _nextLootSlot k = Z.of_nat (length (placed_at oid placed)) /\
    _interactingPlayerId k = NO_INTERACTING_PLAYER /\
    forall bp, bp <> 0 -> total bp (k_inventorySlots k) = amount bp (placed_at oid placed) }.

#[export] Instance stocked_world containers placed : WorldOnly (stocked containers placed).
Proof. intros b b' Hw [H1 H2 H3]. constructor; unfold static_container; by rewrite Hw. Qed.

Lemma amount_app bp l k : amount bp (l ++ k) = amount bp l + amount bp k.
Proof. induction l as [|p l IH]; [done|]. cbn. fold (amount bp (l ++ k)) (amount bp l). rewrite IH. lia. Qed.
Lemma placed_at_app oid l k : placed_at oid (l ++ k) = placed_at oid l ++ placed_at oid k.
Proof. apply List.filter_app. Qed.

Lemma PlaceInitialLoot_occupant bp q uid k :
  _interactingPlayerId (exec (PlaceInitialLoot bp q uid) k) = _interactingPlayerId k /\
  container_size (exec (PlaceInitialLoot bp q uid) k) = container_size k.
Proof.
  unfold exec, PlaceInitialLoot, PlaceItem. destruct (_ <=? _); [done|]. destruct (_ || _); [done|]. cbn.
  unfold container_size. cbn. by rewrite length_alter.
Qed.

Lemma stocked_place containers placed oid bp q :
  oid ∈ containers -> (length (placed_at oid placed) < 30)%nat -> bp <> 0 -> 0 < q ->
  builds (stocked containers placed) (place_initial oid bp q)
    (fun _ => stocked containers (placed ++ [mk_placement oid bp q])).
Proof.
  intros Hin Hlen Hbp Hq b [Hm Hd Hl]. unfold place_initial, on_world. cbn [upd_container upd_nonplayer upd_room modify].
  set (uid := _nextWorldItemUid _). destruct (Hl oid Hin) as (k & Hk & Hok & Hs & Hn & Ho & Ht).
  assert (Hst : _staticObjects (w_room (b_world b)) !! oid = Some (GContainer k)).
  { unfold static_container in Hk. destruct (_ !! oid) as [[k'|]|]; congruence. }
  cbn. rewrite Hst. constructor; cbn; [done| |].
  - intros o. destruct (decide (o = oid)) as [->|Hne]; [done|]. rewrite lookup_alter_ne by done. apply Hd.
  - intros o Hino. rewrite placed_at_app. unfold static_container. cbn.
    destruct (decide (o = oid)) as [->|Hne].
    + rewrite lookup_alter_eq, Hst. cbn. eexists. split; [done|].
      pose proof (PlaceInitialLoot_step bp q uid k Hok Hbp Hq) as Hp. rewrite Hs, Hn in Hp.
      destruct (PlaceInitialLoot_occupant bp q uid k) as [Hp1 Hp2]. unfold exec in *.
      destruct (PlaceInitialLoot bp q uid k) as [ok k']. cbn [snd] in *.
      destruct Hp as (Hp & Hp3 & _ & _ & Hp4); [unfold DEFAULT_CONTAINER_VOLUME; lia|].
      rewrite Z.eqb_refl. rewrite length_app. cbn [length]. split_and!; try done; [congruence|lia|congruence|].
      intros b' Hb'. rewrite amount_app, Hp4, Ht by done. cbn. lia.
    + rewrite lookup_alter_ne by done. destruct (Hl o Hino) as (k' & Hk' & Hrest). exists k'. split; [exact Hk'|].
      destruct (Z.eqb_spec oid o); [congruence|]. by rewrite app_nil_r.
Qed.

Lemma builds_exists {A X} (P : X -> Build -> Prop) (f : ST Build A) Q :
  (forall x, builds (P x) f Q) -> builds (fun b => exists x, P x b) f Q.
Proof. intros H b [x Hx]. by apply (H x). Qed.
Lemma builds_pure {A} (P : Build -> Prop) (X : Prop) (f : ST Build A) Q :
  (X -> builds P f Q) -> builds (fun b => X /\ P b) f Q.
Proof. intros H b [Hx Hb]. by apply H. Qed.

(** How often an id is in a list. *)
Definition times (oid : Z) (l : list Z) : nat := length (List.filter (fun x => x =? oid) l).
Lemma times_app oid l k : times oid (l ++ k) = (times oid l + times oid k)%nat.
Proof. unfold times. by rewrite List.filter_app, length_app. Qed.
Lemma placed_times oid l : length (placed_at oid l) = times oid (map at_oid l).
Proof. unfold times, placed_at. induction l as [|p l IH]; [done|]. cbn. destruct (_ =? _); cbn; by rewrite ?IH. Qed.
Lemma times_NoDup oid l : NoDup l -> (times oid l <= 1)%nat.
Proof.
  unfold times. induction 1 as [|x l Hx Hl IH]; cbn; [lia|]. destruct (Z.eqb_spec x oid) as [->|]; [|done]. cbn.
  assert (List.filter (fun x => x =? oid) l = []) as ->; [|done].
  clear IH Hl. induction l as [|y l IH]; [done|]. cbn. destruct (Z.eqb_spec y oid) as [->|]; [destruct Hx; by left|].
  apply IH. intros H. apply Hx. by right.
Qed.

Definition is_ammo (pool : list Z) (lo hi : Z) (p : Placement) : Prop :=
  at_bp p ∈ pool /\ lo <= at_qty p <= hi.

Section stages.
Context (containers : list Z).

Lemma ammo_builds pool oid lo hi placed :
  pool <> [] -> Forall (fun bp => bp <> 0) pool -> 0 < lo <= hi -> oid ∈ containers ->
  (times oid (map at_oid placed) < 30)%nat ->
  builds (stocked containers placed) (placeAmmo pool oid lo hi)
    (fun _ b => exists p, at_oid p = oid /\ is_ammo pool lo hi p /\ stocked containers (placed ++ [p]) b).
Proof.
  intros Hne H0 Hlo Hin Ht. unfold placeAmmo.
  eapply builds_bind; [by apply builds_draw; [apply _|destruct pool; [done|cbn; lia]]|].
  intros pick. cbn beta. apply builds_pure. intros Hpick.
  eapply builds_bind; [apply builds_draw; [apply _|lia]|].
  intros qty. cbn beta. apply builds_pure. intros Hqty.
  assert (Hbp : nth (Z.to_nat pick) pool 0 ∈ pool) by (apply list_elem_of_In, nth_In; destruct pool; [done|cbn in *; lia]).
  eapply builds_weaken; [done| |apply stocked_place; [exact Hin|by rewrite placed_times| |]].
  - intros [] b Hb. eexists. split; [|split; [|exact Hb]]; done.
  - rewrite Forall_forall in H0. by apply H0.
  - lia.
Qed.

Lemma ammo_each {A} pool lo hi placed (f : A -> Z) (xs : list A) :
  pool <> [] -> Forall (fun bp => bp <> 0) pool -> 0 < lo <= hi -> Forall (fun x => f x ∈ containers) xs ->
  (forall oid, (times oid (map at_oid placed ++ map f xs) <= 30)%nat) ->
  builds (stocked containers placed) (for_each xs (fun x => placeAmmo pool (f x) lo hi))
    (fun _ b => exists new, map at_oid new = map f xs /\ Forall (is_ammo pool lo hi) new /\ stocked containers (placed ++ new) b).
Proof.
  intros Hne H0 Hlo Hin Ht.
  set (I := fun l b => exists new, map at_oid new = map f l /\ Forall (is_ammo pool lo hi) new /\ stocked containers (placed ++ new) b).
  apply (builds_weaken _ (I []) _ _ (fun _ => I xs)); [|by intros []|apply builds_each].
  - intros b Hb. exists []. rewrite app_nil_r. split_and!; [done|constructor|done].
  - intros l x k ->. apply builds_exists. intros new. apply builds_pure. intros Hn. apply builds_pure. intros Ha.
    eapply builds_weaken; [done| |apply ammo_builds; try done].
    + intros [] b (p & Hp & Hpa & Hb). exists (new ++ [p]). rewrite !map_app, Hn. cbn. rewrite Hp.
      split_and!; [done|by apply Forall_app; split; [|constructor]|]. by rewrite app_assoc.
    + rewrite Forall_app, Forall_cons in Hin. tauto.
    + specialize (Ht (f x)). rewrite map_app, Hn. rewrite !map_app in Ht. cbn in Ht. rewrite !times_app in *.
      unfold times at 3 in Ht. cbn in Ht. rewrite Z.eqb_refl in Ht. cbn in Ht. lia.
Qed.

(** *** Equipment *)

Context (indices : list nat) (equipTotal : nat).
Definition oid_at (j : nat) : Z := nth (nth j indices O) containers 0.
Definition plan (cursor : nat) (bps : list Z) : list Placement :=
  zip_with (fun j bp => mk_placement (oid_at j) bp 1) (seq cursor (length bps)) bps.
Definition expand (quotas : list MapLootEquipQuota) : list Z :=
  concat (map (fun q => replicate (Z.to_nat (quota_containerCount q)) (quota_blueprintId q)) quotas).

Lemma plan_app cursor l k : plan cursor (l ++ k) = plan cursor l ++ plan (cursor + length l) k.
Proof.
  unfold plan. rewrite length_app, seq_app, zip_with_app by (by rewrite length_seq). done.
Qed.
Lemma plan_oids cursor bps : map at_oid (plan cursor bps) = map oid_at (seq cursor (length bps)).
Proof.
  unfold plan. revert cursor. induction bps as [|bp bps IH]; intros cursor; [done|]. cbn. f_equal. apply IH.
Qed.

Lemma equip_builds k bp cursor placed :
  bp <> 0 -> (cursor + k <= equipTotal)%nat -> (forall j, (j < equipTotal)%nat -> oid_at j ∈ containers) ->
  (forall oid, (times oid (map at_oid placed ++ map at_oid (plan cursor (replicate k bp))) <= 30)%nat) ->
  builds (stocked containers placed) (equip_loop k bp containers indices equipTotal cursor)
    (fun cursor' b => cursor' = (cursor + k)%nat /\ stocked containers (placed ++ plan cursor (replicate k bp)) b).
Proof.
  intros Hbp Hk Hin. revert cursor placed Hk. induction k as [|k IH]; intros cursor placed Hk Ht; cbn [equip_loop].
  - intros b Hb. cbn. rewrite app_nil_r. split; [lia|done].
  - destruct (Nat.ltb_spec cursor equipTotal); [|lia]. fold (oid_at cursor).
    change (replicate (S k) bp) with ([bp] ++ replicate k bp) in *. rewrite plan_app in Ht |- *. rewrite map_app, app_assoc in Ht.
    cbn [length plan zip_with seq map] in *. rewrite Nat.add_1_r in *.
    eapply builds_bind; [apply stocked_place; [by apply Hin| |done|lia]|].
    + rewrite placed_times. specialize (Ht (oid_at cursor)). rewrite !times_app in Ht.
      unfold times at 2 in Ht. cbn in Ht. rewrite Z.eqb_refl in Ht. cbn in Ht. lia.
    + intros []. eapply builds_weaken; [done| |apply IH; [lia|]].
      * intros c b [-> Hb]. split; [lia|]. by rewrite app_assoc.
      * intros oid. rewrite map_app. apply (Ht oid).
Qed.

Lemma quota_builds quotas cursor placed :
  Forall (fun q => is_equipment (quota_blueprintId q) = true /\ quota_blueprintId q <> 0 /\ 0 < quota_containerCount q) quotas ->
  (cursor + length (expand quotas) <= equipTotal)%nat -> (forall j, (j < equipTotal)%nat -> oid_at j ∈ containers) ->
  (forall oid, (times oid (map at_oid placed ++ map at_oid (plan cursor (expand quotas))) <= 30)%nat) ->
  builds (stocked containers placed) (quota_loop quotas containers indices equipTotal cursor)
    (fun _ b => stocked containers (placed ++ plan cursor (expand quotas)) b).
Proof.
  intros Hq Hc Hin. revert cursor placed Hc. induction Hq as [|q quotas (Hq1 & Hq2 & Hq3) Hq IH]; intros cursor placed Hc Ht; cbn [quota_loop].
  - intros b Hb. cbn. by rewrite app_nil_r.
  - unfold expand in Hc, Ht |- *. cbn [map concat] in *. fold (expand quotas) in *.
    rewrite length_app, length_replicate in Hc. destruct (Nat.ltb_spec cursor equipTotal); [|lia].
    rewrite Hq1. cbn [negb]. rewrite plan_app, map_app, app_assoc, length_replicate in Ht.
    rewrite plan_app, length_replicate.
    eapply builds_bind; [apply equip_builds; [done|lia|done|]|].
    + intros oid. specialize (Ht oid). rewrite times_app in Ht. lia.
    + intros cursor'. cbn beta. apply builds_pure. intros ->.
      eapply builds_weaken; [done| |apply IH; [lia|]].
      * intros [] b Hb. by rewrite app_assoc.
      * intros oid. rewrite map_app. apply (Ht oid).
Qed.
End stages.

(** *** Positions of a shuffled list *)

Lemma map_nth_seq {A} (l : list A) d : map (fun i => nth i l d) (seq 0 (length l)) = l.
Proof.
  induction l as [|x l IH]; [done|]. cbn. f_equal. rewrite <- seq_shift, map_map. exact IH.
Qed.
Lemma map_nth_take {A} (l : list A) d n : (n <= length l)%nat -> map (fun i => nth i l d) (seq 0 n) = take n l.
Proof.
  intros Hn. transitivity (take n (map (fun i => nth i l d) (seq 0 (length l)))); [|by rewrite map_nth_seq].
  rewrite firstn_map. f_equal. rewrite take_seq. f_equal. lia.
Qed.
Lemma picked c idx : Permutation idx (seq 0 (length c)) -> Permutation (map (fun i => nth i c 0) idx) c.
Proof. intros H. rewrite (Permutation_map _ H). by rewrite map_nth_seq. Qed.
Lemma picked_take c idx n : Permutation idx (seq 0 (length c)) -> NoDup c ->
  NoDup (map (fun i => nth i c 0) (take n idx)) /\ Forall (fun i => nth i c 0 ∈ c) (take n idx).
Proof.
  intros Hp Hc. pose proof (picked c idx Hp) as H. split.
  - apply (NoDup_app _ (map (fun i => nth i c 0) (drop n idx))). rewrite <- map_app, take_drop. by rewrite H.
  - apply Forall_forall. intros i Hi.
    apply (elem_of_Permutation_proper _ _ _ H), (list_elem_of_fmap_2 (fun i => nth i c 0)).
    rewrite <- (take_drop n idx). apply elem_of_app. by left.
Qed.
Lemma oid_at_take c idx n : (n <= length idx)%nat ->
  map (oid_at c idx) (seq 0 n) = map (fun i => nth i c 0) (take n idx).
Proof. intros Hn. rewrite <- (map_nth_take idx O n Hn), map_map. done. Qed.

(** *** The distribution *)

Definition base_ammo : Placement -> Prop := is_ammo _tenerifeAmmoPool TENERIFE_BASE_AMMO_MIN TENERIFE_BASE_AMMO_MAX.
Definition extra_ammo : Placement -> Prop := is_ammo _tenerifeAmmoPool TENERIFE_EXTRA_AMMO_MIN TENERIFE_EXTRA_AMMO_MAX.

Record distributed (containers : list Z) (base extra equip : list Placement) : Prop := {
  ds_base : map at_oid base = containers;
  ds_base_ammo : Forall base_ammo base;
  ds_extra : NoDup (map at_oid extra) /\ length extra = 20%nat /\ Forall (fun p => at_oid p ∈ containers) extra;
  ds_extra_ammo : Forall extra_ammo extra;
  ds_equip : NoDup (map at_oid equip) /\ Forall (fun p => at_oid p ∈ containers /\ at_qty p = 1) equip;
  ds_equip_bps : map at_bp equip = expand _tenerifeEquipQuotas }.

Lemma plan_bps c idx cursor bps : map at_bp (plan c idx cursor bps) = bps /\ Forall (fun p => at_qty p = 1) (plan c idx cursor bps).
Proof.
  unfold plan. revert cursor. induction bps as [|bp bps IH]; intros cursor; [by split; [|constructor]|]. cbn.
  destruct (IH (S cursor)) as [H1 H2]. split; [by rewrite H1|by constructor].
Qed.

(** The ammunition: every container gets some, and twenty of them more. *)
Definition ammo_phase (containers : list Z) : ST Build (list nat) :=
  _ ← for_each containers (fun oid => placeAmmo _tenerifeAmmoPool oid TENERIFE_BASE_AMMO_MIN TENERIFE_BASE_AMMO_MAX);
  indices ← PartialShuffle (seq 0 (length containers)) 20;
  _ ← for_each (take 20 indices) (fun i =>
        placeAmmo _tenerifeAmmoPool (nth i containers 0) TENERIFE_EXTRA_AMMO_MIN TENERIFE_EXTRA_AMMO_MAX);
  mret indices.
Definition ammo_placed (containers : list Z) (base extra : list Placement) (idx : list nat) : Prop :=
  map at_oid base = containers /\ Forall base_ammo base /\
  NoDup (map at_oid extra) /\ length extra = 20%nat /\ Forall (fun p => at_oid p ∈ containers) extra /\
  Forall extra_ammo extra /\ Permutation idx (seq 0 (length containers)).

Lemma ammo_phase_builds containers : NoDup containers -> (20 <= length containers)%nat ->
  builds (stocked containers []) (ammo_phase containers)
    (fun idx b => exists base extra, stocked containers (base ++ extra) b /\ ammo_placed containers base extra idx).
Proof.
  intros Hc Hlen. assert (Hne : _tenerifeAmmoPool <> []) by done.
  assert (H0 : Forall (fun bp => bp <> 0) _tenerifeAmmoPool) by by repeat constructor. unfold ammo_phase.
  eapply builds_bind.
  { apply (ammo_each containers _ _ _ [] (fun oid => oid) containers Hne H0); [vm_compute; by split|by apply Forall_forall|].
    intros oid. rewrite map_id. cbn [map app]. pose proof (times_NoDup oid containers Hc). lia. }
  intros []. cbn beta. apply builds_exists. intros base. rewrite map_id. apply builds_pure. intros H1. apply builds_pure. intros H2.
  eapply builds_bind; [apply shuffle_builds; [apply _|by rewrite length_seq]|]. intros idx. cbn beta.
  apply builds_pure. intros Hidx. destruct (picked_take containers idx 20 Hidx Hc) as [Hn Hin].
  eapply builds_bind.
  { apply (ammo_each containers _ _ _ ([] ++ base) (fun i => nth i containers 0) (take 20 idx) Hne H0);
      [vm_compute; by split|done|].
    intros oid. cbn [app]. rewrite H1, times_app. pose proof (times_NoDup oid _ Hc). pose proof (times_NoDup oid _ Hn). lia. }
  intros [] b' (extra & H3 & H4 & H5). unfold mret, ST_ret. exists base, extra. split; [done|]. split_and!; try done.
  - by rewrite H3.
  - rewrite <- (length_map at_oid), H3, length_map, length_take, (Permutation_length Hidx), length_seq. lia.
  - apply (proj1 (Forall_map at_oid (fun o => o ∈ containers) extra)). rewrite H3, Forall_map. exact Hin.
Qed.

(** The equipment: each quota in its containers, all of them different. *)
Lemma equip_phase_builds containers base extra idx : NoDup containers -> (20 <= length containers)%nat ->
  ammo_placed containers base extra idx ->
  builds (stocked containers (base ++ extra))
    (indices ← PartialShuffle idx 20; quota_loop _tenerifeEquipQuotas containers indices 20 0)
    (fun _ b => exists equip, distributed containers base extra equip /\ stocked containers (base ++ extra ++ equip) b).
Proof.
  intros Hc Hlen (H1 & H2 & H3 & H4 & H5 & H6 & Hidx).
  eapply builds_bind; [apply shuffle_builds; [apply _|by rewrite (Permutation_length Hidx), length_seq]|].
  intros idx2. cbn beta. apply builds_pure. intros Hidx2. rewrite Hidx in Hidx2. clear Hidx idx.
  destruct (picked_take containers idx2 20 Hidx2 Hc) as [Hn Hin].
  assert (Hl2 : (20 <= length idx2)%nat) by by rewrite (Permutation_length Hidx2), length_seq.
  assert (Hoids : map at_oid (plan containers idx2 0 (expand _tenerifeEquipQuotas)) = map (fun i => nth i containers 0) (take 20 idx2)).
  { rewrite plan_oids. by apply oid_at_take. }
  eapply builds_weaken; [done| |apply (quota_builds containers idx2 20 _tenerifeEquipQuotas 0 (base ++ extra))].
  - intros [] b Hb. exists (plan containers idx2 0 (expand _tenerifeEquipQuotas)).
    rewrite app_assoc. split; [|exact Hb]. destruct (plan_bps containers idx2 0 (expand _tenerifeEquipQuotas)) as [P1 P2].
    constructor; try done; rewrite Hoids. split; [done|]. apply Forall_and. split; [|done].
    apply (proj1 (Forall_map at_oid (fun o => o ∈ containers) _)). rewrite Hoids, Forall_map. exact Hin.
  - repeat (apply Forall_cons; split; [vm_compute; by split_and!|]). done.
  - done.
  - intros j Hj. rewrite Forall_forall in Hin. unfold oid_at. apply Hin.
    rewrite <- (map_nth_take idx2 O 20 Hl2). apply (list_elem_of_fmap_2 (fun j => nth j idx2 O)), elem_of_seq. lia.
  - intros oid. rewrite Hoids, map_app, H1, !times_app. pose proof (times_NoDup oid _ Hc). pose proof (times_NoDup oid _ Hn).
    pose proof (times_NoDup oid _ H3). lia.
Qed.

Lemma DistributeLoot_builds containers : NoDup containers -> (20 <= length containers)%nat ->
  builds (stocked containers []) (DistributeLoot containers)
    (fun _ b => exists base extra equip, distributed containers base extra equip /\
       stocked containers (base ++ extra ++ equip) b).
Proof.
  intros Hc Hlen b Hb. unfold DistributeLoot. rewrite (sk_map _ _ _ Hb).
  destruct containers as [|c0 cs] eqn:Ec; [cbn in Hlen; lia|]. rewrite <- Ec in *. clear Ec c0 cs.
  change (GetLootEquipQuotas MAP_ID_TENERIFE) with (Some _tenerifeEquipQuotas).
  assert (Hpool : List.filter (fun bp => bool_decide (GetType bp = AMMO)) (default [] (GetLootAmmoPool MAP_ID_TENERIFE))
    = _tenerifeAmmoPool) by (vm_compute; reflexivity).
  rewrite Hpool. change (Z.to_nat TENERIFE_EXTRA_AMMO_CONTAINERS) with 20%nat. rewrite Nat.min_l by done.
  change (foldr _ O _tenerifeEquipQuotas) with 20%nat. rewrite Nat.min_l by done.
  revert b Hb.
  as_builds (stocked containers []).
  eapply builds_bind; [exact (ammo_phase_builds containers Hc Hlen)|].
  intros idx. cbn beta. apply builds_exists. intros base. apply builds_exists. intros extra b [Hb Hp].
  revert b Hb.
  as_builds (stocked containers (base ++ extra)).
  eapply builds_weaken; [done| |exact (equip_phase_builds containers base extra idx Hc Hlen Hp)].
  intros [] b (equip & H). by exists base, extra, equip.
Qed.

(** *** Spawning *)

Lemma broadcast_nobody m w : _playerSessions (w_room w) = ∅ -> exec (Broadcast m) w = w.
Proof.
  intros Hp. unfold Broadcast, exec, mbind, ST_bind, BroadcastExcept.
  assert (H : forall keys n, broadcast_loop keys m INVALID_SESSION_ID n w = (n, w)).
  { induction keys as [|k keys IH]; intros n; [done|]. cbn [broadcast_loop]. rewrite Hp, lookup_empty. apply IH. }
  by rewrite H.
Qed.

Record spawned (containers : list Z) (b : Build) : Prop := {
  sp_stocked : stocked containers [] b;
  sp_nodup : NoDup containers;
  sp_fresh : Forall (fun oid => 0 <= oid < _nxtObjectId (w_room (b_world b))) containers;
  sp_next : _nxtObjectId (w_room (b_world b)) = Z.of_nat (length containers);
  sp_alone : _playerSessions (w_room (b_world b)) = ∅ }.

Definition is_vehicle (s : MapSpawn) : bool := match new_Vehicle (sp_type s) 0 vector3_zero f32_nan with Some _ => true | None => false end.
Lemma vehicle_made s oid : is_vehicle s = true ->
  exists k, new_Vehicle (sp_type s) oid (sp_position s) (sp_yawAngle s) = Some k /\ objectId (k_object k) = oid /\
    loot_ok k /\ container_size k = DEFAULT_CONTAINER_VOLUME /\ _nextLootSlot k = 0 /\
    _interactingPlayerId k = NO_INTERACTING_PLAYER /\ forall bp, bp <> 0 -> total bp (k_inventorySlots k) = 0.
Proof.
  intros H. exists (new_VehicleContainer oid (sp_type s) (sp_position s) (sp_yawAngle s)).
  split; [unfold is_vehicle in H; by destruct (sp_type s)|]. split_and!; try done.
  - apply loot_ok_init; [unfold DEFAULT_CONTAINER_VOLUME; lia|done].
  - intros bp Hbp. apply total_all_empty; [done|]. apply init_all_empty.
Qed.

Lemma spawn_container_builds containers s : is_vehicle s = true -> Z.of_nat (length containers) + 1 < 2 ^ 32 ->
  builds (spawned containers) (spawn_container containers s)
    (fun c' b => exists oid, c' = containers ++ [oid] /\ spawned c' b).
Proof.
  intros Hv Hlen b [[Hm Hd Hl] Hn Hf Hx Ha]. set (oid := _nxtObjectId (w_room (b_world b))).
  destruct (vehicle_made s oid Hv) as (k & Hk & Ho & Hlo & Hs & Hnx & Hi & Ht).
  assert (Hnew : oid ∉ containers) by (intros Hin; rewrite Forall_forall in Hf; specialize (Hf oid Hin); unfold oid in *; lia).
  assert (Hnone : _staticObjects (w_room (b_world b)) !! oid = None).
  { destruct (_ !! oid) eqn:E1; [|done]. destruct Hnew. apply Hd. by rewrite E1. }
  unfold spawn_container, on_world, mbind, ST_bind, GetNewObjectId. cbn [setf b_world]. fold oid. rewrite Hk.
  unfold SpawnStaticObject. cbn [CanBeStaticObject as_combat negb object_of setf w_room _staticObjects b_world]. rewrite Ho, Hnone.
  unfold NotifySpawnObject. match goal with |- context [Broadcast ?m ?w] => pose proof (broadcast_nobody m w Ha) as Hb;
    unfold exec in Hb; destruct (Broadcast m w) as [[] w'] end.
  cbn [snd] in Hb. rewrite Hb. exists oid. split; [done|].
  fold oid in Hx, Hf. clearbody oid. assert (Hu : u32 (oid + 1) = oid + 1) by (apply u32_id; unfold is_u32; lia).
  constructor; cbn.
  - constructor; unfold static_container; cbn.
    + done.
    + intros o. rewrite elem_of_app, list_elem_of_singleton. destruct (decide (o = oid)) as [->|Hne]; [by right|].
      rewrite lookup_insert_ne by done. left. by apply Hd.
    + intros o [Hino|Hino]%elem_of_app.
      * rewrite lookup_insert_ne by congruence. by apply Hl.
      * apply list_elem_of_singleton in Hino. subst o. rewrite lookup_insert_eq. exists k. by split_and!.
  - apply NoDup_app. split_and!; [done| |apply NoDup_singleton].
    intros o Hino Ho'. apply list_elem_of_singleton in Ho'. by subst o.
  - rewrite Hu. apply Forall_app. split; [eapply Forall_impl; [exact Hf|]; cbn; intros ? ?; lia|].
    constructor; [|done]. lia.
  - rewrite Hu, length_app. cbn. lia.
  - done.
Qed.

Lemma spawn_containers_builds spawns containers : Forall (fun s => is_vehicle s = true) spawns ->
  Z.of_nat (length containers + length spawns) + 1 < 2 ^ 32 ->
  builds (spawned containers) (spawn_containers spawns containers)
    (fun c' b => length c' = (length containers + length spawns)%nat /\ spawned c' b).
Proof.
  intros Hv. revert containers. induction Hv as [|s spawns Hs Hv IH]; intros containers Hlen; cbn [spawn_containers].
  - intros b Hb. cbn. split; [lia|done].
  - cbn [length] in Hlen. eapply builds_bind; [apply spawn_container_builds; [done|lia]|]. intros c'. cbn beta.
    apply builds_exists. intros oid. apply builds_pure. intros ->.
    assert (Hl : length (containers ++ [oid]) = S (length containers)) by (rewrite length_app; cbn; lia).
    eapply builds_weaken; [done| |apply IH; rewrite Hl; lia]. cbn. intros c' b [-> Hb]. split; [rewrite Hl; lia|done].
Qed.

Lemma notify_static m w : _staticObjects (w_room (exec (Broadcast m) w)) = _staticObjects (w_room w) /\
  _mapId (w_room (exec (Broadcast m) w)) = _mapId (w_room w).
Proof.
  pose proof (Broadcast_view m w) as H. split; [apply (f_equal (fun w => _staticObjects (w_room w))) in H|
    apply (f_equal (fun w => _mapId (w_room w))) in H]; exact H.
Qed.

Lemma spawn_npc_builds containers placed s : builds (stocked containers placed) (spawn_npc s) (fun _ => stocked containers placed).
Proof.
  unfold spawn_npc. apply (builds_bind _ _ (fun _ => stocked containers placed)); [intros b Hb; by destruct Hb|].
  intros oid. destruct (sp_type s); try (apply (builds_ret tt (fun _ => stocked containers placed))).
  intros b Hb. unfold on_world, SpawnDynamicObject. destruct (_dynamicObjects _ !! _); [by destruct Hb|].
  unfold NotifySpawnObject. match goal with |- context [Broadcast ?m ?w] => destruct (notify_static m w) as [H1 H2];
    unfold exec in H1, H2; destruct (Broadcast m w) as [[] w'] end.
  destruct Hb as [H3 H4 H5]. constructor; unfold static_container in *; cbn [setf b_world snd] in *; rewrite ?H1, ?H2; done.
Qed.

(** *** The room *)

(** How much of [bp] a room's containers hold together. *)
Definition held_by (bp : Z) (o : GameObject) : Z :=
  match o with GContainer k => total bp (k_inventorySlots k) | GNpc _ => 0 end.
Definition room_stock (bp : Z) (r : GameRoom) : Z :=
  foldr (fun e n => held_by bp e.2 + n) 0 (map_to_list (_staticObjects r)).

Lemma foldr_add_perm {A} (f : A -> Z) l l' : Permutation l l' ->
  foldr (fun x n => f x + n) 0 l = foldr (fun x n => f x + n) 0 l'.
Proof. induction 1; cbn; lia. Qed.

Lemma amount_cons bp p l : amount bp (p :: l) = (if at_bp p =? bp then at_qty p else 0) + amount bp l.
Proof. done. Qed.
Lemma placed_at_cons oid p l :
  placed_at oid (p :: l) = if at_oid p =? oid then p :: placed_at oid l else placed_at oid l.
Proof. done. Qed.
(** The amounts at the containers add up to the amount placed. *)
Lemma amount_split bp c l : NoDup c -> Forall (fun p => at_oid p ∈ c) l ->
  foldr (fun oid n => amount bp (placed_at oid l) + n) 0 c = amount bp l.
Proof.
  intros Hc Hl. induction Hl as [|p l Hp Hl IH].
  - clear. induction c as [|x c IH]; [done|]. cbn. cbn in IH. by rewrite IH.
  - rewrite amount_cons, <- IH. clear IH Hl. induction Hc as [|x c Hx Hc IH]; [by apply elem_of_nil in Hp|].
    cbn [foldr]. rewrite (placed_at_cons x). destruct (Z.eqb_spec (at_oid p) x) as [Heq|Hne].
    + rewrite amount_cons. assert (H : forall k, at_oid p ∉ k ->
        foldr (fun oid n => amount bp (placed_at oid (p :: l)) + n) 0 k = foldr (fun oid n => amount bp (placed_at oid l) + n) 0 k).
      { induction k as [|y k IHk]; intros Hy; [done|]. cbn [foldr]. rewrite (placed_at_cons y).
        destruct (Z.eqb_spec (at_oid p) y) as [Hey|_]; [destruct Hy; rewrite Hey; by left|]. rewrite IHk; [done|].
        intros H. apply Hy. by right. }
      rewrite H by by subst. unfold placed_at. lia.
    + apply elem_of_cons in Hp as [|Hp]; [done|]. rewrite IH by done. unfold placed_at. lia.
Qed.

Lemma stocked_keys containers placed b : NoDup containers -> stocked containers placed b ->
  Permutation (map fst (map_to_list (_staticObjects (w_room (b_world b))))) containers.
Proof.
  intros Hc [_ Hd Hl]. apply NoDup_Permutation; [apply NoDup_fst_map_to_list|done|]. intros oid. split.
  - intros ([o x] & -> & Hx%elem_of_map_to_list)%list_elem_of_fmap. apply Hd. by eexists.
  - intros Hin. destruct (Hl oid Hin) as (k & Hk & _). unfold static_container in Hk.
    destruct (_ !! oid) as [x|] eqn:Ex; [|done].
    apply (list_elem_of_fmap_2 fst _ (oid, x)). by apply elem_of_map_to_list.
Qed.
Lemma stock_of containers placed b bp : NoDup containers -> bp <> 0 ->
  Forall (fun p => at_oid p ∈ containers) placed -> stocked containers placed b ->
  room_stock bp (w_room (b_world b)) = amount bp placed.
Proof.
  intros Hc Hbp Hp [Hm Hd Hl]. rewrite <- (amount_split bp containers placed Hc Hp). unfold room_stock.
  set (m := _staticObjects (w_room (b_world b))) in *.
  assert (Hperm : Permutation (map fst (map_to_list m)) containers) by by apply (stocked_keys containers placed b).
  rewrite <- (foldr_add_perm (fun oid => amount bp (placed_at oid placed)) _ _ Hperm).
  assert (Hall : Forall (fun e => held_by bp e.2 = amount bp (placed_at e.1 placed)) (map_to_list m)).
  { apply Forall_forall. intros [oid x] Hx%elem_of_map_to_list. cbn. destruct (Hl oid) as (k & Hk & _ & _ & _ & _ & Ht).
    { apply Hd. by eexists. }
    unfold static_container in Hk. fold m in Hk. rewrite Hx in Hk. destruct x as [k'|]; [|done]. injection Hk as ->.
    by apply Ht. }
  clear - Hall. induction Hall as [|e l He _ IH]; [done|]. cbn. by rewrite He, IH.
Qed.

Lemma times_in oid l : oid ∈ l -> (1 <= times oid l)%nat.
Proof.
  unfold times. induction 1 as [l|y l Hy IH]; cbn; [rewrite Z.eqb_refl; cbn; lia|]. case_match; cbn; lia.
Qed.
Lemma Forall_placed P oid l : Forall P l -> Forall P (placed_at oid l).
Proof. induction 1 as [|p l Hp Hl IH]; [done|]. rewrite placed_at_cons. case_match; [by constructor|done]. Qed.

(** The ammunition of a list of ammunition; of the equipment, none. *)
Definition ammo_amount (l : list Placement) : Z := amount 5 l + amount 6 l.
Definition equip_amount (l : list Placement) : Z := foldr (fun q n => amount (quota_blueprintId q) l + n) 0 _tenerifeEquipQuotas.
Lemma ammo_amount_app l k : ammo_amount (l ++ k) = ammo_amount l + ammo_amount k.
Proof. unfold ammo_amount. rewrite !amount_app. lia. Qed.
Lemma equip_amount_app l k : equip_amount (l ++ k) = equip_amount l + equip_amount k.
Proof. unfold equip_amount. cbn [foldr _tenerifeEquipQuotas quota_blueprintId]. rewrite !amount_app. lia. Qed.

Lemma ammo_bounds lo hi l : Forall (is_ammo _tenerifeAmmoPool lo hi) l ->
  lo * Z.of_nat (length l) <= ammo_amount l <= hi * Z.of_nat (length l) /\
  forall q, q ∈ _tenerifeEquipQuotas -> amount (quota_blueprintId q) l = 0.
Proof.
  induction 1 as [|p l [Hp Hq] Hl [IH1 IH2]]; [split; [unfold ammo_amount; cbn; lia|done]|]. unfold ammo_amount in *.
  rewrite !amount_cons. cbn [length].
  assert (Hbp : at_bp p = 5 \/ at_bp p = 6) by (unfold _tenerifeAmmoPool in Hp; set_solver). split.
  - destruct Hbp as [-> | ->]; cbn [Z.eqb Pos.eqb]; lia.
  - intros q Hq'. rewrite amount_cons, IH2 by done. destruct (Z.eqb_spec (at_bp p) (quota_blueprintId q)) as [Heq|]; [|done].
    exfalso. unfold _tenerifeEquipQuotas in Hq'. rewrite !elem_of_cons in Hq'.
    destruct Hq' as [->|[->|[->|[->|[]%elem_of_nil]]]]; cbn in Heq; lia.
Qed.

Lemma equip_bounds l : Forall (fun bp => bp ∈ map quota_blueprintId _tenerifeEquipQuotas) (map at_bp l) ->
  Forall (fun p => at_qty p = 1) l -> ammo_amount l = 0 /\ equip_amount l = Z.of_nat (length l) /\
  forall bp, amount bp l = Z.of_nat (times bp (map at_bp l)).
Proof.
  intros H1 H2. induction H2 as [|p l Hp Hl IH]; [done|]. cbn [map] in H1. apply Forall_cons in H1 as [Hb H1].
  destruct (IH H1) as (I1 & I2 & I3). unfold ammo_amount, equip_amount in *. cbn [map quota_blueprintId _tenerifeEquipQuotas foldr] in *.
  rewrite !amount_cons, Hp. cbn [length]. split_and!.
  - rewrite !elem_of_cons in Hb. destruct Hb as [->|[->|[->|[->|[]%elem_of_nil]]]]; cbn [Z.eqb Pos.eqb]; lia.
  - rewrite !elem_of_cons in Hb. destruct Hb as [->|[->|[->|[->|[]%elem_of_nil]]]]; cbn [Z.eqb Pos.eqb]; lia.
  - intros bp. rewrite amount_cons, I3, Hp. unfold times. cbn. case_match; cbn; lia.
Qed.

Definition container_ammo (k : Container) : Z := total 5 (k_inventorySlots k) + total 6 (k_inventorySlots k).
Definition container_equipment (k : Container) : Z :=
  foldr (fun q n => total (quota_blueprintId q) (k_inventorySlots k) + n) 0 _tenerifeEquipQuotas.

(** What the distribution comes to, at one container and over all of them. *)
Lemma distributed_sums containers base extra equip : NoDup containers -> distributed containers base extra equip ->
  let placed := base ++ extra ++ equip in
  Forall (fun q => amount (quota_blueprintId q) placed = quota_containerCount q) _tenerifeEquipQuotas /\
  Forall (fun p => at_oid p ∈ containers) placed /\
  forall oid, oid ∈ containers ->
    8 <= ammo_amount (placed_at oid placed) <= 36 /\ 0 <= equip_amount (placed_at oid placed) <= 1.
Proof.
  intros Hc [H1 H2 (H3 & H4 & H5) H6 (H7 & H8) H9] placed. apply Forall_and in H8 as [H8 H10].
  assert (Hk : Forall (fun bp => bp ∈ map quota_blueprintId _tenerifeEquipQuotas) (map at_bp equip)).
  { rewrite H9. apply (bool_decide_unpack _). vm_compute. exact I. }
  split_and!.
  - apply Forall_forall. intros q Hq. unfold placed. rewrite !amount_app.
    destruct (ammo_bounds _ _ _ H2) as [_ ->]; [|done]. destruct (ammo_bounds _ _ _ H6) as [_ ->]; [|done].
    destruct (equip_bounds equip Hk H10) as (_ & _ & ->). rewrite H9. unfold _tenerifeEquipQuotas in Hq.
    rewrite !elem_of_cons in Hq. by destruct Hq as [->|[->|[->|[->|[]%elem_of_nil]]]].
  - unfold placed. rewrite !Forall_app. split_and!; [|done|done].
    apply (proj1 (Forall_map at_oid (fun o => o ∈ containers) base)). rewrite H1. by apply Forall_forall.
  - intros oid Hin. unfold placed. rewrite !placed_at_app, !ammo_amount_app, !equip_amount_app.
    destruct (ammo_bounds _ _ _ (Forall_placed _ oid _ H2)) as [A1 A2].
    destruct (ammo_bounds _ _ _ (Forall_placed _ oid _ H6)) as [A3 A4].
    assert (Hk' : Forall (fun bp => bp ∈ map quota_blueprintId _tenerifeEquipQuotas) (map at_bp (placed_at oid equip))).
    { apply Forall_map, Forall_placed. by apply Forall_map in Hk. }
    destruct (equip_bounds _ Hk' (Forall_placed _ oid _ H10)) as (-> & -> & _).
    assert (Hz : forall l, (forall q, q ∈ _tenerifeEquipQuotas -> amount (quota_blueprintId q) l = 0) -> equip_amount l = 0).
    { intros l Hl. unfold equip_amount. cbn [foldr _tenerifeEquipQuotas]. rewrite !Hl by (unfold _tenerifeEquipQuotas; set_solver). done. }
    rewrite (Hz _ A2), (Hz _ A4). rewrite !placed_times in *. rewrite H1 in *.
    pose proof (times_in oid _ Hin). pose proof (times_NoDup oid _ Hc). pose proof (times_NoDup oid _ H3).
    pose proof (times_NoDup oid _ H7). unfold TENERIFE_BASE_AMMO_MIN, TENERIFE_BASE_AMMO_MAX, TENERIFE_EXTRA_AMMO_MIN,
      TENERIFE_EXTRA_AMMO_MAX in *. lia.
Qed.

(** C22. Whatever the generator draws, the Tenerife room has the loot the map tables
    promise: a container for each vehicle of the table, free and well formed; in all of
    them together exactly the quota of every weapon and armour, at most one piece to a
    container; and in every container between 8 and 36 rounds of the map's ammunition. *)
Theorem tenerife_loot roomId now draws :
  let r := fst (new_TenerifeGameRoom roomId now draws) in
  size (_staticObjects r) = length _tenerifeContainerSpawns /\
  Forall (fun q => room_stock (quota_blueprintId q) r = quota_containerCount q) _tenerifeEquipQuotas /\
  forall oid o, _staticObjects r !! oid = Some o -> exists k, o = GContainer k /\ container_ok k /\
    _interactingPlayerId k = NO_INTERACTING_PLAYER /\ 8 <= container_ammo k <= 36 /\ 0 <= container_equipment k <= 1.
Proof.
  intros r. unfold r, new_TenerifeGameRoom, construct, InitTenerifeGameRoom, exec.
  set (b0 := mk_build _ _). change (_mapId (w_room (b_world b0))) with MAP_ID_TENERIFE.
  change (GetContainerSpawns MAP_ID_TENERIFE) with (Some _tenerifeContainerSpawns).
  change (GetHostileNpcSpawns MAP_ID_TENERIFE) with (Some _tenerifeNpcSpawns).
  cbn match. match goal with |- context [snd (?f b0)] => assert (H : builds (spawned []) f (fun _ b => exists containers base extra equip,
    length containers = 64%nat /\ NoDup containers /\ distributed containers base extra equip /\
    stocked containers (base ++ extra ++ equip) b)) end.
  { eapply builds_bind; [apply (spawn_containers_builds _ [])|].
    - apply (bool_decide_unpack _). vm_compute. exact I.
    - vm_compute. done.
    - intros containers. cbn beta. apply builds_pure. cbn [length Nat.add]. intros Hlen b [Hb Hc _ _ _]. revert b Hb.
      as_builds (stocked containers []).
      eapply builds_bind; [apply DistributeLoot_builds; [done|rewrite Hlen; cbn; lia]|]. intros []. cbn beta.
      apply builds_exists. intros base. apply builds_exists. intros extra. apply builds_exists. intros equip.
      apply builds_pure. intros Hds. eapply (builds_weaken _ _ _ _ (fun _ => stocked containers (base ++ extra ++ equip)));
        [done| |apply (builds_each (fun _ => stocked containers (base ++ extra ++ equip))); intros; apply spawn_npc_builds].
      intros [] b Hb. by exists containers, base, extra, equip. }
  assert (H0 : spawned [] b0).
  { constructor; try done; [|constructor]. constructor; [done| |by intros o ?%elem_of_nil]. intros o [x Hx]. done. }
  specialize (H b0 H0). match type of H with let '(_, _) := ?x in _ => destruct x as [[] b] end.
  destruct H as (c & base & extra & equip & Hlen & Hc & Hds & Hb).
  destruct (distributed_sums c base extra equip Hc Hds) as (S1 & S2 & S3). cbn [fst snd]. split_and!.
  - rewrite <- length_map_to_list, <- (length_map fst), (Permutation_length (stocked_keys _ _ _ Hc Hb)). exact Hlen.
  - apply Forall_forall. intros q Hq. rewrite Forall_forall in S1. rewrite <- (S1 q Hq). eapply stock_of; try done.
    unfold _tenerifeEquipQuotas in Hq. rewrite !elem_of_cons in Hq. by destruct Hq as [->|[->|[->|[->|[]%elem_of_nil]]]].
  - intros oid o Ho. destruct (sk_loot _ _ _ Hb oid) as (k & Hk & Hlo & _ & _ & Hi & Ht); [apply (sk_dom _ _ _ Hb); by eexists|].
    exists k. unfold static_container in Hk. rewrite Ho in Hk. destruct o as [k'|]; [|done]. injection Hk as ->.
    destruct (S3 oid) as [S4 S5]; [apply (sk_dom _ _ _ Hb); by eexists|].
    split; [done|]. split; [apply Hlo|]. split; [done|]. unfold container_ammo, container_equipment.
    cbn [foldr _tenerifeEquipQuotas quota_blueprintId]. rewrite !Ht by done. by split.
Qed.
End loot.

(** *** What construction leaves alone *)

Section untouched.
Context {E : External} {G : Rng}.
(** A property of worlds that the calls of the constructors keep. *)
Context (Q : World -> Prop).
Definition keeps {A} (f : ST Build A) : Prop := forall b, Q (b_world b) -> Q (b_world (exec f b)).
Hypothesis Hids : forall w, Q w -> Q (exec GetNewObjectId w).
Hypothesis Hstatic : forall o w, Q w -> Q (exec (SpawnStaticObject o) w).
Hypothesis Hdynamic : forall o w, Q w -> Q (exec (SpawnDynamicObject o) w).
Hypothesis Hplace : forall oid f n w, Q w -> Q (exec (upd_container oid f) (w <| w_room ::= fun r => r <| _nextWorldItemUid := n |> |>)).

Lemma keeps_ret {A} (a : A) : keeps (mret a).
Proof. by intros b. Qed.
Lemma keeps_bind {A B} (f : ST Build A) (g : A -> ST Build B) : keeps f -> (forall a, keeps (g a)) -> keeps (f ≫= g).
Proof.
  intros Hf Hg b Hb. specialize (Hf b Hb). unfold exec, mbind, ST_bind in *. destruct (f b) as [a b1]. by apply (Hg a b1).
Qed.
Lemma keeps_world {A} (f : ST World A) : (forall w, Q w -> Q (exec f w)) -> keeps (on_world f).
Proof. intros Hf b Hb. specialize (Hf _ Hb). unfold exec, on_world in *. by destruct (f (b_world b)). Qed.
Lemma keeps_each {A} (xs : list A) (body : A -> ST Build unit) : (forall x, keeps (body x)) -> keeps (for_each xs body).
Proof. intros H. induction xs as [|x xs IH]; [by intros b|]. cbn [for_each]. by apply keeps_bind. Qed.
Lemma keeps_draw lo hi : keeps (draw lo hi).
Proof. by intros b. Qed.
Lemma keeps_shuffle k i l : keeps (shuffle_loop k i l).
Proof. revert i l. induction k as [|k IH]; intros i l; cbn [shuffle_loop]; [by intros b|]. apply keeps_bind; [apply keeps_draw|].
intros j. apply IH. Qed.
Lemma keeps_place oid bp q : keeps (place_initial oid bp q).
Proof. apply keeps_world. intros w Hw. by apply Hplace. Qed.
Lemma keeps_ammo pool oid lo hi : keeps (placeAmmo pool oid lo hi).
Proof. unfold placeAmmo. apply keeps_bind; [apply keeps_draw|]. intros pick. apply keeps_bind; [apply keeps_draw|]. intros q. apply keeps_place. Qed.
Lemma keeps_equip k bp cs idx tot cur : keeps (equip_loop k bp cs idx tot cur).
Proof.
  revert cur. induction k as [|k IH]; intros cur; cbn [equip_loop]; [by intros b|]. case_match; [|by intros b].
  apply keeps_bind; [apply keeps_place|]. intros []. apply IH.
Qed.
Lemma keeps_quota qs cs idx tot cur : keeps (quota_loop qs cs idx tot cur).
Proof.
  revert cur. induction qs as [|q qs IH]; intros cur; cbn [quota_loop]; [by intros b|]. case_match; [|by intros b].
  case_match; [apply IH|]. apply keeps_bind; [apply keeps_equip|]. intros c. apply IH.
Qed.
Lemma keeps_loot cs : keeps (DistributeLoot cs).
Proof.
  intros b Hb. unfold exec, DistributeLoot. destruct cs as [|c cs]; [done|].
  generalize (_mapId (w_room (b_world b))). intros mapId. revert b Hb.
  match goal with |- forall b, _ -> Q (b_world (snd (?f b))) => change (keeps f) end.
  apply keeps_bind.
  - destruct (List.filter _ _); [apply keeps_ret|]. apply keeps_bind; [apply keeps_each; intros; apply keeps_ammo|]. intros [].
    apply keeps_bind; [apply keeps_shuffle|]. intros idx. apply keeps_bind; [apply keeps_each; intros; apply keeps_ammo|].
    intros []. apply keeps_ret.
  - intros idx. destruct (GetLootEquipQuotas mapId) as [[|q qs]|]; [apply keeps_ret| |apply keeps_ret].
    apply keeps_bind; [apply keeps_shuffle|]. intros idx2. apply keeps_quota.
Qed.

Lemma keeps_spawns spawns cs : keeps (spawn_containers spawns cs).
Proof.
  revert cs. induction spawns as [|s spawns IH]; intros cs; cbn [spawn_containers]; [apply keeps_ret|].
  apply keeps_bind; [|intros cs'; apply IH]. unfold spawn_container. apply keeps_bind; [by apply keeps_world|]. intros oid.
  destruct (new_Vehicle _ _ _ _); [|apply keeps_ret]. apply keeps_bind; [by apply keeps_world, Hstatic|]. intros []. apply keeps_ret.
Qed.
Lemma keeps_npc s : keeps (spawn_npc s).
Proof.
  unfold spawn_npc. apply keeps_bind; [by apply keeps_world|]. intros oid.
  destruct (sp_type s); (apply keeps_ret || apply keeps_world; intros w; apply Hdynamic).
Qed.
Lemma keeps_InitTenerife : keeps InitTenerifeGameRoom.
Proof.
  intros b Hb. unfold exec, InitTenerifeGameRoom. generalize (_mapId (w_room (b_world b))). intros mapId.
  destruct (GetContainerSpawns mapId) as [spawns|]; [|done]. revert b Hb.
  match goal with |- forall b, _ -> Q (b_world (snd (?f b))) => change (keeps f) end.
  apply keeps_bind; [apply keeps_spawns|]. intros cs. apply keeps_bind; [apply keeps_loot|]. intros [].
  destruct (GetHostileNpcSpawns mapId); [|apply keeps_ret]. apply keeps_each. intros s. apply keeps_npc.
Qed.
Lemma keeps_InitTest : keeps InitTestGameRoom.
Proof. apply keeps_bind; [by apply keeps_world|]. intros oid. by apply keeps_world, Hstatic. Qed.
End untouched.

(** A room nobody has entered. *)
Record untenanted (id : Z) (w : World) : Prop := {
  ut_sessions : _playerSessions (w_room w) = ∅;
  ut_reported : _allLeftReported (w_room w) = false;
  ut_id : _roomId (w_room w) = id }.

Lemma construct_untenanted {E : External} {G : Rng} id mapId now spots init draws :
  (init = InitTenerifeGameRoom \/ init = InitTestGameRoom) ->
  let r := fst (construct id mapId now spots init draws) in
  _playerSessions r = ∅ /\ _allLeftReported r = false /\ _roomId r = id.
Proof.
  intros Hinit. unfold construct. cbn [fst]. set (b := mk_build _ _).
  assert (Hk : keeps (untenanted id) init).
  { assert (Hst : forall o w, untenanted id w -> untenanted id (exec (NotifySpawnObject o) w)).
    { intros o w Hw. unfold NotifySpawnObject. by rewrite broadcast_nobody by apply Hw. }
    assert (H1 : forall w, untenanted id w -> untenanted id (exec GetNewObjectId w)) by (by intros w []).
    assert (H2 : forall o w, untenanted id w -> untenanted id (exec (SpawnStaticObject o) w)).
    { intros o w Hw. unfold SpawnStaticObject, exec. case_match; [done|]. case_match; [done|]. apply Hst. by destruct Hw. }
    assert (H3 : forall o w, untenanted id w -> untenanted id (exec (SpawnDynamicObject o) w)).
    { intros o w Hw. unfold SpawnDynamicObject, exec. case_match; [done|]. apply Hst. by destruct Hw. }
    destruct Hinit as [-> | ->]; [apply keeps_InitTenerife|apply keeps_InitTest]; try done.
    intros oid f n w []. unfold upd_container, upd_nonplayer, upd_room, modify, exec. cbn. destruct (_ !! _); by constructor. }
  destruct (Hk b) as [H1 H2 H3]; [by constructor|]. by split_and!.
Qed.

(** ** Witness *)

#[local] Existing Instance sample_external.
#[local] Instance sample_rng : Rng := {| rng_int n lo hi := lo + (7 * Z.of_nat n) mod (hi - lo + 1) |}.
Lemma sample_rng_laws : RngLaws sample_rng.
Proof. constructor. intros n lo hi H. cbn. pose proof (Z.mod_pos_bound (7 * Z.of_nat n) (hi - lo + 1)). lia. Qed.

Lemma tenerife_loot_witness :
  let r := fst (new_TenerifeGameRoom 1 0 0) in
  room_stock 3 r = 8 /\ exists k, _staticObjects r !! 5 = Some (GContainer k) /\ 8 <= container_ammo k.
Proof.
  intros r. destruct (tenerife_loot (L:=sample_rng_laws) 1 0 0) as (_ & H1 & H2). split.
  - rewrite Forall_forall in H1. apply (H1 (mk_quota 3 8)). right. right. by left.
  - assert (Ho : is_Some (_staticObjects r !! 5)) by (vm_compute; by eexists).
    destruct Ho as [o Ho]. destruct (H2 5 o Ho) as (k & -> & _ & _ & H3 & _). exists k. split; [exact Ho|apply H3].
Defined.
