(* ===== verification/Stores.v ===== *)
(** * Exceptions and the external stores of the main process

    The main process keeps tickets, tokens and locks in Redis and the inventories in
    MySQL.  Neither is code of the repository: Redis is the class [Redis], a server
    of hashes and of keys with a value, the table [user_inventory] is the class
    [Mysql]; the laws state the documented effect of the commands the program uses.

    A command can throw.  What it does then is up to the network: the request or
    only the reply was lost.  The outcomes of the commands to come are a list in the
    state, so a theorem about any list is about every failure.

    [std::stoi] and [std::to_string] are functions of the language. *)

From S2P Require Import Prelude.
From Stdlib Require Import Ascii.
From stdpp Require Import strings pretty.
Local Open Scope Z_scope.

(** ** Code that throws *)

(** [Undefined] is not an exception: the program has left the bounds of an array and
    what it does from there means nothing.  No handler catches it. *)
Inductive Exn := RedisError | SqlError | StdException | Undefined.

Definition EX (W A : Type) : Type := W -> (Exn + A) * W.
#[export] Instance EX_ret W : MRet (EX W) := fun A a w => (inr a, w).
#[export] Instance EX_bind W : MBind (EX W) := fun A B f m w =>
  match m w with (inl e, w') => (inl e, w') | (inr a, w') => f a w' end.
Definition throw {W A} (e : Exn) : EX W A := fun w => (inl e, w).
(** [try { m } catch (e) { h }]: [h] says which exceptions it takes. *)
Definition catch {W A} (m : EX W A) (h : Exn -> option (EX W A)) : EX W A := fun w =>
  match m w with
  | (inl e, w') => match h e with Some k => k w' | None => (inl e, w') end
  | r => r
  end.
Definition catch_redis {W A} (m k : EX W A) : EX W A :=
  catch m (fun e => match e with RedisError => Some k | _ => None end).
(** [catch (const std::exception&)]: every exception of the program derives from it. *)
Definition catch_all {W A} (m k : EX W A) : EX W A := 
  catch m (fun e => match e with Undefined => None | _ => Some k end).
Definition exget {W A} (f : W -> A) : EX W A := fun w => (inr (f w), w).
Definition exmod {W} (f : W -> W) : EX W unit := fun w => (inr tt, f w).
(** [val.at(key)], [std::stoi]: an empty result is an exception. *)
Definition or_throw {W A} (o : option A) : EX W A := fun w =>
  match o with Some a => (inr a, w) | None => (inl StdException, w) end.
Fixpoint ex_for {W A} (xs : list A) (body : A -> EX W unit) : EX W unit :=
  match xs with [] => mret tt | x :: xs' => body x ≫= fun _ => ex_for xs' body end.
Fixpoint ex_map {W A B} (xs : list A) (f : A -> EX W B) : EX W (list B) :=
  match xs with
  | [] => mret []
  | x :: xs' => y ← f x; ys ← ex_map xs' f; mret (y :: ys)
  end.

(** ** Numbers and strings *)

Definition is_space (c : Ascii.ascii) : bool :=
  let n := Ascii.nat_of_ascii c in (n =? 32)%nat || ((9 <=? n)%nat && (n <=? 13)%nat).
Definition digit_of (c : Ascii.ascii) : option Z :=
  let n := Z.of_nat (Ascii.nat_of_ascii c) in
  if (48 <=? n) && (n <=? 57) then Some (n - 48) else None.

(** The longest prefix of digits, after the digits read so far. *)
Fixpoint digits (acc : Z) (s : string) : Z :=
  match s with
  | String c s' => match digit_of c with Some d => digits (acc * 10 + d) s' | None => acc end
  | EmptyString => acc
  end.
Definition unsigned (s : string) : option Z :=
  match s with String c _ => match digit_of c with Some _ => Some (digits 0 s) | None => None end
             | EmptyString => None end.
Fixpoint skip_space (s : string) : string :=
  match s with String c s' => if is_space c then skip_space s' else s | EmptyString => s end.
Definition signed_number (s : string) : option Z :=
  match s with
  | String "-"%char s' => Z.opp <$> unsigned s'
  | String "+"%char s' => unsigned s'
  | _ => unsigned s
  end.
(** [std::stoi]: [None] is [std::invalid_argument] or [std::out_of_range]. *)
Definition stoi (s : string) : option Z :=
  z ← signed_number (skip_space s);
  if (- 2 ^ 31 <=? z) && (z <? 2 ^ 31) then Some z else None.
Definition to_string (z : Z) : string := pretty z.

(** ** Redis *)

Class Redis := {
  r_state : Type;
  r_hgetall : string -> r_state -> gmap string string;   (* HGETALL; empty without the key *)
  r_get : string -> r_state -> option string;            (* GET *)
  r_hset : string -> string -> string -> r_state -> r_state;   (* HSET key field value *)
  r_set : string -> string -> Z -> r_state -> r_state;   (* SET key value EX seconds *)
  r_expire : string -> Z -> r_state -> r_state;          (* EXPIRE key seconds *)
  r_del : list string -> r_state -> r_state }.           (* DEL key ... *)
Definition r_hget {R : Redis} (k f : string) (s : r_state) : option string := r_hgetall k s !! f.

(** The laws are about one instant: that a key expires later is not a change a
    command makes. *)
Class RedisLaws (R : Redis) : Prop := {
  hgetall_hset k f v s : r_hgetall k (r_hset k f v s) = <[ f := v ]> (r_hgetall k s);
  hgetall_hset_ne k k' f v s : k <> k' -> r_hgetall k' (r_hset k f v s) = r_hgetall k' s;
  hgetall_set_ne k k' v t s : k <> k' -> r_hgetall k' (r_set k v t s) = r_hgetall k' s;
  hgetall_expire k k' t s : r_hgetall k' (r_expire k t s) = r_hgetall k' s;
  hgetall_del k ks s : k ∈ ks -> r_hgetall k (r_del ks s) = ∅;
  hgetall_del_ne k ks s : k ∉ ks -> r_hgetall k (r_del ks s) = r_hgetall k s;
  get_set k v t s : r_get k (r_set k v t s) = Some v;
  get_set_ne k k' v t s : k <> k' -> r_get k' (r_set k v t s) = r_get k' s;
  get_hset_ne k k' f v s : k <> k' -> r_get k' (r_hset k f v s) = r_get k' s;
  get_expire k k' t s : r_get k' (r_expire k t s) = r_get k' s;
  get_del k ks s : k ∈ ks -> r_get k (r_del ks s) = None;
  get_del_ne k ks s : k ∉ ks -> r_get k (r_del ks s) = r_get k s }.

(** What becomes of a command: it is answered, the request or the reply is lost. *)
Inductive Answer := Answered | LostRequest | LostReply.

Record Remote (D : Type) := mk_remote { r_data : D; r_answers : list Answer }.
Arguments mk_remote {D} _ _. Arguments r_data {D} _. Arguments r_answers {D} _.
#[export] Instance eta_Remote D : Eta (Remote D) := fun r => mk_remote (r_data r) (r_answers r).

(** One round trip. With an empty list of outcomes everything is answered. *)
Definition call {D A} (e : Exn) (f : D -> A * D) (r : Remote D) : (Exn + A) * Remote D :=
  let '(a, d') := f (r_data r) in
  match r_answers r with
  | [] => (inr a, mk_remote d' [])
  | Answered :: l => (inr a, mk_remote d' l)
  | LostRequest :: l => (inl e, mk_remote (r_data r) l)
  | LostReply :: l => (inl e, mk_remote d' l)
  end.

(** ** The table of inventories *)

(** A row of [user_inventory]. *)
Record InvRow := mk_row { iv_uid : Z; iv_item_id : Z; iv_slot_index : Z; iv_quantity : Z }.

Class Mysql := {
  db_state : Type;
  db_rows : db_state -> list InvRow;
  (** DELETE ... WHERE uid = ? AND slot_index >= ? *)
  db_delete : Z -> Z -> db_state -> db_state;
  (** INSERT ... VALUES; [None] when a constraint of the table refuses the row. *)
  db_insert : InvRow -> db_state -> option db_state }.

Class MysqlLaws (M : Mysql) : Prop := {
  rows_delete uid slot d :
    Permutation (db_rows (db_delete uid slot d))
      (List.filter (fun r => negb ((iv_uid r =? uid) && (slot <=? iv_slot_index r))) (db_rows d));
  rows_insert r d d' : db_insert r d = Some d' -> Permutation (db_rows d') (r :: db_rows d) }.

(** ** Lemmas *)

Lemma call_answered {D A} e (f : D -> A * D) r :
  r_answers r = [] -> call e f r = (inr (fst (f (r_data r))), mk_remote (snd (f (r_data r))) []).
Proof. intros H. unfold call. destruct (f (r_data r)). by rewrite H. Qed.

(** What a round trip leaves: the data before or after the command. *)
Lemma call_data {D A} e (f : D -> A * D) r o r' : call e f r = (o, r') ->
  match o with
  | inr a => a = fst (f (r_data r)) /\ r_data r' = snd (f (r_data r))
  | inl e' => e' = e /\ (r_data r' = r_data r \/ r_data r' = snd (f (r_data r)))
  end.
Proof.
  unfold call. destruct (f (r_data r)) as [a d]. destruct (r_answers r) as [|[] l]; intros [= <- <-]; cbn; auto.
Qed.

(** *** The numbers written are read again *)

Lemma digit_pretty x : (x < 10)%N -> digit_of (pretty_N_char x) = Some (Z.of_N x).
Proof.
  intros H. assert (x = 0 \/ x = 1 \/ x = 2 \/ x = 3 \/ x = 4 \/ x = 5 \/ x = 6 \/ x = 7 \/ x = 8 \/ x = 9)%N
    as Hx by lia.
  by repeat destruct Hx as [->|Hx]; [..|subst].
Qed.

Lemma digits_go x s : digits 0 (pretty_N_go x s) = digits (Z.of_N x) s.
Proof.
  revert s. induction (N.lt_wf_0 x) as [x _ IH]; intros s. destruct (decide (0 < x)%N) as [H|H].
  - rewrite pretty_N_go_step by done. rewrite IH by (by apply N.div_lt). cbn [digits].
    rewrite digit_pretty by (by apply N.mod_lt). f_equal. pose proof (N.div_mod x 10 ltac:(done)). lia.
  - assert (x = 0%N) as -> by lia. by rewrite pretty_N_go_0.
Qed.

Definition starts_digit (s : string) : Prop :=
  match s with String c _ => is_Some (digit_of c) | EmptyString => False end.
Lemma starts_go x s : starts_digit s \/ (0 < x)%N -> starts_digit (pretty_N_go x s).
Proof.
  revert s. induction (N.lt_wf_0 x) as [x _ IH]; intros s Hs. destruct (decide (0 < x)%N) as [H|H].
  - rewrite pretty_N_go_step by done. apply IH; [by apply N.div_lt|]. left. cbn. eexists. apply digit_pretty.
    by apply N.mod_lt.
  - assert (x = 0%N) as -> by lia. rewrite pretty_N_go_0. by destruct Hs.
Qed.

Lemma unsigned_pretty x : unsigned (pretty_N_go x "") = (if decide (0 < x)%N then Some (Z.of_N x) else None).
Proof.
  destruct (decide (0 < x)%N) as [H|H]; [|by assert (x = 0%N) as -> by lia].
  pose proof (starts_go x "" (or_intror H)) as Hs. pose proof (digits_go x "") as Hd.
  destruct (pretty_N_go x "") as [|c s]; [done|]. destruct Hs as [d Hc]. cbn [unsigned]. by rewrite Hc, Hd.
Qed.

Lemma unsigned_N x : unsigned (pretty (x : N)) = Some (Z.of_N x).
Proof.
  unfold pretty, pretty_N. case_decide as H; [by subst|]. rewrite unsigned_pretty. by rewrite decide_True by lia.
Qed.

Lemma starts_pretty (x : N) : starts_digit (pretty x).
Proof.
  unfold pretty, pretty_N. case_decide; [by eexists|]. apply starts_go. right. lia.
Qed.

Lemma digit_not_space c : is_Some (digit_of c) -> is_space c = false /\ c <> "-"%char /\ c <> "+"%char.
Proof.
  intros [d H]. unfold digit_of in H. unfold is_space.
  destruct ((48 <=? _) && (_ <=? 57)) eqn:E in H; [|done]. apply andb_true_iff in E as [E1%Z.leb_le E2%Z.leb_le].
  assert (Hc : forall k, nat_of_ascii c = k -> (48 <= k <= 57)%nat) by (intros; lia). clear E1 E2 H.
  split; [|split; intros ->; pose proof (Hc _ eq_refl) as [H1 H2]; vm_compute in H1; lia].
  pose proof (Hc _ eq_refl).
  apply orb_false_iff. split; [apply Nat.eqb_neq; lia|]. apply andb_false_iff. right. apply Nat.leb_gt. lia.
Qed.

Lemma stoi_to_string z : is_i32 z -> stoi (to_string z) = Some z.
Proof.
  intros Hz. unfold stoi, to_string.
  assert (H : signed_number (skip_space (pretty z)) = Some z).
  { assert (Hp : forall x : N, signed_number (skip_space (pretty x)) = Some (Z.of_N x)).
    { intros x. pose proof (starts_pretty x) as Hs. pose proof (unsigned_N x) as Hu.
      destruct (pretty x) as [|c s]; [done|]. destruct (digit_not_space c Hs) as (H1 & H2 & H3).
      cbn [skip_space]. rewrite H1. rewrite <- Hu. unfold signed_number.
      destruct c as [[] [] [] [] [] [] [] []]; done. }
    destruct z as [|p|p]; [done|apply (Hp (Npos p))|].
    change (pretty (Zneg p)) with (String "-" (pretty (Npos p))).
    change (Z.opp <$> unsigned (pretty (Npos p)) = Some (Zneg p)). by rewrite (unsigned_N (Npos p)). }
  rewrite H. cbn. unfold is_i32 in Hz.
  by replace ((- 2 ^ 31 <=? z) && (z <? 2 ^ 31)) with true by (symmetry; apply andb_true_iff; lia).
Qed.

(** ** A concrete instance

    Small stores that meet the laws, on which the witnesses evaluate. *)

#[local] Instance sample_redis : Redis := {|
  r_state := gmap string (gmap string string) * gmap string string;
  r_hgetall k s := default ∅ (s.1 !! k);
  r_get k s := s.2 !! k;
  r_hset k f v s := (<[ k := <[ f := v ]> (default ∅ (s.1 !! k)) ]> s.1, s.2);
  r_set k v t s := (s.1, <[ k := v ]> s.2);
  r_expire k t s := s;
  r_del ks s := (foldr delete s.1 ks, foldr delete s.2 ks) |}.

Lemma foldr_delete_lookup {A} k ks (m : gmap string A) :
  foldr delete m ks !! k = if bool_decide (k ∈ ks) then None else m !! k.
Proof.
  induction ks as [|x ks IH]; [done|]. cbn. destruct (decide (k = x)) as [->|Hne].
  - rewrite lookup_delete_eq. by rewrite bool_decide_eq_true_2 by (by left).
  - rewrite lookup_delete_ne by done. rewrite IH. by rewrite (bool_decide_ext (k ∈ x :: ks) (k ∈ ks)) by set_solver.
Qed.

Lemma sample_redis_laws : RedisLaws sample_redis.
Proof.
  constructor; cbn; intros; rewrite ?foldr_delete_lookup, ?lookup_insert_eq, ?lookup_insert_ne by done; try done;
    by rewrite ?bool_decide_eq_true_2, ?bool_decide_eq_false_2 by done.
Qed.

(** A table that refuses a second row in the slot of a user. *)
#[local] Instance sample_mysql : Mysql := {|
  db_state := list InvRow;
  db_rows d := d;
  db_delete uid slot d := List.filter (fun r => negb ((iv_uid r =? uid) && (slot <=? iv_slot_index r))) d;
  db_insert r d :=
    if existsb (fun r' => (iv_uid r' =? iv_uid r) && (iv_slot_index r' =? iv_slot_index r)) d then None
    else Some (r :: d) |}.

Lemma sample_mysql_laws : MysqlLaws sample_mysql.
Proof. constructor; cbn; [done|]. intros r d d'. case_match; [done|]. by intros [= <-]. Qed.
