(* ===== verification/Sockets.v ===== *)
(** * Listening sockets and the HTTP server's process

    Models src/src/SocketWrapper.h and SocketWrapper.cpp ([IPCListenSocketWrapper]), HTTPserver.cpp
    ([launchNode]) and the block of src/src/main.cpp that opens the two ears of the main
    process.

    The kernel's side is a [Kernel]: the table of descriptors, the names of sockets in the
    file system and what becomes of the calls to come.  [socket] gives the lowest free
    descriptor, [bind] makes a name that must not be there, [exec] keeps the descriptors
    that are not marked close-on-exec, [fork] copies the table. *)

From S2P Require Import Prelude Stores.
From Stdlib Require Import Ascii.
From stdpp Require Import strings.
Local Open Scope Z_scope.

(** ** Characters *)

Definition chars := list ascii.
Definition char (n : nat) : ascii := ascii_of_nat n.
Definition NUL : ascii := char 0.
Definition str (s : chars) : string := String.string_of_list_ascii s.
Definition chars_of (s : string) : chars := String.list_ascii_of_string s.
(** [c_str]: up to the first NUL. *)
Fixpoint c_str (s : chars) : chars := match s with c :: s' => if Ascii.eqb c NUL then [] else c :: c_str s' | [] => [] end.
(** [find] of a character: what is before it and behind it. *)
Fixpoint split_at (x : ascii) (s : chars) : option (chars * chars) :=
  match s with
  | [] => None
  | c :: s' => if Ascii.eqb c x then Some ([], s') else '(a, b) ← split_at x s'; Some (c :: a, b)
  end.

(** ** The kernel *)

Inductive Role := Unbound | Bound (path : string) | Listening (path : string) (queueSize : Z).
Record Descriptor := mk_descriptor { d_role : Role; d_cloexec : bool }.

(** [k_grants]: whether the next calls are granted; with an empty list all are. *)
Record Kernel := mk_kernel { k_fds : gmap Z Descriptor; k_names : gset string; k_grants : list bool }.
#[export] Instance eta_Kernel : Eta Kernel := fun r => mk_kernel (k_fds r) (k_names r) (k_grants r).

Definition granted : ST Kernel bool := fun k =>
  match k_grants k with [] => (true, k) | g :: l => (g, k <| k_grants := l |>) end.
Definition free_fd (fds : gmap Z Descriptor) : Z :=
  default (-1) (List.find (fun fd => bool_decide (fds !! fd = None)) (map Z.of_nat (seq 0 (S (size fds))))).

(** The calls, with the result of the C functions. *)
Definition k_socket (cloexec : bool) : ST Kernel Z := fun k =>
  let '(ok, k1) := granted k in
  if negb ok then (-1, k1)
  else let fd := free_fd (k_fds k1) in (fd, k1 <| k_fds ::= <[ fd := mk_descriptor Unbound cloexec ]> |>).
Definition k_unlink (path : string) : ST Kernel Z := fun k =>
  let '(ok, k1) := granted k in
  if negb ok || negb (bool_decide (path ∈ k_names k1)) then (-1, k1) else (0, k1 <| k_names ::= fun s => s ∖ {[ path ]} |>).
Definition k_bind (fd : Z) (path : string) : ST Kernel Z := fun k =>
  let '(ok, k1) := granted k in
  match k_fds k1 !! fd with
  | Some (mk_descriptor Unbound c) =>
      if negb ok || bool_decide (path ∈ k_names k1) then (-1, k1)
      else (0, k1 <| k_fds ::= <[ fd := mk_descriptor (Bound path) c ]> |> <| k_names ::= union {[ path ]} |>)
  | _ => (-1, k1)
  end.
Definition k_listen (fd queueSize : Z) : ST Kernel Z := fun k =>
  let '(ok, k1) := granted k in
  match k_fds k1 !! fd with
  | Some (mk_descriptor (Bound path) c) =>
      if negb ok then (-1, k1) else (0, k1 <| k_fds ::= <[ fd := mk_descriptor (Listening path queueSize) c ]> |>)
  | _ => (-1, k1)
  end.
Definition k_close (fd : Z) : ST Kernel Z := fun k =>
  match k_fds k !! fd with None => (-1, k) | Some _ => (0, k <| k_fds ::= delete fd |>) end.

(** ** The listening socket *)

Record IPCListenSocketWrapper := mk_listener { _listenFd : Z; _sockPath : string; _queueSize : Z }.
#[export] Instance eta_IPCListenSocketWrapper : Eta IPCListenSocketWrapper := fun r =>
  mk_listener (_listenFd r) (_sockPath r) (_queueSize r).
Definition new_IPCListenSocketWrapper (sockPath : string) (queueSize : Z) : IPCListenSocketWrapper :=
  mk_listener (-1) sockPath queueSize.

(** The object and the kernel; [Listener_Init] is [Init], [Listener_destroy] the destructor. *)
Definition Ear : Type := IPCListenSocketWrapper * Kernel.
Definition kcall {A} (c : ST Kernel A) : EX Ear A := fun '(w, k) => let '(a, k') := c k in (inr a, (w, k')).

(** [sun_path] has room for 107 characters. *)
Definition sun_path (path : string) : string := str (take 107 (c_str (chars_of path))).
Definition c_path (path : string) : string := str (c_str (chars_of path)).

Definition Listener_Init : EX Ear unit :=
  fd ← kcall (k_socket true);
  _ ← exmod (fun e => ((fst e) <| _listenFd := fd |>, snd e));
  if fd =? -1 then throw StdException
  else
    path ← exget (fun e => _sockPath (fst e));
    queueSize ← exget (fun e => _queueSize (fst e));
    _ ← kcall (k_unlink (c_path path));
    bound ← kcall (k_bind fd (sun_path path));
    if bound =? -1 then _ ← kcall (k_close fd); throw StdException
    else
      listening ← kcall (k_listen fd queueSize);
      if listening =? -1 then _ ← kcall (k_close fd); throw StdException
      else mret tt.

Definition Listener_destroy (w : IPCListenSocketWrapper) (k : Kernel) : Kernel :=
  if _listenFd w =? -1 then k else exec (_ ← k_close (_listenFd w); k_unlink (c_path (_sockPath w))) k.

(** ** The HTTP server *)

Definition PATH_MAX : nat := 4096.
Definition SIGTERM : Z := 15.

(** [exe]: what [readlink] finds, [None] if it fails; it is cut to the buffer. *)
Definition getExecutablePath (exe : option chars) : chars :=
  match exe with
  | None => []
  | Some link =>
      let path := c_str (take (PATH_MAX - 1) link) in
      match split_at "/" (rev path) with
      | None => ["."%char]
      | Some (_, directory) => rev directory
      end
  end.

(** The child: its descriptors, the signal it gets when its parent dies, the program it has
    become with its arguments; [None] if it has exited with 1. *)
Record Child := mk_child { ch_fds : gmap Z Descriptor; ch_pdeathsig : Z; ch_program : option (string * list string) }.

Definition execlp (file : string) (args : list string) (there : bool) (c : Child) : Child :=
  if there then mk_child (filter (fun '(_, d) => d_cloexec d = false) (ch_fds c)) (ch_pdeathsig c) (Some (file, args)) else c.

(** [pid] is what [fork] returns to the parent, [there] whether node can be executed. *)
Definition launchNode (pid : Z) (exe : option chars) (there : bool) (k : Kernel) : bool * option Child :=
  if pid <? 0 then (false, None)
  else
    let lobbyPath := str (getExecutablePath exe) +:+ "/../HTTPServer/index.js" in
    (true, Some (execlp "node" ["node"; lobbyPath] there (mk_child (k_fds k) SIGTERM None))).

(** ** The ears of the main process *)

Definition HTTPS_SOCK : string := "/tmp/https.sock".
Definition DEDICATE_SOCK : string := "/tmp/dedicate.sock".

Definition make_listener (path : string) (queueSize : Z) : EX Kernel IPCListenSocketWrapper := fun k =>
  let '(o, (w, k')) := Listener_Init (new_IPCListenSocketWrapper path queueSize, k) in (match o with inl e => inl e | inr _ => inr w end, k').
(** An exception ends the process with [_exit], which runs no destructor. *)
Definition open_ears (pid : Z) (exe : option chars) (there : bool)
    : EX Kernel (IPCListenSocketWrapper * IPCListenSocketWrapper * (bool * option Child)) :=
  httpsIpc ← make_listener HTTPS_SOCK 1;
  dedicateIpc ← make_listener DEDICATE_SOCK 128;
  node ← exget (launchNode pid exe there);
  mret (httpsIpc, dedicateIpc, node).

(** ** Lemmas *)

Lemma free_fd_spec fds : 0 <= free_fd fds /\ fds !! free_fd fds = None.
Proof.
  unfold free_fd. destruct (List.find _ _) as [fd|] eqn:Ef; unfold default, from_option, id.
  - apply find_some in Ef as [(n & <- & _)%in_map_iff Hf%bool_decide_eq_true]. split; [lia|done].
  - exfalso. assert (Hsub : list_to_set (map Z.of_nat (seq 0 (S (size fds)))) ⊆ dom fds).
    { intros fd Hin%elem_of_list_to_set%list_elem_of_In. apply elem_of_dom.
      pose proof (find_none _ _ Ef fd Hin) as H%bool_decide_eq_false. by destruct (fds !! fd). }
    apply subseteq_size in Hsub. rewrite size_dom, size_list_to_set, length_map, length_seq in Hsub; [lia|].
    apply (NoDup_fmap_2 Z.of_nat), NoDup_seq.
Qed.

(** A call takes its grant from the list and nothing else. *)
Lemma granted_frame k : k_fds (snd (granted k)) = k_fds k /\ k_names (snd (granted k)) = k_names k /\
  (k_grants k = [] -> granted k = (true, k)).
Proof. by destruct k as [f n [|g l]]. Qed.

Ltac take_grant k :=
  let H := fresh in pose proof (granted_frame k) as H; destruct (granted k) as [ok k1]; cbn [snd] in H; 
  let Hf := fresh "Hf" in let Hn := fresh "Hn" in let Hg := fresh "Hg" in destruct H as (Hf & Hn & Hg).

(** What each call does: it fails and changes nothing, or does its work; granted, it works. *)
Lemma k_socket_spec c k fd k' : k_socket c k = (fd, k') ->
  k_names k' = k_names k /\
  (fd = -1 /\ k_fds k' = k_fds k \/
   0 <= fd /\ k_fds k !! fd = None /\ k_fds k' = <[ fd := mk_descriptor Unbound c ]> (k_fds k)) /\
  (k_grants k = [] -> fd <> -1 /\ k_grants k' = []).
Proof.
  unfold k_socket. take_grant k. destruct (free_fd_spec (k_fds k)) as [F1 F2]. destruct ok; cbn [negb]; intros [= <- <-].
  - rewrite Hf. split; [done|]. split; [right; by split_and!|]. intros Hk. pose proof (Hg Hk) as [= ->]. split; [lia|done].
  - split; [done|]. split; [by left|]. intros Hk. discriminate (Hg Hk).
Qed.
Lemma k_unlink_spec path k r k' : k_unlink path k = (r, k') ->
  k_fds k' = k_fds k /\ (k_names k ⊆ {[ path ]} ∪ k_names k') /\ (k_names k' ⊆ k_names k) /\
  (k_grants k = [] -> (path ∉ k_names k') /\ k_grants k' = []).
Proof.
  unfold k_unlink. take_grant k. rewrite Hn. destruct ok; cbn [negb orb];
    [destruct (bool_decide_reflect (path ∈ k_names k)) as [Hp|Hp]; cbn [negb]|]; intros [= <- <-]; cbn [k_fds k_names setf];
    (split; [done|]); rewrite ?Hn.
  - split; [|split; [set_solver|intros Hk; pose proof (Hg Hk) as [= ->]; split; [set_solver|done]]].
    intros x Hx. destruct (decide (x = path)); set_solver.
  - split; [set_solver|]. split; [done|]. intros Hk. by pose proof (Hg Hk) as [= ->].
  - split; [set_solver|]. split; [done|]. intros Hk. discriminate (Hg Hk).
Qed.
Lemma k_bind_spec fd path c k r k' : k_bind fd path k = (r, k') -> k_fds k !! fd = Some (mk_descriptor Unbound c) ->
  (r = -1 /\ k_fds k' = k_fds k \/
   r = 0 /\ k_fds k' = <[ fd := mk_descriptor (Bound path) c ]> (k_fds k) /\ k_names k' = {[ path ]} ∪ k_names k) /\
  (k_grants k = [] -> path ∉ k_names k -> r = 0 /\ k_grants k' = []).
Proof.
  unfold k_bind. take_grant k. rewrite Hf, Hn. intros E Hd. rewrite Hd in E. revert E. destruct ok; cbn [negb orb];
    [destruct (bool_decide_reflect (path ∈ k_names k)) as [Hp|Hp]|]; intros [= <- <-]; cbn [k_fds k_names setf]; rewrite ?Hf, ?Hn.
  - split; [by left|]. by intros _ [].
  - split; [by right|]. intros Hk _. by pose proof (Hg Hk) as [= ->].
  - split; [by left|]. intros Hk. discriminate (Hg Hk).
Qed.
Lemma k_listen_spec fd path queueSize c k r k' : k_listen fd queueSize k = (r, k') ->
  k_fds k !! fd = Some (mk_descriptor (Bound path) c) ->
  k_names k' = k_names k /\
  (r = -1 /\ k_fds k' = k_fds k \/ r = 0 /\ k_fds k' = <[ fd := mk_descriptor (Listening path queueSize) c ]> (k_fds k)) /\
  (k_grants k = [] -> r = 0 /\ k_grants k' = []).
Proof.
  unfold k_listen. take_grant k. rewrite Hf. intros E Hd. rewrite Hd in E. revert E. destruct ok; cbn [negb]; intros [= <- <-];
    cbn [k_fds k_names setf]; (split; [done|]); rewrite ?Hf.
  - split; [by right|]. intros Hk. by pose proof (Hg Hk) as [= ->].
  - split; [by left|]. intros Hk. discriminate (Hg Hk).
Qed.

Lemma close_new fd k fds d : fds !! fd = None -> k_fds k = <[ fd := d ]> fds -> k_close fd k = (0, k <| k_fds := fds |>).
Proof.
  intros Hn Hk. unfold k_close. rewrite Hk, lookup_insert_eq. f_equal. destruct k as [f n g]. cbn in *. subst f.
  unfold setf. cbn. by rewrite delete_insert_id.
Qed.

#[local] Arguments k_close : simpl never.

(** A listener that is up: its descriptor, on its path, closed on [exec]. *)
Record listening (w : IPCListenSocketWrapper) (k : Kernel) : Prop := {
  ls_fd : 0 <= _listenFd w;
  ls_role : k_fds k !! _listenFd w = Some (mk_descriptor (Listening (_sockPath w) (_queueSize w)) true);
  ls_name : _sockPath w ∈ k_names k }.

(** A path that fits in an address. *)
Definition fits (path : string) : Prop := sun_path path = path /\ c_path path = path.

Record made (path : string) (queueSize : Z) (k : Kernel) (w : IPCListenSocketWrapper) (k' : Kernel) : Prop := {
  md_path : _sockPath w = path;
  md_queue : _queueSize w = queueSize;
  md_up : listening w k';
  md_new : k_fds k !! _listenFd w = None;
  md_rest : forall fd, fd <> _listenFd w -> k_fds k' !! fd = k_fds k !! fd;
  md_names : k_names k ⊆ k_names k' }.

Lemma make_listener_spec path queueSize k : fits path ->
  match make_listener path queueSize k with
  | (inr w, k') => made path queueSize k w k'
  | (inl e, k') => e = StdException /\ k_fds k' = k_fds k
  end /\
  (k_grants k = [] -> exists w k', make_listener path queueSize k = (inr w, k') /\ k_grants k' = []).
Proof.
  intros [Hs Hc]. unfold make_listener, Listener_Init, mbind, EX_bind, kcall, exget, exmod, throw, mret, EX_ret.
  destruct (k_socket true k) as [fd k1] eqn:E1. apply k_socket_spec in E1 as (N1 & F1 & G1). cbn.
  destruct (Z.eqb_spec fd (-1)) as [->|Hfd].
  { destruct F1 as [[_ F1]|[F1 _]]; [|lia]. split; [done|]. intros Hk. by destruct (G1 Hk). }
  destruct F1 as [[? _]|(F0 & Fn & F1)]; [done|]. cbn.
  match goal with |- context [k_unlink ?p k1] => change p with (c_path path) end.
  match goal with |- context [k_bind fd ?p] => change p with (sun_path path) end. rewrite Hs, Hc.
  destruct (k_unlink path k1) as [u k2] eqn:E2. apply k_unlink_spec in E2 as (F2 & N2 & N2' & G2). cbn.
  destruct (k_bind fd path k2) as [b k3] eqn:E3. eapply k_bind_spec in E3 as (F3 & G3); [|by rewrite F2, F1, lookup_insert_eq].
  destruct F3 as [[-> F3]|(-> & F3 & N3)]; cbn.
  { rewrite (close_new fd k3 (k_fds k) _ Fn) by (by rewrite F3, F2, F1). cbn. split; [done|]. intros Hk.
    by destruct (G1 Hk) as [_ K1], (G2 K1) as [Hp K2], (G3 K2 Hp). }
  destruct (k_listen fd queueSize k3) as [l k4] eqn:E4. eapply k_listen_spec in E4 as (N4 & F4 & G4);
    [|by rewrite F3, lookup_insert_eq].
  rewrite F3, F2, F1, insert_insert_eq in F4. destruct F4 as [[-> F4]|[-> F4]]; cbn; [|rewrite insert_insert_eq in F4].
  { rewrite (close_new fd k4 (k_fds k) _ Fn) by exact F4. cbn. split; [done|]. intros Hk.
    by destruct (G1 Hk) as [_ K1], (G2 K1) as [Hp K2], (G3 K2 Hp) as [_ K3], (G4 K3). }
  split.
  - assert (Hn : path ∈ k_names k4 /\ k_names k ⊆ k_names k4) by (rewrite N4, N3; set_solver).
    constructor; try done; cbn; [|intros x Hx; rewrite F4; by rewrite !lookup_insert_ne by done|tauto].
    constructor; cbn; [done| |tauto]. by rewrite F4, lookup_insert_eq.
  - intros Hk. destruct (G1 Hk) as [_ K1], (G2 K1) as [Hp K2], (G3 K2 Hp) as [_ K3], (G4 K3) as [_ K4]. by repeat eexists.
Qed.

Lemma fits_https : fits HTTPS_SOCK.
Proof. split; vm_compute; reflexivity. Qed.
Lemma fits_dedicate : fits DEDICATE_SOCK.
Proof. split; vm_compute; reflexivity. Qed.

(** What a child keeps is what was open when it was forked, without what is closed on [exec]. *)
Lemma launchNode_child pid exe there k :
  match launchNode pid exe there k with
  | (ok, None) => ok = false /\ pid < 0
  | (ok, Some c) => ok = true /\ ch_pdeathsig c = SIGTERM /\
      forall program fd d, ch_program c = Some program -> ch_fds c !! fd = Some d -> k_fds k !! fd = Some d /\ d_cloexec d = false
  end.
Proof.
  unfold launchNode. destruct (Z.ltb_spec pid 0); [done|]. destruct there; cbn; [|done]. split; [done|]. split; [done|].
  by intros program fd d _ [Hd Hc]%map_lookup_filter_Some.
Qed.

(** The ears are open: two new descriptors, which listen on their paths; the rest of the
    table is as it was. *)
Record ears_open (k : Kernel) (https dedicate : IPCListenSocketWrapper) (k' : Kernel) : Prop := {
  eo_https : listening https k' /\ _sockPath https = HTTPS_SOCK /\ _queueSize https = 1;
  eo_dedicate : listening dedicate k' /\ _sockPath dedicate = DEDICATE_SOCK /\ _queueSize dedicate = 128;
  eo_new : k_fds k !! _listenFd https = None /\ k_fds k !! _listenFd dedicate = None /\ _listenFd https <> _listenFd dedicate;
  eo_rest : forall fd, fd <> _listenFd https -> fd <> _listenFd dedicate -> k_fds k' !! fd = k_fds k !! fd }.

(** The main process opens both ears or throws; with its calls granted it opens them, whatever
    names an earlier run has left behind; and the program the child becomes has
    nothing of them. *)
Theorem open_ears_spec pid exe there k :
  match open_ears pid exe there k with
  | (inr (https, dedicate, (ok, child)), k') =>
      ears_open k https dedicate k' /\
      forall c program fd d, child = Some c -> ch_program c = Some program -> ch_fds c !! fd = Some d ->
        k_fds k !! fd = Some d
  | (inl e, _) => e = StdException
  end /\
  (k_grants k = [] -> exists r k', open_ears pid exe there k = (inr r, k')).
Proof.
  unfold open_ears, mbind, EX_bind, mret, EX_ret, exget.
  destruct (make_listener_spec HTTPS_SOCK 1 k fits_https) as [H1 G1].
  destruct (make_listener HTTPS_SOCK 1 k) as [[e|h] k1]; [destruct H1 as [-> _]; split; [done|]; intros Hk;
    by destruct (G1 Hk) as (? & ? & ? & _)|].
  destruct (make_listener_spec DEDICATE_SOCK 128 k1 fits_dedicate) as [H2 G2].
  destruct (make_listener DEDICATE_SOCK 128 k1) as [[e|d] k2].
  { destruct H2 as [-> _]. split; [done|]. intros Hk. destruct (G1 Hk) as (? & ? & [= <- <-] & K1).
    by destruct (G2 K1) as (? & ? & ? & _). }
  pose proof (launchNode_child pid exe there k2) as H3. destruct (launchNode pid exe there k2) as [ok child].
  destruct H1 as [P1 Q1 [L1 R1 N1] F1 O1 S1], H2 as [P2 Q2 [L2 R2 N2] F2 O2 S2].
  assert (Hne : _listenFd h <> _listenFd d) by (intros Heq; rewrite <- Heq in F2; by rewrite F2 in R1).
  assert (Ho : forall fd, fd <> _listenFd h -> fd <> _listenFd d -> k_fds k2 !! fd = k_fds k !! fd) by (intros fd ? ?;
    by rewrite O2, O1).
  assert (Hh : k_fds k2 !! _listenFd h = k_fds k1 !! _listenFd h) by (by apply O2).
  split; [split|by repeat eexists].
  - constructor; [|done| |done].
    + split; [|done]. constructor; [done|by rewrite Hh|set_solver].
    + split_and!; [done| |done]. rewrite <- (O1 (_listenFd d)) by done. exact F2.
  - intros c program fd x -> Hp Hx. destruct H3 as (_ & _ & H3). destruct (H3 _ _ _ Hp Hx) as [Hk Hc].
    rewrite <- Hk. symmetry. apply Ho; intros ->; [rewrite Hh, R1 in Hk|rewrite R2 in Hk]; injection Hk as <-; discriminate Hc.
Qed.

(** Where the program of the HTTP server is looked for: beside the directory of the executable. *)
Lemma split_at_none x s : Forall (fun c => c <> x) s -> split_at x s = None.
Proof. induction 1 as [|c s Hc _ IH]; [done|]. cbn. rewrite (proj2 (Ascii.eqb_neq _ _) Hc). by rewrite IH. Qed.
Lemma split_at_first x l r : Forall (fun c => c <> x) l -> split_at x (l ++ x :: r) = Some (l, r).
Proof.
  induction 1 as [|c l Hc _ IH]; cbn; [by rewrite Ascii.eqb_refl|].
  rewrite (proj2 (Ascii.eqb_neq _ _) Hc). by rewrite IH.
Qed.
Lemma c_str_id s : Forall (fun c => c <> NUL) s -> c_str s = s.
Proof. induction 1 as [|c s Hc _ IH]; [done|]. cbn. by rewrite (proj2 (Ascii.eqb_neq _ _) Hc), IH. Qed.

Theorem getExecutablePath_directory directory name : let link := directory ++ "/"%char :: name in
  Forall (fun c => c <> NUL) link -> Forall (fun c => c <> "/"%char) name -> (length link < PATH_MAX)%nat ->
  getExecutablePath (Some link) = directory.
Proof.
  intros link Hn Hname Hlen. unfold getExecutablePath. rewrite take_ge, c_str_id by (done || unfold PATH_MAX in *; lia).
  unfold link. rewrite rev_app_distr. cbn [rev]. rewrite <- app_assoc. cbn [app].
  rewrite split_at_first by (by apply List.Forall_rev). apply rev_involutive.
Qed.
