(* ===== verification/Main.v ===== *)
(** * The main process: tickets, dedicated processes and the group a match becomes

    Models src/src/DediManager.h and .cpp, M2DSessions.h and .cpp (the session of a
    dedicated process: its capacity, the packets held back until it is connected) and
    the ticket of Matchmaker.h; the matchmakers themselves are in Matchmaker.v, the
    handlers and the database requests in DBProxy.v.

    Tickets are shared by the vectors of a matchmaker: [m_tickets] is the store they
    point into and a vector holds the keys.  The order in which an unordered_map is
    iterated, the process ids fork returns, the JSON parser and the environment of
    the process are the class [MainEnv]. *)

From S2P Require Import Prelude Session Stores.
From stdpp Require Import strings.
Local Open Scope Z_scope.

(** ** Data *)

(** [startTime] is the steady clock in nanoseconds. *)
Record MatchTicket := mk_ticket {
  ticketId : string; uId : Z; aggression : Z; mapId : Z; characterType : Z;
  startTime : Z; isMatched : bool; isValid : bool }.
#[export] Instance eta_MatchTicket : Eta MatchTicket := fun t =>
  mk_ticket (ticketId t) (uId t) (aggression t) (mapId t) (characterType t) (startTime t)
    (isMatched t) (isValid t).
Definition new_MatchTicket (tid : string) (uid aggr mid cType now : Z) : MatchTicket :=
  mk_ticket tid uid aggr mid cType now false true.

(** [duration_cast] truncates. *)
Definition GetWaitTimeSeconds (now : Z) (t : MatchTicket) : Z := i32 (Z.quot (now - startTime t) 1000000000).

Record MatchMaker := mk_matchmaker {
  mm_mapId : Z; _maxAgression : Z;
  _ticketsToAdd : list Z; _ticketsToRelease : list Z; _ticketsToDelete : list Z;
  _timeSortedTicketVector : list Z; _bucket : list (list Z);
  _matchedGroups : list (list Z); _pivotMemorizationFlags : list bool }.
#[export] Instance eta_MatchMaker : Eta MatchMaker := fun m =>
  mk_matchmaker (mm_mapId m) (_maxAgression m) (_ticketsToAdd m) (_ticketsToRelease m)
    (_ticketsToDelete m) (_timeSortedTicketVector m) (_bucket m) (_matchedGroups m)
    (_pivotMemorizationFlags m).
Definition new_MatchMaker (mapId maxAgression : Z) : MatchMaker :=
  let n := Z.to_nat (maxAgression + 1) in
  mk_matchmaker mapId maxAgression [] [] [] [] (replicate n []) [] (replicate n false).

(** [M2DMakeRoomForThisGroup]. *)
Record PlayerInfo := mk_info {
  pi_ticket_id : string; pi_uid : Z; pi_user_id : string; pi_rating : Z;
  pi_inventory_items : list ItemSlot; pi_equipment_items : list ItemSlot; pi_character_type : Z }.
Record M2DMakeRoomForThisGroup := mk_make_room { mr_map_id : Z; mr_player_infos : list PlayerInfo }.

Inductive M2DState := Initializing | Ready | Terminated.
#[export] Instance M2DState_eq_dec : EqDecision M2DState.
Proof. solve_decision. Defined.
Record M2DSession := mk_m2d {
  _pid : Z; _fd : Z; _ingamePlayers : Z; _allocatedPlayers : Z; _state : M2DState;
  _tempMatchPkts : list M2DMakeRoomForThisGroup }.
#[export] Instance eta_M2DSession : Eta M2DSession := fun s =>
  mk_m2d (_pid s) (_fd s) (_ingamePlayers s) (_allocatedPlayers s) (_state s) (_tempMatchPkts s).
Definition new_M2DSession (pid : Z) : M2DSession := mk_m2d pid (-1) 0 0 Initializing [].

(** A row to write and the requests that wait for the database (DBProxyRequest.h). *)
Record SlotRow := mk_slot_row { sr_itemId : Z; sr_slotIndex : Z; sr_quantity : Z }.
Inductive PendingDBRequest :=
| UpdateEntryTokenRequest (fd : Z) (ticketIds : list string) (sessionIds : list Z)
    (tokens : list string) (securityKeys : list Z) (port : Z)
| NotifyPlayerLeftRequest (fd uid leaveReason : Z) (slots : list SlotRow).

(** What the main process sends to a dedicated process. *)
Inductive MainOut :=
| OutMakeRoom (pid : Z) (pkt : M2DMakeRoomForThisGroup)
| OutBindIp (pid : Z) (token ip : string).

Class MainEnv := {
  me_keys : forall A : Type, gmap Z A -> list Z;
  me_fork : nat -> Z;
  me_json : string -> option (list (gmap string Z));
  me_instance_ip : option string;
  (** [getifaddrs]: the interfaces and their IPv4 address; [None] on failure. *)
  me_interfaces : option (list (string * option string)) }.
Class MainEnvLaws (E : MainEnv) : Prop := {
  me_keys_perm : forall A (m : gmap Z A), Permutation (me_keys A m) (map fst (map_to_list m)) }.

(** The connection to MySQL: the table as last committed, as the open transaction
    sees it, whether the connection commits by itself, and whether the handle
    ([MysqlHandle]) holds one. *)
Record Database (D : Type) := mk_database {
  committed : D; working : D; autocommit : bool; connected : bool }.
Arguments mk_database {D} _ _ _ _. Arguments committed {D} _. Arguments working {D} _.
Arguments autocommit {D} _. Arguments connected {D} _.
#[export] Instance eta_Database D : Eta (Database D) := fun d =>
  mk_database (committed d) (working d) (autocommit d) (connected d).

Record Main {R : Redis} {M : Mysql} := mk_main {
  m_redis : Remote r_state; m_db : Remote (Database db_state);
  m_tickets : gmap Z MatchTicket; m_nextTicket : Z;
  _dediSessions : gmap Z M2DSession; _sessionFd2pid : gmap Z Z; _tempSessions : list Z;
  _matchmakers : list MatchMaker; _lastTimeMatchStarted : Z;
  _requestQueue : list PendingDBRequest;
  m_now : Z; m_forks : nat; m_out : list MainOut }.
Arguments Main : clear implicits.
Arguments mk_main {R M} _ _ _ _ _ _ _ _ _ _ _ _ _.
#[export] Instance eta_Main {R M} : Eta (Main R M) := fun m =>
  mk_main (m_redis m) (m_db m) (m_tickets m) (m_nextTicket m) (_dediSessions m) (_sessionFd2pid m)
    (_tempSessions m) (_matchmakers m) (_lastTimeMatchStarted m) (_requestQueue m) (m_now m)
    (m_forks m) (m_out m).

Definition MAP_MAX : Z := 2.
Definition MAX_AGRESSION : Z := 20.
Definition MAX_PLAYER_PER_PROCESS : Z := 50.

Section main.
Context {R : Redis} {M : Mysql} {E : MainEnv}.
Local Abbreviation Mn := (Main R M).

(** A Redis command. *)
Definition redis {A} (f : r_state -> A * r_state) : EX Mn A := fun m =>
  let '(o, r) := call RedisError f (m_redis m) in (o, m <| m_redis := r |>).
Definition redis_hget (k f : string) : EX Mn (option string) := redis (fun s => (r_hget k f s, s)).
Definition redis_hgetall (k : string) : EX Mn (gmap string string) := redis (fun s => (r_hgetall k s, s)).
Definition redis_del (ks : list string) : EX Mn unit := redis (fun s => (tt, r_del ks s)).

Definition emit_main (o : MainOut) (m : Mn) : Mn := m <| m_out ::= fun l => l ++ [o] |>.
Definition upd_dedi (pid : Z) (f : M2DSession -> M2DSession) (m : Mn) : Mn :=
  m <| _dediSessions ::= alter f pid |>.

(** ** The session of a dedicated process *)

Definition GetAffordablePlayers (s : M2DSession) : Z := MAX_PLAYER_PER_PROCESS - _allocatedPlayers s.

(** The slots of a player, from the JSON text of the ticket. *)
Definition json_slots (text : string) (slotKey : string) (qty : gmap string Z -> option Z) : option (list ItemSlot) :=
  rows ← me_json text;
  mapM (fun e => id ← e !! "itemId"; i ← e !! slotKey; q ← qty e;
                 Some (mk_item_slot (u32 id) (i32 i) (i32 q))) rows.

(** One player of the message; [None] is an exception of [at], [stoi] or the parser. *)
Definition make_info (t : MatchTicket) (val : gmap string string) : option PlayerInfo :=
  uid ← val !! "uid" ≫= stoi;
  user_id ← val !! "user_id";
  rating ← val !! "rating" ≫= stoi;
  inventory ← (text ← val !! "inventory_items"; json_slots text "inventorySlotId" (fun e => e !! "quantity"));
  equipment ← (text ← val !! "equipment_items"; json_slots text "equipmentSlotId" (fun _ => Some 1));
  Some (mk_info (ticketId t) uid user_id rating inventory equipment (characterType t)).

Fixpoint make_infos (group : list MatchTicket) : EX Mn (list PlayerInfo) :=
  match group with
  | [] => mret []
  | t :: group' =>
      val ← redis_hgetall (ticketId t);
      if decide (val = ∅) then make_infos group'
      else
        info ← or_throw (make_info t val);
        infos ← make_infos group';
        mret (info :: infos)
  end.
Definition MakeM2DMakeRoomForThisGroup (mapId : Z) (group : list MatchTicket) : EX Mn M2DMakeRoomForThisGroup :=
  infos ← make_infos group; mret (mk_make_room mapId infos).

Definition FlushPendingTickets (pid : Z) (m : Mn) : Mn :=
  match _dediSessions m !! pid with
  | None => m
  | Some s => upd_dedi pid (fun s => s <| _tempMatchPkts := [] |>)
                (foldl (fun m pkt => emit_main (OutMakeRoom pid pkt) m) m (_tempMatchPkts s))
  end.

Definition AllocatePlayers (pid : Z) (ticketVec : list MatchTicket) : EX Mn bool := fun m =>
  match _dediSessions m !! pid with
  | None => (inr false, m)
  | Some s =>
      if (Z.of_nat (length ticketVec) <=? GetAffordablePlayers s) && negb (bool_decide (_state s = Terminated)) then
        (_ ← exmod (upd_dedi pid (fun s => s <| _allocatedPlayers ::= fun n => n + Z.of_nat (length ticketVec) |>));
         pkt ← match ticketVec with
               | [] => throw Undefined   (* ticketVec[0] *)
               | t :: _ => MakeM2DMakeRoomForThisGroup (mapId t) ticketVec
               end;
         _ ← exmod (upd_dedi pid (fun s => s <| _tempMatchPkts ::= fun l => l ++ [pkt] |>));
         _ ← exmod (fun m => if bool_decide (_state s = Ready) then FlushPendingTickets pid m else m);
         mret true) m
      else (inr false, m)
  end.

Definition ReleasePlayers (count : Z) (s : M2DSession) : M2DSession :=
  let n := _allocatedPlayers s - count in s <| _allocatedPlayers := if n <? 0 then 0 else n |>.

Definition BindSocket (fd : Z) (s : M2DSession) : M2DSession := s <| _fd := fd |> <| _state := Ready |>.

(** ** The manager *)

(** -1 when fork fails. *)
Definition SpawnSingleServer : ST Mn Z := fun m =>
  let pid := me_fork (m_forks m) in
  let m1 := m <| m_forks ::= S |> in
  if pid <? 0 then (-1, m1) else (pid, m1 <| _dediSessions ::= <[ pid := new_M2DSession pid ]> |>).

Definition OnAcceptDedi (fd : Z) (m : Mn) : Mn := m <| _tempSessions ::= fun l => l ++ [fd] |>.

Definition FinalizeConnection (pid fd : Z) : ST Mn bool := fun m =>
  if bool_decide (fd ∈ _tempSessions m) && bool_decide (is_Some (_dediSessions m !! pid)) then
    (true, upd_dedi pid (BindSocket fd) m <| _sessionFd2pid ::= <[ fd := pid ]> |>
             <| _tempSessions ::= List.filter (fun f => negb (f =? fd)) |>)
  else (false, m).

Fixpoint find_available (pids : list Z) (ticketVec : list MatchTicket) : EX Mn bool :=
  match pids with
  | [] => mret false
  | pid :: pids' => ok ← AllocatePlayers pid ticketVec; if (ok : bool) then mret true else find_available pids' ticketVec
  end.
Definition FindAvailableSessionAndDistributePlayerGroup (ticketVec : list MatchTicket) : EX Mn bool := fun m =>
  find_available (me_keys _ (_dediSessions m)) ticketVec m.

Definition DistributePlayerGroup (ticketVec : list MatchTicket) : EX Mn bool :=
  found ← FindAvailableSessionAndDistributePlayerGroup ticketVec;
  if (found : bool) then mret true
  else
    pid ← (fun m => let '(p, m') := SpawnSingleServer m in (inr p, m'));
    if pid =? -1 then mret false else AllocatePlayers pid ticketVec.

(** ** Lemmas

    [triple P x Q]: from a state of [P] the call [x] stays within its arrays, and if it
    returns, the result and the state are of [Q]. *)

Definition triple {A} (P : Mn -> Prop) (x : EX Mn A) (Q : A -> Mn -> Prop) : Prop := forall m, P m ->
  match x m with (inr a, m') => Q a m' | (inl e, _) => e <> Undefined end.

Lemma triple_ret {A} (a : A) (Q : A -> Mn -> Prop) : triple (Q a) (mret a) Q.
Proof. by intros m. Qed.
Lemma triple_bind {A B} P (x : EX Mn A) Q (k : A -> EX Mn B) T :
  triple P x Q -> (forall a, triple (Q a) (k a) T) -> triple P (x ≫= k) T.
Proof.
  intros Hx Hk m Hm. specialize (Hx m Hm). unfold mbind, EX_bind. destruct (x m) as [[e|a] m1]; [done|].
  by apply Hk.
Qed.
Lemma triple_pre {A} (P P' : Mn -> Prop) (x : EX Mn A) Q :
  (forall m, P m -> P' m) -> triple P' x Q -> triple P x Q.
Proof. intros H Hx m Hm. by apply Hx, H. Qed.
Lemma triple_exget {A} (f : Mn -> A) (P : Mn -> Prop) : triple P (exget f) (fun a m => P m /\ a = f m).
Proof. by intros m Hm. Qed.
Lemma triple_exmod (f : Mn -> Mn) (P : Mn -> Prop) Q :
  (forall m, P m -> Q tt (f m)) -> triple P (exmod f) Q.
Proof. intros H m Hm. by apply H. Qed.
Lemma triple_for {A} (I : list A -> Mn -> Prop) xs (body : A -> EX Mn unit) :
  (forall x l, triple (I (x :: l)) (body x) (fun _ => I l)) -> triple (I xs) (ex_for xs body) (fun _ => I []).
Proof.
  intros H. induction xs as [|x xs IH]; cbn [ex_for]; [apply (triple_ret tt (fun _ => I []))|].
  eapply triple_bind; [apply H|]. intros []. exact IH.
Qed.

(** Calls that leave the tickets and the matchmakers alone. *)
Class Quiet {A} (x : EX Mn A) : Prop := quiet : forall m,
  m_tickets (snd (x m)) = m_tickets m /\ _matchmakers (snd (x m)) = _matchmakers m /\
  fst (x m) <> inl Undefined.

#[export] Instance quiet_ret {A} (a : A) : Quiet (mret a).
Proof. by intros m. Qed.
#[export] Instance quiet_bind {A B} (x : EX Mn A) (k : A -> EX Mn B) :
  Quiet x -> (forall a, Quiet (k a)) -> Quiet (x ≫= k).
Proof.
  intros Hx Hk m. unfold mbind, EX_bind. specialize (Hx m).
  destruct (x m) as [[e|a] m1]; cbn in *; [destruct Hx as (H1 & H2 & H3); split_and!; [done|done|congruence]|].
  destruct Hx as (H1 & H2 & _). destruct (Hk a m1) as (H3 & H4 & H5). split_and!; congruence.
Qed.
#[export] Instance quiet_redis {A} (f : r_state -> A * r_state) : Quiet (redis f).
Proof.
  intros m. unfold redis. destruct (call RedisError f (m_redis m)) as [o r] eqn:Ec. apply call_data in Ec.
  cbn. split_and!; try done. destruct o as [e|a]; [|done]. destruct Ec as [-> _]. done.
Qed.
#[export] Instance quiet_or_throw {A} (o : option A) : Quiet (or_throw o).
Proof. intros m. by destruct o. Qed.
Lemma quiet_exmod (f : Mn -> Mn) : (forall m, m_tickets (f m) = m_tickets m /\ _matchmakers (f m) = _matchmakers m) ->
  Quiet (exmod f).
Proof. intros H m. destruct (H m). by split_and!. Qed.
#[export] Instance quiet_catch {A} (x k : EX Mn A) : Quiet x -> Quiet k -> Quiet (catch_redis x k).
Proof.
  intros Hx Hk m. unfold catch_redis, catch. specialize (Hx m). destruct (x m) as [[[]|a] m1]; cbn in *; try done.
  destruct Hx as (H1 & H2 & _). destruct (Hk m1) as (H3 & H4 & H5). split_and!; congruence.
Qed.

#[export] Instance quiet_make_infos group : Quiet (make_infos group).
Proof. induction group as [|t group IH]; cbn [make_infos]; [apply _|]. apply quiet_bind; [apply _|]. intros v. case_decide; apply _. Qed.

Lemma quiet_flush pid m :
  m_tickets (FlushPendingTickets pid m) = m_tickets m /\ _matchmakers (FlushPendingTickets pid m) = _matchmakers m.
Proof.
  unfold FlushPendingTickets. destruct (_dediSessions m !! pid) as [s|]; [|done]. cbn.
  revert m. induction (_tempMatchPkts s) as [|p l IH]; intros m; [done|]. cbn. by rewrite !(proj1 (IH _)), !(proj2 (IH _)).
Qed.

#[export] Instance quiet_allocate pid t ts : Quiet (AllocatePlayers pid (t :: ts)).
Proof.
  intros m. unfold AllocatePlayers. destruct (_dediSessions m !! pid) as [s|]; [|done].
  destruct (_ && _); [|done].
  refine (quiet (Quiet:=quiet_bind _ _ _ _) m); [by apply quiet_exmod|]. intros []. unfold MakeM2DMakeRoomForThisGroup.
  apply quiet_bind; [apply _|]. intros pkt. apply quiet_bind; [by apply quiet_exmod|]. intros [].
  apply quiet_bind; [|apply _]. apply quiet_exmod. intros m'. case_bool_decide; [apply quiet_flush|done].
Qed.
#[export] Instance quiet_find pids t ts : Quiet (find_available pids (t :: ts)).
Proof. induction pids as [|pid pids IH]; cbn [find_available]; [apply _|]. apply quiet_bind; [apply _|]. intros []; apply _. Qed.
#[export] Instance quiet_distribute t ts : Quiet (DistributePlayerGroup (t :: ts)).
Proof.
  unfold DistributePlayerGroup. apply quiet_bind; [intros m; apply (quiet_find (me_keys _ (_dediSessions m)) t ts m)|].
  intros []; [apply _|]. apply quiet_bind.
  - intros m. unfold SpawnSingleServer. by destruct (me_fork (m_forks m) <? 0).
  - intros pid. case_match; apply _.
Qed.

Lemma triple_quiet {A} (x : EX Mn A) `{!Quiet x} (P : Mn -> Prop) :
  (forall m m', m_tickets m' = m_tickets m -> _matchmakers m' = _matchmakers m -> P m -> P m') ->
  triple P x (fun _ => P).
Proof.
  intros H m Hm. pose proof (quiet m) as (H1 & H2 & H3). destruct (x m) as [[e|a] m']; cbn in *; [congruence|by eapply H].
Qed.
End main.

(** ** A concrete instance *)

#[local] Existing Instance sample_redis.
#[local] Existing Instance sample_mysql.
#[local] Instance sample_env : MainEnv := {|
  me_keys A m := map fst (map_to_list m);
  me_fork n := 100 + Z.of_nat n;
  me_json s := if String.eqb s "" then None else Some [];
  me_instance_ip := None;
  me_interfaces := Some [("lo", Some "127.0.0.1"); ("eth0", Some "10.0.0.2"); ("wlan0", Some "10.0.0.3")] |}.

Lemma sample_env_laws : MainEnvLaws sample_env.
Proof. by constructor. Qed.

(** A process that has just been started and has no connection yet. *)
Definition sample_main : Main sample_redis sample_mysql :=
  mk_main (mk_remote (∅, ∅) []) (mk_remote (mk_database [] [] true true) []) ∅ 1
    {[ 100 := new_M2DSession 100 ]} ∅ [7] [new_MatchMaker 0 20; new_MatchMaker 1 20] 0 [] 0 1 [].
