(* ===== verification/Matchmaker.v ===== *)
(** * Matchmaking

    Models src/src/Matchmaker.h and .cpp: the queue of a map, its buckets by
    aggression, the search for groups, the handshake with Redis and the hand-over to
    a dedicated process.

    The clock does not advance within one call.  [std::stable_sort] and [std::merge]
    are the stable merge sort and the merge of stdpp, which prefer the left operand
    on equal keys, as the standard demands. *)

From S2P Require Import Prelude Stores Main.
From stdpp Require Import strings sorting.
Local Open Scope Z_scope.

(** ** The queue *)

Abbreviation Tickets := (gmap Z MatchTicket).

(** Dereferencing a pointer; the queue invariant says the pointers are live. *)
Definition dead_ticket : MatchTicket := mk_ticket "" 0 0 0 0 0 false false.
Definition at_ (h : Tickets) (p : Z) : MatchTicket := default dead_ticket (h !! p).

(** [a->startTime < b->startTime] as the order the sort and the merge keep. *)
Definition older (h : Tickets) (p q : Z) : Prop := startTime (at_ h p) <= startTime (at_ h q).
#[export] Instance older_dec h p q : Decision (older h p q).
Proof. unfold older. apply _. Defined.

Definition AddSingleMatchTicket (p : Z) (mm : MatchMaker) : MatchMaker :=
  mm <| _ticketsToAdd ::= fun l => l ++ [p] |>.

(** [_bucket[a].push_back(p)]; [None] out of range. *)
Definition push_bucket (a p : Z) (b : list (list Z)) : option (list (list Z)) :=
  if (0 <=? a) && (a <? Z.of_nat (length b)) then Some (alter (fun l => l ++ [p]) (Z.to_nat a) b) else None.

Fixpoint push_all (h : Tickets) (l : list Z) (b : list (list Z)) : option (list (list Z)) :=
  match l with [] => Some b | p :: l' => b' ← push_bucket (aggression (at_ h p)) p b; push_all h l' b' end.

Definition AddNewMatchTickets (h : Tickets) (mm : MatchMaker) : option MatchMaker :=
  match _ticketsToAdd mm with
  | [] => Some mm
  | _ =>
      let add := merge_sort (older h) (_ticketsToAdd mm) in
      b ← push_all h add (_bucket mm);
      Some (mm <| _bucket := b |>
               <| _timeSortedTicketVector := list_merge (older h) (_timeSortedTicketVector mm) add |>
               <| _ticketsToAdd := [] |>)
  end.

(** ** Groups *)

(** [allowedDiff] and [targetMinPlayers] for a waiting time. *)
Definition match_rule (waitTime : Z) : Z * Z :=
  if 60 <=? waitTime then (1, 1)
  else if 40 <=? waitTime then (1, 2)
  else if 20 <=? waitTime then (0, 3)
  else (0, 4).

(** The loop over the candidates of one bucket. *)
Fixpoint fill (skip : Z -> bool) (l matchedGroup : list Z) : list Z :=
  match l with
  | [] => matchedGroup
  | c :: l' =>
      if (length matchedGroup =? 4)%nat then matchedGroup
      else if skip c then fill skip l' matchedGroup
      else fill skip l' (matchedGroup ++ [c])
  end.

Definition bucket (mm : MatchMaker) (a : Z) : list Z := nth (Z.to_nat a) (_bucket mm) [].
Definition matched (h : Tickets) (p : Z) : bool := isMatched (at_ h p).

Definition search_step (h : Tickets) (mm : MatchMaker) (pivot searchMin searchMax searchRange : Z)
    (g : list Z) : list Z :=
  let pivotAggr := aggression (at_ h pivot) in
  if searchRange =? 0 then fill (fun c => (c =? pivot) || matched h c) (bucket mm pivotAggr) g
  else
    let uaggr := pivotAggr + searchRange in
    let daggr := pivotAggr - searchRange in
    let g1 := if (length g <? 4)%nat && (uaggr <=? searchMax) then fill (matched h) (bucket mm uaggr) g else g in
    if (length g1 <? 4)%nat && (searchMin <=? daggr) then fill (matched h) (bucket mm daggr) g1 else g1.

(** [while (searchRange <= allowedDiff)], [n] iterations from [searchRange] on. *)
Fixpoint search_loop (n : nat) (h : Tickets) (mm : MatchMaker) (pivot searchMin searchMax searchRange : Z)
    (g : list Z) : list Z :=
  match n with
  | O => g
  | S n' =>
      let g' := search_step h mm pivot searchMin searchMax searchRange g in
      if (length g' =? 4)%nat then g'
      else search_loop n' h mm pivot searchMin searchMax (searchRange + 1) g'
  end.

Definition build_group (now : Z) (h : Tickets) (mm : MatchMaker) (pivot : Z) : list Z :=
  let pivotAggr := aggression (at_ h pivot) in
  let allowedDiff := fst (match_rule (GetWaitTimeSeconds now (at_ h pivot))) in
  search_loop (Z.to_nat (allowedDiff + 1)) h mm pivot
    (Z.max 0 (pivotAggr - allowedDiff)) (Z.min (_maxAgression mm) (pivotAggr + allowedDiff)) 0 [pivot].

Definition targetMinPlayers (now : Z) (h : Tickets) (pivot : Z) : Z :=
  snd (match_rule (GetWaitTimeSeconds now (at_ h pivot))).

Definition set_matched (b : bool) (p : Z) (h : Tickets) : Tickets := alter (fun t => t <| isMatched := b |>) p h.
Definition set_invalid (p : Z) (h : Tickets) : Tickets := alter (fun t => t <| isValid := false |>) p h.
Definition mark_all (b : bool) (g : list Z) (h : Tickets) : Tickets := foldr (set_matched b) h g.

(** What the loop over the pivots carries: the tickets, the flags, the groups. *)
Record Search := mk_search { se_tickets : Tickets; se_flags : list bool; se_groups : list (list Z) }.

Definition pivot_step (now : Z) (mm : MatchMaker) (s : Search) (pivot : Z) : Search :=
  let h := se_tickets s in
  let a := Z.to_nat (aggression (at_ h pivot)) in
  if matched h pivot then s
  else if nth a (se_flags s) false then s
  else
    let g := build_group now h mm pivot in
    if targetMinPlayers now h pivot <=? Z.of_nat (length g)
    then mk_search (mark_all true g h) (se_flags s) (se_groups s ++ [g])
    else mk_search h (<[ a := true ]> (se_flags s)) (se_groups s).

Definition FindMatchGroup (now : Z) (h : Tickets) (mm : MatchMaker) : MatchMaker * Tickets :=
  let s := foldl (pivot_step now mm)
             (mk_search h (map (fun _ => false) (_pivotMemorizationFlags mm)) [])
             (_timeSortedTicketVector mm) in
  (mm <| _matchedGroups := se_groups s |> <| _pivotMemorizationFlags := se_flags s |>, se_tickets s).

(** ** The round *)

Section round.
Context {R : Redis} {M : Mysql} {E : MainEnv}.

Definition upd_mm (i : nat) (f : MatchMaker -> MatchMaker) : EX (Main R M) unit :=
  exmod (fun m => m <| _matchmakers ::= alter f i |>).
Definition upd_tickets (f : Tickets -> Tickets) : EX (Main R M) unit := exmod (fun m => m <| m_tickets ::= f |>).

(** The Lua script: all or none. *)
Definition verify_script (keys : list string) : r_state -> Z * r_state := fun s =>
  if forallb (fun k => bool_decide (r_hget k "status" s = Some "WAITING")) keys
  then (1, foldl (fun s k => r_hset k "status" "INPROGRESS" s) s keys)
  else (0, s).

Definition VerifyAndSetMatchStatus (keys : list string) : EX (Main R M) bool :=
  match keys with
  | [] => mret false
  | _ => catch_redis (result ← redis (verify_script keys); mret (result =? 1)) (mret false)
  end.

(** The group goes back to the queue. *)
Definition requeue (g : list Z) : EX (Main R M) unit :=
  _ ← upd_tickets (mark_all false g);
  h ← exget m_tickets;
  redis (fun s => (tt, foldl (fun s p => r_hset (ticketId (at_ h p)) "status" "WAITING" s) s g)).

(** One of them has cancelled: who is still waiting stays. *)
Definition recheck (p : Z) : EX (Main R M) unit :=
  h ← exget m_tickets;
  statusOpt ← redis_hget (ticketId (at_ h p)) "status";
  if bool_decide (statusOpt = Some "WAITING") then upd_tickets (set_matched false p) else upd_tickets (set_invalid p).

Definition start_group (g : list Z) : EX (Main R M) unit :=
  h ← exget m_tickets;
  isMatchValid ← VerifyAndSetMatchStatus (map (fun p => ticketId (at_ h p)) g);
  if (isMatchValid : bool) then
    ok ← DistributePlayerGroup (map (at_ h) g);
    if (ok : bool) then mret tt else requeue g
  else ex_for g recheck.

Definition StartMatchMakeInternal (i : nat) : EX (Main R M) unit :=
  mm ← exget (fun m => _matchmakers m !! i);
  ex_for (from_option _matchedGroups [] mm) start_group.

Definition shouldRemove (h : Tickets) (p : Z) : bool := isMatched (at_ h p) || negb (isValid (at_ h p)).

(** Sorting the tickets out of the vectors; the pointers to release and to delete. *)
Definition sort_out (h : Tickets) (mm : MatchMaker) : MatchMaker :=
  let q := _timeSortedTicketVector mm in
  mm <| _ticketsToRelease ::= fun l => l ++ List.filter (fun p => isMatched (at_ h p)) q |>
     <| _ticketsToDelete ::= fun l => l ++ List.filter (fun p => negb (isMatched (at_ h p)) && negb (isValid (at_ h p))) q |>
     <| _timeSortedTicketVector ::= List.filter (fun p => negb (shouldRemove h p)) |>
     <| _bucket ::= map (List.filter (fun p => negb (shouldRemove h p))) |>.

Definition release_all (l : list Z) (h : Tickets) : Tickets := foldr delete h l.

Definition ReleaseAndDeleteTickets (i : nat) : EX (Main R M) unit :=
  _ ← exmod (fun m => m <| _matchmakers ::= alter (sort_out (m_tickets m)) i |>);
  mm ← exget (fun m => _matchmakers m !! i);
  let mm := default (new_MatchMaker 0 0) mm in
  _ ← upd_tickets (release_all (_ticketsToRelease mm));
  _ ← upd_mm i (fun mm => mm <| _ticketsToRelease := [] |>);
  match _ticketsToDelete mm with
  | [] => mret tt
  | toDelete =>
      h ← exget m_tickets;
      let keysToDelete := map (fun p => ticketId (at_ h p)) toDelete in
      _ ← upd_tickets (release_all toDelete);
      _ ← catch_redis (redis_del keysToDelete) (mret tt);
      upd_mm i (fun mm => mm <| _ticketsToDelete := [] |>)
  end.

Definition StartMatchMake (i : nat) : EX (Main R M) unit :=
  _ ← (fun m => match _matchmakers m !! i with
                | None => (inr tt, m)
                | Some mm => match AddNewMatchTickets (m_tickets m) mm with
                             | None => (inl Undefined, m)
                             | Some mm' => (inr tt, m <| _matchmakers ::= <[ i := mm' ]> |>)
                             end
                end);
  _ ← exmod (fun m => match _matchmakers m !! i with
                      | None => m
                      | Some mm => let '(mm', h') := FindMatchGroup (m_now m) (m_tickets m) mm in
                                   m <| _matchmakers ::= <[ i := mm' ]> |> <| m_tickets := h' |>
                      end);
  _ ← StartMatchMakeInternal i;
  ReleaseAndDeleteTickets i.

(** ** The manager's side *)

Definition AddSingleMatchTicket_main (p : Z) (m : Main R M) : bool * Main R M :=
  let mid := mapId (at_ (m_tickets m) p) in
  if (0 <=? mid) && (mid <? MAP_MAX)
  then (true, m <| _matchmakers ::= alter (AddSingleMatchTicket p) (Z.to_nat mid) |>)
  else (false, m).

Definition MATCH_INTERVAL_MS : Z := 4000.
Definition MatchMake : EX (Main R M) unit := fun m =>
  let elapsedMs := Z.quot (m_now m - _lastTimeMatchStarted m) 1000000 in
  if MATCH_INTERVAL_MS <=? elapsedMs then
    ex_for (seq 0 (length (_matchmakers m))) StartMatchMake (m <| _lastTimeMatchStarted := m_now m |>)
  else (inr tt, m).
End round.

(** ** The search without the memory of failed pivots *)

Definition pivot_ref (now : Z) (mm : MatchMaker) (s : Tickets * list (list Z)) (pivot : Z)
    : Tickets * list (list Z) :=
  let '(h, gs) := s in
  if matched h pivot then s
  else
    let g := build_group now h mm pivot in
    if targetMinPlayers now h pivot <=? Z.of_nat (length g) then (mark_all true g h, gs ++ [g]) else s.

(** ** Lemmas on groups *)

Lemma take_take_app {A} n (l k : list A) : take n (take n l ++ k) = take n (l ++ k).
Proof.
  revert l. induction n as [|n IH]; intros l; [done|]. destruct l as [|x l]; [done|]. cbn. by rewrite IH.
Qed.

Lemma fill_spec skip l g : (length g <= 4)%nat ->
  fill skip l g = take 4 (g ++ List.filter (fun c => negb (skip c)) l).
Proof.
  revert g. induction l as [|c l IH]; intros g Hg; cbn [fill List.filter].
  - rewrite app_nil_r. by rewrite take_ge by lia.
  - destruct (Nat.eqb_spec (length g) 4) as [H4|H4].
    + by rewrite take_app_le, take_ge by lia.
    + destruct (skip c); cbn [negb]; [by apply IH|].
      rewrite IH by (rewrite length_app; cbn; lia). by rewrite <- app_assoc.
Qed.

Lemma fill_if (b : bool) skip l g : (length g <= 4)%nat ->
  (if (length g <? 4)%nat && b then fill skip l g else g) =
  take 4 (g ++ if b then List.filter (fun c => negb (skip c)) l else []).
Proof.
  intros Hg. destruct b; [|rewrite andb_false_r, app_nil_r; by rewrite take_ge by lia].
  rewrite andb_true_r. destruct (Nat.ltb_spec (length g) 4) as [H|H]; [by apply fill_spec|].
  by rewrite take_app_le, take_ge by lia.
Qed.

(** The unmatched tickets of a bucket. *)
Definition near (h : Tickets) (mm : MatchMaker) (a : Z) : list Z :=
  List.filter (fun c => negb (matched h c)) (bucket mm a).
Definition own_bucket (h : Tickets) (mm : MatchMaker) (pivot : Z) : list Z :=
  List.filter (fun c => negb ((c =? pivot) || matched h c)) (bucket mm (aggression (at_ h pivot))).
Definition neighbours (h : Tickets) (mm : MatchMaker) (a : Z) : list Z :=
  (if a + 1 <=? _maxAgression mm then near h mm (a + 1) else []) ++ (if 0 <=? a - 1 then near h mm (a - 1) else []).
Definition candidates (diff : Z) (h : Tickets) (mm : MatchMaker) (pivot : Z) : list Z :=
  own_bucket h mm pivot ++ if diff =? 0 then [] else neighbours h mm (aggression (at_ h pivot)).

Lemma match_rule_diff w : fst (match_rule w) = 0 \/ fst (match_rule w) = 1.
Proof. unfold match_rule. repeat case_match; cbn; auto. Qed.
Lemma match_rule_target w : 1 <= snd (match_rule w) <= 4.
Proof. unfold match_rule. repeat case_match; cbn; lia. Qed.
Lemma match_rule_mono w w' : w' <= w ->
  fst (match_rule w') <= fst (match_rule w) /\ snd (match_rule w) <= snd (match_rule w').
Proof.
  intros H. unfold match_rule.
  destruct (Z.leb_spec 60 w), (Z.leb_spec 60 w'), (Z.leb_spec 40 w), (Z.leb_spec 40 w'), (Z.leb_spec 20 w),
    (Z.leb_spec 20 w'); cbn; lia.
Qed.

(** A group is the pivot and the first three candidates: its own bucket in order of
    arrival, then the one above, then the one below. *)
Lemma build_group_eq now h mm pivot :
  let diff := fst (match_rule (GetWaitTimeSeconds now (at_ h pivot))) in
  0 <= aggression (at_ h pivot) <= _maxAgression mm ->
  build_group now h mm pivot = take 4 (pivot :: candidates diff h mm pivot).
Proof.
  intros diff Ha. unfold build_group. fold diff. unfold candidates.
  assert (H0 : forall lo hi, search_step h mm pivot lo hi 0 [pivot] = take 4 (pivot :: own_bucket h mm pivot)).
  { intros lo hi. unfold search_step. cbn [Z.eqb]. by rewrite fill_spec by (cbn; lia). }
  destruct (match_rule_diff (GetWaitTimeSeconds now (at_ h pivot))) as [Hd|Hd]; fold diff in Hd; rewrite Hd.
  - change (Z.to_nat (0 + 1)) with 1%nat. cbn [search_loop]. rewrite H0. cbn [Z.eqb]. rewrite app_nil_r.
    by case_match.
  - change (Z.to_nat (1 + 1)) with 2%nat. cbn [search_loop]. rewrite H0. cbn [Z.eqb].
    set (g := take 4 (pivot :: own_bucket h mm pivot)).
    assert (Hg : (length g <= 4)%nat) by (unfold g; rewrite length_take; lia).
    destruct (Nat.eqb_spec (length g) 4) as [H4|H4].
    + rewrite app_comm_cons. rewrite <- take_take_app. fold g. by rewrite take_app_le, take_ge by lia.
    + unfold search_step. change (0 + 1 =? 0) with false. cbn match.
      change (0 + 1) with 1.
      replace (aggression (at_ h pivot) + 1 <=? Z.min (_maxAgression mm) (aggression (at_ h pivot) + 1))
        with (aggression (at_ h pivot) + 1 <=? _maxAgression mm)
        by (destruct (Z.leb_spec (aggression (at_ h pivot) + 1) (_maxAgression mm)); symmetry; [apply Z.leb_le|apply Z.leb_gt]; lia).
      replace (Z.max 0 (aggression (at_ h pivot) - 1) <=? aggression (at_ h pivot) - 1)
        with (0 <=? aggression (at_ h pivot) - 1)
        by (destruct (Z.leb_spec 0 (aggression (at_ h pivot) - 1)); symmetry; [apply Z.leb_le|apply Z.leb_gt]; lia).
      rewrite (fill_if _ _ _ g) by done. rewrite fill_if by (rewrite length_take; lia).
      rewrite take_take_app. unfold g. rewrite <- !app_assoc. rewrite take_take_app. unfold neighbours, near.
      by case_match.
Qed.

(** *** Tickets, up to their two flags *)

Definition core (t : MatchTicket) := (ticketId t, uId t, aggression t, mapId t, characterType t, startTime t).
Record same_cores (h h' : Tickets) : Prop := {
  sc_dom : forall p, is_Some (h' !! p) <-> is_Some (h !! p);
  sc_core : forall p, core (at_ h' p) = core (at_ h p) }.
#[export] Instance same_cores_preorder : PreOrder same_cores.
Proof.
  split; [by constructor|]. intros h1 h2 h3 [H1 H2] [H3 H4].
  constructor; intros p; [by rewrite H3, H1|by rewrite H4, H2].
Qed.
Lemma same_aggression h h' p : same_cores h h' -> aggression (at_ h' p) = aggression (at_ h p).
Proof. intros [_ H]. specialize (H p). unfold core in H. congruence. Qed.
Lemma same_start h h' p : same_cores h h' -> startTime (at_ h' p) = startTime (at_ h p).
Proof. intros [_ H]. specialize (H p). unfold core in H. congruence. Qed.

Lemma at_alter f p q (h : Tickets) :
  at_ (alter f p h) q = if decide (q = p /\ is_Some (h !! p)) then f (at_ h q) else at_ h q.
Proof.
  unfold at_. case_decide as H.
  - destruct H as [-> [t Ht]]. by rewrite lookup_alter_eq, Ht.
  - destruct (decide (q = p)) as [->|Hne]; [|by rewrite lookup_alter_ne by done].
    rewrite lookup_alter_eq. destruct (h !! p) eqn:E; [|done]. exfalso. apply H. by split.
Qed.

Lemma alter_cores f p (h : Tickets) : (forall t, core (f t) = core t) -> same_cores h (alter f p h).
Proof.
  intros Hf. constructor; intros q.
  - by rewrite lookup_alter_is_Some.
  - rewrite at_alter. case_decide; [apply Hf|done].
Qed.

Lemma mark_all_cores b g h : same_cores h (mark_all b g h).
Proof.
  induction g as [|p g IH]; [reflexivity|]. cbn. etrans; [exact IH|]. by apply alter_cores.
Qed.

Lemma matched_mark_all b g h q : is_Some (h !! q) ->
  matched (mark_all b g h) q = if bool_decide (q ∈ g) then b else matched h q.
Proof.
  intros Hq. induction g as [|p g IH]; [done|]. cbn [mark_all foldr]. fold (mark_all b g h).
  unfold matched, set_matched. rewrite at_alter.
  destruct (sc_dom _ _ (mark_all_cores b g h) p) as [_ Hd].
  destruct (decide (q = p)) as [->|Hne].
  - rewrite decide_True by (split; [done|by apply Hd]). rewrite bool_decide_eq_true_2 by (by left). done.
  - rewrite decide_False by (by intros []). unfold matched in IH. rewrite IH.
    f_equal. by rewrite (bool_decide_ext (q ∈ p :: g) (q ∈ g)) by set_solver.
Qed.

Lemma valid_mark_all b g h q : isValid (at_ (mark_all b g h) q) = isValid (at_ h q).
Proof. induction g as [|p g IH]; [done|]. cbn. unfold set_matched. rewrite at_alter. by case_decide. Qed.
Lemma mark_all_others b g h q : q ∉ g -> mark_all b g h !! q = h !! q.
Proof.
  induction g as [|p g IH]; [done|]. intros [Hne Hg]%not_elem_of_cons. cbn. unfold set_matched.
  rewrite lookup_alter_ne by done. by apply IH.
Qed.

(** ** The queue invariant *)

Record queue_ok (h : Tickets) (mm : MatchMaker) : Prop := {
  q_max : 0 <= _maxAgression mm;
  q_buckets : length (_bucket mm) = Z.to_nat (_maxAgression mm + 1);
  q_flags : length (_pivotMemorizationFlags mm) = Z.to_nat (_maxAgression mm + 1);
  q_nodup : NoDup (_timeSortedTicketVector mm);
  q_live : forall p, p ∈ _timeSortedTicketVector mm -> is_Some (h !! p);
  q_range : forall p, p ∈ _timeSortedTicketVector mm -> 0 <= aggression (at_ h p) <= _maxAgression mm;
  q_bucket : forall a, 0 <= a <= _maxAgression mm -> NoDup (bucket mm a) /\
    forall p, p ∈ bucket mm a <-> p ∈ _timeSortedTicketVector mm /\ aggression (at_ h p) = a;
  q_sorted : StronglySorted (older h) (_timeSortedTicketVector mm) }.

(** Nobody has waited longer than an [int] of seconds can say. *)
Definition times_ok (now : Z) (h : Tickets) (mm : MatchMaker) : Prop :=
  forall p, p ∈ _timeSortedTicketVector mm -> 0 <= now - startTime (at_ h p) < 2 ^ 31 * 1000000000.

Lemma StronglySorted_weaken {A} (P Q : A -> A -> Prop) l :
  (forall x y, P x y -> Q x y) -> StronglySorted P l -> StronglySorted Q l.
Proof. intros H. induction 1; constructor; eauto using Forall_impl. Qed.

Lemma queue_ok_cores h h' mm : same_cores h h' -> queue_ok h mm -> queue_ok h' mm.
Proof.
  intros Hc [H1 H2 H3 H4 H5 H6 H7 H8]. constructor; try done.
  - intros p Hp. by apply (sc_dom _ _ Hc), H5.
  - intros p Hp. rewrite (same_aggression _ _ p Hc). by apply H6.
  - intros a Ha. destruct (H7 a Ha) as [Hn Hb]. split; [done|]. intros p. by rewrite (same_aggression _ _ p Hc).
  - refine (StronglySorted_weaken _ _ _ _ H8). intros p q. unfold older. by rewrite !(same_start _ _ _ Hc).
Qed.

Lemma filter_length_mono {A} (f g : A -> bool) l : (forall x, f x = true -> g x = true) ->
  (length (List.filter f l) <= length (List.filter g l))%nat.
Proof.
  intros H. induction l as [|x l IH]; [done|]. cbn. destruct (f x) eqn:Hf; [rewrite (H x Hf); cbn; lia|].
  destruct (g x); cbn; lia.
Qed.

Lemma filter_remove (f : Z -> bool) p l : NoDup l -> p ∈ l -> f p = true ->
  S (length (List.filter (fun c => negb (c =? p) && f c) l)) = length (List.filter f l).
Proof.
  induction 1 as [|x l Hx Hn IH]; [by intros []%elem_of_nil|]. intros Hp Hf. cbn.
  destruct (Z.eqb_spec x p) as [->|Hne]; cbn.
  - rewrite Hf. cbn. do 2 f_equal. apply List.filter_ext_in. intros y Hy.
    destruct (Z.eqb_spec y p) as [->|]; [|done]. by apply list_elem_of_In in Hy.
  - apply elem_of_cons in Hp as [->|Hp]; [done|]. destruct (f x); cbn; by rewrite IH.
Qed.

Lemma elem_of_filter_bool {A} (f : A -> bool) l x : x ∈ List.filter f l <-> f x = true /\ x ∈ l.
Proof. rewrite !list_elem_of_In, List.filter_In. tauto. Qed.

Section search.
Context (mm : MatchMaker) (now : Z).
Local Abbreviation queue := (_timeSortedTicketVector mm).
Local Abbreviation wait h p := (GetWaitTimeSeconds now (at_ h p)).
Local Abbreviation diff h p := (fst (match_rule (wait h p))).
Local Abbreviation target h p := (targetMinPlayers now h p).

(** The size of the group a pivot of aggression [a] could get. *)
Definition pool (d : Z) (h : Tickets) (a : Z) : Z :=
  Z.of_nat (length (near h mm a)) + if d =? 0 then 0 else Z.of_nat (length (neighbours h mm a)).

Lemma pivot_bucket h p : queue_ok h mm -> p ∈ queue -> p ∈ bucket mm (aggression (at_ h p)).
Proof. intros Hq Hp. pose proof (q_range _ _ Hq p Hp) as Hr. by apply (q_bucket _ _ Hq _ Hr). Qed.

Lemma own_length h p : queue_ok h mm -> p ∈ queue -> matched h p = false ->
  S (length (own_bucket h mm p)) = length (near h mm (aggression (at_ h p))).
Proof.
  intros Hq Hp Hm. unfold near. rewrite <- (filter_remove _ p).
  - unfold own_bucket. do 2 f_equal. apply List.filter_ext. intros c. by rewrite negb_orb.
  - apply (q_bucket _ _ Hq), (q_range _ _ Hq p Hp).
  - by apply pivot_bucket.
  - by rewrite Hm.
Qed.

Lemma group_length h p : queue_ok h mm -> p ∈ queue -> matched h p = false ->
  Z.of_nat (length (build_group now h mm p)) = Z.min 4 (pool (diff h p) h (aggression (at_ h p))).
Proof.
  intros Hq Hp Hm. rewrite build_group_eq by (by apply (q_range _ _ Hq)). rewrite length_take. cbn [length].
  unfold candidates, pool. rewrite length_app. pose proof (own_length h p Hq Hp Hm).
  destruct (diff h p =? 0); cbn [length]; lia.
Qed.

(** More tickets matched: no group gets larger. *)
Definition matched_more (h h' : Tickets) : Prop :=
  same_cores h h' /\ forall p, matched h p = true -> matched h' p = true.
#[local] Instance matched_more_preorder : PreOrder matched_more.
Proof. split; [by split|]. intros h1 h2 h3 [H1 H2] [H3 H4]. split; [by etrans|auto]. Qed.

Lemma near_mono h h' a : matched_more h h' -> (length (near h' mm a) <= length (near h mm a))%nat.
Proof.
  intros [_ H]. apply filter_length_mono. intros c. specialize (H c).
  destruct (matched h c); [by rewrite H|done].
Qed.

Lemma pool_mono d d' h h' a : matched_more h h' -> 0 <= d' <= d -> pool d' h' a <= pool d h a.
Proof.
  intros H Hd. unfold pool. pose proof (near_mono h h' a H).
  assert (length (neighbours h' mm a) <= length (neighbours h mm a))%nat.
  { unfold neighbours. rewrite !length_app. pose proof (near_mono h h' (a + 1) H). pose proof (near_mono h h' (a - 1) H).
    repeat case_match; cbn [length]; lia. }
  destruct (Z.eqb_spec d' 0), (Z.eqb_spec d 0); lia.
Qed.

Lemma wait_mono h p q : times_ok now h mm -> p ∈ queue -> q ∈ queue -> older h p q -> wait h q <= wait h p.
Proof.
  intros Ht Hp Hq Ho. unfold GetWaitTimeSeconds. unfold older in Ho.
  pose proof (Ht p Hp). pose proof (Ht q Hq).
  assert (Hb : forall x, 0 <= x < 2 ^ 31 * 1000000000 -> is_i32 (Z.quot x 1000000000)).
  { intros x Hx. rewrite Z.quot_div_nonneg by lia. unfold is_i32. split; [|apply Z.div_lt_upper_bound; lia].
    pose proof (Z.div_pos x 1000000000). lia. }
  rewrite !i32_id by (apply Hb; done). apply Z.quot_le_mono; lia.
Qed.

(** A pivot's group is too small, and stays so for every younger one of its bucket. *)
Definition too_small (h : Tickets) (p : Z) : Prop :=
  matched h p = false -> Z.of_nat (length (build_group now h mm p)) < target h p.

Lemma too_small_later h h' p q :
  queue_ok h mm -> times_ok now h mm -> matched_more h h' -> p ∈ queue -> q ∈ queue ->
  older h p q -> aggression (at_ h q) = aggression (at_ h p) ->
  matched h p = false -> too_small h p -> too_small h' q.
Proof.
  intros Hq Ht Hm Hp Hqq Ho Ha Hpm Hs Hqm. specialize (Hs Hpm). destruct Hm as [Hc Hm].
  assert (Hqm0 : matched h q = false) by (destruct (matched h q) eqn:E; [specialize (Hm q E); congruence|done]).
  rewrite group_length in Hs by done. rewrite group_length by (try done; by eapply queue_ok_cores).
  assert (Hw : wait h' q = wait h q) by (unfold GetWaitTimeSeconds; by rewrite (same_start _ _ q Hc)).
  unfold targetMinPlayers in *. rewrite Hw, (same_aggression _ _ q Hc), Ha.
  destruct (match_rule_mono _ _ (wait_mono h p q Ht Hp Hqq Ho)) as [Hd Htg].
  pose proof (match_rule_diff (wait h q)).
  pose proof (pool_mono (diff h p) (diff h q) h h' (aggression (at_ h p)) (conj Hc Hm) ltac:(lia)). lia.
Qed.

(** *** What a group is made of *)

Lemma elem_near h a q : queue_ok h mm -> 0 <= a <= _maxAgression mm ->
  q ∈ near h mm a <-> q ∈ queue /\ aggression (at_ h q) = a /\ matched h q = false.
Proof.
  intros Hq Ha. unfold near. rewrite elem_of_filter_bool, negb_true_iff.
  destruct (q_bucket _ _ Hq a Ha) as [_ H]. rewrite H. tauto.
Qed.

Lemma elem_neighbours h a q : queue_ok h mm -> 0 <= a <= _maxAgression mm ->
  q ∈ neighbours h mm a -> q ∈ queue /\ matched h q = false /\ Z.abs (aggression (at_ h q) - a) = 1.
Proof.
  intros Hq Ha. unfold neighbours. rewrite elem_of_app. intros [H|H].
  - destruct (Z.leb_spec (a + 1) (_maxAgression mm)); [|by apply elem_of_nil in H].
    apply elem_near in H; [|done|lia]. split_and!; [tauto|tauto|lia].
  - destruct (Z.leb_spec 0 (a - 1)); [|by apply elem_of_nil in H].
    apply elem_near in H; [|done|lia]. split_and!; [tauto|tauto|lia].
Qed.

Lemma elem_own h p q : queue_ok h mm -> p ∈ queue -> q ∈ own_bucket h mm p ->
  q <> p /\ q ∈ queue /\ matched h q = false /\ aggression (at_ h q) = aggression (at_ h p).
Proof.
  intros Hq Hp. unfold own_bucket. rewrite elem_of_filter_bool, negb_true_iff, orb_false_iff, Z.eqb_neq.
  destruct (q_bucket _ _ Hq _ (q_range _ _ Hq p Hp)) as [_ H]. rewrite H. tauto.
Qed.

Lemma filter_NoDup (f : Z -> bool) l : NoDup l -> NoDup (List.filter f l).
Proof. rewrite !NoDup_ListNoDup. apply List.NoDup_filter. Qed.

Lemma candidates_NoDup h p d : queue_ok h mm -> p ∈ queue -> NoDup (p :: candidates d h mm p).
Proof.
  intros Hq Hp. pose proof (q_range _ _ Hq p Hp) as Ha. set (a := aggression (at_ h p)) in *.
  assert (Hn : NoDup (neighbours h mm a)).
  { unfold neighbours. apply NoDup_app. split_and!.
    - case_match eqn:E; [|constructor]. apply Z.leb_le in E. apply filter_NoDup, (q_bucket _ _ Hq). lia.
    - intros q H1 H2. destruct (a + 1 <=? _) eqn:E1; [|by apply elem_of_nil in H1].
      destruct (0 <=? a - 1) eqn:E2; [|by apply elem_of_nil in H2].
      apply Z.leb_le in E1, E2. apply elem_near in H1; [|done|lia]. apply elem_near in H2; [|done|lia]. lia.
    - case_match eqn:E; [|constructor]. apply Z.leb_le in E. apply filter_NoDup, (q_bucket _ _ Hq). lia. }
  unfold candidates. fold a. apply NoDup_cons. split.
  - rewrite elem_of_app. intros [H|H]; [by apply elem_own in H as (? & _)|].
    destruct (d =? 0); [by apply elem_of_nil in H|]. apply elem_neighbours in H; [|done|done]. fold a in H. lia.
  - apply NoDup_app. split_and!.
    + apply filter_NoDup, (q_bucket _ _ Hq). done.
    + intros q H1 H2. apply elem_own in H1; [|done|done]. destruct (d =? 0); [by apply elem_of_nil in H2|].
      apply elem_neighbours in H2; [|done|done]. fold a in H1. lia.
    + destruct (d =? 0); [constructor|done].
Qed.

Lemma take_NoDup {A} n (l : list A) : NoDup l -> NoDup (take n l).
Proof. intros H. rewrite <- (take_drop n l) in H. by apply NoDup_app in H as [H _]. Qed.

(** A group around its pivot. *)
Record group_of (h : Tickets) (p : Z) (g : list Z) : Prop := {
  go_head : head g = Some p;
  go_size : (length g <= 4)%nat;
  go_nodup : NoDup g;
  go_members : forall q, q ∈ g -> q ∈ queue /\ matched h q = false;
  go_near : forall q, q ∈ g -> Z.abs (aggression (at_ h q) - aggression (at_ h p)) <= diff h p }.

Lemma build_group_of h p : queue_ok h mm -> p ∈ queue -> matched h p = false -> group_of h p (build_group now h mm p).
Proof.
  intros Hq Hp Hm. pose proof (q_range _ _ Hq p Hp) as Ha. rewrite build_group_eq by done.
  assert (Hin : forall q, q ∈ p :: candidates (diff h p) h mm p ->
    (q ∈ queue /\ matched h q = false) /\ Z.abs (aggression (at_ h q) - aggression (at_ h p)) <= diff h p).
  { intros q. pose proof (match_rule_diff (wait h p)) as Hd. rewrite elem_of_cons. unfold candidates. rewrite elem_of_app.
    intros [->|[H|H]]; [split; [done|lia]| |].
    - apply elem_own in H as (_ & H1 & H2 & H3); [|done|done]. split; [done|lia].
    - destruct (Z.eqb_spec (diff h p) 0); [by apply elem_of_nil in H|].
      apply elem_neighbours in H as (H1 & H2 & H3); [|done|done]. split; [done|lia]. }
  constructor.
  - done.
  - rewrite length_take. lia.
  - by apply take_NoDup, candidates_NoDup.
  - intros q H%(subseteq_take _ _). by apply Hin.
  - intros q H%(subseteq_take _ _). by apply Hin.
Qed.

(** *** The search as a whole *)

(** The groups [gs] found from [h], and the tickets [h'] after. *)
Record found (h : Tickets) (gs : list (list Z)) (h' : Tickets) : Prop := {
  fo_more : matched_more h h';
  fo_disjoint : NoDup (concat gs);
  fo_groups : forall g, g ∈ gs -> exists p, group_of h p g /\ target h p <= Z.of_nat (length g);
  fo_matched : forall q, q ∈ queue -> matched h' q = matched h q || bool_decide (q ∈ concat gs);
  fo_valid : forall q, isValid (at_ h' q) = isValid (at_ h q);
  fo_others : forall q, q ∉ concat gs -> h' !! q = h !! q }.

Lemma found_nil h : found h [] h.
Proof.
  constructor; [reflexivity|constructor|by intros g H%elem_of_nil| |done|done].
  intros q _. by rewrite orb_false_r.
Qed.

Lemma group_of_earlier h h' p g : matched_more h h' -> group_of h' p g -> group_of h p g.
Proof.
  intros [Hc Hm] [H1 H2 H3 H4 H5]. constructor; try done.
  - intros q Hq. destruct (H4 q Hq) as [H6 H7]. split; [done|].
    destruct (matched h q) eqn:E; [|done]. by rewrite (Hm q E) in H7.
  - intros q Hq. specialize (H5 q Hq). rewrite !(same_aggression _ _ _ Hc) in H5.
    unfold GetWaitTimeSeconds in H5. by rewrite (same_start _ _ p Hc) in H5.
Qed.

Lemma concat_snoc {A} (gs : list (list A)) g : concat (gs ++ [g]) = concat gs ++ g.
Proof. rewrite concat_app. cbn. by rewrite app_nil_r. Qed.

Lemma found_step h gs h' p : queue_ok h mm -> p ∈ queue -> found h gs h' ->
  let '(h2, gs2) := pivot_ref now mm (h', gs) p in
  found h gs2 h2 /\ matched_more h' h2 /\ (target h p = 1 -> matched h2 p = true).
Proof.
  intros Hq Hp [F1 F2 F3 F4 F5 F6]. pose proof (queue_ok_cores _ _ _ (proj1 F1) Hq) as Hq'. unfold pivot_ref.
  assert (Ht : target h' p = target h p) by (unfold targetMinPlayers, GetWaitTimeSeconds; by rewrite (same_start _ _ p (proj1 F1))).
  destruct (matched h' p) eqn:Hm; [by split_and!|].
  pose proof (build_group_of h' p Hq' Hp Hm) as Hg. set (g := build_group now h' mm p) in *.
  assert (Hpg : p ∈ g) by (destruct Hg as [Hh _ _ _ _]; destruct g; [done|]; injection Hh as ->; by left).
  destruct (Z.leb_spec (target h' p) (Z.of_nat (length g))) as [Hle|Hgt].
  - assert (Hmm : forall q, q ∈ queue -> matched (mark_all true g h') q = bool_decide (q ∈ g) || matched h' q).
    { intros q Hqq. rewrite matched_mark_all by (by apply (q_live _ _ Hq')). by case_bool_decide. }
    assert (Hmore : matched_more h' (mark_all true g h')).
    { split; [apply mark_all_cores|]. intros q Hqm. destruct (decide (is_Some (h' !! q))) as [Hl|Hl].
      - rewrite matched_mark_all by done. by case_bool_decide.
      - unfold matched, at_ in Hqm. destruct (h' !! q); [|done]. by exfalso; apply Hl. }
    split_and!; [|done|intros _; by rewrite Hmm, bool_decide_eq_true_2 by done]. constructor.
    + etrans; [exact F1|exact Hmore].
    + rewrite concat_snoc. apply NoDup_app. split_and!; [done| |by apply Hg].
      intros q H1 H2. destruct (go_members _ _ _ Hg q H2) as [Hqq Hqm].
      rewrite F4, bool_decide_eq_true_2, orb_true_r in Hqm by done. done.
    + intros g0. rewrite elem_of_app, list_elem_of_singleton. intros [H| ->]; [by apply F3|].
      exists p. split; [by eapply group_of_earlier|]. by rewrite <- Ht.
    + intros q Hqq. rewrite Hmm, F4 by done. rewrite concat_snoc.
      rewrite (bool_decide_ext (q ∈ concat gs ++ g) (q ∈ concat gs \/ q ∈ g)) by apply elem_of_app.
      rewrite bool_decide_or. by destruct (matched h q), (bool_decide (q ∈ g)), (bool_decide (q ∈ concat gs)).
    + intros q. by rewrite valid_mark_all.
    + intros q Hqg. rewrite concat_snoc, not_elem_of_app in Hqg. rewrite mark_all_others by tauto. apply F6, Hqg.
  - split_and!; [done|reflexivity|]. intros Ht1. destruct g; [by apply elem_of_nil in Hpg|]. cbn [length] in Hgt. lia.
Qed.

Lemma found_all h l gs h' : queue_ok h mm -> (forall p, p ∈ l -> p ∈ queue) -> found h gs h' ->
  let '(h2, gs2) := foldl (pivot_ref now mm) (h', gs) l in
  found h gs2 h2 /\ matched_more h' h2 /\ forall p, p ∈ l -> target h p = 1 -> matched h2 p = true.
Proof.
  intros Hq. revert gs h'. induction l as [|p l IH]; intros gs h' Hl HF; cbn [foldl].
  - split_and!; [done|reflexivity|by intros p H%elem_of_nil].
  - pose proof (found_step h gs h' p Hq (Hl p ltac:(by left)) HF) as Hs.
    destruct (pivot_ref now mm (h', gs) p) as [h1 gs1]. destruct Hs as (HF1 & Hm1 & Ht1).
    specialize (IH gs1 h1 ltac:(intros q H; apply Hl; by right) HF1).
    destruct (foldl _ _ l) as [h2 gs2]. destruct IH as (HF2 & Hm2 & Ht2). split_and!; [done|by etrans|].
    intros q [->|Hq2]%elem_of_cons Ht; [by apply (proj2 Hm2), Ht1|by apply Ht2].
Qed.
End search.
#[export] Existing Instance matched_more_preorder.

(** *** The memory of failed pivots changes nothing *)

Lemma nth_insert_flag a b (flags : list bool) : (b < length flags)%nat ->
  nth a (<[ b := true ]> flags) false = (a =? b)%nat || nth a flags false.
Proof.
  intros Hb. rewrite !nth_lookup. destruct (Nat.eqb_spec a b) as [->|Hne].
  - by rewrite list_lookup_insert_eq.
  - by rewrite list_lookup_insert_ne.
Qed.

Lemma memo_steps mm now l h0 h flags gs :
  queue_ok h0 mm -> times_ok now h0 mm -> matched_more h0 h ->
  (forall p, p ∈ l -> p ∈ _timeSortedTicketVector mm) -> StronglySorted (older h0) l ->
  length flags = length (_pivotMemorizationFlags mm) ->
  (forall p, p ∈ l -> nth (Z.to_nat (aggression (at_ h0 p))) flags false = true -> too_small mm now h p) ->
  let s := foldl (pivot_step now mm) (mk_search h flags gs) l in
  foldl (pivot_ref now mm) (h, gs) l = (se_tickets s, se_groups s).
Proof.
  intros Hq Ht. revert h flags gs. induction l as [|p l IH]; intros h flags gs Hm Hl Hs Hf Hflag; [done|].
  apply StronglySorted_cons in Hs as [Hold Hs]. cbn [foldl].
  assert (Hp : p ∈ _timeSortedTicketVector mm) by (apply Hl; by left).
  assert (Hl' : forall q, q ∈ l -> q ∈ _timeSortedTicketVector mm) by (intros q H; apply Hl; by right).
  pose proof (queue_ok_cores _ _ _ (proj1 Hm) Hq) as Hqh. pose proof (same_aggression _ _ p (proj1 Hm)) as Hap.
  assert (Hth : times_ok now h mm) by (intros q Hqq; rewrite (same_start _ _ q (proj1 Hm)); by apply Ht).
  unfold pivot_step at 2 4. unfold pivot_ref at 2. cbn [se_tickets se_flags se_groups].
  destruct (matched h p) eqn:Hpm; [apply IH; try done; intros q H; apply Hflag; by right|].
  rewrite Hap. destruct (nth (Z.to_nat (aggression (at_ h0 p))) flags false) eqn:Hfl.
  - assert (Hsm : too_small mm now h p) by (by apply Hflag; [left|]). specialize (Hsm Hpm).
    destruct (Z.leb_spec (targetMinPlayers now h p) (Z.of_nat (length (build_group now h mm p)))); [lia|].
    apply IH; try done. intros q Hqin. apply Hflag. by right.
  - destruct (Z.leb_spec (targetMinPlayers now h p) (Z.of_nat (length (build_group now h mm p)))) as [Hle|Hgt].
    + pose proof (found_step mm now h [] h p Hqh Hp (found_nil mm now h)) as Hst. unfold pivot_ref in Hst.
      rewrite Hpm, (proj2 (Z.leb_le _ _) Hle) in Hst. destruct Hst as (_ & Hmore & _).
      apply IH; try done; [by etrans|]. intros q H Hfq.
      assert (Hsm : too_small mm now h q) by (apply Hflag; [by right|done]). intros Hqm.
      destruct (matched h q) eqn:E; [rewrite (proj2 Hmore q E) in Hqm; done|].
      eapply (too_small_later mm now h _ q q); try done; [by apply Hl'|by apply Hl'|unfold older; lia].
    + apply IH; try done.
      * by rewrite length_insert.
      * intros q H Hfq. rewrite nth_insert_flag in Hfq.
        2:{ rewrite Hf, (q_flags _ _ Hq). pose proof (q_range _ _ Hq p Hp). lia. }
        apply orb_true_iff in Hfq as [Heq%Nat.eqb_eq|Hfq]; [|apply Hflag; [by right|done]].
        pose proof (q_range _ _ Hq p Hp). pose proof (q_range _ _ Hq q (Hl' q H)).
        apply (too_small_later mm now h h p q); try done; [by apply Hl'| |by rewrite !(same_aggression _ _ _ (proj1 Hm)); lia|by intros _].
        rewrite Forall_forall in Hold. unfold older. rewrite !(same_start _ _ _ (proj1 Hm)). by apply Hold.
Qed.

Lemma FindMatchGroup_ref now h mm : queue_ok h mm -> times_ok now h mm ->
  let '(mm', h') := FindMatchGroup now h mm in
  foldl (pivot_ref now mm) (h, []) (_timeSortedTicketVector mm) = (h', _matchedGroups mm') /\
  mm' = mm <| _matchedGroups := _matchedGroups mm' |> <| _pivotMemorizationFlags := _pivotMemorizationFlags mm' |> /\
  length (_pivotMemorizationFlags mm') = length (_pivotMemorizationFlags mm).
Proof.
  intros Hq Ht. unfold FindMatchGroup. split_and!.
  - apply (memo_steps mm now _ h); try done.
    + apply (q_sorted _ _ Hq).
    + by rewrite length_map.
    + intros p _ Hf. exfalso. revert Hf. generalize (Z.to_nat (aggression (at_ h p))) as n.
      induction (_pivotMemorizationFlags mm) as [|b l IH]; intros [|n]; cbn; try done. apply IH.
  - done.
  - cbn. generalize (_timeSortedTicketVector mm) as l. intros l. rewrite <- (length_map (fun _ => false) (_pivotMemorizationFlags mm)).
    generalize (map (fun _ : bool => false) (_pivotMemorizationFlags mm)) as fl. intros fl.
    set (s := mk_search h fl []). change fl with (se_flags s). generalize s. clear.
    induction l as [|p l IH]; intros s; [done|]. cbn [foldl]. rewrite IH. unfold pivot_step.
    repeat case_match; cbn; rewrite ?length_insert; done.
Qed.

(** ** Adding tickets *)

Record mm_ok (h : Tickets) (mm : MatchMaker) : Prop := {
  mo_queue : queue_ok h mm;
  mo_release : _ticketsToRelease mm = [];
  mo_delete : _ticketsToDelete mm = [];
  mo_add_nodup : NoDup (_ticketsToAdd mm);
  mo_add_live : forall p, p ∈ _ticketsToAdd mm -> is_Some (h !! p);
  mo_add_range : forall p, p ∈ _ticketsToAdd mm -> 0 <= aggression (at_ h p) <= _maxAgression mm;
  mo_add_new : forall p, p ∈ _ticketsToAdd mm -> p ∉ _timeSortedTicketVector mm;
  mo_idle : forall p, p ∈ _timeSortedTicketVector mm ++ _ticketsToAdd mm ->
    isMatched (at_ h p) = false /\ isValid (at_ h p) = true }.

Lemma push_all_spec h l b : (forall p, p ∈ l -> 0 <= aggression (at_ h p) < Z.of_nat (length b)) ->
  exists b', push_all h l b = Some b' /\ length b' = length b /\
    forall a, (a < length b)%nat ->
      nth a b' [] = nth a b [] ++ List.filter (fun p => (Z.to_nat (aggression (at_ h p)) =? a)%nat) l.
Proof.
  revert b. induction l as [|p l IH]; intros b Hl; cbn [push_all].
  - exists b. split_and!; try done. intros a _. by rewrite app_nil_r.
  - pose proof (Hl p ltac:(by left)) as Hp. unfold push_bucket.
    replace ((0 <=? aggression (at_ h p)) && (aggression (at_ h p) <? Z.of_nat (length b))) with true
      by (symmetry; apply andb_true_iff; lia).
    destruct (IH (alter (fun l0 => l0 ++ [p]) (Z.to_nat (aggression (at_ h p))) b)) as (b' & H1 & H2 & H3).
    { intros q Hq. rewrite length_alter. apply Hl. by right. }
    exists b'. cbn. split_and!; [done|by rewrite H2, length_alter|]. intros a Ha. rewrite H3 by (by rewrite length_alter).
    rewrite !nth_lookup. destruct (Nat.eqb_spec (Z.to_nat (aggression (at_ h p))) a) as [->|Hne].
    + rewrite list_lookup_alter_eq. destruct (lookup_lt_is_Some_2 b a Ha) as [x ->]. cbn. by rewrite <- app_assoc.
    + by rewrite list_lookup_alter_ne.
Qed.

#[local] Instance older_total h : Total (older h).
Proof. intros p q. unfold older. lia. Qed.
#[local] Instance older_trans h : Transitive (older h).
Proof. intros p q r. unfold older. lia. Qed.

Lemma AddNewMatchTickets_spec h mm : mm_ok h mm ->
  exists mm', AddNewMatchTickets h mm = Some mm' /\ mm_ok h mm' /\ _ticketsToAdd mm' = [] /\
    Permutation (_timeSortedTicketVector mm') (_timeSortedTicketVector mm ++ _ticketsToAdd mm) /\
    _maxAgression mm' = _maxAgression mm.
Proof.
  intros [Hq Hr Hd Hn Hl Hg Hw Hi]. unfold AddNewMatchTickets. destruct (_ticketsToAdd mm) as [|p0 l0] eqn:Eadd.
  - exists mm. rewrite app_nil_r, Eadd. split_and!; try done. constructor; rewrite ?Eadd; try done.
  - rewrite <- Eadd in *. clear Eadd p0 l0. set (add := merge_sort (older h) (_ticketsToAdd mm)).
    assert (Hadd : Permutation add (_ticketsToAdd mm)) by apply merge_sort_Permutation.
    assert (Ha : forall q, q ∈ add <-> q ∈ _ticketsToAdd mm) by (intros q; by rewrite Hadd).
    destruct (push_all_spec h add (_bucket mm)) as (b & -> & Hlen & Hb).
    { intros q Hqa. rewrite (q_buckets _ _ Hq). apply Ha, Hg in Hqa. lia. }
    eexists. split; [done|]. cbn. set (queue := list_merge (older h) (_timeSortedTicketVector mm) add).
    assert (Hp : Permutation queue (_timeSortedTicketVector mm ++ _ticketsToAdd mm)).
    { unfold queue. rewrite merge_Permutation. by rewrite Hadd. }
    assert (Hin : forall q, q ∈ queue <-> q ∈ _timeSortedTicketVector mm \/ q ∈ _ticketsToAdd mm).
    { intros q. rewrite Hp. by rewrite elem_of_app. }
    split_and!; try done. constructor; try done; cbn; [|constructor|by intros p H%elem_of_nil..|].
    2:{ intros p. rewrite app_nil_r, Hin. intros H. apply Hi. by rewrite elem_of_app. }
    constructor; cbn; try apply Hq.
    + by rewrite Hlen, (q_buckets _ _ Hq).
    + rewrite Hp. apply NoDup_app. split_and!; [apply Hq|by intros q H1 H2; eapply Hw|done].
    + intros q [H|H]%Hin; [by apply (q_live _ _ Hq)|by apply Hl].
    + intros q [H|H]%Hin; [by apply (q_range _ _ Hq)|by apply Hg].
    + intros a Har. pose proof (q_bucket _ _ Hq a Har) as [Hbn Hbe]. unfold bucket in *. cbn.
      rewrite Hb by (rewrite (q_buckets _ _ Hq); lia). split.
      * apply NoDup_app. split_and!; [done| |by apply filter_NoDup; rewrite Hadd].
        intros q H1%Hbe [_ H2]%elem_of_filter_bool. apply Ha in H2. by apply (Hw q H2), H1.
      * intros q. rewrite elem_of_app, Hbe, elem_of_filter_bool, Nat.eqb_eq, Hin, Ha. split.
        -- intros [[H1 H2]|[H1 H2]]; [tauto|]. split; [by right|]. apply Hg in H2. lia.
        -- intros [[H1|H1] H2]; [by left|]. right. split; [lia|done].
    + apply Sorted_StronglySorted; [apply _|]. apply Sorted_list_merge; [apply _| |].
      * apply StronglySorted_Sorted. apply Hq.
      * by apply Sorted_merge_sort; apply _.
Qed.

(** ** The round *)

Section rounds.
Context {R : Redis} {M : Mysql} {E : MainEnv}.
Local Abbreviation Mn := (Main R M).

(** While the groups are started: [h1] is the store after the search, [todo] the
    tickets of the groups still to come, [all] those of all groups. *)
Record in_round (mms : list MatchMaker) (h1 : Tickets) (all todo : list Z) (m : Mn) : Prop := {
  ir_mms : _matchmakers m = mms;
  ir_cores : same_cores h1 (m_tickets m);
  ir_others : forall p, p ∉ all -> m_tickets m !! p = h1 !! p;
  ir_sub : forall p, p ∈ todo -> p ∈ all;
  ir_nodup : NoDup todo;
  ir_todo : forall p, p ∈ todo -> isMatched (at_ (m_tickets m) p) = true /\ isValid (at_ (m_tickets m) p) = true;
  ir_done : forall p, p ∈ all -> isMatched (at_ (m_tickets m) p) = true \/ isValid (at_ (m_tickets m) p) = true }.

Lemma in_round_quiet mms h1 all todo (m m' : Mn) :
  m_tickets m' = m_tickets m -> _matchmakers m' = _matchmakers m ->
  in_round mms h1 all todo m -> in_round mms h1 all todo m'.
Proof. intros Ht Hm [H1 H2 H3 H4 H5 H6 H7]. constructor; rewrite ?Ht, ?Hm; done. Qed.

(** Changing the flags of one ticket of the group at hand. *)
Lemma in_round_flag mms h1 all p todo f (m : Mn) : (forall t, core (f t) = core t) ->
  (forall t, isMatched t = true -> isValid t = true -> isMatched (f t) = true \/ isValid (f t) = true) ->
  in_round mms h1 all (p :: todo) m -> in_round mms h1 all todo (m <| m_tickets ::= alter f p |>).
Proof.
  intros Hf Hfl [H1 H2 H3 H4 H5 H6 H7]. apply NoDup_cons in H5 as [Hp H5].
  assert (Hpa : p ∈ all) by (apply H4; by left).
  constructor; cbn; try done.
  - etrans; [exact H2|]. by apply alter_cores.
  - intros q Hq. rewrite lookup_alter_ne by (intros ->; done). by apply H3.
  - intros q Hq. apply H4. by right.
  - intros q Hq. rewrite at_alter, decide_False by (intros [-> _]; done). apply H6. by right.
  - intros q Hq. rewrite at_alter. case_decide as Hd; [|by apply H7]. destruct Hd as [-> _].
    destruct (H6 p ltac:(by left)) as [Hm Hv]. by apply Hfl.
Qed.

Lemma in_round_mark mms h1 all g todo (m : Mn) :
  in_round mms h1 all (g ++ todo) m -> in_round mms h1 all todo (m <| m_tickets ::= mark_all false g |>).
Proof.
  assert (Hg : forall g m, in_round mms h1 all (g ++ todo) m ->
    in_round mms h1 all todo (m <| m_tickets := mark_all false g (m_tickets m) |>)); [|by apply Hg].
  clear g m. intros g. assert (Hperm : forall l l' m, Permutation l l' -> in_round mms h1 all l m -> in_round mms h1 all l' m).
  { intros l l' m HP [H1 H2 H3 H4 H5 H6 H7]. constructor; try done.
    - intros p Hp. apply H4. by rewrite HP.
    - by rewrite <- HP.
    - intros p Hp. apply H6. by rewrite HP. }
  revert todo. induction g as [|p g IH]; intros todo m H.
  - by apply (in_round_quiet _ _ _ _ m).
  - cbn [mark_all foldr]. fold (mark_all false g).
    apply (in_round_quiet _ _ _ _ ((m <| m_tickets := mark_all false g (m_tickets m) |>)
             <| m_tickets ::= set_matched false p |>)); [done|done|].
    apply in_round_flag; [done| by intros t _ Hv; right|]. apply IH.
    eapply Hperm; [|exact H]. cbn. apply Permutation_middle.
Qed.

Lemma recheck_round mms h1 all p todo :
  triple (in_round mms h1 all (p :: todo)) (recheck (M:=M) p) (fun _ => in_round mms h1 all todo).
Proof.
  unfold recheck. eapply triple_bind; [apply triple_exget|]. intros h. cbn beta.
  eapply triple_pre; [by intros m [H _]; exact H|].
  eapply triple_bind; [apply triple_quiet; [apply _|apply in_round_quiet]|]. intros o. unfold upd_tickets.
  case_bool_decide; apply triple_exmod; intros m Hm; apply in_round_flag; try done; [by intros t _ Hv; right|by intros t Ht _; left].
Qed.

Lemma in_round_app_nil mms h1 all todo g (m : Mn) : in_round mms h1 all (g ++ todo) m -> in_round mms h1 all todo m.
Proof.
  intros [H1 H2 H3 H4 H5 H6 H7]. constructor; try done.
  - intros p Hp. apply H4. rewrite elem_of_app. by right.
  - by apply NoDup_app in H5 as (_ & _ & H5).
  - intros p Hp. apply H6. rewrite elem_of_app. by right.
Qed.

Lemma start_group_round mms h1 all g todo :
  triple (in_round mms h1 all (g ++ todo)) (start_group (M:=M) g) (fun _ => in_round mms h1 all todo).
Proof.
  destruct (decide (g = [])) as [->|Hg]; [by intros m Hm|].
  unfold start_group. eapply triple_bind; [apply triple_exget|]. intros h. cbn beta.
  eapply triple_pre; [by intros m [H _]; exact H|].
  eapply triple_bind; [apply triple_quiet; [|apply in_round_quiet]|].
  { unfold VerifyAndSetMatchStatus. case_match; apply _. }
  intros []; [|].
  - eapply triple_bind; [apply triple_quiet; [destruct g; [done|apply _]|apply in_round_quiet]|]. intros [].
    + intros m Hm. by eapply in_round_app_nil.
    + unfold requeue. eapply triple_bind.
      { apply (triple_exmod _ _ (fun _ => in_round mms h1 all todo)). intros m. apply in_round_mark. }
      intros []. cbn beta.
      eapply triple_bind; [apply triple_exget|]. intros h'. cbn beta. eapply triple_pre; [by intros m [H _]; exact H|].
      apply triple_quiet; [apply _|apply in_round_quiet].
  - apply (triple_for (fun l => in_round mms h1 all (l ++ todo))). intros p l. apply recheck_round.
Qed.

Lemma StartMatchMakeInternal_round mms h1 gs i mm : mms !! i = Some mm -> _matchedGroups mm = gs ->
  triple (in_round mms h1 (concat gs) (concat gs)) (StartMatchMakeInternal (M:=M) i)
    (fun _ => in_round mms h1 (concat gs) []).
Proof.
  intros Hi <-. unfold StartMatchMakeInternal.
  eapply triple_bind; [apply triple_exget|]. intros o. cbn beta.
  intros m [Hm ->]. rewrite (ir_mms _ _ _ _ _ Hm), Hi. cbn [from_option]. revert m Hm.
  apply (triple_for (fun l => in_round mms h1 (concat (_matchedGroups mm)) (concat l))).
  intros g l. apply start_group_round.
Qed.

(** *** The end of a round *)

Lemma release_lookup l (h : Tickets) p : release_all l h !! p = if bool_decide (p ∈ l) then None else h !! p.
Proof.
  induction l as [|q l IH]; [done|]. cbn. destruct (decide (p = q)) as [->|Hne].
  - rewrite lookup_delete_eq. by rewrite bool_decide_eq_true_2 by (by left).
  - rewrite lookup_delete_ne by done. change (foldr delete h l) with (release_all l h). rewrite IH.
    by rewrite (bool_decide_ext (p ∈ q :: l) (p ∈ l)) by set_solver.
Qed.

Definition kept_queue (keep : Z -> bool) (mm : MatchMaker) : MatchMaker :=
  mm <| _timeSortedTicketVector ::= List.filter keep |> <| _bucket ::= map (List.filter keep) |>.

Lemma StronglySorted_filter {A} (P : A -> A -> Prop) f l : StronglySorted P l -> StronglySorted P (List.filter f l).
Proof.
  induction 1 as [|x l Hs IH Hx]; cbn; [constructor|]. case_match; [|done]. constructor; [done|].
  rewrite Forall_forall in *. intros y [_ Hy]%elem_of_filter_bool. by apply Hx.
Qed.

Lemma StronglySorted_weaken_in {A} (P Q : A -> A -> Prop) l :
  (forall x y, x ∈ l -> y ∈ l -> P x y -> Q x y) -> StronglySorted P l -> StronglySorted Q l.
Proof.
  intros H Hs. induction Hs as [|x l Hs IH Hx]; constructor.
  - apply IH. intros y z Hy Hz. apply H; by right.
  - rewrite Forall_forall in *. intros y Hy. apply H; [by left|by right|by apply Hx].
Qed.

(** A queue after some tickets have been taken out and their objects released. *)
Lemma queue_ok_filter keep h h' mm : queue_ok h mm ->
  (forall p, p ∈ _timeSortedTicketVector mm -> keep p = true -> is_Some (h' !! p) /\ core (at_ h' p) = core (at_ h p)) ->
  queue_ok h' (kept_queue keep mm).
Proof.
  intros [H1 H2 H3 H4 H5 H6 H7 H8] Hk.
  assert (Hin : forall p, p ∈ List.filter keep (_timeSortedTicketVector mm) ->
    is_Some (h' !! p) /\ aggression (at_ h' p) = aggression (at_ h p) /\ startTime (at_ h' p) = startTime (at_ h p) /\
    p ∈ _timeSortedTicketVector mm).
  { intros p [Hkp Hp]%elem_of_filter_bool. destruct (Hk p Hp Hkp) as [Hl Hc]. unfold core in Hc. split_and!; congruence. }
  constructor; cbn; try done.
  - by rewrite length_map.
  - by apply filter_NoDup.
  - intros p Hp. by apply Hin.
  - intros p Hp. destruct (Hin p Hp) as (_ & -> & _ & Hq). by apply H6.
  - intros a Ha. destruct (H7 a Ha) as [Hn Hb]. unfold bucket in *. cbn.
    change (@nil Z) with (List.filter keep []). rewrite List.map_nth. split; [by apply filter_NoDup|].
    intros p. rewrite elem_of_filter_bool, Hb. split.
    + intros (Hkp & Hp & <-). assert (Hpf : p ∈ List.filter keep (_timeSortedTicketVector mm)) by (by apply elem_of_filter_bool).
      split; [done|]. by destruct (Hin p Hpf) as (_ & -> & _).
    + intros [Hp <-]. destruct (Hin p Hp) as (_ & -> & _ & Hq). apply elem_of_filter_bool in Hp as [Hkp _]. tauto.
  - refine (StronglySorted_weaken_in _ _ _ _ (StronglySorted_filter _ keep _ H8)).
    intros p q Hp Hq. unfold older. destruct (Hin p Hp) as (_ & _ & -> & _), (Hin q Hq) as (_ & _ & -> & _). done.
Qed.

Definition tickets_of (mm : MatchMaker) : list Z := _timeSortedTicketVector mm ++ _ticketsToAdd mm.

Lemma filter_all {A} (l : list A) : List.filter (fun _ => true) l = l.
Proof. induction l as [|x l IH]; cbn; congruence. Qed.

Lemma mm_ok_agree h h' mm : mm_ok h mm -> (forall p, p ∈ tickets_of mm -> h' !! p = h !! p) -> mm_ok h' mm.
Proof.
  intros [H1 H2 H3 H4 H5 H6 H7 H8] Ha. unfold tickets_of in Ha.
  assert (Hat : forall p, p ∈ tickets_of mm -> at_ h' p = at_ h p) by (intros p Hp; unfold at_; by rewrite Ha).
  assert (Hadd : forall p, p ∈ _ticketsToAdd mm -> p ∈ tickets_of mm) by (intros p Hp; apply elem_of_app; by right).
  assert (Hqu : forall p, p ∈ _timeSortedTicketVector mm -> p ∈ tickets_of mm) by (intros p Hp; apply elem_of_app; by left).
  constructor; try done.
  - assert (Hid : kept_queue (fun _ => true) mm = mm).
    { assert (Hm : forall l : list (list Z), map (List.filter (fun _ => true)) l = l).
      { induction l as [|x l IH]; cbn; [done|]. by rewrite filter_all, IH. }
      destruct mm as [a b c d e f g i j]. unfold kept_queue. cbn. by rewrite filter_all, Hm. }
    rewrite <- Hid. apply (queue_ok_filter _ h); [done|]. intros p Hp _. rewrite Ha, Hat by (by apply Hqu).
    split; [by apply (q_live _ _ H1)|done].
  - intros p Hp. rewrite Ha by (by apply Hadd). by apply H5.
  - intros p Hp. rewrite Hat by (by apply Hadd). by apply H6.
  - intros p Hp. rewrite Hat by done. by apply H8.
Qed.

(** Nothing is ever deleted: a ticket that is invalid is also still marked as matched,
    so it is released instead. *)
Lemma sort_out_spec h mm : _ticketsToRelease mm = [] -> _ticketsToDelete mm = [] ->
  (forall p, p ∈ _timeSortedTicketVector mm -> isMatched (at_ h p) = true \/ isValid (at_ h p) = true) ->
  let keep p := negb (shouldRemove h p) in
  sort_out h mm = kept_queue keep mm <| _ticketsToRelease := List.filter (fun p => isMatched (at_ h p)) (_timeSortedTicketVector mm) |>.
Proof.
  intros Hr Hd Hv keep. unfold sort_out, kept_queue. destruct mm as [a b c d e f g i j]. cbn in *. subst d e. cbn. f_equal.
  induction f as [|p f IH]; [done|]. cbn. rewrite IH by (intros q Hq; apply Hv; by right).
  destruct (Hv p ltac:(by left)) as [->| ->]; [done|by rewrite andb_false_r].
Qed.

Lemma alter_insert {A} (f : A -> A) i (l : list A) x : l !! i = Some x -> alter f i l = <[ i := f x ]> l.
Proof.
  intros H. apply list_eq. intros j. destruct (decide (i = j)) as [<-|Hne].
  - rewrite list_lookup_alter_eq, H. rewrite list_lookup_insert_eq; [done|by eapply lookup_lt_Some].
  - by rewrite list_lookup_alter_ne, list_lookup_insert_ne.
Qed.

Definition after_release (keep rel : Z -> bool) (mm : MatchMaker) (i : nat) (m : Mn) : Mn :=
  m <| _matchmakers := <[ i := kept_queue keep mm ]> (_matchmakers m) |>
    <| m_tickets := release_all (List.filter rel (_timeSortedTicketVector mm)) (m_tickets m) |>.

Lemma ReleaseAndDelete_spec i mm (m : Mn) : _matchmakers m !! i = Some mm ->
  _ticketsToRelease mm = [] -> _ticketsToDelete mm = [] ->
  (forall p, p ∈ _timeSortedTicketVector mm ->
     isMatched (at_ (m_tickets m) p) = true \/ isValid (at_ (m_tickets m) p) = true) ->
  ReleaseAndDeleteTickets i m =
    (inr tt, after_release (fun p => negb (shouldRemove (m_tickets m) p)) (fun p => isMatched (at_ (m_tickets m) p)) mm i m).
Proof.
  intros Hi Hr Hd Hv. unfold ReleaseAndDeleteTickets, after_release.
  unfold mbind, EX_bind, exmod, exget, upd_tickets, upd_mm, exmod. cbn [setf _matchmakers m_tickets].
  rewrite list_lookup_alter_eq, Hi. cbn [fmap option_fmap option_map default from_option id].
  rewrite (sort_out_spec _ _ Hr Hd Hv). unfold exmod. cbn.
  rewrite Hd. cbn. unfold mret, EX_ret. do 2 f_equal. destruct m; cbn in *. f_equal.
  rewrite list_alter_alter_eq, (alter_insert _ _ _ mm Hi). f_equal. unfold compose.
  rewrite (sort_out_spec _ _ Hr Hd Hv). unfold kept_queue. destruct mm. cbn in *. by subst.
Qed.

(** ** The process's queues *)

(** Every matchmaker is in order, and no ticket is in two queues. *)
Record main_ok (m : Mn) : Prop := {
  ma_mm : forall i mm, _matchmakers m !! i = Some mm -> mm_ok (m_tickets m) mm;
  ma_disjoint : forall i j mmi mmj p, _matchmakers m !! i = Some mmi -> _matchmakers m !! j = Some mmj ->
    i <> j -> p ∈ tickets_of mmi -> p ∉ tickets_of mmj }.

(** What a round leaves of a matchmaker: who was in no group stays, the others have
    gone back to the queue or are released. *)
Record round_of (m m' : Mn) (i : nat) (mm : MatchMaker) : Prop := {
  ro_main : main_ok m';
  ro_others : forall j, j <> i -> _matchmakers m' !! j = _matchmakers m !! j;
  ro_tickets : forall p, p ∉ tickets_of mm -> m_tickets m' !! p = m_tickets m !! p;
  ro_queue : exists mm', _matchmakers m' !! i = Some mm' /\ _ticketsToAdd mm' = [] /\
    (forall p, p ∈ _timeSortedTicketVector mm' -> p ∈ tickets_of mm) /\
    forall p, p ∈ tickets_of mm ->
      p ∈ _timeSortedTicketVector mm' \/ m_tickets m' !! p = None /\ p ∈ concat (_matchedGroups mm') }.

Definition new_times_ok (now : Z) (h : Tickets) (mm : MatchMaker) : Prop :=
  forall p, p ∈ tickets_of mm -> 0 <= now - startTime (at_ h p) < 2 ^ 31 * 1000000000.

(** Who is in a group was in the queue. *)
Lemma found_queued mm now h gs h1 p : found mm now h gs h1 -> p ∈ concat gs -> p ∈ _timeSortedTicketVector mm.
Proof.
  intros HF Hp. apply list_elem_of_In, List.in_concat in Hp as (g & Hg & Hp).
  destruct (fo_groups _ _ _ _ _ HF g) as (p0 & Hgo & _); [by apply list_elem_of_In|].
  apply (go_members _ _ _ _ _ Hgo). by apply list_elem_of_In.
Qed.
Lemma found_in_round mm now h gs h1 mms (m : Mn) : queue_ok h mm ->
  (forall p, p ∈ _timeSortedTicketVector mm -> isMatched (at_ h p) = false /\ isValid (at_ h p) = true) ->
  found mm now h gs h1 -> _matchmakers m = mms -> m_tickets m = h1 ->
  in_round mms h1 (concat gs) (concat gs) m.
Proof.
  intros Hq Hidle HF Hm Ht.
  pose proof (fun p => found_queued _ _ _ _ _ p HF) as Hin.
  assert (Hmv : forall p, p ∈ concat gs -> isMatched (at_ h1 p) = true /\ isValid (at_ h1 p) = true).
  { intros p Hp. pose proof (fo_matched _ _ _ _ _ HF p (Hin p Hp)) as H. unfold matched in H.
    rewrite bool_decide_eq_true_2, orb_true_r in H by done. rewrite (fo_valid _ _ _ _ _ HF).
    split; [done|]. by apply Hidle, Hin. }
  constructor; rewrite ?Ht; try done; [by apply HF|]. intros p Hp. left. by apply Hmv.
Qed.


Lemma StartMatchMake_eq i (m : Mn) mm mm1 : _matchmakers m !! i = Some mm ->
  AddNewMatchTickets (m_tickets m) mm = Some mm1 ->
  let '(mm2, h1) := FindMatchGroup (m_now m) (m_tickets m) mm1 in
  StartMatchMake i m =
    (StartMatchMakeInternal i ≫= fun _ => ReleaseAndDeleteTickets i)
      (m <| _matchmakers := <[ i := mm2 ]> (_matchmakers m) |> <| m_tickets := h1 |>).
Proof.
  intros Hi Ha. destruct (FindMatchGroup _ _ mm1) as [mm2 h1] eqn:Hf. unfold StartMatchMake.
  unfold mbind at 1, EX_bind at 1. rewrite Hi, Ha. unfold mbind at 1, EX_bind at 1, exmod.
  cbn [setf _matchmakers m_now m_tickets]. rewrite list_lookup_insert_eq by (by eapply lookup_lt_Some).
  rewrite Hf. cbn. by rewrite list_insert_insert_eq.
Qed.

(** The end of a round: what [ReleaseAndDeleteTickets] makes of the state [m3] the handshake
    has left, when the round began at [m] with the queue [mm]. *)
Section round_end.
Context (i : nat) (m m3 : Mn) (mm mm1 mm2 : MatchMaker) (h1 : Tickets).
Local Abbreviation h := (m_tickets m).
Local Abbreviation q := (_timeSortedTicketVector mm1).
Local Abbreviation gs := (_matchedGroups mm2).
Local Abbreviation keep := (fun p => negb (shouldRemove (m_tickets m3) p)).
Local Abbreviation rel := (fun p => isMatched (at_ (m_tickets m3) p)).
Local Abbreviation m' := (after_release keep rel mm2 i m3).
Hypothesis Hmain : main_ok m.
Hypothesis Hi : _matchmakers m !! i = Some mm.
Hypothesis Hok : mm_ok h mm1.
Hypothesis Hadd : _ticketsToAdd mm1 = [].
Hypothesis Hperm : Permutation q (tickets_of mm).
Hypothesis Hmm2 : mm2 = mm1 <| _matchedGroups := gs |> <| _pivotMemorizationFlags := _pivotMemorizationFlags mm2 |>.
Hypothesis Hfl : length (_pivotMemorizationFlags mm2) = length (_pivotMemorizationFlags mm1).
Hypothesis HF : found mm1 (m_now m) h gs h1.
Hypothesis HR : in_round (<[ i := mm2 ]> (_matchmakers m)) h1 (concat gs) [] m3.

Lemma queue_of_round : _timeSortedTicketVector mm2 = q.
Proof. by rewrite Hmm2. Qed.
Lemma ungrouped_same p : p ∉ concat gs -> m_tickets m3 !! p = h !! p.
Proof. intros Hp. rewrite (ir_others _ _ _ _ _ HR) by done. by apply HF. Qed.
Lemma queued_idle p : p ∈ q -> isMatched (at_ h p) = false /\ isValid (at_ h p) = true.
Proof. intros Hp. apply (mo_idle _ _ Hok). apply elem_of_app. by left. Qed.
Lemma queued_decided p : p ∈ q -> isMatched (at_ (m_tickets m3) p) = true \/ isValid (at_ (m_tickets m3) p) = true.
Proof.
  intros Hp. destruct (decide (p ∈ concat gs)) as [Hg|Hg]; [by apply (ir_done _ _ _ _ _ HR)|]. right.
  unfold at_. rewrite ungrouped_same by done. by apply queued_idle.
Qed.
Lemma round_cores : same_cores h (m_tickets m3).
Proof. etrans; [apply HF|exact (ir_cores _ _ _ _ _ HR)]. Qed.

Lemma released_lookup p : m_tickets m' !! p = if bool_decide (p ∈ List.filter rel q) then None else m_tickets m3 !! p.
Proof. unfold after_release. cbn. rewrite queue_of_round. apply release_lookup. Qed.
Lemma released_out p : p ∉ q -> m_tickets m' !! p = h !! p.
Proof.
  intros Hp. rewrite released_lookup, bool_decide_eq_false_2 by (intros [_ H]%elem_of_filter_bool; done).
  apply ungrouped_same. intros Hg. by apply Hp, (found_queued _ _ _ _ _ _ HF).
Qed.
Lemma kept_lookup p : p ∈ q -> keep p = true -> m_tickets m' !! p = m_tickets m3 !! p.
Proof.
  intros Hp Hk. rewrite released_lookup, bool_decide_eq_false_2; [done|]. intros [Hr _]%elem_of_filter_bool.
  unfold shouldRemove in Hk. cbn beta in Hr. by rewrite Hr in Hk.
Qed.
Lemma kept_at p : p ∈ q -> keep p = true -> at_ (m_tickets m') p = at_ (m_tickets m3) p.
Proof. intros Hp Hk. unfold at_. by rewrite kept_lookup. Qed.
Lemma released_makers : _matchmakers m' = <[ i := kept_queue keep mm2 ]> (_matchmakers m).
Proof. unfold after_release. cbn. by rewrite (ir_mms _ _ _ _ _ HR), list_insert_insert_eq. Qed.

Lemma none_added : _ticketsToAdd (kept_queue keep mm2) = [].
Proof. rewrite Hmm2. exact Hadd. Qed.
Lemma kept_queue_ok : mm_ok (m_tickets m') (kept_queue keep mm2).
Proof.
  constructor.
  - apply (queue_ok_filter _ h).
    + destruct (mo_queue _ _ Hok). rewrite Hmm2. constructor; cbn; try done. by rewrite Hfl.
    + rewrite queue_of_round. intros p Hp Hk. split.
      * rewrite kept_lookup by done. apply (sc_dom _ _ round_cores), (q_live _ _ (mo_queue _ _ Hok)). done.
      * rewrite kept_at by done. apply (sc_core _ _ round_cores).
  - rewrite Hmm2. apply Hok.
  - rewrite Hmm2. apply Hok.
  - rewrite none_added. constructor.
  - rewrite none_added. by intros p ?%elem_of_nil.
  - rewrite none_added. by intros p ?%elem_of_nil.
  - rewrite none_added. by intros p ?%elem_of_nil.
  - rewrite none_added, app_nil_r. intros p [Hk Hp]%elem_of_filter_bool. cbn in Hp. rewrite queue_of_round in Hp.
    rewrite kept_at by done. unfold shouldRemove in Hk. by apply negb_true_iff, orb_false_iff in Hk as [H1 H2%negb_false_iff].
Qed.
Lemma kept_tickets p : p ∈ tickets_of (kept_queue keep mm2) -> p ∈ tickets_of mm.
Proof.
  unfold tickets_of at 1. rewrite none_added, app_nil_r. cbn. rewrite queue_of_round, <- Hperm.
  by intros [_ H]%elem_of_filter_bool.
Qed.
(** Who was not kept has been given to a process. *)
Lemma dropped_released p : p ∈ q -> keep p = false -> m_tickets m' !! p = None /\ p ∈ concat gs.
Proof.
  intros Hp Hk. destruct (queued_idle p Hp) as [H1 H2]. split.
  - rewrite released_lookup, bool_decide_eq_true_2; [done|]. apply elem_of_filter_bool. split; [|done].
    unfold shouldRemove in Hk. destruct (queued_decided p Hp) as [H|H]; [done|]. rewrite H in Hk.
    by destruct (isMatched (at_ (m_tickets m3) p)).
  - destruct (decide (p ∈ concat gs)) as [|Hg]; [done|]. exfalso. unfold shouldRemove, at_ in Hk.
    rewrite ungrouped_same in Hk by done. fold (at_ h p) in Hk. by rewrite H1, H2 in Hk.
Qed.

Lemma released_main : main_ok m'.
Proof.
  destruct Hmain as [Hmm Hdis].
  assert (Hold : forall j mmj, j <> i -> _matchmakers m' !! j = Some mmj -> _matchmakers m !! j = Some mmj)
    by (intros j mmj Hne; by rewrite released_makers, list_lookup_insert_ne).
  assert (Hnew : forall mmi, _matchmakers m' !! i = Some mmi -> mmi = kept_queue keep mm2)
    by (intros mmi; rewrite released_makers, list_lookup_insert_eq by (by eapply lookup_lt_Some); congruence).
  constructor.
  - intros j mmj Hj. destruct (decide (j = i)) as [->|Hne]; [rewrite (Hnew _ Hj); apply kept_queue_ok|].
    apply Hold in Hj; [|done]. apply (mm_ok_agree h); [by apply (Hmm j)|]. intros p Hp. apply released_out.
    rewrite Hperm. intros Hpi. by apply (Hdis i j mm mmj p Hi Hj).
  - intros a b mma mmb p Ha Hb Hne. destruct (decide (a = i)) as [->|Hai], (decide (b = i)) as [->|Hbi]; try done.
    + rewrite (Hnew _ Ha). apply Hold in Hb; [|done]. intros Hp. by apply (Hdis i b mm mmb p), kept_tickets.
    + rewrite (Hnew _ Hb). apply Hold in Ha; [|done]. intros Hp Hq. by apply (Hdis a i mma mm p Ha Hi Hne Hp), kept_tickets.
    + apply Hold in Ha, Hb; [|done..]. by apply (Hdis a b mma mmb p).
Qed.

Lemma release_round :
  match ReleaseAndDeleteTickets i m3 with
  | (inr _, m'') => round_of m m'' i mm
  | (inl e, _) => e <> Undefined
  end.
Proof.
  assert (Hlen : (i < length (_matchmakers m))%nat) by (by eapply lookup_lt_Some).
  rewrite (ReleaseAndDelete_spec i mm2); [|rewrite (ir_mms _ _ _ _ _ HR); by apply list_lookup_insert_eq
    |rewrite Hmm2; apply Hok|rewrite Hmm2; apply Hok|rewrite queue_of_round; exact queued_decided].
  constructor; [exact released_main|intros j Hne; by rewrite released_makers, list_lookup_insert_ne
    |intros p Hp; apply released_out; by rewrite Hperm|].
  exists (kept_queue keep mm2). split; [rewrite released_makers; by apply list_lookup_insert_eq|]. split; [by rewrite Hmm2; cbn|]. split.
  - intros p Hp. apply kept_tickets. unfold tickets_of. apply elem_of_app. by left.
  - intros p Hp. rewrite <- Hperm in Hp. cbn [kept_queue _timeSortedTicketVector]. destruct (keep p) eqn:Hk.
    + left. cbn. rewrite queue_of_round. by apply elem_of_filter_bool.
    + right. by apply dropped_released.
Qed.
End round_end.
End rounds.

(** ** A fresh queue *)

Lemma nth_replicate_nil {A} n k : nth k (replicate n (@nil A)) [] = [].
Proof. revert k. induction n as [|n IH]; intros [|k]; cbn; auto. Qed.

Lemma new_MatchMaker_ok h id mx : 0 <= mx -> mm_ok h (new_MatchMaker id mx).
Proof.
  intros Hmx. constructor; try done; cbn; [|constructor|by intros p ?%elem_of_nil..].
  constructor; cbn; try (by rewrite length_replicate); try done; [constructor|by intros p ?%elem_of_nil..| |constructor].
  intros a _. unfold bucket. cbn. rewrite nth_replicate_nil. split; [constructor|]. intros p.
  split; [by intros ?%elem_of_nil|by intros [?%elem_of_nil _]].
Qed.

Lemma AddSingleMatchTicket_ok h p mm : mm_ok h mm -> is_Some (h !! p) ->
  0 <= aggression (at_ h p) <= _maxAgression mm -> p ∉ tickets_of mm ->
  isMatched (at_ h p) = false /\ isValid (at_ h p) = true -> mm_ok h (AddSingleMatchTicket p mm).
Proof.
  intros [H1 H2 H3 H4 H5 H6 H7 H8] Hl Ha Hp Hi. unfold tickets_of in Hp. apply not_elem_of_app in Hp as [Hp1 Hp2].
  constructor; try done; cbn.
  - destruct H1. by constructor.
  - apply NoDup_app. split_and!; [done|by intros q Hq ->%list_elem_of_singleton|apply NoDup_singleton].
  - intros q. rewrite elem_of_app, list_elem_of_singleton. intros [Hq| ->]; [by apply H5|done].
  - intros q. rewrite elem_of_app, list_elem_of_singleton. intros [Hq| ->]; [by apply H6|done].
  - intros q. rewrite elem_of_app, list_elem_of_singleton. intros [Hq| ->]; [by apply H7|done].
  - intros q. rewrite !elem_of_app, list_elem_of_singleton. intros [Hq|[Hq| ->]]; [| |done]; apply H8; rewrite elem_of_app; auto.
Qed.

(** ** Theorems *)

(** C23. The search puts nobody in two groups; a group has its pivot first, at most four
    members, at least as many as the pivot's waiting time demands, all of them free and
    of the pivot's aggression give or take the allowed difference; exactly the members
    are marked as matched; and whoever has waited a minute is in a group. *)
Theorem FindMatchGroup_groups now h mm :
  queue_ok h mm -> times_ok now h mm ->
  let '(mm', h') := FindMatchGroup now h mm in
  NoDup (concat (_matchedGroups mm')) /\
  (forall g, g ∈ _matchedGroups mm' -> exists p,
     group_of mm now h p g /\ targetMinPlayers now h p <= Z.of_nat (length g)) /\
  (forall p, p ∈ _timeSortedTicketVector mm ->
     matched h' p = matched h p || bool_decide (p ∈ concat (_matchedGroups mm'))) /\
  (forall p, p ∈ _timeSortedTicketVector mm -> 60 <= GetWaitTimeSeconds now (at_ h p) -> matched h' p = true).
Proof.
  intros Hq Ht. pose proof (FindMatchGroup_ref now h mm Hq Ht) as Hr.
  destruct (FindMatchGroup now h mm) as [mm' h']. destruct Hr as (Hr & _ & _).
  pose proof (found_all mm now h (_timeSortedTicketVector mm) [] h Hq ltac:(done) (found_nil mm now h)) as Hf.
  rewrite Hr in Hf. destruct Hf as (HF & _ & H60). split_and!; [apply HF|apply HF|apply HF|].
  intros p Hp Hw. apply H60; [done|]. unfold targetMinPlayers, match_rule. by rewrite (proj2 (Z.leb_le _ _) Hw).
Qed.

(** C24. Remembering the aggressions whose pivot found no group is a pure optimisation:
    the search finds the groups, and marks the tickets, of the search that tries every
    pivot. *)
Theorem FindMatchGroup_memo now h mm :
  queue_ok h mm -> times_ok now h mm ->
  let '(mm', h') := FindMatchGroup now h mm in
  (h', _matchedGroups mm') = foldl (pivot_ref now mm) (h, []) (_timeSortedTicketVector mm).
Proof.
  intros Hq Ht. pose proof (FindMatchGroup_ref now h mm Hq Ht) as Hr.
  destruct (FindMatchGroup now h mm) as [mm' h']. by destruct Hr as (-> & _ & _).
Qed.

Section theorems.
Context {R : Redis} {M : Mysql} {E : MainEnv}.

(** One round, from the search to the release of the tickets. *)
Lemma round_keeps i (m : Main R M) mm :
  main_ok m -> _matchmakers m !! i = Some mm -> new_times_ok (m_now m) (m_tickets m) mm ->
  match StartMatchMake i m with
  | (inr _, m') => round_of m m' i mm
  | (inl e, _) => e <> Undefined
  end.
Proof.
  intros Hm Hi Ht. destruct (AddNewMatchTickets_spec _ mm (ma_mm _ Hm i mm Hi)) as (mm1 & Ha & Hok & Hadd & Hp & _).
  pose proof (StartMatchMake_eq i m mm mm1 Hi Ha) as He.
  assert (Ht1 : times_ok (m_now m) (m_tickets m) mm1) by (intros p Hpq; apply Ht; unfold tickets_of; by rewrite <- Hp).
  pose proof (FindMatchGroup_ref _ _ _ (mo_queue _ _ Hok) Ht1) as Hr.
  destruct (FindMatchGroup (m_now m) (m_tickets m) mm1) as [mm2 h1]. destruct Hr as (Hr & Hmm2 & Hfl).
  pose proof (found_all mm1 (m_now m) (m_tickets m) (_timeSortedTicketVector mm1) [] (m_tickets m) (mo_queue _ _ Hok)
    ltac:(done) (found_nil _ _ _)) as Hf. rewrite Hr in Hf. destruct Hf as (HF & _ & _). rewrite He.
  set (m1 := m <| _matchmakers := _ |> <| m_tickets := h1 |>).
  assert (Hin : in_round (<[ i := mm2 ]> (_matchmakers m)) h1 (concat (_matchedGroups mm2)) (concat (_matchedGroups mm2)) m1).
  { eapply found_in_round; [apply (mo_queue _ _ Hok)| |exact HF|done|done].
    intros p Hpq. apply (mo_idle _ _ Hok). apply elem_of_app. by left. }
  assert (Hlk : <[ i := mm2 ]> (_matchmakers m) !! i = Some mm2) by (apply list_lookup_insert_eq; by eapply lookup_lt_Some).
  pose proof (StartMatchMakeInternal_round _ h1 _ i mm2 Hlk eq_refl m1 Hin) as Hs. unfold mbind, EX_bind.
  destruct (StartMatchMakeInternal i m1) as [[e|[]] m3]; [done|]. by eapply release_round.
Qed.

(** C16. A round of matchmaking keeps the queues in order whatever Redis answers: no
    pointer in a queue dangles, nobody is queued twice or left behind marked as
    matched, the buckets and the order by arrival are right, the other maps are not
    touched; and a player who leaves the queue was in a group of the round. *)
Theorem StartMatchMake_round i (m : Main R M) mm :
  main_ok m -> _matchmakers m !! i = Some mm -> new_times_ok (m_now m) (m_tickets m) mm ->
  match StartMatchMake i m with
  | (inr _, m') => round_of m m' i mm
  | (inl e, _) => e <> Undefined
  end.
Proof. apply round_keeps. Qed.

(** The handshake with Redis is all or nothing: it succeeds exactly when every
    ticket of the group is waiting, and then they are all in progress and nothing else
    has changed; otherwise nothing has. *)
Theorem VerifyAndSetMatchStatus_spec {L : RedisLaws R} keys (m : Main R M) :
  keys <> [] -> r_answers (m_redis m) = [] ->
  let '(o, m') := VerifyAndSetMatchStatus keys m in
  let s := r_data (m_redis m) in let s' := r_data (m_redis m') in
  o = inr (forallb (fun k => bool_decide (r_hget k "status" s = Some "WAITING")) keys) /\
  (o = inr true -> forall k, k ∈ keys -> r_hget k "status" s' = Some "INPROGRESS") /\
  (forall k f, f <> "status" \/ k ∉ keys \/ o = inr false -> r_hget k f s' = r_hget k f s) /\
  m' = m <| m_redis := m_redis m' |>.
Proof.
  intros Hk Ha. unfold VerifyAndSetMatchStatus. destruct keys as [|k0 keys0]; [done|].
  set (keys := k0 :: keys0). unfold catch_redis, catch, mbind, EX_bind, redis.
  rewrite call_answered by done. unfold verify_script.
  assert (Hset : forall ks s k f, r_hget k f (foldl (fun s k => r_hset k "status" "INPROGRESS" s) s ks) =
    if bool_decide (f = "status" /\ k ∈ ks) then Some "INPROGRESS" else r_hget k f s).
  { induction ks as [|x ks IH]; intros s k f; cbn [foldl].
    - rewrite bool_decide_eq_false_2 by set_solver. done.
    - rewrite IH. unfold r_hget. destruct (decide (x = k)) as [->|Hne].
      + rewrite hgetall_hset. destruct (decide (f = "status")) as [->|Hf].
        * rewrite lookup_insert_eq. rewrite (bool_decide_eq_true_2 ("status" = "status" /\ k ∈ k :: ks)) by set_solver.
          by case_bool_decide.
        * rewrite lookup_insert_ne by done. rewrite !bool_decide_eq_false_2 by tauto. done.
      + rewrite hgetall_hset_ne by done.
        by rewrite (bool_decide_ext (f = "status" /\ k ∈ x :: ks) (f = "status" /\ k ∈ ks)) by set_solver. }
  destruct (forallb _ keys) eqn:Hall; cbn -[keys].
  - split_and!; [done| | |done].
    + intros _ k Hkk. rewrite Hset, bool_decide_eq_true_2 by done. done.
    + intros k f Hor. rewrite Hset, bool_decide_eq_false_2; [done|]. intros [-> Hkk]. by destruct Hor as [|[|]].
  - by split_and!.
Qed.
End theorems.

(** ** Witnesses

    Two players wait for the same map; one of them has cancelled since. *)

#[local] Existing Instance sample_redis.
#[local] Existing Instance sample_mysql.
#[local] Existing Instance sample_env.

Definition sample_row (status : string) : gmap string string :=
  {[ "status" := status; "uid" := "7"; "user_id" := "ana"; "rating" := "1000";
     "inventory_items" := "[]"; "equipment_items" := "[]" ]}.
Definition sample_tickets : Tickets :=
  {[ 1 := new_MatchTicket "t1" 7 3 0 1 0; 2 := new_MatchTicket "t2" 8 4 0 1 5 ]}.

(** [s2]: the status of the second ticket; 61 seconds have passed. *)
Definition sample_queue (s2 : string) : Main sample_redis sample_mysql :=
  sample_main <| m_redis := mk_remote ({[ "t1" := sample_row "WAITING"; "t2" := sample_row s2 ]}, ∅) [] |>
    <| m_tickets := sample_tickets |> <| _matchmakers := [AddSingleMatchTicket 2 (AddSingleMatchTicket 1 (new_MatchMaker 0 20))] |>
    <| m_now := 61000000000 |>.

Definition queued : MatchMaker := AddSingleMatchTicket 2 (AddSingleMatchTicket 1 (new_MatchMaker 0 20)).

Lemma queued_ok : mm_ok sample_tickets queued.
Proof.
  unfold queued. apply AddSingleMatchTicket_ok; [apply AddSingleMatchTicket_ok; [by apply new_MatchMaker_ok|..]|..];
    try (vm_compute; by split); try (by eexists); by intros ?%elem_of_nil || (cbn; set_solver).
Qed.

Lemma sample_queue_ok s2 : main_ok (sample_queue s2).
Proof.
  constructor.
  - intros [|[|]] mm; cbn; try done. intros [= <-]. apply queued_ok.
  - intros [|[|]] [|[|]]; cbn; by intros.
Qed.

Lemma sample_times s2 : new_times_ok (m_now (sample_queue s2)) (m_tickets (sample_queue s2)) queued.
Proof.
  intros p Hp. assert (Hp' : p = 1 \/ p = 2) by (cbn in Hp; set_solver). destruct Hp' as [-> | ->]; vm_compute; by split.
Qed.

(** With both waiting they are handed over together. *)
Lemma FindMatchGroup_groups_witness :
  exists mm, AddNewMatchTickets sample_tickets queued = Some mm /\
  let '(mm', h') := FindMatchGroup 61000000000 sample_tickets mm in
  _matchedGroups mm' = [[1; 2]] /\ matched h' 1 = true.
Proof.
  destruct (AddNewMatchTickets_spec _ _ queued_ok) as (mm & Ha & Hok & _ & Hp & _). exists mm. split; [exact Ha|].
  assert (Hin : forall p, p ∈ _timeSortedTicketVector mm -> p = 1 \/ p = 2) by (intros p; rewrite Hp; cbn; set_solver).
  pose proof (FindMatchGroup_groups 61000000000 sample_tickets mm (mo_queue _ _ Hok)) as H.
  assert (Ha' := Ha). vm_compute in Ha'. injection Ha' as <-.
  destruct (FindMatchGroup _ _ _) as [mm' h'] eqn:Ef.
  destruct H as (_ & _ & _ & H).
  { intros p Hpq. destruct (Hin p Hpq) as [-> | ->]; vm_compute; by split. }
  split; [apply (f_equal (fun x => _matchedGroups x.1)) in Ef; cbn [fst] in Ef; rewrite <- Ef; vm_compute; reflexivity|].
  apply H; [by left|vm_compute; done].
Defined.

Lemma FindMatchGroup_memo_witness :
  exists mm, AddNewMatchTickets sample_tickets queued = Some mm /\
  let '(mm', h') := FindMatchGroup 61000000000 sample_tickets mm in
  (h', _matchedGroups mm') = foldl (pivot_ref 61000000000 mm) (sample_tickets, []) (_timeSortedTicketVector mm).
Proof.
  destruct (AddNewMatchTickets_spec _ _ queued_ok) as (mm & Ha & Hok & _ & Hp & _). exists mm. split; [exact Ha|].
  apply (FindMatchGroup_memo 61000000000 sample_tickets mm (mo_queue _ _ Hok)).
  intros p. rewrite Hp. intros Hpq. assert (Hp' : p = 1 \/ p = 2) by (cbn in Hpq; set_solver).
  destruct Hp' as [-> | ->]; vm_compute; by split.
Defined.

Lemma StartMatchMake_round_witness :
  exists m', StartMatchMake 0 (sample_queue "WAITING") = (inr tt, m') /\ m_tickets m' = ∅ /\
    exists pkt, _tempMatchPkts <$> (_dediSessions m' !! 100) = Some [pkt] /\ length (mr_player_infos pkt) = 2%nat.
Proof.
  pose proof (StartMatchMake_round 0 (sample_queue "WAITING") queued (sample_queue_ok _) eq_refl (sample_times _)) as H.
  destruct (StartMatchMake 0 (sample_queue "WAITING")) as [[e|[]] m'] eqn:Es.
  - exfalso. apply (f_equal fst) in Es. vm_compute in Es. discriminate.
  - exists m'. split; [reflexivity|]. destruct H as [_ _ Hout (mm' & _)]. apply (f_equal snd) in Es. cbn [snd] in Es.
    split; [rewrite <- Es; vm_compute; reflexivity|]. rewrite <- Es. eexists. split; vm_compute; reflexivity.
Defined.

Lemma VerifyAndSetMatchStatus_spec_witness :
  fst (VerifyAndSetMatchStatus ["t1"; "t2"] (sample_queue "CANCELED")) = inr false /\
    r_hget "t1" "status" (r_data (m_redis (snd (VerifyAndSetMatchStatus ["t1"; "t2"] (sample_queue "CANCELED"))))) = Some "WAITING".
Proof.
  pose proof (VerifyAndSetMatchStatus_spec (L:=sample_redis_laws) ["t1"; "t2"] (sample_queue "CANCELED") ltac:(done) eq_refl) as H.
  destruct (VerifyAndSetMatchStatus _ _) as [o m']. destruct H as (-> & _ & H & _). split; [vm_compute; reflexivity|].
  cbn [snd]. rewrite H by (right; right; vm_compute; reflexivity). vm_compute. reflexivity.
Defined.

(** The row of a ticket that was cancelled stays: the player leaves the queue, still
    marked as matched, so the ticket is released and the branch that deletes the keys
    of invalid tickets never runs. *)
Theorem cancelled_row_stays :
  exists m', StartMatchMake 0 (sample_queue "CANCELED") = (inr tt, m') /\
    m_tickets m' !! 2 = None /\ r_hget "t2" "status" (r_data (m_redis m')) = Some "CANCELED" /\
    _timeSortedTicketVector <$> (_matchmakers m' !! 0%nat) = Some [1].
Proof.
  destruct (StartMatchMake 0 (sample_queue "CANCELED")) as [o m'] eqn:Es. exists m'.
  assert (Eo : o = inr tt) by (apply (f_equal fst) in Es; cbn [fst] in Es; rewrite <- Es; vm_compute; reflexivity).
  split; [by rewrite Eo|]. apply (f_equal snd) in Es. cbn [snd] in Es. rewrite <- Es. split_and!; vm_compute; reflexivity.
Qed.
