(* ===== verification/DBProxy.v ===== *)
(** * The handlers of the main process and the database requests

    Models src/src/PacketHandler.cpp (what the HTTP server and the dedicated processes
    ask of the main process), [BindClientIpToSession] of DediManager.cpp, and
    DBProxyRequest.h and .cpp: the queue of requests, the entry tokens written to
    Redis, the inventory of a player who left written to MySQL in one transaction;
    and MysqlHandle.cpp, which probes, restores or makes the connection.

    A transaction follows MySQL: with autocommit off the statements work on a copy
    that [commit], or switching autocommit on, publishes and [rollback] drops;
    switching autocommit off twice does not end a transaction; with autocommit on every
    statement is published at once.  A pipeline to Redis is a sequence of commands of which a
    broken connection leaves a beginning done. *)

From S2P Require Import Prelude Items Inventory Session Stores Main Matchmaker.
From stdpp Require Import strings.
Local Open Scope Z_scope.

Definition ACTIVE_MATCH_TTL_SEC : Z := 900.
Definition INVENTORY_SLOT_INDEX_BEGIN : Z := 80.
Definition LOADOUT_SLOT_INDEX_BEGIN : Z := 105.
Definition DB_RETRY_COUNT : nat := 2.
Definition TOKEN_TTL_SEC : Z := 300.

(** The number of a reason in the protocol. *)
Definition leave_code (r : LeaveReason) : Z :=
  match r with LR_NONE => 0 | LR_RECALLED => 1 | LR_DEAD => 2 | LR_DISCONNECTED => 3 end.

(** [D2MUpdateEntryToken]. *)
Record D2MUpdateEntryToken := mk_update_token {
  ut_size : Z; ut_port : Z; ut_ticket_ids : list string; ut_session_ids : list Z;
  ut_entry_tokens : list string; ut_security_keys : list Z }.

Section handlers.
Context {R : Redis} {M : Mysql} {E : MainEnv}.
Local Abbreviation Mn := (Main R M).

(** ** From the HTTP server *)

Definition Handle_H2M_MatchMake (ticketKey : string) : EX Mn bool :=
  catch_redis (
    val ← redis_hgetall ticketKey;
    if decide (val = ∅) then mret false
    else
      uid ← or_throw (val !! "uid" ≫= stoi);
      aggr ← or_throw (val !! "aggression" ≫= stoi);
      mid ← or_throw (val !! "map_id" ≫= stoi);
      ctype ← or_throw (val !! "character_type" ≫= stoi);
      p ← exget m_nextTicket;
      _ ← exmod (fun m => m <| m_tickets ::= <[ p := new_MatchTicket ticketKey uid aggr mid ctype (m_now m) ]> |>
                            <| m_nextTicket ::= Z.succ |>);
      ok ← (fun m => let '(ok, m') := AddSingleMatchTicket_main p m in (inr ok, m'));
      if (ok : bool) then mret true
      else _ ← exmod (fun m => m <| m_tickets ::= delete p |>); mret false)
    (mret false).

(** The cancellation itself is in Redis, where the round sees it. *)
Definition Handle_H2M_MatchMakeCancel (ticketKey : string) : EX Mn bool := mret true.

Definition BindClientIpToSession (token ip : string) : EX Mn unit :=
  catch_all (
    optFdStr ← redis_hget token "fd";
    match optFdStr with
    | None => mret tt
    | Some fdStr =>
        dediFd ← or_throw (stoi fdStr);
        pid ← exget (fun m => _sessionFd2pid m !! dediFd);
        match pid with
        | None => mret tt
        | Some pid =>
            session ← exget (fun m => _dediSessions m !! pid);
            match session with
            | None => mret tt
            | Some _ =>
                _ ← exmod (emit_main (OutBindIp pid token ip));
                optTicketStr ← redis_hget token "ticket";
                redis_del (match optTicketStr with Some ticketKey => [token; ticketKey] | None => [token] end)
            end
        end
    end)
    (mret tt).

(** ** From a dedicated process: [fd] is the socket of the session *)

Definition RegisterDBRequest (r : PendingDBRequest) : EX Mn unit := exmod (fun m => m <| _requestQueue ::= fun q => q ++ [r] |>).

(** The accessors with an index are outside the message when it is too short. *)
Definition Handle_D2M_UpdateEntryToken (fd : Z) (pkt : D2MUpdateEntryToken) : EX Mn bool := fun m =>
  if ut_size pkt =? -1 then (inr false, m)
  else if ut_size pkt <? 0 then (inl StdException, m)   (* reserve *)
  else
    let n := Z.to_nat (ut_size pkt) in
    if (n <=? length (ut_ticket_ids pkt))%nat && (n <=? length (ut_session_ids pkt))%nat &&
       (n <=? length (ut_entry_tokens pkt))%nat && (n <=? length (ut_security_keys pkt))%nat then
      (_ ← RegisterDBRequest (UpdateEntryTokenRequest fd (take n (ut_ticket_ids pkt)) (take n (ut_session_ids pkt))
             (take n (ut_entry_tokens pkt)) (take n (ut_security_keys pkt)) (ut_port pkt));
       mret true) m
    else (inl Undefined, m).

(** The slot numbers of the room become those of the table. *)
Definition table_row (begin : Z) (s : ItemSlot) : SlotRow :=
  mk_slot_row (is_item_id s) (begin + is_slot_index s) (is_quantity s).
Definition Handle_D2M_NotifyPlayerLeft (fd : Z) (pkt : D2MNotifyPlayerLeft) : EX Mn bool :=
  let slots := map (table_row INVENTORY_SLOT_INDEX_BEGIN) (pl_inventory pkt)
               ++ map (table_row LOADOUT_SLOT_INDEX_BEGIN) (pl_equipment pkt) in
  _ ← RegisterDBRequest (NotifyPlayerLeftRequest fd (pl_uid pkt) (leave_code (pl_leave_reason pkt)) slots);
  mret true.

(** [pid] of an [M2DSession]; [None] is another kind of session. *)
Definition Handle_D2M_NotifyRoomDestroyed (pid : option Z) (player_count : Z) : EX Mn bool :=
  match pid with
  | None => mret false
  | Some pid => _ ← exmod (upd_dedi pid (ReleasePlayers player_count)); mret true
  end.

(** ** Entry tokens *)

(** The address the clients are told. *)
Fixpoint find_ip (l : list (string * option string)) (resultIP : string) : string :=
  match l with
  | [] => resultIP
  | (ifName, Some ip) :: l' =>
      if String.eqb ifName "lo" then find_ip l' resultIP
      else if String.eqb ifName "eth0" then ip else find_ip l' ip
  | (_, None) :: l' => find_ip l' resultIP
  end.
Definition GetLocalIp : string :=
  match me_interfaces with Some l => find_ip l "127.0.0.1" | None => "127.0.0.1" end.
Definition serverIp : string := default GetLocalIp me_instance_ip.

Definition hset_all (key : string) (fields : list (string * string)) (s : r_state) : r_state :=
  foldl (fun s f => r_hset key f.1 f.2 s) s fields.

(** One player: the lookups go out at once, the writes are collected in the pipeline. *)
Record Entry := mk_entry { en_ticket : string; en_session : Z; en_token : string; en_key : Z }.
Definition entry_commands (fd port : Z) (e : Entry) (loadout uid : option string) : list (r_state -> r_state) :=
  match uid with
  | Some u => [r_set ("active_match:" +:+ u) ("INGAME:" +:+ en_ticket e) ACTIVE_MATCH_TTL_SEC]
  | None => []
  end ++
  [hset_all (en_ticket e) [("status", "SUCCESS"); ("token", en_token e)];
   hset_all (en_token e)
    [("udp_server_ip", serverIp); ("port", to_string port); ("session_id", to_string (en_session e));
     ("security_key", to_string (en_key e)); ("fd", to_string fd); ("ticket", en_ticket e);
     ("loadout_type", default "FREE" loadout)];
   r_expire (en_token e) TOKEN_TTL_SEC].

Fixpoint collect (fd port : Z) (es : list Entry) : EX Mn (list (r_state -> r_state)) :=
  match es with
  | [] => mret []
  | e :: es' =>
      loadout ← redis_hget (en_ticket e) "loadout_type";
      uid ← redis_hget (en_ticket e) "uid";
      ws ← collect fd port es';
      mret (entry_commands fd port e loadout uid ++ ws)
  end.
(** [pipe.exec()]: a connection that breaks leaves a beginning of the commands done. *)
Definition pipeline (ws : list (r_state -> r_state)) : EX Mn unit := ex_for ws (fun w => redis (fun s => (tt, w s))).

Definition entries (ticketIds : list string) (sessionIds : list Z) (tokens : list string) (keys : list Z) : list Entry :=
  map (fun q => mk_entry q.1.1.1 q.1.1.2 q.1.2 q.2) (zip (zip (zip ticketIds sessionIds) tokens) keys).

Definition Execute_UpdateEntryToken (fd : Z) (es : list Entry) (port : Z) : EX Mn unit :=
  catch_redis (
    ws ← collect fd port es;
    pipeline ws)
    (mret tt).

(** ** The inventory of a player who left *)

Local Abbreviation Db := (Database db_state).
Definition sql (f : Db -> option Db) : EX Mn unit := fun m =>
  let '(o, r) := call SqlError (fun d => match f d with Some d' => (true, d') | None => (false, d) end) (m_db m) in
  let m' := m <| m_db := r |> in
  match o with inl e => (inl e, m') | inr true => (inr tt, m') | inr false => (inl SqlError, m') end.

Definition setAutoCommit (b : bool) : EX Mn unit := sql (fun d => Some (
  if b then d <| committed := working d |> <| autocommit := true |>
  else if autocommit d then d <| working := committed d |> <| autocommit := false |> else d)).
(** A statement: outside a transaction its effect is published at once. *)
Definition statement (f : db_state -> option db_state) : EX Mn unit := sql (fun d =>
  w ← f (working d);
  Some (if autocommit d then d <| working := w |> <| committed := w |> else d <| working := w |>)).
Definition sql_delete (uid slot : Z) : EX Mn unit := statement (fun d => Some (db_delete uid slot d)).
Definition sql_insert (r : InvRow) : EX Mn unit := statement (db_insert r).
Definition sql_commit : EX Mn unit := sql (fun d => Some (d <| committed := working d |>)).
Definition sql_rollback : EX Mn unit := sql (fun d => Some (d <| working := committed d |>)).

Definition catch_sql {A} (m k : EX Mn A) : EX Mn A :=
  catch m (fun e => match e with SqlError => Some k | _ => None end).

(** *** The handle ([MysqlHandle])

    A call of the driver says yes or no, or throws: that the request is lost stands for
    no, that the reply is lost for an exception. *)
Definition probe (f : Db -> Db) : EX Mn bool := fun m =>
  let d := r_data (m_db m) in
  match r_answers (m_db m) with
  | [] => (inr true, m <| m_db := mk_remote (f d) [] |>)
  | Answered :: l => (inr true, m <| m_db := mk_remote (f d) l |>)
  | LostRequest :: l => (inr false, m <| m_db := mk_remote d l |>)
  | LostReply :: l => (inl SqlError, m <| m_db := mk_remote d l |>)
  end.
(** A new session: the server has dropped what the old one had not committed. *)
Definition new_session (d : Db) : Db := d <| working := committed d |> <| autocommit := true |> <| connected := true |>.
Definition drop_connection : EX Mn unit := exmod (fun m => m <| m_db ::= fun r => r <| r_data ::= fun d => d <| connected := false |> |> |>).
Definition setSchema : EX Mn unit := sql Some.
(** [Get]: whether it returns a connection. *)
Definition Get : EX Mn bool :=
  catch_sql (
    conn ← exget (fun m => connected (r_data (m_db m)));
    valid ← (if (conn : bool) then probe id else mret false : EX Mn bool);   (* isValid *)
    if (valid : bool) then mret true
    else
      back ← (if (conn : bool) then probe new_session else mret false : EX Mn bool);   (* reconnect *)
      if (back : bool) then _ ← setSchema; mret true
      else
        _ ← drop_connection;
        _ ← sql (fun d => Some (new_session d));   (* connect *)
        _ ← setSchema;
        mret true)
    (_ ← drop_connection; mret false).

Definition inv_row (uid : Z) (r : SlotRow) : InvRow := mk_row uid (i32 (sr_itemId r)) (sr_slotIndex r) (sr_quantity r).

Definition transaction (uid : Z) (slots : list SlotRow) : EX Mn bool :=
  _ ← setAutoCommit false;
  _ ← sql_delete uid INVENTORY_SLOT_INDEX_BEGIN;
  _ ← ex_for slots (fun row => sql_insert (inv_row uid row));
  _ ← sql_commit;
  _ ← setAutoCommit true;
  mret true.

Definition ApplyInventoryToDb (uid : Z) (slots : list SlotRow) : EX Mn bool :=
  if uid <? 0 then mret true
  else
    conn ← Get;
    if negb conn then mret false
    else catch_sql (transaction uid slots)
           (_ ← catch_sql (_ ← sql_rollback; setAutoCommit true) (mret tt); mret false).

Fixpoint attempts (n : nat) (uid : Z) (slots : list SlotRow) : EX Mn bool :=
  match n with
  | O => mret false
  | S n' => applied ← ApplyInventoryToDb uid slots; if (applied : bool) then mret true else attempts n' uid slots
  end.

Definition lock_key (uid : Z) : string := "active_match:" +:+ to_string uid.
Definition Execute_NotifyPlayerLeft (uid : Z) (slots : list SlotRow) : EX Mn unit :=
  _ ← attempts DB_RETRY_COUNT uid slots;
  catch_redis (redis_del [lock_key uid]) (mret tt).

(** ** The queue *)

Definition Execute (r : PendingDBRequest) : EX Mn unit :=
  match r with
  | UpdateEntryTokenRequest fd ticketIds sessionIds tokens keys port =>
      Execute_UpdateEntryToken fd (entries ticketIds sessionIds tokens keys) port
  | NotifyPlayerLeftRequest _ uid _ slots => Execute_NotifyPlayerLeft uid slots
  end.

(** [while (!_requestQueue.empty())]: a request adds none, so the queue found is the
    queue done. *)
Fixpoint execute_loop (n : nat) : EX Mn unit := fun m =>
  match n, _requestQueue m with
  | O, _ | _, [] => (inr tt, m)
  | S n', r :: q => (_ ← Execute r; execute_loop n') (m <| _requestQueue := q |>)
  end.
Definition ExecuteAll : EX Mn bool := fun m =>
  match _requestQueue m with
  | [] => (inr false, m)
  | q => (_ ← execute_loop (length q); mret true) m
  end.
End handlers.

(** ** Lemmas on the transaction *)

Section transactions.
Context {R : Redis} {M : Mysql} {E : MainEnv} {LM : MysqlLaws M}.
Local Abbreviation Mn := (Main R M).
Local Abbreviation Db := (Database db_state).

(** The rows a raid does not touch, and what the table is to hold in the end. *)
Definition untouched (uid : Z) (r : InvRow) : bool :=
  negb ((iv_uid r =? uid) && (INVENTORY_SLOT_INDEX_BEGIN <=? iv_slot_index r)).
Definition target_rows (uid : Z) (slots : list SlotRow) (old : list InvRow) : list InvRow :=
  map (inv_row uid) slots ++ List.filter (untouched uid) old.

Section one.
(** [old] is what was committed when the request began, [held] what the session saw: they
    differ when an earlier transaction was neither committed nor rolled back. *)
Context (uid : Z) (slots : list SlotRow) (old held : list InvRow).
Hypothesis Hslots : Forall (fun s => INVENTORY_SLOT_INDEX_BEGIN <= sr_slotIndex s) slots.

(** The rows the player's are exchanged in. *)
Definition is_base (base : list InvRow) : Prop := base = old \/ base = held.
Definition settled (base : list InvRow) (d : db_state) : Prop :=
  Permutation (db_rows d) old \/ Permutation (db_rows d) (target_rows uid slots base).
Definition same_outside (base : list InvRow) (d : db_state) : Prop :=
  Permutation (List.filter (untouched uid) (db_rows d)) (List.filter (untouched uid) base).
(** Between the statements. *)
Definition mid (d : Db) : Prop := exists base, is_base base /\ settled base (committed d) /\ same_outside base (working d).

Lemma filter_Permutation {A} (f : A -> bool) l l' : Permutation l l' -> Permutation (List.filter f l) (List.filter f l').
Proof. induction 1; cbn; repeat case_match; eauto using Permutation. Qed.

Lemma filter_filter_same {A} (f : A -> bool) l : List.filter f (List.filter f l) = List.filter f l.
Proof. induction l as [|x l IH]; [done|]. cbn. destruct (f x) eqn:Hf; cbn; rewrite ?Hf, IH; done. Qed.

Lemma inside s : s ∈ slots -> untouched uid (inv_row uid s) = false.
Proof.
  intros Hs. rewrite Forall_forall in Hslots. specialize (Hslots s Hs). unfold untouched. cbn.
  rewrite Z.eqb_refl. by rewrite (proj2 (Z.leb_le _ _) Hslots).
Qed.

Lemma target_outside base : Permutation (List.filter (untouched uid) (target_rows uid slots base)) (List.filter (untouched uid) base).
Proof.
  unfold target_rows. rewrite List.filter_app, filter_filter_same.
  assert (H : List.filter (untouched uid) (map (inv_row uid) slots) = []).
  { assert (Hi := inside). clear Hslots. induction slots as [|s l IH]; [done|]. cbn. rewrite Hi by (by left).
    apply IH. intros x Hx. apply Hi. by right. }
  by rewrite H.
Qed.

(** What is committed is a table to begin with. *)
Lemma settled_again base d : is_base base -> settled base d ->
  exists base', is_base base' /\ settled base' d /\ same_outside base' d.
Proof.
  intros Hb [H|H]; [exists old|exists base]; unfold settled, same_outside; rewrite (filter_Permutation _ _ _ H).
  - split_and!; [by left|by left|done].
  - split_and!; [done|by right|apply target_outside].
Qed.
Lemma mid_reset d d' : mid d -> committed d' = committed d -> working d' = committed d -> mid d'.
Proof.
  intros (base & Hb & Hs & _) Ec Ew. unfold mid. rewrite Ec, Ew. by apply (settled_again base).
Qed.

(** [sql] from [P]: to [Q] when it returns, to [X] when it throws; it touches only the
    database. *)
Definition dbtriple {A} (P : Db -> Prop) (x : EX Mn A) (Q : A -> Db -> Prop) (X : Db -> Prop) : Prop :=
  forall m, P (r_data (m_db m)) ->
  let '(o, m') := x m in
  m' = m <| m_db := m_db m' |> /\
  match o with
  | inr a => Q a (r_data (m_db m'))
  | inl e => e = SqlError /\ X (r_data (m_db m'))
  end.

Lemma dbtriple_bind {A B} P (x : EX Mn A) Q (k : A -> EX Mn B) T X :
  dbtriple P x Q X -> (forall a, dbtriple (Q a) (k a) T X) -> dbtriple P (x ≫= k) T X.
Proof.
  intros Hx Hk m Hm. specialize (Hx m Hm). unfold mbind, EX_bind. destruct (x m) as [[e|a] m1]; [done|].
  destruct Hx as [H1 H2]. specialize (Hk a m1 H2). destruct (k a m1) as [o m2]. destruct Hk as [H3 H4].
  split; [|done]. rewrite H3, H1. by destruct m.
Qed.
Lemma dbtriple_ret {A} (a : A) (Q : A -> Db -> Prop) X : dbtriple (Q a) (mret a) Q X.
Proof. intros m Hm. by destruct m. Qed.
Lemma dbtriple_weaken {A} (P P' : Db -> Prop) (x : EX Mn A) (Q Q' : A -> Db -> Prop) (X X' : Db -> Prop) :
  (forall d, P d -> P' d) -> (forall a d, Q' a d -> Q a d) -> (forall d, X' d -> X d) ->
  dbtriple P' x Q' X' -> dbtriple P x Q X.
Proof.
  intros H1 H2 H3 Hx m Hm. specialize (Hx m (H1 _ Hm)). destruct (x m) as [[e|a] m'].
  - destruct Hx as (H4 & H5 & H6). auto.
  - destruct Hx as [H4 H5]. auto.
Qed.
Lemma dbtriple_sql P f (Q X : Db -> Prop) :
  (forall d, P d -> X d) -> (forall d d', P d -> f d = Some d' -> Q d' /\ X d') -> dbtriple P (sql f) (fun _ => Q) X.
Proof.
  intros HX HQ m Hm. unfold sql.
  destruct (call SqlError _ (m_db m)) as [o r] eqn:Ec. apply call_data in Ec.
  specialize (HX _ Hm). specialize (HQ (r_data (m_db m))).
  destruct (f (r_data (m_db m))) as [d'|] eqn:Ef; cbn in Ec.
  - destruct (HQ d' Hm eq_refl) as [H1 H2]. destruct o as [e|b]; destruct Ec as [-> Hr]; cbn.
    + split_and!; [done|done|]. by destruct Hr as [Hr|Hr]; rewrite Hr.
    + split; [done|]. by rewrite Hr.
  - destruct o as [e|b]; destruct Ec as [-> Hr]; cbn.
    + split_and!; [done|done|]. by destruct Hr as [Hr|Hr]; rewrite Hr.
    + split_and!; [done|done|]. by rewrite Hr.
Qed.
Lemma dbtriple_catch {A} P (x k : EX Mn A) Q X X' :
  dbtriple P x Q X -> dbtriple X k Q X' -> dbtriple P (catch_sql x k) Q X'.
Proof.
  intros Hx Hk m Hm. specialize (Hx m Hm). unfold catch_sql, catch. destruct (x m) as [[e|a] m1].
  - destruct Hx as (H1 & -> & H2). specialize (Hk m1 H2). destruct (k m1) as [o m2]. destruct Hk as [H3 H4].
    split; [|done]. rewrite H3, H1. by destruct m.
  - by destruct Hx.
Qed.

(** The statements, from the middle of whatever came before. *)
Definition inserted (l : list SlotRow) (d : Db) : Prop :=
  autocommit d = false /\ exists base, is_base base /\ settled base (committed d) /\
    Permutation (db_rows (working d)) (map (inv_row uid) l ++ List.filter (untouched uid) base).

Lemma inserted_mid l d : (forall s, s ∈ l -> s ∈ slots) -> inserted l d -> mid d.
Proof.
  intros Hl (_ & base & Hb & H1 & H2). exists base. split_and!; [done|done|]. unfold same_outside. rewrite (filter_Permutation _ _ _ H2).
  rewrite List.filter_app, filter_filter_same.
  assert (Hn : List.filter (untouched uid) (map (inv_row uid) l) = []); [|by rewrite Hn].
  assert (Hi := inside). clear - Hi Hl. induction l as [|s l IH]; [done|]. cbn. rewrite Hi by (apply Hl; by left).
  apply IH. intros x Hx. apply Hl. by right.
Qed.

Definition opened (d : Db) : Prop := autocommit d = false /\ mid d.
Lemma begin_ok d : mid d ->
  opened (if autocommit d then d <| working := committed d |> <| autocommit := false |> else d).
Proof.
  intros H. destruct (autocommit d) eqn:Ea; [|by split]. split; [done|]. by apply (mid_reset d).
Qed.
Lemma begin_triple : dbtriple mid (setAutoCommit false) (fun _ => opened) mid.
Proof.
  apply dbtriple_sql; [done|]. intros d d' Hd [= <-]. pose proof (begin_ok d Hd) as H.
  split; [exact H|]. apply H.
Qed.

Lemma delete_ok d : autocommit d = false -> mid d ->
  inserted [] (d <| working := db_delete uid INVENTORY_SLOT_INDEX_BEGIN (working d) |>).
Proof.
  intros Ha (base & Hb & H1 & H2). split; [done|]. exists base. split_and!; [done|done|]. cbn. rewrite rows_delete. exact H2.
Qed.
Lemma delete_triple : dbtriple opened (sql_delete uid INVENTORY_SLOT_INDEX_BEGIN) (fun _ => inserted []) mid.
Proof.
  apply dbtriple_sql; [by intros d [_ Hd]|]. intros d d' (Ha & Hm). rewrite Ha. intros [= <-].
  pose proof (delete_ok d Ha Hm) as H.
  split; [done|]. apply (inserted_mid []); [by intros s ?%elem_of_nil|done].
Qed.

Lemma insert_ok l s d w : inserted l d -> db_insert (inv_row uid s) (working d) = Some w ->
  inserted (l ++ [s]) (d <| working := w |>).
Proof.
  intros (Ha & base & Hb & H1 & H2) Hw. split; [done|]. exists base. split_and!; [done|done|]. cbn. rewrite (rows_insert _ _ _ Hw), H2.
  rewrite map_app, <- app_assoc. cbn. apply Permutation_middle.
Qed.

Lemma inserts_triple l k : (forall s, s ∈ l ++ k -> s ∈ slots) ->
  dbtriple (inserted l) (ex_for k (fun row => sql_insert (inv_row uid row))) (fun _ => inserted (l ++ k)) mid.
Proof.
  revert l. induction k as [|s k IH]; intros l Hl; cbn [ex_for].
  - rewrite app_nil_r. apply (dbtriple_ret tt (fun _ => inserted l)).
  - apply (dbtriple_bind _ _ (fun _ => inserted (l ++ [s]))).
    + apply dbtriple_sql.
      * intros d Hd. apply (inserted_mid l); [|done]. intros x Hx. apply Hl. rewrite elem_of_app. by left.
      * intros d d' Hd Hf. pose proof (proj1 Hd) as Ha. rewrite Ha in Hf.
        destruct (db_insert (inv_row uid s) (working d)) as [w|] eqn:Hw; [|done]. injection Hf as <-.
        pose proof (insert_ok l s d w Hd Hw) as H. split; [exact H|].
        apply (inserted_mid (l ++ [s])); [|exact H]. intros x Hx. apply Hl. clear -Hx. set_solver.
    + intros []. specialize (IH (l ++ [s])). rewrite <- app_assoc in IH. by apply IH.
Qed.

(** The table is as the request wants it, in and out of the transaction. *)
Definition done_db (d : Db) : Prop := exists base, is_base base /\
  Permutation (db_rows (committed d)) (target_rows uid slots base) /\
  Permutation (db_rows (working d)) (target_rows uid slots base).
Lemma done_mid d : done_db d -> mid d.
Proof.
  intros (base & Hb & H1 & H2). exists base. split_and!; [done|by right|]. unfold same_outside. rewrite (filter_Permutation _ _ _ H2).
  apply target_outside.
Qed.
(** Publishing what has been inserted. *)
Lemma commit_ok d b : inserted slots d -> done_db (mk_database (working d) (working d) b (connected d)).
Proof. intros (_ & base & Hb & _ & H). by exists base. Qed.

Lemma transaction_triple : dbtriple mid (transaction uid slots) (fun ok d => ok = true /\ done_db d) mid.
Proof.
  unfold transaction. eapply dbtriple_bind; [apply begin_triple|]. intros [].
  eapply dbtriple_bind; [apply delete_triple|]. intros [].
  eapply dbtriple_bind; [apply (inserts_triple [] slots); done|]. intros []. cbn [app].
  eapply (dbtriple_bind _ _ (fun _ => done_db)).
  { apply dbtriple_sql; [intros d; by apply inserted_mid|]. intros d d' Hd [= <-].
    pose proof (commit_ok d (autocommit d) Hd) as H. split; [exact H|by apply done_mid]. }
  intros []. eapply (dbtriple_bind _ _ (fun _ => done_db)).
  { apply dbtriple_sql; [apply done_mid|]. intros d d' (base & Hb & H1 & H2) [= <-].
    assert (H : done_db (d <| committed := working d |> <| autocommit := true |>)) by by exists base.
    split; [done|by apply done_mid]. }
  intros []. intros m Hm. by destruct m.
Qed.

(** The handle gives a connection or none; a new session starts from what is committed. *)
Lemma dbtriple_probe (P : Db -> Prop) f : (forall d, P d -> P (f d)) -> dbtriple P (probe f) (fun _ => P) P.
Proof.
  intros Hf m Hm. unfold probe. destruct (r_answers (m_db m)) as [|[] l]; cbn; (split; [done|]); auto.
Qed.
Lemma mid_session d : mid d -> mid (new_session d).
Proof. intros H. by apply (mid_reset d). Qed.
Lemma dbtriple_drop (P : Db -> Prop) X : (forall d, P d -> P (d <| connected := false |>)) -> dbtriple P drop_connection (fun _ => P) X.
Proof. intros Hf m Hm. cbn. split; [done|]. by apply Hf. Qed.
Lemma Get_triple : dbtriple mid Get (fun _ => mid) (fun _ => False).
Proof.
  assert (Hdrop : forall X, dbtriple mid drop_connection (fun _ => mid) X) by (intros X; by apply dbtriple_drop).
  assert (Hset : dbtriple mid setSchema (fun _ => mid) mid) by (apply dbtriple_sql; [done|]; by intros d d' H [= <-]).
  assert (Hret : forall (b : bool) X, dbtriple mid (mret b) (fun _ => mid) X) by (intros b X; apply (dbtriple_ret b (fun _ => mid))).
  unfold Get. apply (dbtriple_catch _ _ _ _ mid).
  - eapply (dbtriple_bind _ _ (fun _ => mid)); [by intros m Hm; destruct m|]. intros conn.
    apply (dbtriple_bind _ _ (fun _ => mid)); [destruct conn; [by apply dbtriple_probe|apply Hret]|]. intros []; [apply Hret|].
    apply (dbtriple_bind _ _ (fun _ => mid)); [destruct conn; [apply dbtriple_probe, mid_session|apply Hret]|]. intros [].
    + apply (dbtriple_bind _ _ (fun _ => mid)); [done|]. intros []. apply Hret.
    + apply (dbtriple_bind _ _ (fun _ => mid)); [apply Hdrop|]. intros []. apply (dbtriple_bind _ _ (fun _ => mid)).
      { apply dbtriple_sql; [done|]. intros d d' H [= <-]. by split; apply mid_session. }
      intros []. apply (dbtriple_bind _ _ (fun _ => mid)); [done|]. intros []. apply Hret.
  - apply (dbtriple_bind _ _ (fun _ => mid)); [apply Hdrop|]. intros []. apply Hret.
Qed.

Lemma apply_triple : 0 <= uid ->
  dbtriple mid (ApplyInventoryToDb uid slots) (fun ok d => mid d /\ (ok = true -> done_db d)) (fun _ => False).
Proof.
  intros Hu. unfold ApplyInventoryToDb. rewrite (proj2 (Z.ltb_ge _ _) Hu).
  eapply (dbtriple_bind _ _ (fun _ => mid)); [apply Get_triple|]. intros [].
  - cbn [negb]. apply (dbtriple_catch _ _ _ _ mid).
    + eapply dbtriple_weaken; [| | |apply transaction_triple]; [done| |done]. intros ok d [-> H]. split; [by apply done_mid|done].
    + eapply (dbtriple_bind _ _ (fun _ => mid)).
      * apply (dbtriple_catch _ _ _ _ mid); [|apply (dbtriple_ret tt (fun _ => mid))].
        eapply (dbtriple_bind _ _ (fun _ d => mid d /\ working d = committed d)).
        -- apply dbtriple_sql; [done|]. intros d d' Hd [= <-].
           assert (H : mid (d <| working := committed d |>)) by by apply (mid_reset d). by split.
        -- intros []. apply dbtriple_sql; [by intros d [H _]|]. intros d d' [Hd Hw] [= <-].
           by split; apply (mid_reset d); cbn; rewrite ?Hw.
      * intros []. intros m Hm. by destruct m.
  - intros m Hm. by destruct m.
Qed.

Lemma attempts_triple n : 0 <= uid ->
  dbtriple mid (attempts n uid slots) (fun ok d => mid d /\ (ok = true -> done_db d)) (fun _ => False).
Proof.
  intros Hu. induction n as [|n IH]; cbn [attempts].
  - intros m Hm. by destruct m.
  - eapply dbtriple_bind; [by apply apply_triple|]. intros [].
    + intros m Hm. by destruct m.
    + eapply dbtriple_weaken; [| | |exact IH]; [by intros d [H _]|done|done].
Qed.

(** *** Without failures *)

(** The table takes a row of the user into a free slot. *)
Definition accepts : Prop := forall d r, iv_uid r = uid ->
  (forall r', r' ∈ db_rows d -> iv_uid r' = uid -> iv_slot_index r' <> iv_slot_index r) -> is_Some (db_insert r d).
Hypothesis Haccepts : accepts.
Hypothesis Hdistinct : NoDup (map sr_slotIndex slots).

Definition calmly {A} (P : Db -> Prop) (x : EX Mn A) (Q : A -> Db -> Prop) : Prop := forall m,
  r_answers (m_db m) = [] -> P (r_data (m_db m)) ->
  exists a r, x m = (inr a, m <| m_db := r |>) /\ r_answers r = [] /\ Q a (r_data r).

Lemma calmly_bind {A B} P (x : EX Mn A) Q (k : A -> EX Mn B) T :
  calmly P x Q -> (forall a, calmly (Q a) (k a) T) -> calmly P (x ≫= k) T.
Proof.
  intros Hx Hk m Ha Hm. destruct (Hx m Ha Hm) as (a & r & E1 & H1 & H2). unfold mbind, EX_bind. rewrite E1.
  assert (Em : m_db (m <| m_db := r |>) = r) by by destruct m.
  destruct (Hk a (m <| m_db := r |>)) as (b & r' & E2 & H3 & H4); [by rewrite Em..|]. exists b, r'. rewrite E2.
  split; [by destruct m|done].
Qed.
Lemma calmly_sql P f (Q : Db -> Prop) : (forall d, P d -> exists d', f d = Some d' /\ Q d') ->
  calmly P (sql f) (fun _ => Q).
Proof.
  intros Hf m Ha Hm. destruct (Hf _ Hm) as (d' & Ed & HQ). unfold sql. rewrite call_answered by done.
  rewrite Ed. cbn. by exists tt, (mk_remote d' []).
Qed.
Lemma calmly_ret {A} (a : A) (Q : A -> Db -> Prop) : calmly (Q a) (mret a) Q.
Proof. intros m Ha Hm. exists a, (m_db m). split; [by destruct m|done]. Qed.

Lemma accepted l s d : (forall x, x ∈ l -> x ∈ slots) -> s ∈ slots -> sr_slotIndex s ∉ map sr_slotIndex l ->
  inserted l d -> is_Some (db_insert (inv_row uid s) (working d)).
Proof.
  intros Hl Hs Hn (_ & base & _ & _ & H). apply Haccepts; [done|]. intros r' Hr' Hu. rewrite H in Hr'. cbn.
  apply elem_of_app in Hr' as [Hr'|Hr'].
  - intros Heq. apply list_elem_of_fmap in Hr' as (x & -> & Hx). apply Hn. rewrite <- Heq. cbn.
    by apply (list_elem_of_fmap_2 sr_slotIndex).
  - apply elem_of_filter_bool in Hr' as [Ho _]. unfold untouched in Ho. rewrite Hu, Z.eqb_refl in Ho. cbn in Ho.
    apply negb_true_iff, Z.leb_gt in Ho. rewrite Forall_forall in Hslots. specialize (Hslots s Hs). lia.
Qed.

Lemma inserts_calmly l k : l ++ k = slots ->
  calmly (inserted l) (ex_for k (fun row => sql_insert (inv_row uid row))) (fun _ => inserted slots).
Proof.
  revert l. induction k as [|s k IH]; intros l Hlk; cbn [ex_for].
  - rewrite app_nil_r in Hlk. subst l. apply (calmly_ret tt (fun _ => inserted slots)).
  - apply (calmly_bind _ _ (fun _ => inserted (l ++ [s]))).
    + apply calmly_sql. intros d Hd. destruct (accepted l s d) as [w Hw]; try done.
      * intros x Hx. rewrite <- Hlk, elem_of_app. by left.
      * rewrite <- Hlk, elem_of_app. right. by left.
      * rewrite <- Hlk, map_app in Hdistinct. apply NoDup_app in Hdistinct as (_ & Hd2 & _).
        intros Hin. apply (Hd2 _ Hin). by left.
      * rewrite Hw, (proj1 Hd). cbn. eexists. split; [done|]. by apply insert_ok.
    + intros []. apply IH. by rewrite <- app_assoc.
Qed.

Lemma transaction_calmly :
  calmly (fun d => mid d /\ autocommit d = true) (transaction uid slots) (fun ok d => ok = true /\ done_db d /\ autocommit d = true).
Proof.
  unfold transaction. apply (calmly_bind _ _ (fun _ => opened)).
  { apply calmly_sql. intros d [Hd _]. eexists. split; [done|]. by apply begin_ok. }
  intros []. apply (calmly_bind _ _ (fun _ => inserted [])).
  { apply calmly_sql. intros d (Ha & Hm). rewrite Ha. eexists. split; [done|]. by apply delete_ok. }
  intros []. apply (calmly_bind _ _ (fun _ => inserted slots)); [by apply inserts_calmly|].
  intros []. apply (calmly_bind _ _ (fun _ => done_db)).
  { apply calmly_sql. intros d Hd. eexists. split; [done|]. by apply (commit_ok d). }
  intros []. apply (calmly_bind _ _ (fun _ d => done_db d /\ autocommit d = true)).
  { apply calmly_sql. intros d (base & Hb & H1 & H2). eexists. split; [done|]. split; [by exists base|done]. }
  intros []. intros m Ha [H1 H2]. exists true, (m_db m). split; [by destruct m|done].
Qed.

Lemma Get_calmly : calmly (fun d => mid d /\ autocommit d = true) Get (fun ok d => ok = true /\ mid d /\ autocommit d = true).
Proof.
  intros m Ha [H1 H2]. unfold Get, catch_sql, catch, mbind, EX_bind, exget, probe. destruct (connected (r_data (m_db m))).
  - rewrite Ha. exists true, (mk_remote (r_data (m_db m)) []). by split_and!.
  - unfold setSchema, sql, drop_connection, exmod, mret, EX_ret. cbn. unfold call. cbn. rewrite Ha. cbn.
    exists true, (mk_remote (new_session ((r_data (m_db m)) <| connected := false |>)) []). split_and!; try done. cbn. by apply mid_session.
Qed.
Lemma attempts_calmly n : 0 <= uid ->
  calmly (fun d => mid d /\ autocommit d = true) (attempts (S n) uid slots)
    (fun ok d => ok = true /\ done_db d /\ autocommit d = true).
Proof.
  intros Hu. cbn [attempts]. unfold ApplyInventoryToDb. rewrite (proj2 (Z.ltb_ge _ _) Hu).
  apply (calmly_bind _ _ (fun ok d => ok = true /\ done_db d /\ autocommit d = true)).
  - apply (calmly_bind _ _ _ _ _ Get_calmly). intros ok m Ha (-> & Hm). cbn [negb]. destruct (transaction_calmly m Ha Hm) as (a & r & Et & Hr).
    exists a, r. split; [|done]. unfold catch_sql, catch. by rewrite Et.
  - intros ok m Ha (-> & Hm). by apply (calmly_ret true (fun ok d => ok = true /\ done_db d /\ autocommit d = true)).
Qed.
End one.
End transactions.

Section theorems.
Context {R : Redis} {M : Mysql} {E : MainEnv} {LR : RedisLaws R} {LM : MysqlLaws M}.

(** The handle answers whatever the driver does: with a connection it holds, or with none;
    what was committed stays. *)
Theorem Get_total (m : Main R M) : exists ok r, Get m = (inr ok, m <| m_db := r |>) /\
  connected (r_data r) = ok /\ committed (r_data r) = committed (r_data (m_db m)).
Proof.
  assert (H : dbtriple (fun d => committed d = committed (r_data (m_db m))) Get
    (fun ok d => connected d = ok /\ committed d = committed (r_data (m_db m))) (fun _ => False)).
  { unfold Get. set (P := fun d : Database db_state => committed d = committed (r_data (m_db m))).
    set (T := fun (ok : bool) d => connected d = ok /\ P d).
    assert (Hset : forall c, dbtriple (T c) setSchema (fun _ => T c) P)
      by (intros c; apply dbtriple_sql; [by intros d [_ H]|]; intros d d' [H1 H2] [= <-]; by split).
    assert (Hret : forall b X, dbtriple (T b) (mret b) T X) by (intros b X; apply (dbtriple_ret b T)).
    assert (Hdrop : forall X, dbtriple P drop_connection (fun _ => T false) X) by (intros X m0 H0; by split_and!).
    apply (dbtriple_catch _ _ _ _ P).
    - apply (dbtriple_bind _ _ (fun b d => T b d)); [by intros m0 H0; destruct m0|]. intros conn.
      apply (dbtriple_bind _ _ (fun b d => if b : bool then T true d else P d)).
      { destruct conn; [|intros m0 [H0 H1]; by destruct m0]. intros m0 [H0 H1]. unfold probe.
        destruct (r_answers (m_db m0)) as [|[] l]; by split_and!. }
      intros []; [apply Hret|]. apply (dbtriple_bind _ _ (fun b d => if b : bool then T true d else P d)).
      { destruct conn; [|intros m0 H0; by destruct m0]. intros m0 H0. unfold probe. destruct (r_answers (m_db m0)) as [|[] l]; by split_and!. }
      intros []; [apply (dbtriple_bind _ _ (fun _ => T true)); [done|]; intros []; apply Hret|].
      apply (dbtriple_bind _ _ (fun _ => T false)); [apply Hdrop|]. intros []. apply (dbtriple_bind _ _ (fun _ => T true)).
      { apply dbtriple_sql; [by intros d [_ H]|]. intros d d' [_ H] [= <-]. by split. }
      intros []. apply (dbtriple_bind _ _ (fun _ => T true)); [done|]. intros []. apply Hret.
    - apply (dbtriple_bind _ _ (fun _ => T false)); [apply Hdrop|]. intros []. apply Hret. }
  specialize (H m eq_refl). destruct (Get m) as [[e|ok] m']; destruct H as [Hm H]; [by destruct H|]. exists ok, (m_db m').
  by rewrite <- Hm.
Qed.

(** A departure from a session that holds [held] beside what is committed. *)
Lemma departure_mid uid slots old held (m : Main R M) :
  0 <= uid -> Forall (fun s => INVENTORY_SLOT_INDEX_BEGIN <= sr_slotIndex s) slots ->
  mid uid slots old held (r_data (m_db m)) ->
  let '(o, m') := Execute_NotifyPlayerLeft uid slots m in o = inr tt /\ mid uid slots old held (r_data (m_db m')).
Proof.
  intros Hu Hs Hm. unfold Execute_NotifyPlayerLeft, mbind, EX_bind.
  pose proof (attempts_triple uid slots old held Hs DB_RETRY_COUNT Hu m Hm) as H.
  destruct (attempts DB_RETRY_COUNT uid slots m) as [[e|ok] m1]; [by destruct H as (_ & _ & [])|].
  destruct H as (_ & [H _]). unfold catch_redis, catch, redis_del, redis.
  destruct (call RedisError _ (m_redis m1)) as [o r] eqn:Ec. apply call_data in Ec.
  destruct o as [e|[]]; [destruct Ec as [-> _]|]; by split.
Qed.
Lemma mid_start uid slots (d : Database db_state) : mid uid slots (db_rows (committed d)) (db_rows (working d)) d.
Proof. exists (db_rows (working d)). split; [by right|]. split; [by left|]. unfold same_outside. reflexivity. Qed.

(** C17. A departure changes the table of inventories all or nothing: whatever becomes of
    the statements and of the commands to Redis, the request ends, and what is
    committed is then the table of before or one in which the rows of the player's raid are exactly
    those of the request.  The other rows are in that case the committed ones, or, if
    the session held something uncommitted when the request began, those it
    held: so from a session that held nothing (as a new connection does, or one
    whose last transaction was committed or rolled back) no other row of the table
    changes.  What the request leaves uncommitted are rows of its own player only, beside
    what had been held. *)
Theorem inventory_all_or_nothing uid slots (m : Main R M) :
  0 <= uid -> Forall (fun s => INVENTORY_SLOT_INDEX_BEGIN <= sr_slotIndex s) slots ->
  let d := r_data (m_db m) in
  let old := db_rows (committed d) in
  let held := db_rows (working d) in
  let '(o, m') := Execute_NotifyPlayerLeft uid slots m in
  let d' := r_data (m_db m') in
  o = inr tt /\
  exists base, (base = old \/ base = held) /\
    (Permutation (db_rows (committed d')) old \/ Permutation (db_rows (committed d')) (target_rows uid slots base)) /\
    Permutation (List.filter (untouched uid) (db_rows (working d'))) (List.filter (untouched uid) base).
Proof.
  intros Hu Hs d old held. pose proof (departure_mid uid slots old held m Hu Hs (mid_start uid slots d)) as H.
  destruct (Execute_NotifyPlayerLeft uid slots m) as [o m']. destruct H as [-> H]. split; [done|exact H].
Qed.

(** In any sequence of departures the rows of everybody else, and what the players have
    not taken along, stay as they are, whatever becomes of the statements. *)
Theorem departures_keep_others (l : list (Z * list SlotRow)) (m : Main R M) :
  Forall (fun q => 0 <= q.1 /\ Forall (fun s => INVENTORY_SLOT_INDEX_BEGIN <= sr_slotIndex s) q.2) l ->
  working (r_data (m_db m)) = committed (r_data (m_db m)) ->
  let kept := List.filter (fun r => forallb (fun q => untouched q.1 r) l) in
  let '(o, m') := ex_for l (fun q => Execute_NotifyPlayerLeft q.1 q.2) m in
  o = inr tt /\ Permutation (kept (db_rows (committed (r_data (m_db m'))))) (kept (db_rows (committed (r_data (m_db m))))).
Proof.
  intros Hl Hw kept. set (rows := db_rows (committed (r_data (m_db m)))).
  assert (Hinv : Permutation (kept (db_rows (committed (r_data (m_db m))))) (kept rows) /\
    Permutation (kept (db_rows (working (r_data (m_db m))))) (kept rows)) by by rewrite Hw.
  assert (Hk : forall q, q ∈ l -> forall x y, Permutation (List.filter (untouched q.1) x) (List.filter (untouched q.1) y) -> Permutation (kept x) (kept y)).
  { intros q Hq x y Hxy. assert (Hf : forall z, kept z = kept (List.filter (untouched q.1) z)).
    { intros z. unfold kept. clear -Hq. induction z as [|r z IH]; [done|]. cbn. destruct (untouched q.1 r) eqn:Hr; cbn.
      - by rewrite IH.
      - assert (E : forallb (fun q => untouched q.1 r) l = false); [|by rewrite E].
        apply not_true_iff_false. rewrite forallb_forall. intros H. rewrite (H q) in Hr; [done|by apply list_elem_of_In]. }
    rewrite (Hf x), (Hf y). by apply filter_Permutation. }
  clear Hw. clearbody kept rows. revert m Hinv. induction l as [|[uid slots] l IH]; intros m Hinv; cbn [ex_for]; [by destruct Hinv|].
  apply Forall_cons in Hl as [[Hu Hs] Hl]. cbn [fst snd] in *. unfold mbind, EX_bind.
  pose proof (departure_mid uid slots _ _ m Hu Hs (mid_start uid slots _)) as H.
  destruct (Execute_NotifyPlayerLeft uid slots m) as [o m1]. destruct H as (-> & base & Hb & H1 & H2).
  apply IH; [done|intros q Hq; apply Hk; by right|]. clear IH.
  assert (Hkb : Permutation (kept base) (kept rows)) by (destruct Hb as [->| ->]; apply Hinv).
  split.
  - destruct H1 as [H1|H1].
    + transitivity (kept (db_rows (committed (r_data (m_db m))))); [|apply Hinv].
      apply (Hk (uid, slots)); [by left|]. by apply filter_Permutation.
    + rewrite <- Hkb. apply (Hk (uid, slots)); [by left|]. cbn [fst]. rewrite (filter_Permutation _ _ _ H1). by apply target_outside.
  - rewrite <- Hkb. apply (Hk (uid, slots)); [by left|exact H2].
Qed.

(** The message of a departed player: its rows in the table. *)
Definition left_slots (p : D2MNotifyPlayerLeft) : list SlotRow :=
  map (table_row INVENTORY_SLOT_INDEX_BEGIN) (pl_inventory p) ++ map (table_row LOADOUT_SLOT_INDEX_BEGIN) (pl_equipment p).

Lemma left_slots_ok s : length (_inventorySlots (GetInventory s)) = 25%nat ->
  Forall (fun s => INVENTORY_SLOT_INDEX_BEGIN <= sr_slotIndex s) (left_slots (NotifyPlayerLeftToMain s)) /\
  NoDup (map sr_slotIndex (left_slots (NotifyPlayerLeftToMain s))).
Proof.
  intros Hlen. unfold left_slots, NotifyPlayerLeftToMain. case_bool_decide; [|by split; constructor].
  unfold SerializeInventoryForIPC. cbn [pl_inventory pl_equipment].
  set (l1 := ipc_slots 0 (_inventorySlots _)). set (l2 := ipc_slots 0 [_; _; _]).
  assert (H1 : forall r, r ∈ l1 -> 0 <= is_slot_index r < 25).
  { intros r Hr. pose proof (ipc_slots_index _ 0 r ltac:(lia) Hr) as Hb. rewrite Hlen in Hb. lia. }
  assert (H2 : forall r, r ∈ l2 -> 0 <= is_slot_index r < 3).
  { intros r Hr. pose proof (ipc_slots_index _ 0 r ltac:(lia) Hr) as Hb. cbn in Hb. lia. }
  assert (Hm : forall b l, map sr_slotIndex (map (table_row b) l) = map (Z.add b) (map is_slot_index l)).
  { intros b l. rewrite !map_map. done. }
  split.
  - rewrite Forall_app, !Forall_map. split; rewrite Forall_forall; intros r Hr; cbn;
      unfold INVENTORY_SLOT_INDEX_BEGIN, LOADOUT_SLOT_INDEX_BEGIN; [apply H1 in Hr|apply H2 in Hr]; lia.
  - rewrite map_app, !Hm. apply NoDup_app. split_and!.
    + apply NoDup_fmap; [intros x y; lia|]. apply ipc_slots_NoDup. lia.
    + intros x (a & -> & (r & -> & Hr)%list_elem_of_fmap)%list_elem_of_fmap (b & Heq & (r' & -> & Hr')%list_elem_of_fmap)%list_elem_of_fmap.
      apply H1 in Hr. apply H2 in Hr'. unfold INVENTORY_SLOT_INDEX_BEGIN, LOADOUT_SLOT_INDEX_BEGIN in Heq. lia.
    + apply NoDup_fmap; [intros x y; lia|]. apply ipc_slots_NoDup. lia.
Qed.

(** *** Tokens *)

Lemma redis_calm {A} (f : r_state -> A * r_state) (m : Main R M) : r_answers (m_redis m) = [] ->
  redis f m = (inr (fst (f (r_data (m_redis m)))), m <| m_redis := mk_remote (snd (f (r_data (m_redis m)))) [] |>).
Proof. intros H. unfold redis. by rewrite call_answered. Qed.
Lemma redis_hget_calm k f (m : Main R M) : r_answers (m_redis m) = [] ->
  redis_hget k f m = (inr (r_hget k f (r_data (m_redis m))), m).
Proof. intros H. unfold redis_hget. rewrite redis_calm by done. destruct m as [[d a]]. cbn in *. by rewrite H. Qed.

(** The commands of one player, one after the other. *)
Definition run_commands (ws : list (r_state -> r_state)) (s : r_state) : r_state := foldl (fun s (w : r_state -> r_state) => w s) s ws.
Definition writes_of (fd port : Z) (e : Entry) (w : r_state -> r_state) : Prop :=
  exists loadout uid, w = run_commands (entry_commands fd port e loadout uid).
Lemma collect_calm fd port es (m : Main R M) : r_answers (m_redis m) = [] ->
  exists ws, collect fd port es m = (inr (concat ws), m) /\ Forall2 (writes_of fd port) es (map run_commands ws).
Proof.
  intros H. induction es as [|e es (ws & E1 & E2)]; cbn [collect]; [by exists []; split; [done|constructor]|].
  unfold mbind, EX_bind. rewrite !redis_hget_calm, E1 by done. eexists (_ :: ws). split; [done|]. constructor; [|done]. by do 2 eexists.
Qed.
Lemma pipeline_calm ws (m : Main R M) : r_answers (m_redis m) = [] ->
  pipeline ws m = (inr tt, m <| m_redis := mk_remote (run_commands ws (r_data (m_redis m))) [] |>).
Proof.
  revert m. induction ws as [|w ws IH]; intros m H; cbn [pipeline ex_for].
  - destruct m as [[d a]]. cbn in *. by subst.
  - unfold mbind, EX_bind. rewrite redis_calm by done. cbn [fst snd]. unfold pipeline in IH. rewrite IH by (by destruct m). by destruct m.
Qed.
(** The request of a group when every command is answered. *)
Lemma tokens_written fd port es (m : Main R M) : r_answers (m_redis m) = [] ->
  exists ws, Forall2 (writes_of fd port) es ws /\ Execute_UpdateEntryToken fd es port m =
    (inr tt, m <| m_redis := mk_remote (foldl (fun s (w : r_state -> r_state) => w s) (r_data (m_redis m)) ws) [] |>).
Proof.
  intros H. destruct (collect_calm fd port es m H) as (ws & Ec & Hws). exists (map run_commands ws). split; [done|].
  unfold Execute_UpdateEntryToken, catch_redis, catch, mbind, EX_bind. rewrite Ec, pipeline_calm by done.
  assert (Hr : forall s, run_commands (concat ws) s = foldl (fun s (w : r_state -> r_state) => w s) s (map run_commands ws)).
  { clear. induction ws as [|w ws IH]; intros s; [done|]. cbn [concat map foldl]. unfold run_commands at 1. rewrite foldl_app. apply IH. }
  by rewrite Hr.
Qed.

Lemma hset_all_other k k' fs s : k <> k' -> r_hgetall k' (hset_all k fs s) = r_hgetall k' s.
Proof.
  intros Hk. unfold hset_all. revert s. induction fs as [|f fs IH]; intros s; [done|]. cbn. rewrite IH.
  by apply hgetall_hset_ne.
Qed.

Lemma writes_self fd port e w s : writes_of fd port e w ->
  r_hget (en_token e) "fd" (w s) = Some (to_string fd) /\ r_hget (en_token e) "ticket" (w s) = Some (en_ticket e).
Proof.
  intros (lo & u & ->). unfold entry_commands, run_commands, r_hget. rewrite foldl_app. cbn [foldl].
  rewrite hgetall_expire. unfold hset_all at 1 3. cbn [foldl fst snd].
  rewrite !hgetall_hset. split; by simplify_map_eq.
Qed.
Lemma writes_other fd port e w s k : writes_of fd port e w ->
  en_token e <> k -> en_ticket e <> k -> (forall u, k <> "active_match:" +:+ u) -> r_hgetall k (w s) = r_hgetall k s.
Proof.
  intros (lo & u & ->) H1 H2 H3. unfold entry_commands, run_commands. rewrite foldl_app. cbn [foldl].
  rewrite hgetall_expire, !hset_all_other by done.
  destruct u as [u|]; [|done]. apply hgetall_set_ne. intros Heq. by apply (H3 u).
Qed.

Lemma writes_kept fd port es ws k s : Forall2 (writes_of fd port) es ws ->
  (forall e, e ∈ es -> en_token e <> k /\ en_ticket e <> k) -> (forall u, k <> "active_match:" +:+ u) ->
  r_hgetall k (foldl (fun s (w : r_state -> r_state) => w s) s ws) = r_hgetall k s.
Proof.
  intros Hw He Hu. revert s. induction Hw as [|e w es ws Hw1 Hw IH]; intros s; [done|]. cbn [foldl].
  rewrite IH by (intros e' H; apply He; by right). destruct (He e) as [H1 H2]; [by left|]. by apply (writes_other fd port e).
Qed.
(** The writes of a request leave in a key of one of its players what the writes for that player put there. *)
Lemma writes_last fd port es ws e k s : Forall2 (writes_of fd port) es ws -> e ∈ es -> NoDup (map en_token es) ->
  (forall e', e' ∈ es -> en_token e' <> en_token e -> en_token e' <> k /\ en_ticket e' <> k) ->
  (forall u, k <> "active_match:" +:+ u) ->
  exists w s1, writes_of fd port e w /\ r_hgetall k (foldl (fun s (w : r_state -> r_state) => w s) s ws) = r_hgetall k (w s1).
Proof.
  intros Hw He Hd Hk Hu. apply list_elem_of_split in He as (l1 & l2 & ->).
  apply Forall2_app_inv_l in Hw as (ws1 & ws2 & _ & Hw & ->). apply Forall2_cons_inv_l in Hw as (w & ws2' & Hw1 & Hw2 & ->).
  exists w, (foldl (fun s (w : r_state -> r_state) => w s) s ws1). split; [done|]. rewrite foldl_app. cbn [foldl].
  apply (writes_kept fd port l2); [done| |done]. intros e' He'. apply Hk; [apply elem_of_app; right; by right|].
  rewrite map_app in Hd. apply NoDup_app in Hd as (_ & _ & Hd). cbn in Hd. apply NoDup_cons in Hd as [Hd _].
  intros Heq. apply Hd. rewrite <- Heq. by apply (list_elem_of_fmap_2 en_token).
Qed.

(** The writes of a request leave a token of it bound to its socket and ticket. *)
Lemma token_written fd port es ws e s : Forall2 (writes_of fd port) es ws -> e ∈ es -> NoDup (map en_token es) ->
  (forall e', e' ∈ es -> en_ticket e' <> en_token e) -> (forall u, en_token e <> "active_match:" +:+ u) ->
  let s' := foldl (fun s (w : r_state -> r_state) => w s) s ws in
  r_hget (en_token e) "fd" s' = Some (to_string fd) /\ r_hget (en_token e) "ticket" s' = Some (en_ticket e).
Proof.
  intros Hw He Hd Ht Hu. destruct (writes_last fd port es ws e (en_token e) s Hw He Hd) as (w & s1 & Hw1 & Hk); [|done|].
  - intros e' He' Hne. split; [done|by apply Ht].
  - cbn zeta. unfold r_hget. rewrite Hk. by apply (writes_self fd port e w s1).
Qed.

(** Binding a client by a token that is there. *)
Lemma bind_calm fd pid ses token ticket ip (m : Main R M) : r_answers (m_redis m) = [] -> is_i32 fd ->
  r_hget token "fd" (r_data (m_redis m)) = Some (to_string fd) -> r_hget token "ticket" (r_data (m_redis m)) = Some ticket ->
  _sessionFd2pid m !! fd = Some pid -> _dediSessions m !! pid = Some ses ->
  BindClientIpToSession token ip m =
    (inr tt, (emit_main (OutBindIp pid token ip) m) <| m_redis := mk_remote (r_del [token; ticket] (r_data (m_redis m))) [] |>).
Proof.
  intros HaR Hfd Ef Ek Ep Es. unfold BindClientIpToSession, catch_all, catch, mbind, EX_bind, or_throw, exget, exmod.
  rewrite redis_hget_calm, Ef by done. rewrite (stoi_to_string fd Hfd), Ep, Es, redis_hget_calm by done.
  change (m_redis (emit_main _ m)) with (m_redis m). rewrite Ek. unfold redis_del. by rewrite redis_calm by done.
Qed.

(** C25. An entry token leads its player to the process that hosts the match, and once:
    after the request of a dedicated process has been executed, binding a client by
    any of its tokens sends the client's address to the process that owns the socket
    the request came from, the token and the ticket are gone, and the same token
    binds no other client. *)
Theorem entry_token_routes fd port es e pid ip ip' (m : Main R M) :
  e ∈ es -> NoDup (map en_token es) -> (forall e', e' ∈ es -> en_ticket e' <> en_token e) ->
  (forall u, en_token e <> "active_match:" +:+ u) -> is_i32 fd ->
  _sessionFd2pid m !! fd = Some pid -> is_Some (_dediSessions m !! pid) -> r_answers (m_redis m) = [] ->
  let '(o, m') := (_ ← Execute_UpdateEntryToken fd es port; BindClientIpToSession (en_token e) ip) m in
  o = inr tt /\ m_out m' = m_out m ++ [OutBindIp pid (en_token e) ip] /\
  r_hgetall (en_token e) (r_data (m_redis m')) = ∅ /\ r_hgetall (en_ticket e) (r_data (m_redis m')) = ∅ /\
  BindClientIpToSession (en_token e) ip' m' = (inr tt, m').
Proof.
  intros He Hd Ht Hu Hfd Hpid [ses Hses] HaR. destruct (tokens_written fd port es m HaR) as (ws & Hws & Ec).
  pose proof (token_written fd port es ws e (r_data (m_redis m)) Hws He Hd Ht Hu) as [Hf Hk].
  unfold mbind, EX_bind. rewrite Ec.
  match goal with |- context [BindClientIpToSession _ ip ?x] => set (m1 := x) end.
  assert (H1 : r_answers (m_redis m1) = []) by by destruct m.
  assert (Ef : r_hget (en_token e) "fd" (r_data (m_redis m1)) = Some (to_string fd)) by by destruct m.
  assert (Ek : r_hget (en_token e) "ticket" (r_data (m_redis m1)) = Some (en_ticket e)) by by destruct m.
  assert (Ep : _sessionFd2pid m1 !! fd = Some pid) by by destruct m.
  assert (Es : _dediSessions m1 !! pid = Some ses) by by destruct m.
  assert (Eo : m_out m1 = m_out m) by by destruct m.
  clearbody m1. rewrite (bind_calm fd pid ses _ (en_ticket e)) by done. cbn. rewrite <- Eo.
  split_and!; [done|done|apply hgetall_del; by left|apply hgetall_del; right; by left|].
  unfold BindClientIpToSession, catch_all, catch, mbind, EX_bind. rewrite redis_hget_calm by done.
  unfold r_hget. cbn. by rewrite hgetall_del by by left.
Qed.

(** A request registered in an empty queue is the one the next pass executes. *)
Lemma execute_one q (m : Main R M) : _requestQueue m = [] ->
  (_ ← RegisterDBRequest q; ExecuteAll) m = (_ ← Execute q; _ ← execute_loop 0; mret true) m.
Proof.
  intros Hq. transitivity (ExecuteAll (m <| _requestQueue ::= fun l => l ++ [q] |>)); [done|].
  assert (H : exists m1, m <| _requestQueue ::= fun l => l ++ [q] |> = m1 /\ _requestQueue m1 = [q] /\
    m1 <| _requestQueue := [] |> = m) by (eexists; split; [done|]; destruct m; cbn in *; by rewrite Hq).
  destruct H as (m1 & -> & Hq1 & Hm1). unfold ExecuteAll. rewrite Hq1. cbn [length execute_loop].
  unfold mbind, EX_bind. rewrite Hq1, Hm1. by destruct (Execute q m) as [[e|a] m2].
Qed.

(** The request of a departure when every command is answered. *)
Lemma left_executed uid slots (m : Main R M) :
  0 <= uid -> Forall (fun s => INVENTORY_SLOT_INDEX_BEGIN <= sr_slotIndex s) slots -> NoDup (map sr_slotIndex slots) ->
  accepts (M:=M) uid -> r_answers (m_redis m) = [] -> r_answers (m_db m) = [] ->
  autocommit (r_data (m_db m)) = true ->
  working (r_data (m_db m)) = committed (r_data (m_db m)) ->
  exists r, Execute_NotifyPlayerLeft uid slots m =
    (inr tt, m <| m_db := r |> <| m_redis := mk_remote (r_del [lock_key uid] (r_data (m_redis m))) [] |>) /\
    Permutation (db_rows (committed (r_data r))) (target_rows uid slots (db_rows (committed (r_data (m_db m))))).
Proof.
  intros Hu Hs Hd Hacc HaR HaD Hac Hw.
  destruct (attempts_calmly uid slots (db_rows (committed (r_data (m_db m)))) (db_rows (committed (r_data (m_db m)))) Hs Hacc Hd 1 Hu m HaD)
    as (ok & r & Ea & _ & -> & (base & Hb & Hc & _) & _).
  { split; [|done]. eexists. split; [by left|]. split; [by left|]. unfold same_outside. by rewrite Hw. }
  assert (base = db_rows (committed (r_data (m_db m)))) as -> by by destruct Hb.
  exists r. split; [|done]. unfold Execute_NotifyPlayerLeft, mbind, EX_bind. change DB_RETRY_COUNT with 2%nat.
  rewrite Ea. unfold catch_redis, catch, redis_del, redis. rewrite call_answered by (by destruct m). by destruct m.
Qed.

(** What a player brings home is what the table holds: when a departure of a user
    is reported and the requests are run without failures, the user's rows of the raid
    (from slot 80 on) are replaced by exactly the rows of the report, the rest of the
    table is untouched, the user's match lock is released and the queue is empty. *)
Theorem left_player_saved fd s (m : Main R M) :
  let uid := _uid (_player s) in
  let slots := left_slots (NotifyPlayerLeftToMain s) in
  0 <= uid -> length (_inventorySlots (GetInventory s)) = 25%nat -> accepts (M:=M) uid ->
  r_answers (m_redis m) = [] -> r_answers (m_db m) = [] -> _requestQueue m = [] ->
  autocommit (r_data (m_db m)) = true ->
  working (r_data (m_db m)) = committed (r_data (m_db m)) ->
  let '(o, m') := (_ ← Handle_D2M_NotifyPlayerLeft fd (NotifyPlayerLeftToMain s); ExecuteAll) m in
  o = inr true /\ _requestQueue m' = [] /\ r_get (lock_key uid) (r_data (m_redis m')) = None /\
  Permutation (db_rows (committed (r_data (m_db m'))))
    (target_rows uid slots (db_rows (committed (r_data (m_db m))))).
Proof.
  intros uid slots Hu Hlen Hacc HaR HaD Hq Hac Hw. destruct (left_slots_ok s Hlen) as [Hs Hd]. fold slots in Hs, Hd.
  assert (Hpl : pl_uid (NotifyPlayerLeftToMain s) = uid) by (unfold NotifyPlayerLeftToMain; by case_bool_decide).
  match goal with |- let '(_, _) := ?x in _ => assert (Ex : x = (_ ← RegisterDBRequest (NotifyPlayerLeftRequest fd uid
    (leave_code (pl_leave_reason (NotifyPlayerLeftToMain s))) slots); ExecuteAll) m) end.
  { unfold Handle_D2M_NotifyPlayerLeft. by rewrite Hpl. }
  rewrite Ex, execute_one by done. cbn [Execute]. unfold mbind, EX_bind.
  destruct (left_executed uid slots m) as (r & Ee & Hr); try done. rewrite Ee. cbn.
  split_and!; [done|by rewrite Hq| |done]. apply get_del. by left.
Qed.
End theorems.

(** ** Witnesses

    A departed player with an apple in slot 2 and a stale row in the table; a table
    that refuses a second row in a slot. *)

#[local] Existing Instance sample_redis.
#[local] Existing Instance sample_mysql.
#[local] Existing Instance sample_env.
#[local] Existing Instance sample_redis_laws.
#[local] Existing Instance sample_mysql_laws.

Definition sample_rows : list InvRow := [mk_row 7 1 90 3; mk_row 7 1 2 5; mk_row 8 1 90 1].
(** The replies of the second INSERT of the first attempt and of its rollback are lost. *)
Definition sample_outage : list Answer := [Answered; Answered; LostReply; LostRequest].
Definition sample_store (answers : list Answer) : Main sample_redis sample_mysql :=
  sample_main <| m_db := mk_remote (mk_database sample_rows sample_rows true true) answers |>
    <| _sessionFd2pid := {[ 5 := 100 ]} |>.
Definition sample_slots : list SlotRow := [mk_slot_row 4 82 1; mk_slot_row 5 105 1].

Lemma inventory_all_or_nothing_witness :
  let '(o, m') := Execute_NotifyPlayerLeft 7 sample_slots (sample_store sample_outage) in
  let rows' := db_rows (committed (r_data (m_db m'))) in
  o = inr tt /\ (Permutation rows' sample_rows \/ Permutation rows' (target_rows 7 sample_slots sample_rows)).
Proof.
  pose proof (inventory_all_or_nothing 7 sample_slots (sample_store sample_outage)) as H.
  destruct (Execute_NotifyPlayerLeft 7 sample_slots (sample_store sample_outage)) as [o m'].
  destruct H as (Ho & base & Hb & Hr & _); [lia|repeat constructor; vm_compute; discriminate|].
  assert (base = sample_rows) as -> by (destruct Hb; done). split; [exact Ho|exact Hr].
Defined.

(** Both transactions of the first player fail and so does either rollback: the session goes
    on holding the DELETE.  The departure of the second player commits it: the first
    player's row in slot 90 is gone, and none of the new ones is there. *)
Definition sample_lost : list Answer := 
  let attempt := [Answered; Answered; Answered; LostRequest; LostRequest] in attempt ++ attempt.
Example lost_rollback_published :
  let m1 := snd (Execute_NotifyPlayerLeft 7 sample_slots (sample_store sample_lost)) in
  let m2 := snd (Execute_NotifyPlayerLeft 8 [] m1) in
  db_rows (committed (r_data (m_db m1))) = sample_rows /\
  db_rows (working (r_data (m_db m1))) = [mk_row 7 1 2 5; mk_row 8 1 90 1] /\
  db_rows (committed (r_data (m_db m2))) = [mk_row 7 1 2 5].
Proof. vm_compute. done. Qed.

Lemma departures_keep_others_witness :
  let '(o, m') := ex_for [(7, sample_slots); (8, [])] (fun q => Execute_NotifyPlayerLeft q.1 q.2) (sample_store sample_lost) in
  o = inr tt /\ mk_row 7 1 2 5 ∈ db_rows (committed (r_data (m_db m'))).
Proof.
  pose proof (departures_keep_others [(7, sample_slots); (8, [])] (sample_store sample_lost)) as H. cbn zeta in H.
  destruct (ex_for _ _ (sample_store sample_lost)) as [o m'].
  destruct H as [Ho H]; [repeat (apply Forall_cons; split; [split; [cbn; lia|repeat constructor; vm_compute; discriminate]|]); apply Forall_nil_2|done|].
  split; [exact Ho|]. apply (elem_of_filter_bool (fun r => forallb (fun q => untouched q.1 r) [(7, sample_slots); (8, [])])).
  rewrite H. apply elem_of_filter_bool. split; [reflexivity|right; left].
Defined.

Lemma sample_accepts uid : accepts (M:=sample_mysql) uid.
Proof.
  intros d r Hr H. cbn. destruct (existsb _ d) eqn:He; [|by eexists]. exfalso.
  apply existsb_exists in He as (r' & Hin & [Hu Hi]%andb_true_iff). apply Z.eqb_eq in Hu, Hi.
  apply (H r'); [by apply list_elem_of_In|congruence|done].
Qed.

Definition sample_recalled : PlayerSession :=
  snd (leave_run [OpMark LR_RECALLED 0 10] sample_session).

Lemma left_player_saved_witness :
  let '(o, m') := (_ ← Handle_D2M_NotifyPlayerLeft 5 (NotifyPlayerLeftToMain sample_recalled); ExecuteAll) (sample_store []) in
  let rows' := db_rows (committed (r_data (m_db m'))) in
  o = inr true /\ Permutation rows' (target_rows 77 (left_slots (NotifyPlayerLeftToMain sample_recalled)) sample_rows) /\
  length (left_slots (NotifyPlayerLeftToMain sample_recalled)) = 4%nat.
Proof.
  pose proof (left_player_saved 5 sample_recalled (sample_store []) ltac:(vm_compute; discriminate) eq_refl
    (sample_accepts _) eq_refl eq_refl eq_refl eq_refl eq_refl) as H.
  destruct ((_ ← Handle_D2M_NotifyPlayerLeft _ _; _) _) as [o m']. destruct H as (-> & _ & _ & H).
  split; [done|]. split; [exact H|]. vm_compute. reflexivity.
Defined.

Definition sample_entries : list Entry := [mk_entry "t1" 0 "tokA" 11; mk_entry "t2" 1 "tokB" 12].
Lemma entry_token_routes_witness :
  let '(o, m') := (_ ← Execute_UpdateEntryToken 5 sample_entries 9000; BindClientIpToSession "tokB" "10.1.1.1") (sample_store []) in
  o = inr tt /\ m_out m' = [OutBindIp 100 "tokB" "10.1.1.1"] /\ r_hgetall "tokB" (r_data (m_redis m')) = ∅.
Proof.
  pose proof (entry_token_routes 5 9000 sample_entries (mk_entry "t2" 1 "tokB" 12) 100 "10.1.1.1" "10.1.1.2" (sample_store [])) as H.
  destruct ((_ ← Execute_UpdateEntryToken _ _ _; _) _) as [o m'].
  destruct H as (-> & -> & H & _); [by right; left| | |by intros u|vm_compute; by split|done|by eexists|done|done].
  - apply (bool_decide_unpack _). vm_compute. exact I.
  - intros e [->|[->|[]%elem_of_nil]%elem_of_cons]%elem_of_cons; done.
Defined.
