(* ===== verification/Manager.v ===== *)
(** * The dedicated processes in the hands of the main process

    Histories of the manager of src/src/DediManager.cpp and M2DSessions.cpp (modelled in
    Main.v, Matchmaker.v and DBProxy.v): groups are distributed in rounds, processes are
    started, connect and report the rooms they destroy.  What every history keeps: a
    process is never given more players than it hosts, and the groups it is given are
    neither lost nor overtaken on their way.

    [fork] does not return the id of a process the manager still knows. *)

From S2P Require Import Prelude Session Stores Main Matchmaker DBProxy.
From stdpp Require Import strings.
Local Open Scope Z_scope.

(** An event the main process handles. *)
Inductive ManagerOp :=
| OpMatchMake
| OpDistribute (t : MatchTicket) (group : list MatchTicket)
| OpAccept (fd : Z)
| OpFinalize (pid fd : Z)
| OpRoomDestroyed (pid : option Z) (player_count : Z)
| OpBindClient (token ip : string)
| OpRunRequests.

Section histories.
Context {R : Redis} {M : Mysql} {E : MainEnv}.
Local Abbreviation Mn := (Main R M).

Definition manager_step (op : ManagerOp) (m : Mn) : Mn :=
  match op with
  | OpMatchMake => snd (MatchMake m)
  | OpDistribute t group => snd (DistributePlayerGroup (t :: group) m)
  | OpAccept fd => OnAcceptDedi fd m
  | OpFinalize pid fd => snd (FinalizeConnection pid fd m)
  | OpRoomDestroyed pid n => snd (Handle_D2M_NotifyRoomDestroyed pid n m)
  | OpBindClient token ip => snd (BindClientIpToSession token ip m)
  | OpRunRequests => snd (ExecuteAll m)
  end.
Definition manager_run (ops : list ManagerOp) (m : Mn) : Mn := foldl (fun m op => manager_step op m) m ops.

(** A room reports how many players it had. *)
Definition reported (op : ManagerOp) : Prop :=
  match op with OpRoomDestroyed _ n => 0 <= n | _ => True end.

(** ** What a process has been sent, and what it has been given *)

Definition sent (pid : Z) (m : Mn) : list M2DMakeRoomForThisGroup :=
  omap (fun o => match o with OutMakeRoom p pkt => if p =? pid then Some pkt else None | _ => None end) (m_out m).
Definition held (pid : Z) (m : Mn) : list M2DMakeRoomForThisGroup :=
  from_option _tempMatchPkts [] (_dediSessions m !! pid).
Definition given (pid : Z) (m : Mn) : list M2DMakeRoomForThisGroup := sent pid m ++ held pid m.

Record sound (m : Mn) : Prop := {
  so_capacity : forall pid s, _dediSessions m !! pid = Some s -> 0 <= _allocatedPlayers s <= MAX_PLAYER_PER_PROCESS;
  so_fresh : forall n, (m_forks m <= n)%nat -> 0 <= me_fork n -> _dediSessions m !! me_fork n = None }.

(** [m] leads to [m']. *)
Record leads (m m' : Mn) : Prop := {
  le_sound : sound m';
  le_out : m_out m `prefix_of` m_out m';
  le_given : forall pid, given pid m `prefix_of` given pid m' }.
Lemma sent_prefix pid m m' : m_out m `prefix_of` m_out m' -> sent pid m `prefix_of` sent pid m'.
Proof. intros [l H]. unfold sent. rewrite H, omap_app. by apply prefix_app_r. Qed.

Lemma leads_refl m : sound m -> leads m m.
Proof. by constructor. Qed.
Lemma leads_trans m m1 m2 : leads m m1 -> leads m1 m2 -> leads m m2.
Proof. intros [_ H1 H2] [H3 H4 H5]. constructor; [done|by etransitivity|]; intros pid; etransitivity; eauto. Qed.

(** The places counted for a process against the players of the groups it has been given. *)
Definition players_of (pkts : list M2DMakeRoomForThisGroup) : Z :=
  foldr (fun p n => Z.of_nat (length (mr_player_infos p)) + n) 0 pkts.
Lemma players_of_app l k : players_of (l ++ k) = players_of l + players_of k.
Proof. unfold players_of. induction l as [|p l IH]; cbn [app foldr]; lia. Qed.
Lemma players_of_nonneg l : 0 <= players_of l.
Proof. unfold players_of. induction l as [|p l IH]; cbn [foldr]; lia. Qed.
Definition allocated (pid : Z) (m : Mn) : Z := from_option _allocatedPlayers 0 (_dediSessions m !! pid).
Definition cover (pid : Z) (m : Mn) : Z := allocated pid m - players_of (given pid m).

(** [m] leads to [m'], and whoever joins a group has a place. *)
Record pays (m m' : Mn) : Prop := {
  pa_leads : leads m m';
  pa_cover : forall pid, cover pid m <= cover pid m' }.
Lemma pays_refl m : sound m -> pays m m.
Proof. intros Hm. constructor; [by apply leads_refl|done]. Qed.
Lemma pays_trans m m1 m2 : pays m m1 -> pays m1 m2 -> pays m m2.
Proof. intros [H1 H2] [H3 H4]. constructor; [by eapply leads_trans|]. intros pid. specialize (H2 pid). specialize (H4 pid). lia. Qed.

(** Nothing the manager looks at has changed. *)
Lemma pays_frame m m' : sound m -> _dediSessions m' = _dediSessions m -> m_forks m' = m_forks m ->
  m_out m `prefix_of` m_out m' -> (forall pid, sent pid m' = sent pid m) -> pays m m'.
Proof.
  intros [H1 H2] Hd Hf Ho Hs. assert (Hg : forall pid, given pid m' = given pid m) by (intros pid; unfold given, held; by rewrite Hs, Hd).
  constructor; [constructor; [|done|intros pid; by rewrite Hg]|].
  - constructor; rewrite Hd; [done|by rewrite Hf].
  - intros pid. unfold cover, allocated. by rewrite Hg, Hd.
Qed.

(** A call that takes a sound state only where it leads. *)
Class Orderly {A} (x : EX Mn A) : Prop := orderly : forall m, sound m -> pays m (snd (x m)).

Lemma run_orderly {A} (x : EX Mn A) m m1 : pays m m1 -> (forall m, sound m -> pays m (snd (x m))) -> pays m (snd (x m1)).
Proof. intros H Hx. eapply pays_trans; [exact H|]. apply Hx, H. Qed.

#[export] Instance orderly_ret {A} (a : A) : Orderly (mret a).
Proof. intros m Hm. by apply pays_refl. Qed.
#[export] Instance orderly_throw {A} e : Orderly (throw (A:=A) e).
Proof. intros m Hm. by apply pays_refl. Qed.
#[export] Instance orderly_bind {A B} (x : EX Mn A) (k : A -> EX Mn B) :
  Orderly x -> (forall a, Orderly (k a)) -> Orderly (x ≫= k).
Proof.
  intros Hx Hk m Hm. specialize (Hx m Hm). unfold mbind, EX_bind. destruct (x m) as [[e|a] m1]; [done|].
  cbn in Hx. apply (run_orderly _ m m1 Hx), Hk.
Qed.
#[export] Instance orderly_or_throw {A} (o : option A) : Orderly (or_throw o).
Proof. intros m Hm. destruct o; by apply pays_refl. Qed.
#[export] Instance orderly_exget {A} (f : Mn -> A) : Orderly (exget f).
Proof. intros m Hm. by apply pays_refl. Qed.
#[export] Instance orderly_redis {A} (f : r_state -> A * r_state) : Orderly (redis f).
Proof. intros m Hm. unfold redis. destruct (call _ _ _). by apply pays_frame. Qed.
#[export] Instance orderly_sql f : Orderly (sql f).
Proof. intros m Hm. unfold sql. destruct (call _ _ _) as [[|[]] ?]; by apply pays_frame. Qed.
#[export] Instance orderly_catch {A} (x : EX Mn A) h :
  Orderly x -> (forall e, from_option Orderly True (h e)) -> Orderly (catch x h).
Proof.
  intros Hx Hk m Hm. unfold catch. specialize (Hx m Hm). destruct (x m) as [[e|a] m1]; [|done].
  specialize (Hk e). destruct (h e) as [k|]; [|done]. cbn in Hx. apply (run_orderly _ m m1 Hx), Hk.
Qed.
#[export] Instance orderly_catch_redis {A} (x k : EX Mn A) : Orderly x -> Orderly k -> Orderly (catch_redis x k).
Proof. intros. apply orderly_catch; [done|]. by intros []. Qed.
#[export] Instance orderly_catch_sql {A} (x k : EX Mn A) : Orderly x -> Orderly k -> Orderly (catch_sql x k).
Proof. intros. apply orderly_catch; [done|]. by intros []. Qed.
#[export] Instance orderly_catch_all {A} (x k : EX Mn A) : Orderly x -> Orderly k -> Orderly (catch_all x k).
Proof. intros. apply orderly_catch; [done|]. by intros []. Qed.
#[export] Instance orderly_for {A} xs (body : A -> EX Mn unit) : (forall x, Orderly (body x)) -> Orderly (ex_for xs body).
Proof. intros H. induction xs as [|x xs IH]; cbn [ex_for]; apply _. Qed.
Lemma orderly_exmod (f : Mn -> Mn) : (forall m, sound m -> pays m (f m)) -> Orderly (exmod f).
Proof. done. Qed.

(** ** One session *)

Lemma upd_dedi_lookup pid f (m : Mn) pid' :
  _dediSessions (upd_dedi pid f m) !! pid' =
  if decide (pid' = pid) then f <$> (_dediSessions m !! pid) else _dediSessions m !! pid'.
Proof. unfold upd_dedi. cbn. case_decide as H; [subst; apply lookup_alter_eq|by apply lookup_alter_ne]. Qed.

(** A change of one session that keeps what it holds, or adds to it. *)
Lemma given_upd pid f (m : Mn) p : given p (upd_dedi pid f m) =
  if decide (p = pid) then sent pid m ++ from_option _tempMatchPkts [] (f <$> (_dediSessions m !! pid)) else given p m.
Proof. unfold given, held. rewrite upd_dedi_lookup. change (sent p (upd_dedi pid f m)) with (sent p m). case_decide as Hp; [by subst|done]. Qed.
Lemma leads_upd pid f m : sound m ->
  (forall s, _dediSessions m !! pid = Some s ->
     0 <= _allocatedPlayers (f s) <= MAX_PLAYER_PER_PROCESS /\ _tempMatchPkts s `prefix_of` _tempMatchPkts (f s)) ->
  leads m (upd_dedi pid f m).
Proof.
  intros [H1 H2] Hf. constructor.
  - constructor.
    + intros p s. rewrite upd_dedi_lookup. case_decide as Hp; [|apply H1]. subst.
      destruct (_dediSessions m !! pid) as [s'|] eqn:E1; [|done]. intros [= <-]. by apply Hf.
    + intros n Hn Hn0. rewrite upd_dedi_lookup. case_decide as Hp; [|by apply H2]. rewrite <- Hp, H2; done.
  - done.
  - intros p. rewrite given_upd. case_decide as Hp; [|done]. subst. apply prefix_app. unfold held.
    destruct (_dediSessions m !! pid) as [s'|] eqn:E1; [|done]. cbn. by apply Hf.
Qed.
Lemma pays_upd pid f m : sound m ->
  (forall s, _dediSessions m !! pid = Some s ->
     _allocatedPlayers s <= _allocatedPlayers (f s) <= MAX_PLAYER_PER_PROCESS /\ _tempMatchPkts (f s) = _tempMatchPkts s) ->
  pays m (upd_dedi pid f m).
Proof.
  intros Hm Hf. constructor.
  - apply leads_upd; [done|]. intros s Hs. destruct (Hf s Hs) as [Ha ->]. pose proof (so_capacity m Hm pid s Hs). split; [lia|done].
  - intros p. unfold cover, allocated. rewrite given_upd, upd_dedi_lookup. case_decide as Hp; [|done]. subst. unfold given, held.
    destruct (_dediSessions m !! pid) as [s|] eqn:E1; [|done]. cbn. destruct (Hf s eq_refl) as [Ha ->]. lia.
Qed.

Lemma sent_emit p pid pkt (m : Mn) :
  sent p (emit_main (OutMakeRoom pid pkt) m) = sent p m ++ if pid =? p then [pkt] else [].
Proof. unfold sent, emit_main. cbn. rewrite omap_app. cbn. by destruct (pid =? p). Qed.

Lemma sent_emits p pid pkts (m : Mn) :
  sent p (foldl (fun m pkt => emit_main (OutMakeRoom pid pkt) m) m pkts) = sent p m ++ if pid =? p then pkts else [].
Proof.
  revert m. induction pkts as [|k pkts IH]; intros m; cbn [foldl]; [destruct (_ =? _); by rewrite app_nil_r|].
  rewrite IH, sent_emit, <- app_assoc. by destruct (pid =? p).
Qed.
Lemma emits_frame pid pkts (m : Mn) :
  let m' := foldl (fun m pkt => emit_main (OutMakeRoom pid pkt) m) m pkts in
  _dediSessions m' = _dediSessions m /\ m_forks m' = m_forks m.
Proof. cbn zeta. revert m. induction pkts as [|k pkts IH]; intros m; [done|]. cbn [foldl]. by rewrite !(proj1 (IH _)), !(proj2 (IH _)). Qed.

(** Flushing sends what is held, in order, and holds nothing any more. *)
Lemma Flush_spec pid (m : Mn) :
  sent pid (FlushPendingTickets pid m) = given pid m /\ held pid (FlushPendingTickets pid m) = [] /\
  (forall p, p <> pid -> sent p (FlushPendingTickets pid m) = sent p m /\ held p (FlushPendingTickets pid m) = held p m).
Proof.
  unfold FlushPendingTickets, given, held. destruct (_dediSessions m !! pid) as [s|] eqn:Es.
  2: { cbn. rewrite app_nil_r, Es. by split_and!. }
  destruct (emits_frame pid (_tempMatchPkts s) m) as [Hd _].
  split_and!; [|by rewrite upd_dedi_lookup, decide_True, Hd, Es by done|].
  - transitivity (sent pid (foldl (fun m pkt => emit_main (OutMakeRoom pid pkt) m) m (_tempMatchPkts s))); [done|].
    by rewrite sent_emits, Z.eqb_refl.
  - intros p Hp. rewrite upd_dedi_lookup, decide_False, Hd by done. split; [|done].
    transitivity (sent p (foldl (fun m pkt => emit_main (OutMakeRoom pid pkt) m) m (_tempMatchPkts s))); [done|].
    rewrite sent_emits. destruct (Z.eqb_spec pid p); [congruence|]. by rewrite app_nil_r.
Qed.

Lemma Flush_sessions pid (m : Mn) p : _dediSessions (FlushPendingTickets pid m) !! p =
  if decide (p = pid) then (fun s => s <| _tempMatchPkts := [] |>) <$> (_dediSessions m !! pid) else _dediSessions m !! p.
Proof.
  unfold FlushPendingTickets. destruct (_dediSessions m !! pid) as [s|] eqn:Es.
  - destruct (emits_frame pid (_tempMatchPkts s) m) as [Hd _]. rewrite upd_dedi_lookup, Hd. case_decide; by rewrite ?Es.
  - case_decide; by rewrite ?Es; subst.
Qed.

Lemma Flush_frame pid (m : Mn) : m_out m `prefix_of` m_out (FlushPendingTickets pid m) /\ m_forks (FlushPendingTickets pid m) = m_forks m.
Proof.
  unfold FlushPendingTickets. destruct (_dediSessions m !! pid) as [s|]; [|done]. cbn. generalize (_tempMatchPkts s). clear s. intros l.
  revert m. induction l as [|k l IH]; intros m; [done|]. cbn [foldl]. destruct (IH (emit_main (OutMakeRoom pid k) m)) as [H1 ->].
  split; [|done]. etransitivity; [|exact H1]. by apply prefix_app_r.
Qed.
Lemma pays_flush pid m : sound m -> pays m (FlushPendingTickets pid m).
Proof.
  intros Hm. destruct (Flush_spec pid m) as (F1 & F2 & F3). destruct (Flush_frame pid m) as [F4 F5].
  assert (Hg : forall p, given p (FlushPendingTickets pid m) = given p m).
  { intros p. destruct (decide (p = pid)) as [->|Hp]; unfold given at 1; [by rewrite F1, F2, app_nil_r|].
    destruct (F3 p Hp) as [-> ->]. done. }
  assert (Ha : forall p, allocated p (FlushPendingTickets pid m) = allocated p m).
  { intros p. unfold allocated. rewrite Flush_sessions. case_decide; [subst|done]. by destruct (_dediSessions m !! pid). }
  constructor; [constructor; [|done|intros p; by rewrite Hg]|intros p; unfold cover; by rewrite Hg, Ha].
  destruct Hm as [H1 H2]. constructor.
  - intros p s. rewrite Flush_sessions. case_decide; [|apply H1]. intros (s' & Hs & ->)%fmap_Some. exact (H1 pid s' Hs).
  - intros n Hn Hn0. rewrite F5 in Hn. rewrite Flush_sessions. case_decide as Hp; [|by apply H2]. by rewrite <- Hp, H2.
Qed.

(** ** The calls *)

#[export] Instance orderly_make_infos group : Orderly (make_infos group).
Proof. induction group as [|t group IH]; cbn [make_infos]; [apply _|]. apply orderly_bind; [apply _|]. intros v. case_decide; apply _. Qed.

(** The message of a group names its players, those whose rows are gone left out; making it
    only asks Redis. *)
Lemma make_infos_spec group (m : Mn) :
  let '(o, m') := make_infos group m in
  m' = m <| m_redis := m_redis m' |> /\
  match o with inl e => e <> Undefined | inr infos => map pi_ticket_id infos `sublist_of` map ticketId group end.
Proof.
  revert m. induction group as [|t group IH]; intros m; cbn [make_infos]; [by destruct m|].
  unfold mbind, EX_bind, redis_hgetall, redis. destruct (call RedisError _ (m_redis m)) as [[e|v] r] eqn:Ec.
  { apply call_data in Ec as [-> _]. by destruct m. }
  specialize (IH (m <| m_redis := r |>)). case_decide.
  - destruct (make_infos group _) as [o m']. destruct IH as [-> Hl]. split; [by destruct m|]. destruct o; [done|by constructor].
  - destruct (make_info t v) as [i|] eqn:Hi; cbn [or_throw]; [|by destruct m].
    destruct (make_infos group _) as [[e|infos] m']; destruct IH as [-> Hl]; (split; [by destruct m|]); [done|].
    assert (pi_ticket_id i = ticketId t) as Ht; [|cbn [mret EX_ret map]; rewrite Ht; by constructor].
    unfold make_info in Hi. repeat (destruct (_ ≫= _) in Hi; [|done] || destruct (v !! _) in Hi; [|done]); cbn in Hi. by simplify_option_eq.
Qed.
Lemma group_size (group : list MatchTicket) infos : map pi_ticket_id infos `sublist_of` map ticketId group -> (length infos <= length group)%nat.
Proof. intros H%sublist_length. by rewrite !length_map in H. Qed.

#[export] Instance orderly_allocate pid ts : Orderly (AllocatePlayers pid ts).
Proof.
  intros m Hm. unfold AllocatePlayers. destruct (_dediSessions m !! pid) as [s|] eqn:Es; [|by apply pays_refl].
  destruct (_ && _) eqn:Ef; [|by apply pays_refl]. apply andb_true_iff in Ef as [Ef%Z.leb_le _].
  unfold mbind at 1, EX_bind at 1, exmod at 1. set (m1 := upd_dedi _ _ m).
  assert (H1 : pays m m1).
  { apply pays_upd; [done|]. intros s' Hs'. assert (s' = s) as -> by congruence. cbn. split; [|done]. unfold GetAffordablePlayers in Ef. lia. }
  destruct ts as [|t ts]; [done|]. unfold MakeM2DMakeRoomForThisGroup, mbind, EX_bind, exmod.
  pose proof (make_infos_spec (t :: ts) m1) as Hi. destruct (make_infos (t :: ts) m1) as [[e|infos] m2];
    destruct Hi as [Hm2 Hl]; [|apply group_size in Hl]; cbn [mret EX_ret].
  { rewrite Hm2. eapply pays_trans; [exact H1|]. by apply pays_frame; [apply H1|..]. }
  set (pkt := mk_make_room (mapId t) infos). set (m3 := upd_dedi pid _ m2).
  assert (H3 : pays m m3).
  { assert (E2 : _dediSessions m2 !! pid = Some (s <| _allocatedPlayers ::= fun n => n + Z.of_nat (length (t :: ts)) |>)).
    { rewrite Hm2. cbn. by rewrite lookup_alter_eq, Es. }
    assert (H2 : pays m1 m2) by (rewrite Hm2; by apply pays_frame; [apply H1|..]). pose proof (pays_trans _ _ _ H1 H2) as H12.
    assert (H23 : leads m2 m3).
    { apply leads_upd; [apply H12|]. intros s' Hs'.
      split; [exact (so_capacity m2 (le_sound _ _ (pa_leads _ _ H12)) pid s' Hs')|by apply prefix_app_r]. }
    constructor; [eapply leads_trans; [apply H12|exact H23]|]. intros p. destruct (decide (p = pid)) as [->|Hp].
    - unfold cover, allocated. unfold m3. rewrite given_upd, upd_dedi_lookup, !decide_True, E2, Es by done.
      cbn [fmap option_fmap option_map from_option].
      unfold given, held. rewrite Es. assert (Hs : sent pid m2 = sent pid m) by (rewrite Hm2; done). rewrite Hs. cbn.
      rewrite !players_of_app. change (players_of [pkt]) with (Z.of_nat (length infos) + 0). cbn [length] in Hl. lia.
    - transitivity (cover p m2); [apply H12|]. unfold m3, cover, allocated. by rewrite given_upd, upd_dedi_lookup, !decide_False. }
  case_bool_decide; cbn [mret EX_ret snd]; [|done]. eapply pays_trans; [exact H3|]. by apply pays_flush, H3.
Qed.
#[export] Instance orderly_find pids ts : Orderly (find_available pids ts).
Proof. induction pids as [|pid pids IH]; cbn [find_available]; [apply _|]. apply orderly_bind; [apply _|]. intros []; apply _. Qed.

Hypothesis Hfork : forall i j, me_fork i = me_fork j -> 0 <= me_fork i -> i = j.

Lemma pays_spawn m : sound m -> pays m (snd (SpawnSingleServer m)).
Proof.
  intros [H1 H2]. unfold SpawnSingleServer. destruct (Z.ltb_spec (me_fork (m_forks m)) 0) as [Hn|Hn]; cbn [snd].
  { constructor; [|done]. constructor; [|done|done]. constructor; [exact H1|]. cbn. intros n Hle. apply H2. lia. }
  pose proof (H2 (m_forks m) ltac:(lia) Hn) as Hnone.
  assert (Hg : forall p, given p (m <| m_forks ::= S |> <| _dediSessions ::= <[ me_fork (m_forks m) := new_M2DSession (me_fork (m_forks m)) ]> |>) = given p m).
  { intros p. unfold given, held. cbn. f_equal. destruct (decide (p = me_fork (m_forks m))) as [->|Hp]; [by rewrite lookup_insert_eq, Hnone|].
    by rewrite lookup_insert_ne. }
  constructor; [constructor; [|done|intros p; by rewrite Hg]|].
  - constructor; cbn.
    + intros p s [[<- <-]|[_ Hs]]%lookup_insert_Some; [cbn; unfold MAX_PLAYER_PER_PROCESS; lia|by apply (H1 p)].
    + intros n Hle Hn0. rewrite lookup_insert_ne; [apply H2; [lia|done]|].
      intros Heq. apply Hfork in Heq; [lia|lia].
  - intros p. unfold cover. rewrite Hg. unfold allocated. cbn. destruct (decide (p = me_fork (m_forks m))) as [->|Hp].
    + by rewrite lookup_insert_eq, Hnone.
    + by rewrite lookup_insert_ne.
Qed.

#[export] Instance orderly_distribute ts : Orderly (DistributePlayerGroup ts).
Proof.
  unfold DistributePlayerGroup. apply orderly_bind; [intros m; apply (orderly_find (me_keys _ (_dediSessions m)) ts m)|].
  intros []; [apply _|]. apply orderly_bind; [|intros pid; case_match; apply _].
  intros m Hm. pose proof (pays_spawn m Hm) as H. by destruct (SpawnSingleServer m).
Qed.

(** Updates of the queues and of the tickets. *)
Lemma orderly_frame (f : Mn -> Mn) :
  (forall m, _dediSessions (f m) = _dediSessions m /\ m_forks (f m) = m_forks m /\ m_out (f m) = m_out m) ->
  Orderly (exmod f).
Proof.
  intros H. apply orderly_exmod. intros m Hm. destruct (H m) as (H1 & H2 & H3). apply pays_frame; try done; [by rewrite H3|].
  intros pid. unfold sent. by rewrite H3.
Qed.
#[local] Hint Extern 1 (Orderly (exmod _)) => (apply orderly_frame; intros; by split_and!) : typeclass_instances.

#[export] Instance orderly_upd_tickets f : Orderly (upd_tickets f).
Proof. unfold upd_tickets. apply _. Qed.
#[export] Instance orderly_upd_mm i f : Orderly (upd_mm i f).
Proof. unfold upd_mm. apply _. Qed.

#[export] Instance orderly_start_group g : Orderly (start_group g).
Proof.
  unfold start_group. apply orderly_bind; [apply _|]. intros h. apply orderly_bind.
  - unfold VerifyAndSetMatchStatus. case_match; apply _.
  - intros []; [apply orderly_bind; [apply _|intros []; unfold requeue; apply _]|].
    apply orderly_for. intros p. unfold recheck, redis_hget. apply orderly_bind; [apply _|]. intros h'.
    apply orderly_bind; [apply _|]. intros o. case_bool_decide; apply _.
Qed.
#[export] Instance orderly_release i : Orderly (ReleaseAndDeleteTickets i).
Proof.
  unfold ReleaseAndDeleteTickets. repeat (apply orderly_bind; [apply _|]; intros ?). case_match; unfold redis_del; apply _.
Qed.
#[export] Instance orderly_round i : Orderly (StartMatchMake i).
Proof.
  unfold StartMatchMake. apply orderly_bind.
  - intros m Hm. case_match; [|by apply pays_refl]. case_match; [|by apply pays_refl]. by apply pays_frame.
  - intros []. apply orderly_bind; [|intros []; unfold StartMatchMakeInternal; apply _].
    apply orderly_exmod. intros m Hm. case_match; [|by apply pays_refl]. case_match. by apply pays_frame.
Qed.

#[export] Instance orderly_bind_client token ip : Orderly (BindClientIpToSession token ip).
Proof.
  unfold BindClientIpToSession, redis_hget, redis_del. apply orderly_catch_all; [|apply _].
  apply orderly_bind; [apply _|]. intros [fdStr|]; [|apply _]. apply orderly_bind; [apply _|]. intros fd.
  apply orderly_bind; [apply _|]. intros [pid|]; [|apply _]. apply orderly_bind; [apply _|]. intros [s|]; [|apply _].
  apply orderly_bind; [|intros []; apply _]. apply orderly_exmod. intros m Hm. apply pays_frame; try done; [by apply prefix_app_r|].
  intros p. unfold sent, emit_main. cbn. rewrite omap_app. cbn. apply app_nil_r.
Qed.

#[export] Instance orderly_collect fd port es : Orderly (collect (R:=R) (M:=M) fd port es).
Proof. induction es as [|e es IH]; cbn [collect]; unfold redis_hget; apply _. Qed.
#[export] Instance orderly_probe f : Orderly (probe (R:=R) (M:=M) f).
Proof. intros m Hm. unfold probe. destruct (r_answers (m_db m)) as [|[] l]; by apply pays_frame. Qed.
#[export] Instance orderly_Get : Orderly (Get (R:=R) (M:=M)).
Proof.
  unfold Get, setSchema, drop_connection. apply orderly_catch_sql; [|apply _]. apply orderly_bind; [apply _|]. intros conn.
  apply orderly_bind; [destruct conn; apply _|]. intros []; [apply _|]. apply orderly_bind; [destruct conn; apply _|]. intros []; apply _.
Qed.
#[export] Instance orderly_attempts n uid slots : Orderly (attempts (R:=R) (M:=M) n uid slots).
Proof.
  induction n as [|n IH]; cbn [attempts]; [apply _|]. apply orderly_bind; [|intros []; apply _].
  unfold ApplyInventoryToDb. case_match; [apply _|]. apply orderly_bind; [apply _|]. intros []; cbn [negb]; [|apply _].
  unfold transaction, setAutoCommit, sql_delete, sql_insert, sql_commit, sql_rollback. apply _.
Qed.
#[export] Instance orderly_execute q : Orderly (Execute (R:=R) (M:=M) q).
Proof. destruct q; cbn [Execute]; unfold Execute_UpdateEntryToken, Execute_NotifyPlayerLeft, redis_del; apply _. Qed.
Lemma orderly_loop n : Orderly (execute_loop (R:=R) (M:=M) n).
Proof.
  induction n as [|n IH]; intros m Hm; cbn [execute_loop]; [by apply pays_refl|].
  destruct (_requestQueue m) as [|q l]; [by apply pays_refl|].
  assert (H1 : pays m (m <| _requestQueue := l |>)) by by apply pays_frame.
  apply (run_orderly _ m _ H1), orderly_bind; apply _.
Qed.

#[export] Instance orderly_MatchMake : Orderly MatchMake.
Proof.
  intros m Hm. unfold MatchMake. case_match; [|by apply pays_refl].
  assert (H1 : pays m (m <| _lastTimeMatchStarted := m_now m |>)) by by apply pays_frame.
  apply (run_orderly _ m _ H1), orderly_for, _.
Qed.
#[export] Instance orderly_ExecuteAll : Orderly (ExecuteAll (R:=R) (M:=M)).
Proof.
  intros m Hm. unfold ExecuteAll. destruct (_requestQueue m) as [|q l]; [by apply pays_refl|].
  apply (run_orderly _ m m); [by apply pays_refl|]. apply orderly_bind; [apply orderly_loop|apply _].
Qed.
Lemma pays_accept fd m : sound m -> pays m (OnAcceptDedi fd m).
Proof. intros. by apply pays_frame. Qed.
Lemma pays_finalize pid fd m : sound m -> pays m (snd (FinalizeConnection pid fd m)).
Proof.
  intros Hm. unfold FinalizeConnection. destruct (_ && _); [|by apply pays_refl]. cbn [snd].
  assert (H1 : pays m (upd_dedi pid (BindSocket fd) m)).
  { apply pays_upd; [done|]. intros s Hs. pose proof (so_capacity m Hm pid s Hs). cbn. split; [lia|done]. }
  eapply pays_trans; [exact H1|]. by apply pays_frame; [apply H1|..].
Qed.
(** Giving places back: as many as reported, but never below none. *)
Lemma leads_release pid n m : 0 <= n -> sound m -> leads m (upd_dedi pid (ReleasePlayers n) m).
Proof.
  intros Hn Hm. apply leads_upd; [done|]. intros s Hs. pose proof (so_capacity m Hm pid s Hs).
  unfold ReleasePlayers. case_match; cbn; (split; [|done]); lia.
Qed.
Lemma cover_release pid n m p : cover p m - (if decide (p = pid) then Z.max n 0 else 0) <= cover p (upd_dedi pid (ReleasePlayers n) m).
Proof.
  unfold cover, allocated. rewrite given_upd, upd_dedi_lookup. case_decide as Hp; [subst|lia]. unfold given, held.
  destruct (_dediSessions m !! pid) as [s|]; [|cbn; lia]. cbn [fmap option_fmap option_map from_option]. unfold ReleasePlayers. case_match; cbn; lia.
Qed.

Lemma step_leads op m : reported op -> sound m -> leads m (manager_step op m).
Proof.
  intros Hr Hm. destruct op as [|t g|fd|pid fd|[pid|] n|token ip|]; cbn [manager_step]; try (by apply orderly).
  - by apply pays_accept.
  - by apply pays_finalize.
  - by apply leads_release.
Qed.

(** A group goes to a process with room for it: to a connected one it is sent at
    once, behind whatever was still held, and to one that is not connected yet it is
    held; the places are taken in either case and no other process notices. *)
Theorem AllocatePlayers_spec pid t ts m s :
  _dediSessions m !! pid = Some s -> _state s <> Terminated ->
  Z.of_nat (length (t :: ts)) <= GetAffordablePlayers s ->
  match AllocatePlayers pid (t :: ts) m with
  | (inl e, m') => e <> Undefined /\ forall p, given p m' = given p m
  | (inr ok, m') => ok = true /\ exists pkt, given pid m' = given pid m ++ [pkt] /\ mr_map_id pkt = mapId t /\
      map pi_ticket_id (mr_player_infos pkt) `sublist_of` map ticketId (t :: ts) /\
      sent pid m' = (if bool_decide (_state s = Ready) then given pid m' else sent pid m) /\
      (_allocatedPlayers <$> (_dediSessions m' !! pid)) = Some (_allocatedPlayers s + Z.of_nat (length (t :: ts))) /\
      forall p, p <> pid -> sent p m' = sent p m /\ _dediSessions m' !! p = _dediSessions m !! p
  end.
Proof.
  intros Hs Ht Hf. unfold AllocatePlayers. rewrite Hs.
  rewrite (proj2 (Z.leb_le _ _) Hf), bool_decide_eq_false_2 by done. cbn [negb andb].
  set (n := Z.of_nat (length (t :: ts))). unfold MakeM2DMakeRoomForThisGroup, mbind, EX_bind, exmod.
  set (m1 := upd_dedi _ _ m). pose proof (make_infos_spec (t :: ts) m1) as Hi.
  destruct (make_infos (t :: ts) m1) as [[e|infos] m2]; destruct Hi as [Hm2 Hi].
  { split; [done|]. intros p. rewrite Hm2. transitivity (given p m1); [done|]. unfold m1. rewrite given_upd. case_decide; [subst|done].
    unfold given, held. by rewrite Hs. }
  cbn [mret EX_ret].
  set (pkt := mk_make_room (mapId t) infos). set (m3 := upd_dedi pid _ m2). split; [done|]. exists pkt.
  set (s3 := s <| _allocatedPlayers := _allocatedPlayers s + n |> <| _tempMatchPkts := _tempMatchPkts s ++ [pkt] |>).
  assert (H3 : _dediSessions m3 !! pid = Some s3 /\ (forall p, p <> pid -> _dediSessions m3 !! p = _dediSessions m !! p) /\
    forall p, sent p m3 = sent p m).
  { assert (Hd2 : _dediSessions m2 = _dediSessions m1) by by rewrite Hm2. split_and!.
    - unfold m3. rewrite upd_dedi_lookup, decide_True, Hd2 by done. unfold m1.
      rewrite upd_dedi_lookup, decide_True, Hs by done. done.
    - intros p Hp. unfold m3. rewrite upd_dedi_lookup, decide_False, Hd2 by done. unfold m1.
      by rewrite upd_dedi_lookup, decide_False by done.
    - intros p. unfold sent. assert (Ho : m_out m3 = m_out m) by (transitivity (m_out m2); [done|by rewrite Hm2]). by rewrite Ho. }
  destruct H3 as (E1 & E2 & E3). clearbody m3. clear m1 m2 Hm2.
  assert (Hg : given pid m3 = given pid m ++ [pkt]) by (unfold given, held; rewrite E1, E3, Hs; apply app_assoc).
  destruct (bool_decide (_state s = Ready)).
  - destruct (Flush_spec pid m3) as (F1 & F2 & F3).
    assert (F : given pid (FlushPendingTickets pid m3) = given pid m3) by (unfold given at 1; by rewrite F1, F2, app_nil_r).
    rewrite F, F1. split_and!; [done|done|done|done| |].
    + rewrite Flush_sessions, decide_True, E1 by done. done.
    + intros p Hp. rewrite (proj1 (F3 p Hp)), Flush_sessions, decide_False by done. by rewrite E2, E3.
  - split_and!; try done; [by rewrite E1|]. intros p Hp. by rewrite E2, E3.
Qed.
(** A group that a process takes joins what that process is given, and nothing else does. *)
Definition takes (group : list MatchTicket) (pid : Z) (m m' : Mn) : Prop :=
  (exists pkt, given pid m' = given pid m ++ [pkt] /\ from_option (fun t => mr_map_id pkt = mapId t) False (head group) /\
     map pi_ticket_id (mr_player_infos pkt) `sublist_of` map ticketId group) /\
  allocated pid m' = allocated pid m + Z.of_nat (length group) /\
  forall p, p <> pid -> given p m' = given p m /\ allocated p m' = allocated p m.
Definition taken (group : list MatchTicket) (m : Mn) (r : (Exn + bool) * Mn) : Prop :=
  match r with
  | (inr true, m') => exists pid, takes group pid m m'
  | (_, m') => forall p, given p m' = given p m
  end.

Lemma allocate_taken pid t ts (m : Mn) : 
  taken (t :: ts) m (AllocatePlayers pid (t :: ts) m) /\
  forall m', AllocatePlayers pid (t :: ts) m = (inr false, m') -> m' = m.
Proof.
  destruct (_dediSessions m !! pid) as [s|] eqn:Hs.
  2: { unfold AllocatePlayers. rewrite Hs. split; [done|]. by intros m' [= <-]. }
  destruct ((Z.of_nat (length (t :: ts)) <=? GetAffordablePlayers s) && negb (bool_decide (_state s = Terminated))) eqn:Ef.
  2: { unfold AllocatePlayers. rewrite Hs, Ef. split; [done|]. by intros m' [= <-]. }
  apply andb_true_iff in Ef as [Hf%Z.leb_le Ht%negb_true_iff%bool_decide_eq_false].
  pose proof (AllocatePlayers_spec pid t ts m s Hs Ht Hf) as H. destruct (AllocatePlayers pid (t :: ts) m) as [[e|ok] m'].
  { split; [exact (proj2 H)|done]. }
  destruct H as (-> & pkt & H1 & H2 & H3 & _ & H4 & H5). split; [|done]. exists pid. split_and!.
  - by exists pkt.
  - unfold allocated. rewrite Hs. destruct (_dediSessions m' !! pid) as [s'|]; [injection H4 as H4; exact H4|discriminate H4].
  - intros p Hp. destruct (H5 p Hp) as [E1 E2]. unfold given, held, allocated. by rewrite E1, E2.
Qed.
Lemma find_taken pids t ts (m : Mn) : taken (t :: ts) m (find_available pids (t :: ts) m) /\
  forall m', find_available pids (t :: ts) m = (inr false, m') -> m' = m.
Proof.
  induction pids as [|pid pids IH]; cbn [find_available]; [split; [done|by intros m' [= <-]]|].
  unfold mbind, EX_bind. destruct (allocate_taken pid t ts m) as [H1 H2]. destruct (AllocatePlayers pid (t :: ts) m) as [[e|[]] m1]; [done|done|].
  by rewrite (H2 m1 eq_refl).
Qed.

Lemma spawn_given (m : Mn) p : sound m -> let m' := snd (SpawnSingleServer m) in given p m' = given p m /\ allocated p m' = allocated p m.
Proof.
  intros [_ H]. unfold SpawnSingleServer. destruct (Z.ltb_spec (me_fork (m_forks m)) 0) as [Hn|Hn]; [done|]. cbn [snd].
  pose proof (H (m_forks m) ltac:(lia) Hn) as Hnone. unfold given, held, allocated, sent. cbn.
  destruct (decide (p = me_fork (m_forks m))) as [->|Hp]; [by rewrite lookup_insert_eq, Hnone|by rewrite lookup_insert_ne].
Qed.
Lemma distribute_taken t ts m : sound m -> taken (t :: ts) m (DistributePlayerGroup (t :: ts) m).
Proof.
  intros Hm. unfold DistributePlayerGroup, mbind, EX_bind, FindAvailableSessionAndDistributePlayerGroup.
  destruct (find_taken (me_keys _ (_dediSessions m)) t ts m) as [H1 H2].
  destruct (find_available _ _ m) as [[e|[]] m1]; [done|done|]. rewrite (H2 m1 eq_refl). clear H1 H2 m1.
  pose proof (fun p => spawn_given m p Hm) as Hg. destruct (SpawnSingleServer m) as [pid m1]. cbn [snd] in Hg.
  destruct (pid =? -1); [intros p; apply Hg|]. destruct (allocate_taken pid t ts m1) as [H _].
  destruct (AllocatePlayers pid (t :: ts) m1) as [[e|[]] m2]; try (intros p; rewrite H; apply Hg).
  destruct H as (q & (pkt & E1 & E2 & E3) & Ha & Ho). exists q. destruct (Hg q) as [G1 G2]. split_and!.
  - exists pkt. by rewrite E1, G1.
  - by rewrite Ha, G2.
  - intros p Hp. destruct (Ho p Hp) as [-> ->]. apply Hg.
Qed.

(** The places a process is said to have got back. *)
Definition returned (pid : Z) (ops : list ManagerOp) : Z :=
  foldr (fun op n => match op with OpRoomDestroyed (Some p) k => if p =? pid then Z.max k 0 + n else n | _ => n end) 0 ops.
Lemma step_cover op m pid : sound m -> cover pid m - returned pid [op] <= cover pid (manager_step op m).
Proof.
  intros Hm. assert (H0 : forall x : ManagerOp -> Mn -> Mn, pays m (x op m) -> cover pid m - 0 <= cover pid (x op m))
    by (intros x H; pose proof (pa_cover _ _ H pid); lia).
  destruct op as [|t g|fd|p fd|[p|] n|token ip|]; cbn [returned foldr]; try (apply (H0 manager_step); cbn [manager_step]; by apply orderly).
  - apply (H0 manager_step). by apply pays_accept.
  - apply (H0 manager_step). by apply pays_finalize.
  - cbn [manager_step]. pose proof (cover_release p n m pid) as H. unfold Handle_D2M_NotifyRoomDestroyed, mbind, EX_bind, exmod. cbn [snd mret EX_ret].
    destruct (Z.eqb_spec p pid) as [->|Hp]; [rewrite decide_True in H by done|rewrite decide_False in H by congruence]; lia.
Qed.
Lemma run_cover ops m pid : Forall reported ops -> sound m ->
  leads m (manager_run ops m) /\ cover pid m - returned pid ops <= cover pid (manager_run ops m).
Proof.
  intros Hr. revert m. induction Hr as [|op ops Ho Hr IH]; intros m Hm; [split; [by apply leads_refl|cbn; lia]|].
  pose proof (step_leads op m Ho Hm) as Hl. destruct (IH _ (le_sound _ _ Hl)) as [H1 H2]. split; [by eapply leads_trans|].
  pose proof (step_cover op m pid Hm) as H. change (manager_run (op :: ops) m) with (manager_run ops (manager_step op m)).
  assert (Ereturned : returned pid (op :: ops) = returned pid [op] + returned pid ops); [|lia].
  unfold returned. cbn [foldr]. destruct op as [|? ?|?|? ?|[p|] k|? ?|]; try done. destruct (p =? pid); lia.
Qed.

(** C27. In every history of the manager no process is given more players than it hosts: the
    players of the groups it is given, with the places it had taken before, are at most 50 and the places
    given back meanwhile.  No group is lost or overtaken: what a process has been sent only grows, and so does
    the sequence of the groups sent to it and still held for it.  A group that is
    distributed next joins the end of that sequence of exactly one process, on the map of
    its first ticket, with its players in order (those whose rows are gone left out), and takes a
    place for each of its tickets; if it is refused or an exception ends the distribution,
    no process has been given anything. *)
Theorem groups_in_order ops m : Forall reported ops -> sound m ->
  let m' := manager_run ops m in
  (forall pid, 0 <= allocated pid m' <= MAX_PLAYER_PER_PROCESS) /\
  (forall pid, sent pid m `prefix_of` sent pid m' /\
     exists new, given pid m' = given pid m ++ new /\
       players_of new + allocated pid m <= MAX_PLAYER_PER_PROCESS + returned pid ops) /\
  forall t group, taken (t :: group) m' (DistributePlayerGroup (t :: group) m').
Proof.
  intros Hr Hm m'. assert (Hcap : forall pid, 0 <= allocated pid m' <= MAX_PLAYER_PER_PROCESS).
  { intros pid. unfold allocated. destruct (_dediSessions m' !! pid) as [s|] eqn:Es; [|cbn; unfold MAX_PLAYER_PER_PROCESS; lia].
    destruct (run_cover ops m pid Hr Hm) as [[[H _] _ _] _]. exact (H pid s Es). }
  split_and!; [done| |].
  - intros pid. destruct (run_cover ops m pid Hr Hm) as [[_ H1 H2] H3]. split; [by apply sent_prefix|].
    destruct (H2 pid) as [new En]. exists new. split; [done|]. specialize (Hcap pid). fold m' in H3, En.
    unfold cover in H3. rewrite En, players_of_app in H3. lia.
  - intros t group. apply distribute_taken. by apply (run_cover ops m 0 Hr Hm).
Qed.
End histories.

Section connection.
Context {R : Redis} {M : Mysql} {E : MainEnv}.

(** A process that connects is not told what was held for it: the connection only
    makes the session ready, so a group given to a process that was still starting
    waits until another group is given to the same process. *)
Theorem connection_flushes_nothing pid fd (m m' : Main R M) :
  FinalizeConnection pid fd m = (true, m') ->
  (forall p, sent p m' = sent p m /\ held p m' = held p m) /\
  (_state <$> (_dediSessions m' !! pid)) = Some Ready /\ _sessionFd2pid m' !! fd = Some pid /\ fd ∉ _tempSessions m'.
Proof.
  unfold FinalizeConnection. destruct (_ && _) eqn:E1; [|done]. intros [= <-].
  apply andb_true_iff in E1 as [_ [s Hs]%bool_decide_eq_true_1]. split_and!.
  - intros p. split; [done|]. unfold held. cbn. destruct (decide (p = pid)) as [->|Hp].
    + by rewrite lookup_alter_eq, Hs.
    + by rewrite lookup_alter_ne.
  - cbn. by rewrite lookup_alter_eq, Hs.
  - cbn. apply lookup_insert_eq.
  - cbn. intros [Hne _]%elem_of_filter_bool. by rewrite Z.eqb_refl in Hne.
Qed.
End connection.

(** ** Witnesses *)

#[local] Existing Instance sample_redis.
#[local] Existing Instance sample_mysql.
#[local] Existing Instance sample_env.

Definition sample_manager : Main sample_redis sample_mysql := sample_queue "WAITING".

Lemma sample_manager_sound : sound sample_manager.
Proof.
  constructor; cbn.
  - intros p s [<- <-]%lookup_singleton_Some. cbn. unfold MAX_PLAYER_PER_PROCESS. lia.
  - intros n Hn _. apply lookup_singleton_ne. lia.
Qed.

(** The round gives a group to a process that is still starting; it connects; a second
    group, of a player whose row has expired, brings both. *)
Definition sample_history : list ManagerOp :=
  [OpMatchMake; OpFinalize 100 7; OpDistribute (new_MatchTicket "t3" 9 1 1 0 0) []; OpRoomDestroyed (Some 100) 2].

Lemma groups_in_order_witness :
  let m' := manager_run sample_history sample_manager in
  sent 100 sample_manager `prefix_of` sent 100 m' /\
  map (fun p => length (mr_player_infos p)) (sent 100 m') = [2; 0]%nat /\ allocated 100 m' = 1 /\
  (exists new, given 100 m' = given 100 sample_manager ++ new /\ players_of new <= 52) /\
  exists pid, takes [new_MatchTicket "t4" 11 1 1 0 0] pid m' (snd (DistributePlayerGroup [new_MatchTicket "t4" 11 1 1 0 0] m')).
Proof.
  intros m'. destruct (groups_in_order (R:=sample_redis) (M:=sample_mysql)) with (ops := sample_history) (m := sample_manager) as (_ & H & Ht).
  - cbn. intros i j. lia.
  - repeat constructor; cbn; lia.
  - apply sample_manager_sound.
  - destruct (H 100) as [H1 (new & H2 & H3)]. split_and!; [exact H1|vm_compute; reflexivity|vm_compute; reflexivity| |].
    + exists new. split; [exact H2|]. assert (E1 : returned 100 sample_history = 2) by reflexivity. 
      assert (E2 : allocated 100 sample_manager = 0) by reflexivity. unfold MAX_PLAYER_PER_PROCESS in H3. lia.
    + specialize (Ht (new_MatchTicket "t4" 11 1 1 0 0) []). fold m' in Ht.
      assert (E : fst (DistributePlayerGroup [new_MatchTicket "t4" 11 1 1 0 0] m') = inr true) by (vm_compute; reflexivity).
      destruct (DistributePlayerGroup [new_MatchTicket "t4" 11 1 1 0 0] m') as [o m2]. cbn [fst snd] in *. rewrite E in Ht. exact Ht.
Defined.

Lemma AllocatePlayers_spec_witness :
  let '(o, m') := AllocatePlayers 100 [new_MatchTicket "t1" 7 3 0 1 0] sample_manager in
  o = inr true /\ sent 100 m' = [] /\ map mr_map_id (given 100 m') = [0].
Proof.
  pose proof (AllocatePlayers_spec 100 (new_MatchTicket "t1" 7 3 0 1 0) [] sample_manager (new_M2DSession 100)
    eq_refl ltac:(done) ltac:(vm_compute; discriminate)) as H.
  destruct (AllocatePlayers _ _ _) as [[e|ok] m'] eqn:Ea.
  - exfalso. apply (f_equal fst) in Ea. vm_compute in Ea. discriminate.
  - destruct H as (-> & pkt & Hg & Hmap & _ & Hs & _). split; [done|]. split; [by rewrite Hs|]. rewrite Hg, map_app. cbn.
    by rewrite Hmap.
Defined.

Lemma connection_flushes_nothing_witness :
  let m1 := manager_run [OpMatchMake] sample_manager in
  let m2 := snd (FinalizeConnection 100 7 m1) in
  length (held 100 m1) = 1%nat /\ sent 100 m2 = [] /\ held 100 m2 = held 100 m1.
Proof.
  intros m1 m2. assert (E1 : FinalizeConnection 100 7 m1 = (true, m2)).
  { unfold m2. assert (Ef : fst (FinalizeConnection 100 7 m1) = true) by (vm_compute; reflexivity).
    by destruct (FinalizeConnection 100 7 m1) as [b m3]; cbn in *; subst. }
  pose proof (connection_flushes_nothing 100 7 m1 m2 E1) as [H _]. destruct (H 100) as [Hs Hh].
  split; [vm_compute; reflexivity|]. split; [|exact Hh]. rewrite Hs. vm_compute. reflexivity.
Defined.
