(* ===== verification/Service.v ===== *)
(** * The dedicated server

    Models src/src/DedicateProcess/DediServerService.h and .cpp, TimerExecuter.h and
    .cpp and the loop of DedicateMain.cpp: the rooms of a process, its session ids and
    entry tokens, the periodic work (retransmissions, updates, destruction of rooms) and the
    timers.

    A room is the [World] of Room.v; a step of the service takes each room through
    steps of Calm.v, and what a room puts out is acted on at once.  A [PlayerSession*]
    is the id of its room: [_players] holds it at the session's id.  The clock is
    in milliseconds and stands still within a step.

    The heap of the timers is that of the standard library: [sh_pop] returns an entry
    with the least time and the others; among equal times the standard does not say
    which.  [sys_token_char] and [sys_key] are the draws of the generators of tokens
    and keys, [sys_inet] is [inet_pton], [sys_bind] whether a UDP port can be bound. *)

From S2P Require Import Prelude Items Transport Geometry MapData Container Protocol Session Room Handlers Calm Safety Rooms Main DBProxy.
From Stdlib Require Import Ascii.
From stdpp Require Import strings.
Local Open Scope Z_scope.

Record TimerEntry := mk_timer { execAt : Z; tm_session : Z; tm_uid : Z; tm_generation : Z }.

Class System := {
  sys_token_char : nat -> nat;
  sys_key : nat -> Z;
  sys_inet : string -> option Z;
  sys_bind : Z -> bool;
  sh_pop : list TimerEntry -> option (TimerEntry * list TimerEntry) }.
Class SystemLaws (Y : System) : Prop := {
  sh_pop_none : sh_pop [] = None;
  sh_pop_some l : l <> [] -> exists e l', sh_pop l = Some (e, l') /\ Permutation l (e :: l') /\
    Forall (fun e' => execAt e <= execAt e') l' }.

Inductive ToMain :=
| TmEntryTokens (pkt : D2MUpdateEntryToken)
| TmLeft (m : D2MNotifyPlayerLeft)
| TmRoomDestroyed (roomId playerCount : Z).

Record Service := mk_service {
  _gameRooms : gmap Z World;
  _players : list (option Z);
  _tokenToPlayerSession : gmap string (Z * Z);   (* room, session id *)
  _retransmitPhase : Z; _lastRetransmitTime : Z;
  _updatePhase : Z; _lastRoomUpdateTime : Z;
  _freePlayerIds : list Z;
  _pendingDestroyRooms : list Z; _lastRoomDestroyTime : Z;
  _udpPort : Z; sv_roomId : Z; sv_loot : nat; sv_tokens : nat; sv_keys : nat;
  _heap : list TimerEntry; sv_now : Z; sv_toMain : list ToMain }.
#[export] Instance eta_Service : Eta Service := fun s =>
  mk_service (_gameRooms s) (_players s) (_tokenToPlayerSession s) (_retransmitPhase s) (_lastRetransmitTime s)
    (_updatePhase s) (_lastRoomUpdateTime s) (_freePlayerIds s) (_pendingDestroyRooms s) (_lastRoomDestroyTime s)
    (_udpPort s) (sv_roomId s) (sv_loot s) (sv_tokens s) (sv_keys s) (_heap s) (sv_now s) (sv_toMain s).

(** The constructor, at time [now], and the port [InitUDP] has bound. *)
Definition new_DediServerService (now udpPort : Z) : Service :=
  mk_service ∅ (replicate 51 None) ∅ 0 now 0 now (map Z.of_nat (seq 0 50)) [] now udpPort 0 0 0 0 [] now [].

Definition alphanum : string := "0123456789ABCDEFGHIJKLMNOPQRSTUVWXYZabcdefghijklmnopqrstuvwxyz".
Definition RETRANSMIT_INTERVAL_MS : Z := 50.
Definition ROOM_UPDATE_INTERVAL_MS : Z := 25.
Definition ROOM_DESTROY_INTERVAL_MS : Z := 1000.

Section service.
Context {E : External} {G : Rng} {Y : System}.

(** The first port of the range that can be bound. *)
Definition MIN_PORT : Z := 7000.
Definition MAX_PORT : Z := 7100.
Fixpoint bind_loop (fuel : nat) (port : Z) : option Z :=
  match fuel with
  | O => None
  | S fuel' => if port <=? MAX_PORT then if sys_bind port then Some port else bind_loop fuel' (port + 1) else None
  end.
Definition InitUDP : option Z := bind_loop (Z.to_nat (MAX_PORT - MIN_PORT + 1)) MIN_PORT.

Definition to_main (m : ToMain) (sv : Service) : Service := sv <| sv_toMain ::= fun l => l ++ [m] |>.

(** [pTimerExecuter->Add]. *)
Definition TimerAdd (delayMs sid uid generation : Z) (sv : Service) : Service :=
  sv <| _heap ::= cons (mk_timer (sv_now sv + delayMs) sid uid generation) |>.

Definition ReserveRoomDestroy (roomId : Z) (sv : Service) : Service :=
  sv <| _pendingDestroyRooms ::= fun l => l ++ [roomId] |>.

(** What becomes of an output of a room; UDP packets go to the socket. *)
Definition act_on (o : Output) (sv : Service) : Service :=
  match o with
  | OutUdp _ _ => sv
  | OutLeft m => to_main (TmLeft m) sv
  | OutReserveDestroy roomId => ReserveRoomDestroy roomId sv
  | OutTimer delayMs sid uid generation => TimerAdd delayMs sid uid generation sv
  end.

(** A step of one room. *)
Definition in_room (roomId : Z) (l : Label) (sv : Service) : Service :=
  match _gameRooms sv !! roomId with
  | None => sv
  | Some w =>
      let w' := step l w in
      foldl (fun sv o => act_on o sv) (sv <| _gameRooms ::= <[ roomId := w' ]> |>)
            (drop (length (w_out w)) (w_out w'))
  end.

(** The argument is an [int16_t]; a negative one is a large index. *)
Definition GetPlayerSession (sessionId : Z) (sv : Service) : option Z :=
  if (0 <=? sessionId) && (sessionId <? Z.of_nat (length (_players sv)))
  then nth (Z.to_nat sessionId) (_players sv) None else None.

(** ** Rooms for groups *)

Definition GetFreeSessionId : ST Service Z := fun sv =>
  match _freePlayerIds sv with
  | idx :: q => (idx, sv <| _freePlayerIds := q |>)
  | [] => (Z.of_nat (length (_players sv)), sv <| _players ::= fun l => l ++ [None] |>)
  end.

(** The [k]-th token drawn. *)
Fixpoint token_chars (n k : nat) : string :=
  match n with
  | O => EmptyString
  | S n' => String (default "0"%char (String.get (sys_token_char k) alphanum)) (token_chars n' (S k))
  end.
Definition token_at (k : nat) : string := "token_" +:+ token_chars 16 (16 * k).

(** [fuel] draws; [None] when none of them is new. *)
Fixpoint find_token (fuel k : nat) (used : gmap string (Z * Z)) : option (string * nat) :=
  match fuel with
  | O => None
  | S fuel' => if decide (is_Some (used !! token_at k)) then find_token fuel' (S k) used else Some (token_at k, S k)
  end.
Definition GetUniqueToken (sv : Service) : option (string * Service) :=
  p ← find_token (S (size (_tokenToPlayerSession sv))) (sv_tokens sv) (_tokenToPlayerSession sv);
  Some (p.1, sv <| sv_tokens := p.2 |>).

Definition info_slot (s : ItemSlot) : Slot :=
  slot_default <| item ::= fun i => i <| blueprintId := is_item_id s |> |>
               <| slotIndex := is_slot_index s |> <| quantity := is_quantity s |>.

(** What the loop over the players collects for the main process. *)
Record Collected := mk_collected {
  cl_tickets : list string; cl_sessions : list Z; cl_tokens : list string; cl_keys : list Z }.

Definition seat_player (roomId : Z) (info : PlayerInfo) (w : World) (c : Collected) (sv : Service)
    : option (World * Collected * Service) :=
  '(token, sv1) ← GetUniqueToken sv;
  let '(sid, sv2) := GetFreeSessionId sv1 in
  let key := sys_key (sv_keys sv2) in
  let s := new_PlayerSession (pi_ticket_id info) token sid roomId (pi_uid info) (pi_user_id info) (pi_rating info)
             (map info_slot (pi_inventory_items info)) (map info_slot (pi_equipment_items info))
             (pi_character_type info) key in
  let w' := exec (RegisterPlayerSession sid s) w in
  let sv3 := sv2 <| sv_keys ::= S |> <| _players ::= <[ Z.to_nat sid := Some roomId ]> |>
                 <| _tokenToPlayerSession ::= <[ token := (roomId, sid) ]> |> in
  Some (w', mk_collected (cl_tickets c ++ [pi_ticket_id info]) (cl_sessions c ++ [sid]) (cl_tokens c ++ [token])
              (cl_keys c ++ [key]), sv3).

Fixpoint seat_players (roomId : Z) (infos : list PlayerInfo) (w : World) (c : Collected) (sv : Service)
    : option (World * Collected * Service) :=
  match infos with
  | [] => Some (w, c, sv)
  | info :: infos' => '(w', c', sv') ← seat_player roomId info w c sv; seat_players roomId infos' w' c' sv'
  end.

Definition MakeD2MUpdateEntryTokenPkt (udpPort : Z) (c : Collected) : D2MUpdateEntryToken :=
  let n := length (cl_tickets c) in
  if (n =? length (cl_sessions c))%nat && (length (cl_sessions c) =? length (cl_tokens c))%nat
     && (length (cl_tokens c) =? length (cl_keys c))%nat
  then mk_update_token (Z.of_nat n) udpPort (cl_tickets c) (cl_sessions c) (cl_tokens c) (cl_keys c)
  else mk_update_token (-1) 0 [] [] [] [].

(** The room of a map, and the draws it took. *)
Definition make_room (mapId roomId now : Z) (draws : nat) : option (GameRoom * nat) :=
  if mapId =? MAP_ID_TUTORIAL then Some (new_TestGameRoom roomId now draws)
  else if mapId =? MAP_ID_TENERIFE then Some (new_TenerifeGameRoom roomId now draws)
  else None.

(** [None] when the search for a token has not ended. *)
Definition MakeRoomForThisGroup (pkt : M2DMakeRoomForThisGroup) (sv : Service) : option (bool * Service) :=
  let roomId := sv_roomId sv + 1 in
  let sv1 := sv <| sv_roomId := roomId |> in
  match make_room (mr_map_id pkt) roomId (sv_now sv) (sv_loot sv) with
  | None => Some (false, sv1)
  | Some (r, draws) =>
      '(w, c, sv2) ← seat_players roomId (mr_player_infos pkt) (mk_world r (sv_now sv) [] false)
                       (mk_collected [] [] [] []) (sv1 <| sv_loot := draws |>);
      Some (true, to_main (TmEntryTokens (MakeD2MUpdateEntryTokenPkt (_udpPort sv2) c))
                    (sv2 <| _gameRooms ::= <[ roomId := w ]> |>))
  end.

Definition Handle_H2M2D_BCITSpkt (token ip : string) (sv : Service) : bool * Service :=
  match _tokenToPlayerSession sv !! token with
  | None => (false, sv)
  | Some (roomId, sid) =>
      (true, (in_room roomId (LBindIp sid (sys_inet ip)) sv) <| _tokenToPlayerSession ::= delete token |>)
  end.

(** A datagram: the header says whose room it is for. *)
Definition OnDatagram (bytes : list Z) (clientAddr : sockaddr_in) (sv : Service) : Service :=
  if Z.of_nat (length bytes) <? UDP_HEADER_SIZE then sv
  else if PKT_ID_MAX <=? packetId (decode_udp bytes) then sv
  else match GetPlayerSession (i16 (h_sessionId (decode_udp bytes))) sv with
       | None => sv
       | Some roomId => in_room roomId (LPacket bytes clientAddr) sv
       end.

(** ** Periodic work *)

Definition retransmit_turn (sv : Service) (i : nat) : Service :=
  match nth i (_players sv) None with
  | None => sv
  | Some roomId => in_room roomId (LRetransmit (Z.of_nat i)) sv
  end.
(** The indices of the phase. *)
Definition phase_ids (phase : Z) (n : nat) : list nat := List.filter (fun i => Z.of_nat i mod 2 =? phase) (seq 0 n).
Definition CheckRetransmits (sv : Service) : Service :=
  if sv_now sv - _lastRetransmitTime sv <? RETRANSMIT_INTERVAL_MS then sv
  else
    let phase := _retransmitPhase sv in
    foldl retransmit_turn (sv <| _lastRetransmitTime := sv_now sv |> <| _retransmitPhase := Z.lxor phase 1 |>)
      (phase_ids phase (length (_players sv))).

Definition update_turn (phase : Z) (sv : Service) (roomId : Z) : Service :=
  let sv1 := if Z.rem roomId 4 =? phase then in_room roomId LUpdate sv else sv in
  if Z.rem roomId 4 =? Z.rem (phase + 2) 4 then in_room roomId LUpdateNpcs sv1 else sv1.
Definition UpdateGameRooms (sv : Service) : Service :=
  if sv_now sv - _lastRoomUpdateTime sv <? ROOM_UPDATE_INTERVAL_MS then sv
  else
    let phase := _updatePhase sv in
    (foldl (update_turn phase) (sv <| _lastRoomUpdateTime := sv_now sv |>) (ext_keys _ (_gameRooms sv)))
      <| _updatePhase := Z.rem (phase + 1) 4 |>.

(** One session of a room that is destroyed. *)
Definition release_session (w : World) (sv : Service) (sid : Z) : Service :=
  match sess w !! sid with
  | None => sv
  | Some s =>
      sv <| _tokenToPlayerSession ::= delete (_entryToken s) |>
         <| _players ::= fun l => if (0 <=? sid) && (sid <? Z.of_nat (length l)) then <[ Z.to_nat sid := None ]> l else l |>
         <| _freePlayerIds ::= fun q => q ++ [sid] |>
  end.
Definition DestroyRoom (sv : Service) (roomId : Z) : Service :=
  match _gameRooms sv !! roomId with
  | None => sv
  | Some w =>
      let sv1 := to_main (TmRoomDestroyed roomId (i32 (Z.of_nat (size (sess w))))) sv in
      (foldl (release_session w) sv1 (ext_keys _ (sess w))) <| _gameRooms ::= delete roomId |>
  end.
Definition DestroyPendingRooms (sv : Service) : Service :=
  if sv_now sv - _lastRoomDestroyTime sv <? ROOM_DESTROY_INTERVAL_MS then sv
  else
    (foldl DestroyRoom (sv <| _lastRoomDestroyTime := sv_now sv |>) (_pendingDestroyRooms sv))
      <| _pendingDestroyRooms := [] |>.

(** ** Timers *)

(** The callback: [RecallTick], which looks the session up by its id. *)
Definition timer_callback (e : TimerEntry) (sv : Service) : Service :=
  match GetPlayerSession (i16 (tm_session e)) sv with
  | None => sv
  | Some roomId => in_room roomId (LRecallTimer (tm_session e) (tm_uid e) (tm_generation e)) sv
  end.
Fixpoint tick_loop (fuel : nat) (sv : Service) : Service :=
  match fuel with
  | O => sv
  | S fuel' =>
      match sh_pop (_heap sv) with
      | None => sv
      | Some (e, heap) =>
          if execAt e <=? sv_now sv then tick_loop fuel' (timer_callback e (sv <| _heap := heap |>)) else sv
      end
  end.
Definition Tick (sv : Service) : Service := tick_loop (S (length (_heap sv))) sv.

(** ** The main loop *)

(** What a completion hands to the service. *)
Inductive Completion :=
| CqMakeRoom (pkt : M2DMakeRoomForThisGroup)
| CqBindIp (token ip : string)
| CqDatagram (bytes : list Z) (addr : sockaddr_in).

Definition complete (sv : Service) (c : Completion) : option Service :=
  match c with
  | CqMakeRoom pkt => snd <$> MakeRoomForThisGroup pkt sv
  | CqBindIp token ip => Some (snd (Handle_H2M2D_BCITSpkt token ip sv))
  | CqDatagram bytes addr => Some (OnDatagram bytes addr sv)
  end.
Fixpoint complete_all (cs : list Completion) (sv : Service) : option Service :=
  match cs with [] => Some sv | c :: cs' => sv' ← complete sv c; complete_all cs' sv' end.

Definition advance (ms : Z) (sv : Service) : Service :=
  sv <| sv_now ::= Z.add ms |> <| _gameRooms ::= fmap (step (LClock ms)) |>.

(** One pass of the loop of [DedicateMain], [ms] after the last. *)
Definition main_pass (ms : Z) (cs : list Completion) (sv : Service) : option Service :=
  sv1 ← complete_all cs (advance ms sv);
  Some (Tick (DestroyPendingRooms (UpdateGameRooms (CheckRetransmits sv1)))).
Fixpoint main_loop (passes : list (Z * list Completion)) (sv : Service) : option Service :=
  match passes with [] => Some sv | (ms, cs) :: ps => sv' ← main_pass ms cs sv; main_loop ps sv' end.
End service.

(** ** Lemmas: one room at a time *)

Lemma kept_refl w : leave_inv w -> kept w w.
Proof. by split. Qed.

Section lemmas.
Context {E : External} {L : ExternalLaws E} {G : Rng} {Y : System} {LY : SystemLaws Y}.

(** Whose turn it is and since when. *)
Definition periodic (sv : Service) : Z * Z * Z * Z * Z :=
  (_retransmitPhase sv, _lastRetransmitTime sv, _updatePhase sv, _lastRoomUpdateTime sv, _lastRoomDestroyTime sv).

(** What acting on outputs leaves alone. *)
Record same_desk (sv sv' : Service) : Prop := {
  sd_rooms : _gameRooms sv' = _gameRooms sv;
  sd_players : _players sv' = _players sv;
  sd_free : _freePlayerIds sv' = _freePlayerIds sv;
  sd_tokens : _tokenToPlayerSession sv' = _tokenToPlayerSession sv;
  sd_id : sv_roomId sv' = sv_roomId sv;
  sd_now : sv_now sv' = sv_now sv;
  sd_periodic : periodic sv' = periodic sv }.
#[export] Instance same_desk_preorder : PreOrder same_desk.
Proof. split; [by constructor|]. intros a b c [] []. constructor; congruence. Qed.

Lemma act_desk os sv : same_desk sv (foldl (fun sv o => act_on o sv) sv os).
Proof.
  revert sv. induction os as [|o os IH]; intros sv; [reflexivity|]. cbn [foldl]. etrans; [|apply IH].
  by destruct o; constructor.
Qed.

Lemma in_room_desk rid l sv : same_desk (match _gameRooms sv !! rid with
    Some w => sv <| _gameRooms ::= <[ rid := step l w ]> |> | None => sv end) (in_room rid l sv).
Proof. unfold in_room. destruct (_gameRooms sv !! rid); [apply act_desk|reflexivity]. Qed.

Lemma in_room_rooms rid l sv k : _gameRooms (in_room rid l sv) !! k =
  if decide (k = rid) then step l <$> _gameRooms sv !! rid else _gameRooms sv !! k.
Proof.
  rewrite (sd_rooms _ _ (in_room_desk rid l sv)). destruct (_gameRooms sv !! rid) as [w|] eqn:Hw; cbn.
  - case_decide as Hk; [subst; apply lookup_insert_eq|by apply lookup_insert_ne].
  - by case_decide; subst.
Qed.
Lemma in_room_frame rid l sv :
  _players (in_room rid l sv) = _players sv /\ _freePlayerIds (in_room rid l sv) = _freePlayerIds sv /\
  _tokenToPlayerSession (in_room rid l sv) = _tokenToPlayerSession sv /\ sv_roomId (in_room rid l sv) = sv_roomId sv /\
  sv_now (in_room rid l sv) = sv_now sv.
Proof.
  pose proof (in_room_desk rid l sv) as [_ H1 H2 H3 H4 H5 _]. destruct (_gameRooms sv !! rid); split_and!; done.
Qed.
Lemma in_room_periodic rid l sv : periodic (in_room rid l sv) = periodic sv.
Proof. rewrite (sd_periodic _ _ (in_room_desk rid l sv)). by destruct (_gameRooms sv !! rid). Qed.

(** ** The accounts of session ids *)

(** Index 50 of [_players] is never handed out. *)
Definition SPARE : nat := 50.

Record accounts (rooms : gmap Z World) (sv : Service) : Prop := {
  ac_length : (51 <= length (_players sv))%nat;
  ac_free : NoDup (_freePlayerIds sv);
  ac_vacant : forall i, i ∈ _freePlayerIds sv -> 0 <= i /\ _players sv !! Z.to_nat i = Some None /\ Z.to_nat i <> SPARE;
  ac_listed : forall i, _players sv !! i = Some None -> i <> SPARE -> Z.of_nat i ∈ _freePlayerIds sv;
  ac_seated : forall i rid, _players sv !! i = Some (Some rid) -> exists w, rooms !! rid = Some w /\ is_Some (own (Z.of_nat i) w);
  ac_session : forall rid w sid, rooms !! rid = Some w -> is_Some (own sid w) ->
    0 <= sid /\ _players sv !! Z.to_nat sid = Some (Some rid);
  ac_rooms : forall rid w, rooms !! rid = Some w -> leave_inv w /\ 0 < rid <= sv_roomId sv;
  ac_id : 0 <= sv_roomId sv;
  ac_spare : forall rid, _players sv !! SPARE <> Some (Some rid) }.

(** The rooms change, but who is in them does not. *)
Lemma accounts_kept (rooms rooms' : gmap Z World) sv sv' :
  accounts rooms sv -> _players sv' = _players sv -> _freePlayerIds sv' = _freePlayerIds sv -> sv_roomId sv' = sv_roomId sv ->
  (forall rid, match rooms !! rid, rooms' !! rid with
     Some w, Some w' => kept w w' | None, None => True | _, _ => False end) ->
  accounts rooms' sv'.
Proof.
  intros [H1 H2 H3 H4 H5 H6 H7 H8 H9] Hp Hf Hid Hk. constructor; rewrite ?Hp, ?Hf, ?Hid; try done.
  - intros i rid Hi. destruct (H5 i rid Hi) as (w & Hw & [s Hs]). specialize (Hk rid). rewrite Hw in Hk.
    destruct (rooms' !! rid) as [w'|] eqn:Hw'; [|done]. exists w'. split; [done|]. destruct Hk as [_ Hk].
    apply not_eq_None_Some. rewrite Hk. congruence.
  - intros rid w' sid Hw' [s Hs]. specialize (Hk rid). rewrite Hw' in Hk. destruct (rooms !! rid) as [w|] eqn:Hw; [|done].
    apply (H6 rid w sid Hw). destruct Hk as [_ Hk]. apply not_eq_None_Some. rewrite <- Hk. congruence.
  - intros rid w' Hw'. specialize (Hk rid). rewrite Hw' in Hk. destruct (rooms !! rid) as [w|] eqn:Hw; [|done].
    split; [apply Hk|by apply (H7 rid w)].
Qed.

Definition service_ok (sv : Service) : Prop := accounts (_gameRooms sv) sv.

Lemma kept_all (rooms : gmap Z World) : (forall rid w, rooms !! rid = Some w -> leave_inv w) ->
  forall rid : Z, match rooms !! rid, rooms !! rid with
     Some w, Some w' => kept w w' | None, None => True | _, _ => False end.
Proof. intros H rid. destruct (rooms !! rid) as [w|] eqn:Hw; [|done]. by eapply kept_refl, H. Qed.

Lemma in_room_ok rid l sv : service_ok sv -> service_ok (in_room rid l sv).
Proof.
  intros Hok. destruct (in_room_frame rid l sv) as (Hp & Hf & _ & Hid & _).
  apply (accounts_kept (_gameRooms sv) _ sv); try done. intros k. rewrite in_room_rooms.
  destruct (_gameRooms sv !! k) as [w|] eqn:Hw.
  - case_decide as Hk.
    + subst. rewrite Hw. cbn. apply step_kept. by apply (ac_rooms _ _ Hok rid w Hw).
    + apply kept_refl. by apply (ac_rooms _ _ Hok k w Hw).
  - case_decide; [by subst; rewrite Hw|done].
Qed.

Lemma frame_ok sv sv' : service_ok sv -> _gameRooms sv' = _gameRooms sv -> _players sv' = _players sv ->
  _freePlayerIds sv' = _freePlayerIds sv -> sv_roomId sv' = sv_roomId sv -> service_ok sv'.
Proof.
  intros Hok Hr Hp Hf Hid. apply (accounts_kept (_gameRooms sv) _ sv); try done. rewrite Hr.
  apply kept_all. intros rid w Hw. by apply (ac_rooms _ _ Hok rid w).
Qed.
Lemma foldl_ok {A} (f : Service -> A -> Service) xs sv :
  (forall sv x, service_ok sv -> service_ok (f sv x)) -> service_ok sv -> service_ok (foldl f sv xs).
Proof. intros Hf. revert sv. induction xs as [|x xs IH]; intros sv Hsv; [done|]. apply IH, Hf, Hsv. Qed.

(** *** Seating a group *)

(** A room under construction, with the sessions registered so far. *)
Record being_filled (w : World) : Prop := {
  bf_uids : uids_distinct w;
  bf_fresh : forall sid s, own sid w = Some s -> s_leave s = mk_leave LS_NONE LR_NONE 0 0 false;
  bf_out : w_out w = [];
  bf_reported : _allLeftReported (w_room w) = false }.

Lemma being_filled_inv w : being_filled w -> leave_inv w.
Proof.
  intros [H1 H2 H3 H4]. constructor; [done| | |].
  - intros sid s Hs. specialize (H2 sid s Hs). split; [unfold leave_ok|unfold gone]; rewrite H2; cbn; [by split; split; [|lia| |]|lia].
  - intros sid s Hs. unfold heard. by rewrite (H2 sid s Hs), H3.
  - unfold report_ok. by rewrite H4, H3.
Qed.

Lemma own_register sid s w k : sess w !! sid = None ->
  own k (exec (RegisterPlayerSession sid s) w) = if decide (k = sid) then Some (strip s) else own k w.
Proof.
  intros Hn. unfold RegisterPlayerSession, upd_room, exec, modify, own, sess in *. cbn. rewrite Hn. cbn.
  case_decide as Hk; [subst; by rewrite lookup_insert_eq|by rewrite lookup_insert_ne].
Qed.

(** The id handed out is vacant; with it taken the rest of the accounts stand. *)
Lemma GetFreeSessionId_spec rooms sv : accounts rooms sv ->
  let '(sid, sv') := GetFreeSessionId sv in
  0 <= sid /\ Z.to_nat sid <> SPARE /\ _players sv' !! Z.to_nat sid = Some None /\
  (forall rid, _players sv !! Z.to_nat sid <> Some (Some rid)) /\
  (forall i, i <> Z.to_nat sid -> _players sv' !! i = _players sv !! i) /\ (length (_players sv) <= length (_players sv'))%nat /\
  NoDup (sid :: _freePlayerIds sv') /\ (forall i, i ∈ _freePlayerIds sv \/ i = sid <-> i ∈ sid :: _freePlayerIds sv') /\
  (_gameRooms sv' = _gameRooms sv /\ sv_roomId sv' = sv_roomId sv /\ _tokenToPlayerSession sv' = _tokenToPlayerSession sv /\
   sv_toMain sv' = sv_toMain sv).
Proof.
  intros [H1 H2 H3 H4 H5 H6 H7 _ _]. unfold GetFreeSessionId. destruct (_freePlayerIds sv) as [|i q] eqn:Hq.
  - cbn. rewrite Nat2Z.id. set (n := length (_players sv)) in *.
    assert (Hn : _players sv !! n = None) by (by apply lookup_ge_None_2). rewrite Hq. split_and!; try done; try lia.
    + unfold SPARE. lia.
    + by rewrite lookup_app_r, Nat.sub_diag.
    + intros rid. by rewrite Hn.
    + intros i Hi. destruct (decide (i < n)%nat) as [Hlt|Hge]; [by apply lookup_app_l|].
      rewrite lookup_app_r by (fold n; lia). rewrite (lookup_ge_None_2 (_players sv)) by (fold n; lia).
      apply lookup_ge_None_2. cbn. fold n. lia.
    + rewrite length_app. lia.
    + apply NoDup_singleton.
    + intros i. rewrite elem_of_cons. tauto.
  - destruct (H3 i) as (V1 & V2 & V3); [by left|]. cbn. split_and!; try done.
    + intros rid. by rewrite V2.
    + intros j. rewrite elem_of_cons. tauto.
Qed.

(** A token is drawn, nothing else. *)
Lemma GetUniqueToken_accounts rooms sv token sv1 : GetUniqueToken sv = Some (token, sv1) -> accounts rooms sv ->
  accounts rooms sv1 /\ _gameRooms sv1 = _gameRooms sv /\ sv_roomId sv1 = sv_roomId sv.
Proof.
  unfold GetUniqueToken. destruct (find_token _ _ _) as [[t k]|]; [|done]. intros [= <- <-] []. by split_and!.
Qed.

(** Registering a new session of another player in a room under construction. *)
Lemma being_filled_register sid s w : being_filled w -> own sid w = None ->
  s_leave s = mk_leave LS_NONE LR_NONE 0 0 false ->
  (forall k t, own k w = Some t -> session_uid t <> session_uid s) ->
  being_filled (exec (RegisterPlayerSession sid s) w).
Proof.
  intros [B1 B2 B3 B4] Hnone Hl Hu. set (w' := exec (RegisterPlayerSession sid s) w).
  assert (Hown : forall k, own k w' = if decide (k = sid) then Some (strip s) else own k w)
    by (intros k; apply own_register; unfold own in Hnone; by destruct (sess w !! sid)).
  assert (Hw' : w_out w' = w_out w /\ _allLeftReported (w_room w') = _allLeftReported (w_room w))
    by (unfold w', RegisterPlayerSession, upd_room, exec, modify; cbn; by destruct (_ !! sid)).
  constructor; [| |by rewrite (proj1 Hw')|by rewrite (proj2 Hw')].
  - intros a b sa sb. rewrite !Hown. repeat case_decide; subst; intros Ha Hb Heq; try done.
    + injection Ha as <-. exfalso. by apply (Hu b sb).
    + injection Hb as <-. exfalso. by apply (Hu a sa).
    + by apply (B1 a b sa sb).
  - intros k t. rewrite Hown. case_decide; [by intros [= <-]|apply B2].
Qed.

(** The place of a new session, and the accounts once it is registered. *)
Lemma accounts_seat rooms rid w w' s sv1 sid sv2 f : accounts (<[ rid := w ]> rooms) sv1 -> GetFreeSessionId sv1 = (sid, sv2) ->
  0 < rid <= sv_roomId sv1 -> leave_inv w' -> (forall k, own k w' = if decide (k = sid) then Some s else own k w) ->
  accounts (<[ rid := w' ]> rooms)
    (sv2 <| sv_keys ::= S |> <| _players ::= <[ Z.to_nat sid := Some rid ]> |> <| _tokenToPlayerSession ::= f |>).
Proof.
  intros Hac1 Hfree Hrid Hinv Hown. pose proof (GetFreeSessionId_spec _ sv1 Hac1) as Hf. rewrite Hfree in Hf.
  destruct Hf as (F1 & F2 & F3 & F4 & F5 & F6 & F7 & F8 & F9 & F10 & _).
  destruct Hac1 as [A1 A2 A3 A4 A5 A6 A7 A8 A9]. apply NoDup_cons in F7 as [F7 F7'].
  constructor; cbn.
  - rewrite length_insert. lia.
  - done.
  - intros i Hi. destruct (A3 i) as (V1 & V2 & V3); [destruct (F8 i) as [_ F]; destruct F as [F| ->]; [by right|done|done]|].
    split_and!; try done. destruct (decide (Z.to_nat i = Z.to_nat sid)) as [Heq|Hne].
    + assert (i = sid) by lia. by subst.
    + by rewrite list_lookup_insert_ne, F5.
  - intros i Hi Hsp. destruct (decide (i = Z.to_nat sid)) as [->|Hne].
    + rewrite list_lookup_insert_eq in Hi by (by apply lookup_lt_Some in F3). done.
    + rewrite list_lookup_insert_ne, F5 in Hi by done. pose proof (A4 i Hi Hsp) as Hin.
      destruct (F8 (Z.of_nat i)) as [F _]. specialize (F (or_introl Hin)). apply elem_of_cons in F as [F|F]; [lia|done].
  - intros i k Hi. destruct (decide (i = Z.to_nat sid)) as [->|Hne].
    + rewrite list_lookup_insert_eq in Hi by (by apply lookup_lt_Some in F3). injection Hi as <-. exists w'.
      split; [apply lookup_insert_eq|]. rewrite Z2Nat.id by done. rewrite Hown, decide_True by done. by eexists.
    + rewrite list_lookup_insert_ne, F5 in Hi by done. destruct (A5 i k Hi) as (v & Hv & Hsv).
      destruct (decide (k = rid)) as [->|Hk].
      * rewrite lookup_insert_eq in Hv. injection Hv as <-. exists w'. split; [apply lookup_insert_eq|].
         rewrite Hown. case_decide; [by eexists|done].
      * exists v. split; [|done]. by rewrite lookup_insert_ne in Hv |- * by done.
  - intros k v i Hv Hi. destruct (decide (k = rid)) as [->|Hk].
    + rewrite lookup_insert_eq in Hv. injection Hv as <-. rewrite Hown in Hi. case_decide as Hd.
      * subst. split; [done|]. apply list_lookup_insert_eq. by apply lookup_lt_Some in F3.
      * destruct (A6 rid w i) as [P1 P2]; [apply lookup_insert_eq|done|]. split; [done|].
         rewrite list_lookup_insert_ne, F5; [done| |]; intros Heq; apply Hd; lia.
    + rewrite lookup_insert_ne in Hv by done. destruct (A6 k v i) as [P1 P2]; [by rewrite lookup_insert_ne|done|].
      split; [done|]. assert (Hne : Z.to_nat i <> Z.to_nat sid) by (intros Heq; rewrite Heq in P2; by apply (F4 k)).
      by rewrite list_lookup_insert_ne, F5.
  - intros k v Hv. rewrite F10. destruct (decide (k = rid)) as [->|Hk].
    + rewrite lookup_insert_eq in Hv. injection Hv as <-. by split.
    + rewrite lookup_insert_ne in Hv by done. apply (A7 k v). by rewrite lookup_insert_ne.
  - by rewrite F10.
  - intros k. by rewrite list_lookup_insert_ne, F5 by done.
Qed.

Lemma seat_ok rooms rid info w c sv w' c' sv' :
  accounts (<[ rid := w ]> rooms) sv -> being_filled w -> 0 < rid <= sv_roomId sv ->
  (forall sid s, own sid w = Some s -> session_uid s <> pi_uid info) ->
  seat_player rid info w c sv = Some (w', c', sv') ->
  accounts (<[ rid := w' ]> rooms) sv' /\ being_filled w' /\
  (forall sid s, own sid w' = Some s -> session_uid s = pi_uid info \/ exists s', own sid w = Some s' /\ session_uid s' = session_uid s) /\
  _gameRooms sv' = _gameRooms sv /\ sv_roomId sv' = sv_roomId sv.
Proof.
  intros Hac Hbf Hrid Hu Hs. unfold seat_player in Hs. destruct (GetUniqueToken sv) as [[token sv1]|] eqn:Et; [|done]. cbn in Hs.
  destruct (GetUniqueToken_accounts _ _ _ _ Et Hac) as (Hac1 & Hr1 & Hid1). pose proof (GetFreeSessionId_spec _ sv1 Hac1) as Hf.
  destruct (GetFreeSessionId sv1) as [sid sv2] eqn:Ef. injection Hs as <- _ <-.
  destruct Hf as (_ & _ & _ & F4 & _ & _ & _ & _ & F9 & F10 & _).
  set (s := new_PlayerSession _ _ _ _ _ _ _ _ _ _ _).
  assert (Hnone : own sid w = None).
  { destruct (own sid w) as [t|] eqn:Ho; [|done]. exfalso.
    destruct (ac_session _ _ Hac1 rid w sid) as [_ Hp]; [apply lookup_insert_eq|by rewrite Ho|]. by apply (F4 rid). }
  assert (Hown : forall k, own k (exec (RegisterPlayerSession sid s) w) = if decide (k = sid) then Some (strip s) else own k w)
    by (intros k; apply own_register; unfold own in Hnone; by destruct (sess w !! sid)).
  assert (Hbf' : being_filled (exec (RegisterPlayerSession sid s) w)) by (by apply being_filled_register).
  split_and!; [|done| |cbn; by rewrite F9|cbn; by rewrite F10].
  - apply (accounts_seat _ _ _ _ (strip s) _ _ _ _ Hac1 Ef); [by rewrite Hid1|by apply being_filled_inv|exact Hown].
  - intros k t. rewrite Hown. case_decide; [intros [= <-]; by left|]. intros Ht. right. by exists t.
Qed.

Lemma seat_players_ok rooms rid infos w c sv w' c' sv' :
  accounts (<[ rid := w ]> rooms) sv -> being_filled w -> 0 < rid <= sv_roomId sv -> NoDup (map pi_uid infos) ->
  (forall sid s, own sid w = Some s -> session_uid s ∉ map pi_uid infos) ->
  seat_players rid infos w c sv = Some (w', c', sv') ->
  accounts (<[ rid := w' ]> rooms) sv' /\ being_filled w' /\ _gameRooms sv' = _gameRooms sv /\ sv_roomId sv' = sv_roomId sv.
Proof.
  revert w c sv. induction infos as [|info infos IH]; intros w c sv Hac Hbf Hrid Hd Hu Hs; cbn [seat_players] in Hs.
  { by injection Hs as <- _ <-. }
  destruct (seat_player rid info w c sv) as [[[w1 c1] sv1]|] eqn:E1; [|done]. cbn in Hs. cbn [map] in Hd, Hu.
  apply NoDup_cons in Hd as [Hd1 Hd].
  destruct (seat_ok rooms rid info w c sv w1 c1 sv1) as (A & B & U & R & I); try done.
  { intros sid s Ho Heq. apply (Hu sid s Ho). rewrite Heq. by left. }
  destruct (IH w1 c1 sv1) as (A' & B' & R' & I'); try done; [by rewrite I| |].
  - intros sid s Ho Hin. destruct (U sid s Ho) as [Heq|(s' & Ho' & Heq)]; [by rewrite Heq in Hin|].
    apply (Hu sid s' Ho'). right. by rewrite Heq.
  - split_and!; [done|done|by rewrite R'|by rewrite I'].
Qed.

Lemma make_room_empty mapId rid now draws r draws' : make_room mapId rid now draws = Some (r, draws') ->
  _playerSessions r = ∅ /\ _allLeftReported r = false /\ _roomId r = rid.
Proof.
  unfold make_room. case_match; [|case_match; [|done]]; intros [= Hr _].
  - rewrite <- Hr. apply construct_untenanted. by right.
  - rewrite <- Hr. apply construct_untenanted. by left.
Qed.

Lemma empty_filled w : sess w = ∅ -> w_out w = [] -> _allLeftReported (w_room w) = false -> being_filled w.
Proof.
  intros Hs Ho Hr. assert (Hn : forall sid, own sid w = None) by (intros sid; unfold own; by rewrite Hs, lookup_empty).
  constructor; try done; [intros a b sa sb Ha|intros sid s Ha]; by rewrite Hn in Ha.
Qed.

Lemma accounts_empty_room rid w sv : accounts (_gameRooms sv) sv -> sv_roomId sv < rid -> being_filled w -> sess w = ∅ ->
  accounts (<[ rid := w ]> (_gameRooms sv)) (sv <| sv_roomId := rid |>).
Proof.
  intros [H1 H2 H3 H4 H5 H6 H7 H8 H9] Hlt Hbf He. assert (Hnew : _gameRooms sv !! rid = None).
  { destruct (_gameRooms sv !! rid) as [v|] eqn:Hv; [|done]. destruct (H7 rid v Hv). lia. }
  constructor; cbn; try done.
  - intros i k Hi. destruct (H5 i k Hi) as (v & Hv & Ho). exists v. split; [|done].
    rewrite lookup_insert_ne; [done|]. intros <-. congruence.
  - intros k v sid [[<- <-]|[_ Hv]]%lookup_insert_Some Ho; [|by apply (H6 k v)].
    unfold own in Ho. rewrite He, lookup_empty in Ho. by destruct Ho.
  - intros k v [[<- <-]|[_ Hv]]%lookup_insert_Some; [split; [by apply being_filled_inv|lia]|].
    destruct (H7 k v Hv). split; [done|lia].
  - lia.
Qed.

(** The users of a group are different people. *)
Definition group_ok (pkt : M2DMakeRoomForThisGroup) : Prop := NoDup (map pi_uid (mr_player_infos pkt)).

Lemma MakeRoom_ok pkt sv ok sv' : service_ok sv -> group_ok pkt ->
  MakeRoomForThisGroup pkt sv = Some (ok, sv') -> service_ok sv'.
Proof.
  intros Hok Hg. unfold MakeRoomForThisGroup. set (rid := sv_roomId sv + 1).
  destruct (make_room _ _ _ _) as [[r draws]|] eqn:Em.
  2: { intros [= _ <-]. destruct Hok as [H1 H2 H3 H4 H5 H6 H7 H8 H9]. constructor; try done; cbn; [|unfold rid; lia].
       intros k v Hv. destruct (H7 k v Hv). split; [done|unfold rid; lia]. }
  destruct (make_room_empty _ _ _ _ _ _ Em) as (E1 & E2 & _). set (w0 := mk_world r (sv_now sv) [] false).
  assert (Hbf : being_filled w0) by by apply empty_filled.
  pose proof (accounts_empty_room rid w0 sv Hok ltac:(unfold rid; lia) Hbf E1) as Hac.
  assert (Hac1 : accounts (<[ rid := w0 ]> (_gameRooms sv)) (sv <| sv_roomId := rid |> <| sv_loot := draws |>)) by by destruct Hac.
  destruct (seat_players _ _ _ _ _) as [[[w c] sv2]|] eqn:Es; [|done]. cbn [mbind option_bind]. intros [= _ <-].
  destruct (seat_players_ok (_gameRooms sv) rid (mr_player_infos pkt) w0 (mk_collected [] [] [] []) _ w c sv2 Hac1 Hbf) as (A & _ & R & I); try done.
  - cbn. pose proof (ac_id _ _ Hok). unfold rid. lia.
  - intros sid s Ho. unfold own in Ho. change (sess w0) with (_playerSessions r) in Ho. rewrite E1, lookup_empty in Ho. done.
  - unfold service_ok. cbn. rewrite R. cbn. destruct A. by constructor.
Qed.

(** *** Releasing a room *)

Lemma release_spec w ks sv : NoDup ks -> Forall (fun sid => is_Some (sess w !! sid) /\ 0 <= sid < Z.of_nat (length (_players sv))) ks ->
  let sv' := foldl (release_session w) sv ks in
  _gameRooms sv' = _gameRooms sv /\ sv_roomId sv' = sv_roomId sv /\ _freePlayerIds sv' = _freePlayerIds sv ++ ks /\
  length (_players sv') = length (_players sv) /\
  (forall i, _players sv' !! i = if bool_decide (Z.of_nat i ∈ ks) then Some None else _players sv !! i) /\
  sv_toMain sv' = sv_toMain sv.
Proof.
  cbn zeta. revert sv. induction ks as [|k ks IH]; intros sv Hd Hk; cbn [foldl].
  { rewrite app_nil_r. split_and!; try done. }
  apply NoDup_cons in Hd as [Hd1 Hd]. apply Forall_cons in Hk as [[[s Hs] Hr] Hk].
  set (sv1 := release_session w sv k).
  assert (H1 : _gameRooms sv1 = _gameRooms sv /\ sv_roomId sv1 = sv_roomId sv /\ _freePlayerIds sv1 = _freePlayerIds sv ++ [k] /\
    _players sv1 = <[ Z.to_nat k := None ]> (_players sv) /\ sv_toMain sv1 = sv_toMain sv).
  { unfold sv1, release_session. rewrite Hs. cbn. split_and!; try done.
    by rewrite (proj2 (Z.leb_le _ _)), (proj2 (Z.ltb_lt _ _)) by lia. }
  destruct H1 as (G1 & G2 & G3 & G4 & G5). clearbody sv1.
  destruct (IH sv1 Hd) as (I1 & I2 & I3 & I4 & I5 & I6).
  { rewrite G4, length_insert. exact Hk. }
  split_and!; [congruence|congruence|by rewrite I3, G3, <- app_assoc|by rewrite I4, G4, length_insert| |congruence].
  intros i. rewrite I5, G4. destruct (decide (Z.of_nat i = k)) as [<-|Hne].
  - rewrite (bool_decide_eq_true_2 (Z.of_nat i ∈ Z.of_nat i :: ks)) by (by left). case_bool_decide; [done|].
    rewrite Nat2Z.id. apply list_lookup_insert_eq. lia.
  - rewrite list_lookup_insert_ne by lia.
    by rewrite (bool_decide_ext (Z.of_nat i ∈ k :: ks) (Z.of_nat i ∈ ks)) by set_solver.
Qed.

Lemma DestroyRoom_ok sv rid : service_ok sv -> service_ok (DestroyRoom sv rid).
Proof.
  intros Hok. unfold DestroyRoom. destruct (_gameRooms sv !! rid) as [w|] eqn:Hw; [|done].
  set (sv1 := to_main _ sv).
  assert (Hkeys : forall sid, sid ∈ ext_keys _ (sess w) <-> is_Some (own sid w)).
  { intros sid. rewrite (keys_perm _ (sess w)), list_elem_of_fmap. unfold own. rewrite fmap_is_Some. split.
    - intros ([k s] & -> & H%elem_of_map_to_list). by eexists.
    - intros [s Hs]. exists (sid, s). split; [done|]. by apply elem_of_map_to_list. }
  destruct (release_spec w (ext_keys _ (sess w)) sv1) as (R1 & R2 & R3 & R4 & R5 & _).
  { rewrite (keys_perm _ (sess w)). apply NoDup_fst_map_to_list. }
  { apply Forall_forall. intros sid Hsid. apply Hkeys in Hsid. split; [by apply fmap_is_Some in Hsid|].
    destruct (ac_session _ _ Hok rid w sid Hw Hsid) as [H1 H2]. apply lookup_lt_Some in H2. split; [done|]. cbn. lia. }
  set (sv2 := foldl _ sv1 _) in *. clearbody sv2. destruct Hok as [H1 H2 H3 H4 H5 H6 H7 H8 H9].
  assert (Hseat : forall sid, is_Some (own sid w) -> 0 <= sid /\ _players sv !! Z.to_nat sid = Some (Some rid)) by (intros; by apply (H6 rid w)).
  constructor; cbn; rewrite ?R1, ?R2, ?R3, ?R4.
  - exact H1.
  - apply NoDup_app. split_and!; [done| |rewrite (keys_perm _ (sess w)); apply NoDup_fst_map_to_list].
    intros i Hi Hk. apply Hkeys, Hseat in Hk as [_ Hk]. destruct (H3 i Hi) as (_ & Hn & _). congruence.
  - intros i [Hi|Hi]%elem_of_app.
    + destruct (H3 i Hi) as (V1 & V2 & V3). split_and!; try done. rewrite R5. by case_bool_decide.
    + apply Hkeys in Hi. destruct (Hseat i Hi) as [V1 V2]. split; [done|]. rewrite R5, Z2Nat.id by done.
      rewrite bool_decide_eq_true_2 by (by apply Hkeys). split; [done|]. intros Hsp.
      rewrite Hsp in V2. by apply (H9 rid).
  - intros i Hi Hsp. rewrite elem_of_app. rewrite R5 in Hi. case_bool_decide as Hk; [by right|]. left. by apply H4.
  - intros i k Hi. rewrite R5 in Hi. case_bool_decide as Hk; [done|]. destruct (H5 i k Hi) as (v & Hv & Ho).
    exists v. split; [|done]. rewrite lookup_delete_ne; [done|]. intros <-. apply Hk, Hkeys. congruence.
  - intros k v sid [Hne Hv]%lookup_delete_Some Ho. destruct (H6 k v sid Hv Ho) as [P1 P2]. split; [done|].
    rewrite R5, Z2Nat.id by done. rewrite bool_decide_eq_false_2; [done|]. intros Hk. apply Hkeys, Hseat in Hk as [_ Hk]. congruence.
  - intros k v [_ Hv]%lookup_delete_Some. by apply (H7 k v).
  - done.
  - intros k. rewrite R5. case_bool_decide; [done|apply H9].
Qed.
End lemmas.
