(* ===== verification/Process.v ===== *)
(** * The work of the dedicated process

    What the passes of its main loop keep and do: the accounts of session ids over
    any history, the turns of updates and retransmissions, the timers that are run,
    and that rooms only ever take steps of their own.  The definitions are those of Service.v. *)

From S2P Require Import Prelude Items Transport Geometry Protocol Session Room Handlers Calm Safety Rooms Main DBProxy Service.
From Stdlib Require Import Ascii.
From stdpp Require Import strings sorting.
Local Open Scope Z_scope.

(** A room's world after steps of its own. *)
Definition descends {E : External} {L : ExternalLaws E} (w w' : World) : Prop := exists ls, w' = run ls w.

Section turns.
Context {E : External} {L : ExternalLaws E} {G : Rng} {Y : System} {LY : SystemLaws Y}.

(** ** Turns over the rooms *)

(** A turn [f] takes the room of its key through the labels [ls] and no other. *)
Definition turn_of (f : Service -> Z -> Service) (ls : Z -> list Label) : Prop := forall sv k j,
  _gameRooms (f sv k) !! j = if decide (j = k) then run (ls k) <$> _gameRooms sv !! k else _gameRooms sv !! j.

Lemma turns_rooms f ls ks sv j : turn_of f ls -> NoDup ks ->
  _gameRooms (foldl f sv ks) !! j = if bool_decide (j ∈ ks) then run (ls j) <$> _gameRooms sv !! j else _gameRooms sv !! j.
Proof.
  intros Hf. revert sv. induction ks as [|k ks IH]; intros sv Hd; cbn [foldl]; [done|].
  apply NoDup_cons in Hd as [Hk Hd]. rewrite IH by done. pose proof (Hf sv k j) as Hfk. destruct (decide (j = k)) as [->|Hne].
  - rewrite (bool_decide_eq_false_2 (k ∈ ks)), Hfk by done. by rewrite (bool_decide_eq_true_2 (k ∈ k :: ks)) by (by left).
  - rewrite Hfk. by rewrite (bool_decide_ext (j ∈ k :: ks) (j ∈ ks)) by set_solver.
Qed.

Lemma run_app ls ls' w : run (ls ++ ls') w = run ls' (run ls w).
Proof. revert w. induction ls as [|l ls IH]; intros w; [done|]. cbn. apply IH. Qed.

(** ** Updates *)

Definition turn_labels (phase roomId : Z) : list Label :=
  (if Z.rem roomId 4 =? phase then [LUpdate] else []) ++
  (if Z.rem roomId 4 =? Z.rem (phase + 2) 4 then [LUpdateNpcs] else []).

Lemma update_turn_of phase : turn_of (update_turn phase) (turn_labels phase).
Proof.
  intros sv k j. unfold update_turn, turn_labels. destruct (Z.rem k 4 =? phase), (Z.rem k 4 =? Z.rem (phase + 2) 4); cbn [app run].
  - rewrite !in_room_rooms. destruct (decide (j = k)) as [->|]; [rewrite decide_True by done|done].
    by destruct (_gameRooms sv !! k).
  - rewrite in_room_rooms. case_decide; [by subst; destruct (_gameRooms sv !! k)|done].
  - rewrite in_room_rooms. case_decide; [by subst; destruct (_gameRooms sv !! k)|done].
  - case_decide; [by subst; destruct (_gameRooms sv !! k)|done].
Qed.

Lemma room_keys (m : gmap Z World) k : k ∈ ext_keys _ m <-> is_Some (m !! k).
Proof.
  rewrite (keys_perm _ m), list_elem_of_fmap. split.
  - intros ([k' s] & -> & H%elem_of_map_to_list). by eexists.
  - intros [s Hs]. exists (k, s). split; [done|]. by apply elem_of_map_to_list.
Qed.
Lemma room_keys_NoDup (m : gmap Z World) : NoDup (ext_keys _ m).
Proof. rewrite (keys_perm _ m). apply NoDup_fst_map_to_list. Qed.

Definition update_due (sv : Service) : Prop := ROOM_UPDATE_INTERVAL_MS <= sv_now sv - _lastRoomUpdateTime sv.

(** ** Retransmissions *)

Definition resent (now : Z) (s : PlayerSession) : PlayerSession :=
  if bool_decide (_leaveState (s_leave s) = LS_FINALIZED) then s else s <| s_rudp ::= mark_resent now |>.
Definition resends (now : Z) (s : PlayerSession) : list Output :=
  if bool_decide (_leaveState (s_leave s) = LS_FINALIZED) then []
  else map (fun p => OutUdp (destAddr p) (pdata p)) (GetRetransmitCandidates now (s_rudp s)).

Lemma step_Retransmit sid w :
  (forall k, sess (step (LRetransmit sid) w) !! k = if decide (k = sid) then resent (NowMs w) <$> sess w !! sid else sess w !! k) /\
  w_out (step (LRetransmit sid) w) = w_out w ++ from_option (resends (NowMs w)) [] (sess w !! sid) /\
  w_now (step (LRetransmit sid) w) = w_now w.
Proof.
  cbn [step]. unfold Retransmit, exec, sess, resent, resends.
  destruct (_playerSessions (w_room w) !! sid) as [s|] eqn:Hs; cbn [fmap option_fmap option_map from_option].
  - case_bool_decide; cbn; split_and!; try done.
    + intros k. by case_decide; [subst|].
    + by rewrite app_nil_r.
    + intros k. case_decide as Hk; [subst; apply lookup_insert_eq|by apply lookup_insert_ne].
  - split_and!; [|by rewrite app_nil_r|done]. intros k. by case_decide; [subst|].
Qed.

Lemma run_Retransmits sids w : NoDup sids ->
  let w' := run (map LRetransmit sids) w in
  (forall k, sess w' !! k = if bool_decide (k ∈ sids) then resent (NowMs w) <$> sess w !! k else sess w !! k) /\
  w_out w' = w_out w ++ concat (map (fun sid => from_option (resends (NowMs w)) [] (sess w !! sid)) sids).
Proof.
  cbn zeta. revert w. induction sids as [|sid sids IH]; intros w Hd; cbn [map run concat]; [by rewrite app_nil_r|].
  apply NoDup_cons in Hd as [Hn Hd]. destruct (step_Retransmit sid w) as (S1 & S2 & S3). destruct (IH (step (LRetransmit sid) w) Hd) as [I1 I2].
  assert (Hnow : NowMs (step (LRetransmit sid) w) = NowMs w) by (unfold NowMs; by rewrite S3). rewrite Hnow in I1, I2. split.
  - intros k. rewrite I1, S1. destruct (decide (k = sid)) as [->|Hne].
    + rewrite (bool_decide_eq_false_2 (sid ∈ sids)) by done. by rewrite (bool_decide_eq_true_2 (sid ∈ sid :: sids)) by (by left).
    + by rewrite (bool_decide_ext (k ∈ sid :: sids) (k ∈ sids)) by set_solver.
  - rewrite I2, S2, <- app_assoc. do 2 f_equal. apply f_equal, map_ext_in. intros k Hk%list_elem_of_In.
    rewrite S1, decide_False; [done|]. by intros ->.
Qed.

(** The turn of index [i] is a turn of the room seated there. *)
Lemma retransmit_turns ids sv j : NoDup ids ->
  _gameRooms (foldl retransmit_turn sv ids) !! j =
  run (map (fun i => LRetransmit (Z.of_nat i)) (List.filter (fun i => bool_decide (nth i (_players sv) None = Some j)) ids)) <$> _gameRooms sv !! j.
Proof.
  revert sv. induction ids as [|i ids IH]; intros sv Hd; cbn [foldl List.filter]; [by destruct (_ !! j)|].
  apply NoDup_cons in Hd as [_ Hd]. rewrite IH by done.
  assert (Hp : _players (retransmit_turn sv i) = _players sv).
  { unfold retransmit_turn. case_match; [apply in_room_frame|done]. }
  rewrite Hp. unfold retransmit_turn. destruct (nth i (_players sv) None) as [rid|] eqn:Hi.
  - rewrite in_room_rooms. case_bool_decide as Hj.
    + injection Hj as ->. rewrite decide_True by done. cbn [map run]. by destruct (_ !! j).
    + rewrite decide_False by congruence. done.
  - by rewrite bool_decide_eq_false_2.
Qed.

Definition retransmit_due (sv : Service) : Prop := RETRANSMIT_INTERVAL_MS <= sv_now sv - _lastRetransmitTime sv.

(** ** Every step of the service keeps the accounts *)

Lemma turn_ok {A} (f : Service -> A -> Service) xs sv :
  (forall sv x, service_ok sv -> service_ok (f sv x)) -> service_ok sv -> service_ok (foldl f sv xs).
Proof. apply foldl_ok. Qed.

Lemma CheckRetransmits_ok sv : service_ok sv -> service_ok (CheckRetransmits sv).
Proof.
  intros Hok. unfold CheckRetransmits. case_match; [done|]. apply foldl_ok; [|by apply (frame_ok sv)].
  intros sv' i H'. unfold retransmit_turn. case_match; [by apply in_room_ok|done].
Qed.
Lemma UpdateGameRooms_ok sv : service_ok sv -> service_ok (UpdateGameRooms sv).
Proof.
  intros Hok. unfold UpdateGameRooms. case_match; [done|].
  apply (frame_ok (foldl (update_turn (_updatePhase sv)) (sv <| _lastRoomUpdateTime := sv_now sv |>) (ext_keys _ (_gameRooms sv))));
      try done. apply foldl_ok; [|by apply (frame_ok sv)].
  intros sv' rid H'. unfold update_turn. case_match; [|by case_match; [apply in_room_ok|]].
  apply in_room_ok. by case_match; [apply in_room_ok|].
Qed.
Lemma DestroyPendingRooms_ok sv : service_ok sv -> service_ok (DestroyPendingRooms sv).
Proof.
  intros Hok. unfold DestroyPendingRooms. case_match; [done|].
  apply (frame_ok (foldl DestroyRoom (sv <| _lastRoomDestroyTime := sv_now sv |>) (_pendingDestroyRooms sv))); try done.
  apply foldl_ok; [by intros; apply DestroyRoom_ok|by apply (frame_ok sv)].
Qed.
Lemma timer_callback_ok e sv : service_ok sv -> service_ok (timer_callback e sv).
Proof. intros Hok. unfold timer_callback. case_match; [by apply in_room_ok|done]. Qed.
Lemma tick_ok n sv : service_ok sv -> service_ok (tick_loop n sv).
Proof.
  revert sv. induction n as [|n IH]; intros sv Hok; cbn [tick_loop]; [done|]. destruct (sh_pop _) as [[e h]|]; [|done].
  case_match; [|done]. apply IH, timer_callback_ok. by apply (frame_ok sv).
Qed.
Lemma advance_ok ms sv : service_ok sv -> service_ok (advance ms sv).
Proof.
  intros Hok. apply (accounts_kept (_gameRooms sv) _ sv); try done. intros rid. unfold advance. cbn.
  rewrite lookup_fmap. destruct (_gameRooms sv !! rid) as [w|] eqn:Hw; cbn; [|done].
  apply (step_kept (LClock ms)). by apply (ac_rooms _ _ Hok rid w).
Qed.
Definition completion_ok (c : Completion) : Prop := match c with CqMakeRoom pkt => group_ok pkt | _ => True end.
Lemma complete_ok sv c sv' : completion_ok c -> service_ok sv -> complete sv c = Some sv' -> service_ok sv'.
Proof.
  intros Hc Hok. destruct c as [pkt|token ip|bytes addr]; cbn [complete].
  - destruct (MakeRoomForThisGroup pkt sv) as [[ok sv1]|] eqn:Em; [|done]. intros [= <-]. by eapply MakeRoom_ok.
  - intros [= <-]. unfold Handle_H2M2D_BCITSpkt. destruct (_ !! token) as [[rid sid]|]; [|done]. cbn [snd].
    by apply (frame_ok (in_room rid (LBindIp sid (sys_inet ip)) sv)); [apply in_room_ok|..].
  - intros [= <-]. unfold OnDatagram. do 2 (case_match; [done|]). case_match; [by apply in_room_ok|done].
Qed.
Lemma main_pass_ok ms cs sv sv' : Forall completion_ok cs -> service_ok sv -> main_pass ms cs sv = Some sv' -> service_ok sv'.
Proof.
  intros Hcs Hok. unfold main_pass. apply (advance_ok ms) in Hok. revert Hok. generalize (advance ms sv). clear sv. intros sv Hok.
  assert (H : forall sv1, complete_all cs sv = Some sv1 -> service_ok sv1).
  { revert sv Hok. induction Hcs as [|c cs Hc Hcs IH]; intros sv Hok sv1; cbn [complete_all]; [by intros [= <-]|].
    destruct (complete sv c) as [sv2|] eqn:E2; [|done]. apply IH. by eapply complete_ok. }
  destruct (complete_all cs sv) as [sv1|]; [|done]. intros [= <-].
  apply tick_ok, DestroyPendingRooms_ok, UpdateGameRooms_ok, CheckRetransmits_ok. by apply H.
Qed.
Lemma main_loop_ok ps sv sv' : Forall (fun p => Forall completion_ok p.2) ps -> service_ok sv -> main_loop ps sv = Some sv' -> service_ok sv'.
Proof.
  intros Hps. revert sv. induction Hps as [|[ms cs] ps Hp Hps IH]; intros sv Hok; cbn [main_loop]; [by intros [= <-]|].
  destruct (main_pass ms cs sv) as [sv1|] eqn:E1; [|done]. apply IH. by eapply main_pass_ok.
Qed.

Lemma new_service_ok now port : service_ok (new_DediServerService now port).
Proof.
  assert (Hp : forall i o, replicate 51 (@None Z) !! i = Some o -> o = None /\ (i < 51)%nat).
  { intros i o H. by apply lookup_replicate in H. }
  constructor; cbn [_players _freePlayerIds _gameRooms sv_roomId new_DediServerService]; try done.
  - apply NoDup_fmap; [intros x y; lia|]. apply NoDup_seq.
  - intros i (k & -> & Hk%elem_of_seq)%list_elem_of_fmap. rewrite Nat2Z.id. split; [lia|]. unfold SPARE. split; [|lia].
    apply lookup_replicate. split; [done|lia].
  - intros i Hi Hne. apply Hp in Hi as [_ Hi]. apply list_elem_of_fmap. exists i. split; [done|]. apply elem_of_seq. unfold SPARE in Hne. lia.
  - intros i rid Hi. apply Hp in Hi as [Hi _]. done.
Qed.
End turns.

Section timers.
Context {E : External} {L : ExternalLaws E} {G : Rng} {Y : System} {LY : SystemLaws Y}.

(** ** Timers *)

(** The outputs grow, and a timer set is set for later. *)
Definition later (o : Output) : Prop := match o with OutTimer d _ _ _ => 0 < d | _ => True end.
Definition extends (w w' : World) : Prop := exists os, w_out w' = w_out w ++ os /\ Forall later os.
#[export] Instance extends_preorder : PreOrder extends.
Proof.
  split; [intros w; exists []; by rewrite app_nil_r|]. intros w1 w2 w3 (o1 & E1 & F1) (o2 & E2 & F2).
  exists (o1 ++ o2). rewrite E2, E1, app_assoc. split; [done|]. by apply Forall_app.
Qed.
Lemma extends_same w w' : w_out w' = w_out w -> extends w w'.
Proof. intros H. exists []. by rewrite app_nil_r. Qed.
#[export] Instance extends_walk : Walk extends.
Proof.
  split; [apply _|]. intros sid m w. unfold Send, exec. destruct (_playerSessions (w_room w) !! sid) as [s|]; [|reflexivity].
  destruct (MakeD2CPacketImpl _ _ _) as [|[p s']]; [by apply extends_same|]. eexists. split; [done|]. by constructor.
Qed.
Lemma extends_emit o w : later o -> extends w (exec (emit o) w).
Proof. intros Ho. exists [o]. split; [done|]. by constructor. Qed.
Lemma extends_out sid w : extends w (exec (Retransmit sid) w).
Proof.
  unfold Retransmit, exec. destruct (_ !! _); [|reflexivity]. case_bool_decide; [reflexivity|]. cbn zeta.
  eexists. split; [done|]. apply Forall_fmap, Forall_true. done.
Qed.
Create HintDb extends discriminated.
Ltac extending := walks ltac:(first [by apply extends_same | by apply extends_emit | by auto with extends nocore]).

Lemma extends_notify sid step w : extends w (exec (notify_left sid step) w).
Proof. unfold notify_left. extending. Qed.
Lemma extends_loot p inv w : extends w (exec (SpawnPlayerLootContainer p inv) w).
Proof. unfold SpawnPlayerLootContainer, SpawnDynamicObject, NotifySpawnObject. extending. Qed.
#[local] Hint Resolve extends_notify extends_loot : extends.
Lemma extends_detach sid w : extends w (exec (DetachPlayer sid) w).
Proof.
  unfold DetachPlayer, ReleaseInteractingContainer, ReleaseNpcAuthority, release_npc, detach_player_object, detach_object, lose_items, leave_loot.
  extending.
Qed.
#[local] Hint Resolve extends_detach : extends.
Lemma extends_ProcessLeaves w : extends w (exec ProcessLeaves w).
Proof.
  unfold ProcessLeaves, expire_lifetime, AllKill, mark_dead, DetectDisconnectedSessions, clear_pending, for_sessions, detach_or_finalize, finalize_if_ready, CheckAllLeft.
  extending.
Qed.
Lemma extends_destroy oid w : extends w (exec (DestroyDeadObject oid) w).
Proof. unfold DestroyDeadObject. extending. Qed.
#[local] Hint Resolve extends_destroy : extends.
Lemma extends_resolve_hit oid wid soid w : extends w (exec (resolve_hit oid wid soid) w).
Proof. unfold resolve_hit, hit_player, hit_npc, notify_health. extending. Qed.
#[local] Hint Resolve extends_resolve_hit : extends.
Lemma extends_message m addr sid w : extends w (exec (handle_message m addr sid) w).
Proof.
  destruct m; cbn [handle_message].
  - unfold Handle_C2D_ChannelOpen. extending.
  - unfold Handle_C2D_HeartBeat. extending.
  - unfold Handle_C2D_RequestBlueprint. extending.
  - unfold Handle_C2D_RequestSpawnMe, SpawnPlayerObject, NotifySpawnPlayerObject. extending.
  - unfold Handle_C2D_RequestSpawnByObjectId. extending.
  - unfold Handle_C2D_UpdatePlayerState, apply_npc_state. extending.
  - unfold Handle_C2D_RequestSpawnPlayerObjects. extending.
  - unfold Handle_C2D_NotifyLoadingComplete. extending.
  - unfold Handle_C2D_RequestOpenContainer, evict_holder, ReleaseInteractingContainer. extending.
  - unfold Handle_C2D_CloseContainer, ReleaseInteractingContainer. extending.
  - unfold Handle_C2D_RequestInteractContainerObject, store_bags. extending.
  - unfold Handle_C2D_RequestEquipItem, show_equipment. extending.
  - unfold Handle_C2D_RequestRecentInventoryInfo. extending.
  - unfold Handle_C2D_RequestWeaponFire. extending.
  - unfold Handle_C2D_RequestRecall, ScheduleRecallTick. extending.
  - unfold Handle_C2D_RequestSwitchWeapon, send_weapon_state. extending.
  - unfold Handle_C2D_RequestReload, BroadcastReloadSequence. extending.
  - unfold Handle_C2D_NotifyReloadSequence, BroadcastReloadSequence. extending.
  - unfold Handle_C2D_RequestNpcAggro, npc_request, ResolveHostileNpcRequest. extending.
  - unfold Handle_C2D_RequestNpcAuthority, npc_request, ResolveHostileNpcRequest. extending.
  - unfold Handle_C2D_ReportNpcAttack, ResolveHostileNpcRequest, notify_health. extending.
Qed.
#[local] Hint Resolve extends_message extends_ProcessLeaves extends_out : extends.
Lemma extends_step l w : extends w (step l w).
Proof.
  destruct l as [bytes addr|sid uid g| | |sid|sid ip|ms]; cbn [step].
  - unfold HandleClientPacket. extending.
  - unfold RecallTick, CancelRecall, ScheduleRecallTick, SendRecallResult, mark_leaving. extending.
  - unfold room_update, Update, RegenPlayerShields, BroadcastPlayerStates. extending.
  - unfold UpdateNpcStates. extending.
  - extending.
  - extending.
  - by apply extends_same.
Qed.

Definition noheap (sv : Service) : Service := sv <| _heap := [] |>.
Definition timers_of (os : list Output) (now : Z) : list TimerEntry :=
  omap (fun o => match o with OutTimer d sid uid g => Some (mk_timer (now + d) sid uid g) | _ => None end) os.

Lemma act_noheap os sv sv' : noheap sv = noheap sv' ->
  noheap (foldl (fun sv o => act_on o sv) sv os) = noheap (foldl (fun sv o => act_on o sv) sv' os).
Proof.
  revert sv sv'. induction os as [|o os IH]; intros sv sv' H; [done|]. cbn [foldl]. apply IH.
  destruct sv, sv'. unfold noheap in *. cbn in H. injection H as. subst. by destruct o.
Qed.
Lemma act_heap os sv : Permutation (_heap (foldl (fun sv o => act_on o sv) sv os)) (timers_of os (sv_now sv) ++ _heap sv).
Proof.
  revert sv. induction os as [|o os IH]; intros sv; [done|]. cbn [foldl]. rewrite IH. destruct o; cbn; try done.
  by rewrite <- Permutation_middle.
Qed.

Lemma callback_noheap e sv sv' : noheap sv = noheap sv' -> noheap (timer_callback e sv) = noheap (timer_callback e sv').
Proof.
  intros H. unfold timer_callback. assert (Hp : _players sv = _players sv') by apply (f_equal _players H).
  assert (Hr : _gameRooms sv = _gameRooms sv') by apply (f_equal _gameRooms H).
  assert (Hg : GetPlayerSession (i16 (tm_session e)) sv = GetPlayerSession (i16 (tm_session e)) sv')
    by (unfold GetPlayerSession; by rewrite Hp).
  rewrite Hg. destruct (GetPlayerSession _ sv') as [rid|]; [|done].
  unfold in_room. rewrite Hr. destruct (_gameRooms sv' !! rid) as [w|]; [|done]. apply act_noheap.
  destruct sv, sv'. unfold noheap in *. cbn in H |- *. by injection H as; subst.
Qed.
Lemma callback_heap e sv : sv_now (timer_callback e sv) = sv_now sv /\
  exists added, Permutation (_heap (timer_callback e sv)) (added ++ _heap sv) /\ Forall (fun t => sv_now sv < execAt t) added.
Proof.
  unfold timer_callback. destruct (GetPlayerSession _ sv) as [rid|]; [|by split; [|exists []]].
  split; [apply in_room_frame|]. unfold in_room. destruct (_gameRooms sv !! rid) as [w|]; [|by exists []].
  set (os := drop _ _). exists (timers_of os (sv_now sv)). split; [exact (act_heap os _)|].
  assert (Hl : Forall later os).
  { destruct (extends_step (LRecallTimer (tm_session e) (tm_uid e) (tm_generation e)) w) as (os' & Eo & Ho).
    unfold os. rewrite Eo, drop_app_length. done. }
  clear - Hl. induction Hl as [|o os Ho Hl IH]; [constructor|]. unfold timers_of in *. cbn. destruct o; cbn; try done.
  constructor; [cbn in *; lia|done].
Qed.

Definition due (now : Z) (e : TimerEntry) : bool := execAt e <=? now.
Definition run_callbacks (ran : list TimerEntry) (sv : Service) : Service := foldl (fun sv e => timer_callback e sv) sv ran.
Definition in_time (a b : TimerEntry) : Prop := execAt a <= execAt b.

Lemma run_noheap ran sv sv' : noheap sv = noheap sv' -> noheap (run_callbacks ran sv) = noheap (run_callbacks ran sv').
Proof. revert sv sv'. induction ran as [|e ran IH]; intros sv sv' H; [done|]. apply IH, callback_noheap, H. Qed.

Lemma filter_none {A} (f : A -> bool) l : Forall (fun x => f x = false) l -> List.filter f l = [].
Proof. induction 1 as [|x l Hx _ IH]; [done|]. cbn. by rewrite Hx. Qed.
Lemma filter_perm {A} (f : A -> bool) l l' : Permutation l l' -> Permutation (List.filter f l) (List.filter f l').
Proof.
  induction 1 as [|x l l' _ IH|x y l|l1 l2 l3 _ IH1 _ IH2]; cbn; [done|by destruct (f x); rewrite IH| |by rewrite IH1].
  destruct (f x), (f y); try done. apply perm_swap.
Qed.
Lemma filter_in {A} (f : A -> bool) l x : x ∈ List.filter f l -> f x = true /\ x ∈ l.
Proof. intros [H1 H2]%list_elem_of_In%filter_In. split; [done|]. by apply list_elem_of_In. Qed.

Lemma tick_loop_spec n sv : (length (List.filter (due (sv_now sv)) (_heap sv)) < n)%nat ->
  let now := sv_now sv in let sv' := tick_loop n sv in
  exists ran added, Permutation ran (List.filter (due now) (_heap sv)) /\ StronglySorted in_time ran /\
    Permutation (_heap sv') (added ++ List.filter (fun e => negb (due now e)) (_heap sv)) /\
    Forall (fun e => now < execAt e) added /\ noheap sv' = noheap (run_callbacks ran sv) /\ sv_now sv' = now.
Proof.
  revert sv. induction n as [|n IH]; intros sv Hn; [lia|]. cbn zeta. cbn [tick_loop].
  destruct (decide (_heap sv = [])) as [He|He].
  { rewrite He, sh_pop_none. exists [], []. rewrite He. split_and!; try done; constructor. }
  destruct (sh_pop_some (_heap sv) He) as (e & h & -> & Hp & Hmin).
  assert (Hf : forall f : TimerEntry -> bool, Permutation (List.filter f (_heap sv)) (if f e then e :: List.filter f h else List.filter f h)).
  { intros f. by rewrite (filter_perm f _ _ Hp). }
  destruct (Z.leb_spec (execAt e) (sv_now sv)) as [Hd|Hd].
  - set (sv1 := sv <| _heap := h |>). set (sv2 := timer_callback e sv1).
    destruct (callback_heap e sv1) as (Hnow & added & Ha & Hla). fold sv2 in Hnow, Ha. change (sv_now sv1) with (sv_now sv) in *.
    change (_heap sv1) with h in Ha.
    assert (Hde : due (sv_now sv) e = true) by by apply Z.leb_le.
    assert (Hnone : List.filter (due (sv_now sv)) added = []).
    { apply filter_none. eapply Forall_impl; [exact Hla|]. intros t Ht. by apply Z.leb_gt. }
    assert (H2 : Permutation (List.filter (due (sv_now sv)) (_heap sv2)) (List.filter (due (sv_now sv)) h)).
    { rewrite (filter_perm _ _ _ Ha), List.filter_app, Hnone. done. }
    destruct (IH sv2) as (ran & more & R1 & R2 & R3 & R4 & R5 & R6); rewrite ?Hnow in *.
    { rewrite (Permutation_length H2). rewrite (Permutation_length (Hf (due (sv_now sv)))), Hde in Hn. cbn in Hn. lia. }
    assert (Hran : Permutation ran (List.filter (due (sv_now sv)) h)) by by rewrite R1.
    exists (e :: ran), (more ++ added). split_and!; [|constructor; [exact R2|]| | |..].
    + rewrite Hf, Hde. by rewrite Hran.
    + apply Forall_forall. intros t Ht. rewrite Hran in Ht. apply filter_in in Ht as [_ Ht].
      rewrite Forall_forall in Hmin. by apply Hmin.
    + rewrite R3, <- app_assoc. apply Permutation_app_head. rewrite (filter_perm _ _ _ Ha), List.filter_app.
      apply Permutation_app.
      * clear - Hla. induction Hla as [|t l Ht _ IH]; [done|]. cbn. unfold due at 1. rewrite (proj2 (Z.leb_gt _ _) Ht). cbn. by rewrite IH.
      * by rewrite (Hf (fun e => negb (due (sv_now sv) e))), Hde.
    + by apply Forall_app.
    + rewrite R5. cbn [run_callbacks foldl]. apply run_noheap, callback_noheap. done.
    + exact R6.
  - exists [], []. assert (Hnd : Forall (fun t => due (sv_now sv) t = false) (_heap sv)).
    { rewrite Hp. constructor; [by apply Z.leb_gt|]. eapply Forall_impl; [exact Hmin|]. intros t Ht. apply Z.leb_gt. cbn in Ht. lia. }
    rewrite (filter_none _ _ Hnd). split_and!; try done; [constructor|].
    clear - Hnd. cbn. induction Hnd as [|t l Ht _ IH]; [done|]. cbn. rewrite Ht. cbn. by rewrite <- IH.
Qed.
End timers.

(** ** Passes *)

Section passes.
Context {E : External} {L : ExternalLaws E} {G : Rng} {Y : System} {LY : SystemLaws Y}.

(** Whose turn it is and since when is not for the turns to change. *)
Lemma foldl_periodic {A} (f : Service -> A -> Service) xs sv :
  (forall sv x, periodic (f sv x) = periodic sv /\ sv_now (f sv x) = sv_now sv) ->
  periodic (foldl f sv xs) = periodic sv /\ sv_now (foldl f sv xs) = sv_now sv.
Proof.
  intros Hf. revert sv. induction xs as [|x xs IH]; intros sv; [done|]. cbn [foldl].
  destruct (IH (f sv x)) as [-> ->]. apply Hf.
Qed.
Lemma in_room_still rid l sv : periodic (in_room rid l sv) = periodic sv /\ sv_now (in_room rid l sv) = sv_now sv.
Proof. split; [apply in_room_periodic|apply in_room_frame]. Qed.
Lemma retransmit_turn_still sv i : periodic (retransmit_turn sv i) = periodic sv /\ sv_now (retransmit_turn sv i) = sv_now sv.
Proof. unfold retransmit_turn. case_match; [apply in_room_still|done]. Qed.
Lemma update_turn_still phase sv rid : periodic (update_turn phase sv rid) = periodic sv /\ sv_now (update_turn phase sv rid) = sv_now sv.
Proof.
  unfold update_turn. destruct (_ =? phase), (_ =? _); try done; try apply in_room_still.
  destruct (in_room_still rid LUpdateNpcs (in_room rid LUpdate sv)) as [-> ->]. apply in_room_still.
Qed.

(** The labels of a room in the pass [k], by its place in the round. *)
Lemma turn_labels_turn p k rid : 0 <= p < 4 -> 0 <= rid -> (k < 4)%nat ->
  turn_labels ((p + Z.of_nat k) mod 4) rid =
  if decide (k = Z.to_nat ((rid - p) mod 4)) then [LUpdate]
  else if decide (k = (Z.to_nat ((rid - p) mod 4) + 2) mod 4)%nat then [LUpdateNpcs] else [].
Proof.
  intros Hp Hr Hk. unfold turn_labels. rewrite Z.rem_mod_nonneg by lia. rewrite Zminus_mod, (Z.mod_small p) by lia.
  pose proof (Z.mod_pos_bound rid 4 ltac:(lia)) as Hm. revert Hm. generalize (rid mod 4). intros r Hm.
  assert (Hps : p = 0 \/ p = 1 \/ p = 2 \/ p = 3) by lia. assert (Hrs : r = 0 \/ r = 1 \/ r = 2 \/ r = 3) by lia.
  destruct k as [|[|[|[|k]]]]; [| | | |lia]; clear - Hps Hrs;
    destruct Hps as [->|[->|[->| ->]]], Hrs as [->|[->|[->| ->]]]; reflexivity.
Qed.

(** Passes over the rooms, one after the other. *)
Lemma UpdateGameRooms_rooms sv rid : update_due sv ->
  _gameRooms (UpdateGameRooms sv) !! rid = run (turn_labels (_updatePhase sv) rid) <$> _gameRooms sv !! rid /\
  _updatePhase (UpdateGameRooms sv) = Z.rem (_updatePhase sv + 1) 4 /\
  _lastRoomUpdateTime (UpdateGameRooms sv) = sv_now sv /\ sv_now (UpdateGameRooms sv) = sv_now sv.
Proof.
  intros Hd. unfold UpdateGameRooms. rewrite (proj2 (Z.ltb_ge _ _) Hd). cbn zeta. set (sv1 := sv <| _lastRoomUpdateTime := _ |>).
  destruct (foldl_periodic (update_turn (_updatePhase sv)) (ext_keys _ (_gameRooms sv)) sv1 (update_turn_still _)) as [Hp Hn].
  split_and!; [|done| |exact Hn].
  - cbn. rewrite (turns_rooms _ _ _ _ _ (update_turn_of _) (room_keys_NoDup _)). cbn. case_bool_decide as Hk; [done|].
    rewrite room_keys in Hk. by rewrite (proj2 (eq_None_not_Some _) Hk).
  - cbn. unfold periodic in Hp. injection Hp as _ _ _ Hl _. exact Hl.
Qed.

Definition pass (sv : Service) (ms : Z) : Service := UpdateGameRooms (advance ms sv).
Lemma passes_run ms sv rid w p : 0 <= p -> _updatePhase sv = p mod 4 -> Forall (fun m => ROOM_UPDATE_INTERVAL_MS <= m) ms ->
  0 <= sv_now sv - _lastRoomUpdateTime sv -> _gameRooms sv !! rid = Some w ->
  _gameRooms (foldl pass sv ms) !! rid = Some (run (concat (imap (fun k m => LClock m :: turn_labels ((p + Z.of_nat k) mod 4) rid) ms)) w).
Proof.
  revert sv w p. induction ms as [|m ms IH]; intros sv w p Hp0 Hp Hms Hs Hw; [done|]. apply Forall_cons in Hms as [Hm Hms]. cbn [foldl].
  destruct (UpdateGameRooms_rooms (advance m sv) rid) as (U1 & U2 & U3 & U4).
  { unfold update_due, advance. cbn. unfold ROOM_UPDATE_INTERVAL_MS in *. lia. }
  change (_updatePhase (advance m sv)) with (_updatePhase sv) in *. rewrite Hp in *.
  assert (Ha : _gameRooms (advance m sv) !! rid = Some (step (LClock m) w)) by (unfold advance; cbn; by rewrite lookup_fmap, Hw).
  rewrite Ha in U1. rewrite (IH (pass sv m) (run (turn_labels (p mod 4) rid) (step (LClock m) w)) (p + 1)).
  - f_equal. cbn [imap concat]. rewrite Z.add_0_r. change (LClock m :: turn_labels (p mod 4) rid) with ([LClock m] ++ turn_labels (p mod 4) rid).
    rewrite !run_app. cbn [run]. do 2 f_equal. apply imap_ext. intros k x _.
    unfold compose. by replace (p + Z.of_nat (S k)) with (p + 1 + Z.of_nat k) by lia.
  - lia.
  - pose proof (Z.mod_pos_bound p 4). unfold pass. rewrite U2, Z.rem_mod_nonneg by lia. by rewrite Zplus_mod_idemp_l.
  - done.
  - unfold pass. rewrite U3, U4. lia.
  - exact U1.
Qed.

(** The place of an id leads to the room that has a session of this id. *)
Lemma place_iff sv sid rid : service_ok sv ->
  GetPlayerSession sid sv = Some rid <-> exists w, _gameRooms sv !! rid = Some w /\ is_Some (own sid w).
Proof.
  intros [_ _ _ _ A5 A6 _ _ _]. unfold GetPlayerSession. split.
  - destruct (Z.leb_spec 0 sid); [|done]. destruct (Z.ltb_spec sid (Z.of_nat (length (_players sv)))); [|done]. cbn [andb].
    intros Hn. destruct (A5 (Z.to_nat sid) rid) as (w & Hw & Ho); [|by rewrite Z2Nat.id in Ho by done; exists w].
    destruct (lookup_lt_is_Some_2 (_players sv) (Z.to_nat sid)) as [o Ho]; [lia|]. rewrite Ho. f_equal.
    rewrite <- Hn. symmetry. by apply nth_lookup_Some.
  - intros (w & Hw & Ho). destruct (A6 rid w sid Hw Ho) as [P1 P2]. rewrite (proj2 (Z.leb_le _ _) P1).
    rewrite (proj2 (Z.ltb_lt _ _)) by (apply lookup_lt_Some in P2; lia). cbn [andb]. by apply nth_lookup_Some.
Qed.

(** The ids of a pass. *)
Lemma phase_ids_NoDup phase n : NoDup (phase_ids phase n).
Proof. unfold phase_ids. apply NoDup_ListNoDup, List.NoDup_filter, NoDup_ListNoDup, NoDup_seq. Qed.
Lemma seated_iff sv rid w i : service_ok sv -> _gameRooms sv !! rid = Some w ->
  nth i (_players sv) None = Some rid <-> is_Some (own (Z.of_nat i) w).
Proof.
  intros Hok Hw. split.
  - intros Hn. destruct (ac_seated _ _ Hok i rid) as (w' & Hw' & Ho); [|congruence].
    destruct (_players sv !! i) as [o|] eqn:Hi; [by rewrite (nth_lookup_Some _ _ None o Hi) in Hn; subst|].
    apply lookup_ge_None in Hi. rewrite nth_overflow in Hn by done. done.
  - intros Ho. destruct (ac_session _ _ Hok rid w _ Hw Ho) as [_ H]. rewrite Nat2Z.id in H. by apply nth_lookup_Some.
Qed.
Lemma seated_ids sv rid w phase : service_ok sv -> _gameRooms sv !! rid = Some w -> forall n,
  map Z.of_nat (List.filter (fun i => bool_decide (nth i (_players sv) None = Some rid)) (phase_ids phase n)) =
  List.filter (fun sid => bool_decide (is_Some (own sid w))) (map Z.of_nat (phase_ids phase n)).
Proof.
  intros Hok Hw n. induction (phase_ids phase n) as [|i l IH]; [done|]. cbn.
  rewrite (bool_decide_ext _ _ (seated_iff sv rid w i Hok Hw)). case_bool_decide; cbn; by rewrite IH.
Qed.
Lemma phase_members sv rid w phase sid : service_ok sv -> _gameRooms sv !! rid = Some w -> is_Some (own sid w) ->
  sid ∈ List.filter (fun sid => bool_decide (is_Some (own sid w))) (map Z.of_nat (phase_ids phase (length (_players sv)))) <-> sid mod 2 = phase.
Proof.
  intros Hok Hw Ho. destruct (ac_session _ _ Hok rid w sid Hw Ho) as [H0 Hs]. apply lookup_lt_Some in Hs.
  rewrite list_elem_of_In, filter_In, in_map_iff. setoid_rewrite filter_In. setoid_rewrite in_seq. split.
  - intros [(i & <- & _ & Hi) _]. by apply Z.eqb_eq.
  - intros Hm. split; [|by apply bool_decide_eq_true_2]. exists (Z.to_nat sid). rewrite Z2Nat.id by done.
    split; [done|]. split; [lia|by apply Z.eqb_eq].
Qed.
Lemma sorted_ids (P : nat -> bool) phase n : StronglySorted Z.lt (map Z.of_nat (List.filter P (phase_ids phase n))).
Proof.
  assert (H : forall Q l, StronglySorted Nat.lt l -> StronglySorted Nat.lt (List.filter Q l)).
  { intros Q l. induction 1 as [|x l _ IH Hx]; cbn; [constructor|]. case_match; [|done]. constructor; [done|].
    apply Forall_forall. intros y [Hy _]%list_elem_of_In%filter_In. rewrite Forall_forall in Hx. apply Hx. by apply list_elem_of_In. }
  assert (Hs : forall k, StronglySorted Nat.lt (seq k n)).
  { induction n as [|m IH]; intros k; cbn; [constructor|]. constructor; [apply IH|]. apply Forall_forall. intros y Hy%elem_of_seq.
    unfold Nat.lt. lia. }
  specialize (H P _ (H (fun i => Z.of_nat i mod 2 =? phase) _ (Hs 0%nat))). fold (phase_ids phase n) in H.
  induction H as [|x l _ IH Hx]; cbn; [constructor|]. constructor; [done|]. apply Forall_forall.
  intros y (z & -> & Hz)%list_elem_of_fmap. rewrite Forall_forall in Hx. specialize (Hx z Hz). unfold Nat.lt in Hx. lia.
Qed.

(** ** A room's life is a run of its own labels *)

(** A report the main process can take: the lists of a group's tokens are as long as it says. *)
Definition consistent (r : ToMain) : Prop :=
  match r with
  | TmEntryTokens p =>
      ut_size p = Z.of_nat (length (ut_ticket_ids p)) /\ length (ut_session_ids p) = length (ut_ticket_ids p) /\
      length (ut_entry_tokens p) = length (ut_ticket_ids p) /\ length (ut_security_keys p) = length (ut_ticket_ids p)
  | _ => True
  end.

(** Since [sv], the rooms that were there and still are have only been run, and consistent
    reports have been made. *)
Record evolves (sv sv' : Service) : Prop := {
  ev_id : sv_roomId sv <= sv_roomId sv';
  ev_reports : exists l, sv_toMain sv' = sv_toMain sv ++ l /\ Forall consistent l;
  ev_rooms : forall rid w', _gameRooms sv' !! rid = Some w' -> rid <= sv_roomId sv ->
    exists w ls, _gameRooms sv !! rid = Some w /\ w' = run ls w }.
Lemma reports_none sv sv' : sv_toMain sv' = sv_toMain sv -> exists l, sv_toMain sv' = sv_toMain sv ++ l /\ Forall consistent l.
Proof. intros ->. exists []. by rewrite app_nil_r. Qed.
#[export] Instance evolves_preorder : PreOrder evolves.
Proof.
  split; [intros sv; constructor; [done|by apply reports_none|intros rid w Hw _; by exists w, []]|].
  intros a b c [I1 (l1 & E1 & F1) R1] [I2 (l2 & E2 & F2) R2]. constructor; [lia| |].
  { exists (l1 ++ l2). rewrite E2, E1, app_assoc. split; [done|by apply Forall_app]. }
  intros rid w2 Hw2 Hr.
  destruct (R2 rid w2 Hw2) as (w1 & ls2 & Hw1 & ->); [lia|]. destruct (R1 rid w1 Hw1 Hr) as (w & ls1 & Hw & ->).
  exists w, (ls1 ++ ls2). by rewrite run_app.
Qed.
Lemma evolves_same sv sv' : _gameRooms sv' = _gameRooms sv -> sv_roomId sv' = sv_roomId sv -> sv_toMain sv' = sv_toMain sv -> evolves sv sv'.
Proof. intros Hr Hi Hm. constructor; [lia|by apply reports_none|]. intros rid w. rewrite Hr. intros Hw _. by exists w, []. Qed.
Lemma act_reports os sv : exists l, sv_toMain (foldl (fun sv o => act_on o sv) sv os) = sv_toMain sv ++ l /\ Forall consistent l.
Proof.
  revert sv. induction os as [|o os IH]; intros sv; [by apply reports_none|]. cbn [foldl].
  destruct (IH (act_on o sv)) as (l & -> & F1). destruct o; try (exists l; done).
  exists (TmLeft m :: l). cbn. rewrite <- app_assoc. split; [done|]. by constructor.
Qed.
Lemma evolves_in_room rid l sv : evolves sv (in_room rid l sv).
Proof.
  constructor; [by rewrite (proj1 (proj2 (proj2 (proj2 (in_room_frame rid l sv)))))| |].
  { unfold in_room. destruct (_gameRooms sv !! rid) as [w|]; [|by apply reports_none].
    destruct (act_reports (drop (length (w_out w)) (w_out (step l w))) (sv <| _gameRooms ::= <[ rid := step l w ]> |>)) as (x & E1 & F1).
    by exists x. }
  intros k w'. rewrite in_room_rooms.
  case_decide as Hk; [subst|intros Hw _; by exists w', []]. destruct (_gameRooms sv !! rid) as [w|]; [|done].
  intros [= <-] _. by exists w, [l].
Qed.
Lemma evolves_foldl {A} (f : Service -> A -> Service) xs sv : (forall sv x, evolves sv (f sv x)) -> evolves sv (foldl f sv xs).
Proof. intros Hf. revert sv. induction xs as [|x xs IH]; intros sv; [reflexivity|]. cbn [foldl]. etrans; [apply Hf|apply IH]. Qed.

Lemma evolves_CheckRetransmits sv : evolves sv (CheckRetransmits sv).
Proof.
  unfold CheckRetransmits. case_match; [reflexivity|]. etrans; [|apply evolves_foldl]; [by apply evolves_same|].
  intros sv' i. unfold retransmit_turn. case_match; [apply evolves_in_room|reflexivity].
Qed.
Lemma evolves_update_turn phase sv rid : evolves sv (update_turn phase sv rid).
Proof. unfold update_turn. repeat case_match; try reflexivity; try apply evolves_in_room. etrans; apply evolves_in_room. Qed.
Lemma evolves_UpdateGameRooms sv : evolves sv (UpdateGameRooms sv).
Proof.
  unfold UpdateGameRooms. case_match; [reflexivity|].
  transitivity (foldl (update_turn (_updatePhase sv)) (sv <| _lastRoomUpdateTime := sv_now sv |>) (ext_keys _ (_gameRooms sv)));
      [|by apply evolves_same].
  etrans; [|apply evolves_foldl, evolves_update_turn]. by apply evolves_same.
Qed.
Lemma release_rooms w ks sv : _gameRooms (foldl (release_session w) sv ks) = _gameRooms sv /\
  sv_roomId (foldl (release_session w) sv ks) = sv_roomId sv /\ sv_toMain (foldl (release_session w) sv ks) = sv_toMain sv.
Proof.
  revert sv. induction ks as [|k ks IH]; intros sv; [done|]. cbn [foldl]. destruct (IH (release_session w sv k)) as (-> & -> & ->).
  unfold release_session. by destruct (_ !! k).
Qed.
Lemma evolves_DestroyRoom sv rid : evolves sv (DestroyRoom sv rid).
Proof.
  unfold DestroyRoom. destruct (_gameRooms sv !! rid) as [w|]; [|reflexivity]. set (sv1 := to_main _ sv).
  destruct (release_rooms w (ext_keys _ (sess w)) sv1) as (Hr & Hi & Hm).
  constructor; cbn; rewrite ?Hr, ?Hi, ?Hm; [done|by exists [TmRoomDestroyed rid (i32 (Z.of_nat (size (sess w))))]; split; [|by constructor]|].
  intros k w' [_ Hw]%lookup_delete_Some _. by exists w', [].
Qed.
Lemma evolves_DestroyPendingRooms sv : evolves sv (DestroyPendingRooms sv).
Proof.
  unfold DestroyPendingRooms. case_match; [reflexivity|].
  transitivity (foldl DestroyRoom (sv <| _lastRoomDestroyTime := sv_now sv |>) (_pendingDestroyRooms sv)); [|by apply evolves_same].
  etrans; [|apply evolves_foldl, evolves_DestroyRoom]. by apply evolves_same.
Qed.
Lemma evolves_tick n sv : evolves sv (tick_loop n sv).
Proof.
  revert sv. induction n as [|n IH]; intros sv; cbn [tick_loop]; [reflexivity|]. destruct (sh_pop _) as [[e h]|]; [|reflexivity].
  case_match; [|reflexivity]. etrans; [|apply IH]. etrans; [by apply (evolves_same sv (sv <| _heap := h |>))|].
  unfold timer_callback. case_match; [apply evolves_in_room|reflexivity].
Qed.
Lemma evolves_advance ms sv : evolves sv (advance ms sv).
Proof.
  constructor; [done|by apply reports_none|]. intros rid w'. unfold advance. cbn. rewrite lookup_fmap.
  destruct (_gameRooms sv !! rid) as [w|]; [|done]. intros [= <-] _. by exists w, [LClock ms].
Qed.
(** What has been collected is complete. *)
Definition collected (c : Collected) : Prop :=
  length (cl_sessions c) = length (cl_tickets c) /\ length (cl_tokens c) = length (cl_tickets c) /\ length (cl_keys c) = length (cl_tickets c).
Lemma seat_player_rooms rid info w c sv w' c' sv' : seat_player rid info w c sv = Some (w', c', sv') ->
  _gameRooms sv' = _gameRooms sv /\ sv_roomId sv' = sv_roomId sv /\ sv_toMain sv' = sv_toMain sv /\ (collected c -> collected c').
Proof.
  unfold seat_player, GetUniqueToken, GetFreeSessionId. destruct (find_token _ _ _) as [[t k]|]; [|done]. cbn.
  destruct (_freePlayerIds sv); intros [= _ <- <-]; split_and!; try done; unfold collected; cbn; rewrite !length_app; cbn; lia.
Qed.
Lemma seat_players_rooms rid infos w c sv w' c' sv' : seat_players rid infos w c sv = Some (w', c', sv') ->
  _gameRooms sv' = _gameRooms sv /\ sv_roomId sv' = sv_roomId sv /\ sv_toMain sv' = sv_toMain sv /\ (collected c -> collected c').
Proof.
  revert w c sv. induction infos as [|info infos IH]; intros w c sv; cbn [seat_players]; [by intros [= _ <- <-]|].
  destruct (seat_player rid info w c sv) as [[[w1 c1] sv1]|] eqn:E1; [|done]. intros (-> & -> & -> & Hc)%IH.
  apply seat_player_rooms in E1 as (? & ? & ? & ?). split_and!; auto.
Qed.
Lemma collected_consistent port c : collected c -> consistent (TmEntryTokens (MakeD2MUpdateEntryTokenPkt port c)).
Proof.
  intros (H1 & H2 & H3). unfold MakeD2MUpdateEntryTokenPkt. rewrite H1, H2, H3, !Nat.eqb_refl. cbn. by rewrite H1, H2, H3.
Qed.
Lemma evolves_MakeRoom pkt sv ok sv' : MakeRoomForThisGroup pkt sv = Some (ok, sv') -> evolves sv sv'.
Proof.
  unfold MakeRoomForThisGroup. set (rid := sv_roomId sv + 1). destruct (make_room _ _ _ _) as [[r draws]|].
  - destruct (seat_players _ _ _ _ _) as [[[w c] sv2]|] eqn:Es; [|done]. apply seat_players_rooms in Es as (Hr & Hi & Hm & Hc).
    intros [= _ <-]. constructor; cbn; rewrite ?Hr, ?Hi, ?Hm; cbn; [unfold rid; lia| |].
    + eexists. split; [reflexivity|]. constructor; [by apply collected_consistent, Hc|done].
    + intros k w' [[<- <-]|[_ Hw]]%lookup_insert_Some Hk; [unfold rid in Hk; lia|by exists w', []].
  - intros [= _ <-]. constructor; cbn; [unfold rid; lia|by apply reports_none|]. intros k w' Hw _. by exists w', [].
Qed.
Lemma evolves_complete sv c sv' : complete sv c = Some sv' -> evolves sv sv'.
Proof.
  destruct c as [pkt|token ip|bytes addr]; cbn [complete].
  - destruct (MakeRoomForThisGroup pkt sv) as [[ok sv1]|] eqn:Em; [|done]. intros [= <-]. by eapply evolves_MakeRoom.
  - intros [= <-]. unfold Handle_H2M2D_BCITSpkt. destruct (_ !! token) as [[rid sid]|]; [|reflexivity].
    etrans; [apply evolves_in_room|by apply evolves_same].
  - intros [= <-]. unfold OnDatagram. do 2 (case_match; [reflexivity|]). case_match; [apply evolves_in_room|reflexivity].
Qed.
Lemma evolves_pass ms cs sv sv' : main_pass ms cs sv = Some sv' -> evolves sv sv'.
Proof.
  unfold main_pass. intros H. transitivity (advance ms sv); [apply evolves_advance|]. revert H. generalize (advance ms sv). clear sv. intros sv.
  assert (Hc : forall sv1, complete_all cs sv = Some sv1 -> evolves sv sv1).
  { revert sv. induction cs as [|c cs IH]; intros sv sv1; cbn [complete_all]; [by intros [= <-]|].
    destruct (complete sv c) as [sv2|] eqn:E2; [|done]. intros H. etrans; [by eapply evolves_complete|by apply IH]. }
  destruct (complete_all cs sv) as [sv1|]; [|done]. intros [= <-]. etrans; [by apply Hc|]. unfold Tick.
  etrans; [|apply evolves_tick]. etrans; [|apply evolves_DestroyPendingRooms]. etrans; [|apply evolves_UpdateGameRooms].
  apply evolves_CheckRetransmits.
Qed.
Lemma evolves_loop ps sv sv' : main_loop ps sv = Some sv' -> evolves sv sv'.
Proof.
  revert sv. induction ps as [|[ms cs] ps IH]; intros sv; cbn [main_loop]; [by intros [= <-]|].
  destruct (main_pass ms cs sv) as [sv1|] eqn:E1; [|done]. intros H. etrans; [by eapply evolves_pass|by apply IH].
Qed.
Lemma run_kept ls w : leave_inv w -> kept w (run ls w).
Proof.
  revert w. induction ls as [|l ls IH]; intros w Hl; [by apply kept_refl|]. cbn [run]. pose proof (step_kept l w Hl) as H1.
  eapply kept_trans; [exact H1|]. apply IH, H1.
Qed.
End passes.

(** ** Theorems *)

Section theorems.
Context {E : External} {L : ExternalLaws E} {G : Rng} {Y : System} {LY : SystemLaws Y}.

(** C8. Over any history of a dedicated process - groups seated, datagrams, addresses
    bound, rooms updated, destroyed and timers run - the session ids are accounted
    for: an id is free exactly when its place is vacant, and free once; the place of
    an id leads to a room exactly when that room has a session of this id, so no two
    rooms share an id; and in every room each departure has been heard once. *)
Theorem session_ids_accounted ps now port sv :
  Forall (fun p => Forall completion_ok p.2) ps -> main_loop ps (new_DediServerService now port) = Some sv ->
  NoDup (_freePlayerIds sv) /\
  (forall i, Z.of_nat i ∈ _freePlayerIds sv <-> _players sv !! i = Some None /\ i <> SPARE) /\
  (forall sid rid, GetPlayerSession sid sv = Some rid <-> exists w, _gameRooms sv !! rid = Some w /\ is_Some (own sid w)) /\
  (forall rid w sid s, _gameRooms sv !! rid = Some w -> own sid w = Some s -> heard s (w_out w)).
Proof.
  intros Hps Hrun. pose proof (main_loop_ok ps _ sv Hps (new_service_ok now port) Hrun) as Hok. destruct (Hok) as [A1 A2 A3 A4 A5 A6 A7 A8 A9].
  split_and!; [done| | |].
  - intros i. split; [intros Hi; destruct (A3 _ Hi) as (_ & V2 & V3)|intros [H1 H2]; by apply A4].
    by rewrite Nat2Z.id in V2, V3.
  - intros sid rid. by apply place_iff.
  - intros rid w sid s Hw Ho. by apply (li_heard _ (proj1 (A7 rid w Hw)) sid).
Qed.

(** C21. When timers are run, those that are due run, each once and earliest first; the
    others stay, with those that were set meanwhile, which are all for later: no due
    timer is left. *)
Theorem Tick_spec sv :
  let now := sv_now sv in
  exists ran added,
    Permutation ran (List.filter (due now) (_heap sv)) /\ StronglySorted in_time ran /\
    noheap (Tick sv) = noheap (run_callbacks ran sv) /\
    Permutation (_heap (Tick sv)) (added ++ List.filter (fun e => negb (due now e)) (_heap sv)) /\
    Forall (fun e => now < execAt e) (_heap (Tick sv)).
Proof.
  cbn zeta. destruct (tick_loop_spec (S (length (_heap sv))) sv) as (ran & added & H1 & H2 & H3 & H4 & H5 & _).
  { pose proof (List.filter_length_le (due (sv_now sv)) (_heap sv)). lia. }
  exists ran, added. split_and!; try done. unfold Tick. rewrite H3. apply Forall_app. split; [done|]. apply Forall_forall.
  intros e He. apply filter_in in He as [He _]. unfold due in He. apply negb_true_iff, Z.leb_gt in He. done.
Qed.
(** Rooms are updated in turn: over four due passes, whatever time lies between them,
    a room's frame is worked out in exactly one of them and its NPCs move in the one
    two passes away, in the room's own phase; in the other two it is left alone. *)
Theorem rooms_updated_in_turn sv ms rid w :
  0 <= _updatePhase sv < 4 -> 0 <= rid -> Forall (fun m => ROOM_UPDATE_INTERVAL_MS <= m) ms -> length ms = 4%nat ->
  0 <= sv_now sv - _lastRoomUpdateTime sv -> _gameRooms sv !! rid = Some w ->
  exists turn, (turn < 4)%nat /\
    _gameRooms (foldl pass sv ms) !! rid = Some (run (concat (imap (fun k m => LClock m ::
      if decide (k = turn) then [LUpdate] else if decide (k = (turn + 2) mod 4)%nat then [LUpdateNpcs] else []) ms)) w).
Proof.
  intros Hp Hr Hms Hlen Hsince Hw. set (p := _updatePhase sv) in *.
  assert (Ht : 0 <= (rid - p) mod 4 < 4) by (apply Z.mod_pos_bound; lia).
  exists (Z.to_nat ((rid - p) mod 4)). split; [lia|]. rewrite (passes_run ms sv rid w p); [|lia|by rewrite Z.mod_small|done..].
  do 3 f_equal. apply imap_ext. intros k m Hk%lookup_lt_Some. cbn beta. f_equal. apply turn_labels_turn; lia.
Qed.

(** When retransmissions are due, the sessions of this pass's parity, in every room,
    send again what their transport holds back for too long and remember when; no
    other session is touched, a room's packets leave in the order of the ids, and the
    next pass takes the other parity. *)
Theorem CheckRetransmits_spec sv rid w :
  service_ok sv -> retransmit_due sv -> _gameRooms sv !! rid = Some w ->
  let phase := _retransmitPhase sv in
  let ids := List.filter (fun sid => bool_decide (is_Some (own sid w))) (map Z.of_nat (phase_ids phase (length (_players sv)))) in
  _retransmitPhase (CheckRetransmits sv) = Z.lxor phase 1 /\
  exists w', _gameRooms (CheckRetransmits sv) !! rid = Some w' /\
    (forall sid, sess w' !! sid = if sid mod 2 =? phase then resent (NowMs w) <$> sess w !! sid else sess w !! sid) /\
    w_out w' = w_out w ++ concat (map (fun sid => from_option (resends (NowMs w)) [] (sess w !! sid)) ids) /\
    StronglySorted Z.lt ids.
Proof.
  intros Hok Hdue Hw phase ids. unfold CheckRetransmits. rewrite (proj2 (Z.ltb_ge _ _) Hdue). fold phase. cbn zeta.
  set (sv1 := sv <| _lastRetransmitTime := _ |> <| _retransmitPhase := _ |>).
  set (P := fun i => bool_decide (nth i (_players sv) None = Some rid)).
  assert (Hids : map Z.of_nat (List.filter P (phase_ids phase (length (_players sv)))) = ids) by by apply seated_ids.
  assert (Hd : NoDup ids).
  { rewrite <- Hids. apply NoDup_fmap; [intros x y; lia|]. apply NoDup_ListNoDup, List.NoDup_filter, NoDup_ListNoDup, phase_ids_NoDup. }
  split. { destruct (foldl_periodic _ (phase_ids phase (length (_players sv))) sv1 retransmit_turn_still) as [Hp _].
    by injection Hp. }
  exists (run (map LRetransmit ids) w). destruct (run_Retransmits ids w Hd) as [R1 R2]. split_and!.
  - rewrite retransmit_turns by apply phase_ids_NoDup. change (_gameRooms sv1) with (_gameRooms sv). rewrite Hw. cbn [fmap option_fmap option_map].
    rewrite <- Hids, map_map. done.
  - intros sid. rewrite R1. destruct (sess w !! sid) as [s|] eqn:Hs; [|by repeat case_match].
    assert (Hin : sid ∈ ids <-> sid mod 2 = phase) by (apply (phase_members sv rid w phase sid Hok Hw); unfold own; by rewrite Hs).
    destruct (Z.eqb_spec (sid mod 2) phase), (bool_decide_reflect (sid ∈ ids)); try done; by intuition.
  - exact R2.
  - rewrite <- Hids. apply sorted_ids.
Qed.
(** C10. The process runs its rooms and does nothing else to them: whatever the passes
    bring, a room that is still there has gone through steps of its own - datagrams,
    timers, updates, retransmissions, the clock - and its sessions are those it was
    made with; the rooms do not meet. *)
Theorem rooms_only_run ps sv sv' rid w' :
  service_ok sv -> main_loop ps sv = Some sv' -> _gameRooms sv' !! rid = Some w' -> rid <= sv_roomId sv ->
  exists w, _gameRooms sv !! rid = Some w /\ descends w w' /\ forall sid, own sid w' = None <-> own sid w = None.
Proof.
  intros Hok Hrun Hw' Hr. destruct (ev_rooms _ _ (evolves_loop ps sv sv' Hrun) rid w' Hw' Hr) as (w & ls & Hw & ->).
  exists w. split_and!; [done|by exists ls|]. apply run_kept, (ac_rooms _ _ Hok rid w Hw).
Qed.
End theorems.

(** ** Witnesses

    A process that has been given one group of two, on the map of the tutorial. *)

Fixpoint pop_least (l : list TimerEntry) : option (TimerEntry * list TimerEntry) :=
  match l with
  | [] => None
  | e :: l' =>
      match pop_least l' with
      | None => Some (e, [])
      | Some (m, r) => if execAt e <=? execAt m then Some (e, l') else Some (m, e :: r)
      end
  end.
#[local] Existing Instance sample_external.
#[local] Existing Instance sample_laws.
#[local] Existing Instance sample_rng.
#[local] Instance sample_system : System := {|
  sys_token_char k := ((k / 16) mod 62)%nat;
  sys_key k := 1000 + Z.of_nat k;
  sys_inet ip := if String.eqb ip "" then None else Some 167837953;
  sys_bind port := 7002 <=? port;
  sh_pop := pop_least |}.

Lemma sample_system_laws : SystemLaws sample_system.
Proof.
  constructor; [done|]. intros l Hl. cbn [sh_pop sample_system]. induction l as [|e l IH]; [done|]. cbn [pop_least].
  destruct l as [|x l]; [exists e, []; split_and!; done|]. destruct IH as (m & r & -> & Hp & Hm); [done|].
  destruct (Z.leb_spec (execAt e) (execAt m)) as [Hle|Hgt].
  - exists e, (x :: l). split_and!; try done. rewrite Hp. constructor; [done|]. eapply Forall_impl; [exact Hm|]. cbn. lia.
  - exists m, (e :: r). split_and!; try done; [rewrite Hp; apply perm_swap|]. constructor; [lia|done].
Qed.
#[local] Existing Instance sample_system_laws.

Definition sample_group : M2DMakeRoomForThisGroup :=
  mk_make_room 0 [mk_info "t1" 77 "ana" 1000 [] [] 1; mk_info "t2" 78 "bo" 1010 [] [] 2].
Definition sample_passes : list (Z * list Completion) := [(10, [CqMakeRoom sample_group])].

Lemma sample_passes_ok : Forall (fun p => Forall completion_ok p.2) sample_passes.
Proof. repeat constructor; cbn; set_solver. Qed.

Lemma sample_service_is : exists sv, main_loop sample_passes (new_DediServerService 0 7000) = Some sv /\
  service_ok sv /\ sv_roomId sv = 1 /\ _updatePhase sv = 0 /\ sv_now sv = 10 /\ _lastRoomUpdateTime sv = 0 /\
  _lastRetransmitTime sv = 0 /\ _lastRoomDestroyTime sv = 0 /\ _retransmitPhase sv = 0 /\ is_Some (_gameRooms sv !! 1) /\
  match _gameRooms sv !! 1 with Some w => is_Some (own 1 w) | None => False end.
Proof.
  assert (H : match main_loop sample_passes (new_DediServerService 0 7000) with
    Some sv => sv_roomId sv = 1 /\ _updatePhase sv = 0 /\ sv_now sv = 10 /\ _lastRoomUpdateTime sv = 0 /\ 
      _lastRetransmitTime sv = 0 /\ _lastRoomDestroyTime sv = 0 /\ _retransmitPhase sv = 0 /\
      match _gameRooms sv !! 1 with Some w => match own 1 w with Some _ => true | None => false end | None => false end = true
    | None => False end) by (vm_compute; repeat split).
  destruct (main_loop sample_passes (new_DediServerService 0 7000)) as [sv|] eqn:E0; [|done]. exists sv.
  destruct H as (H1 & H2 & H3 & H4 & H5 & H6 & H7 & H8). split_and!; try done.
  - apply (main_loop_ok sample_passes _ _ sample_passes_ok (new_service_ok 0 7000) E0).
  - destruct (_gameRooms sv !! 1); [by eexists|done].
  - destruct (_gameRooms sv !! 1) as [w|]; [|done]. destruct (own 1 w); [by eexists|done].
Qed.

Lemma session_ids_accounted_witness :
  exists sv, main_loop sample_passes (new_DediServerService 0 7000) = Some sv /\
    NoDup (_freePlayerIds sv) /\ GetPlayerSession 1 sv = Some 1.
Proof.
  destruct sample_service_is as (sv & Es & _ & _ & _ & _ & _ & _ & _ & _ & _ & Ho). exists sv. split; [exact Es|].
  destruct (session_ids_accounted sample_passes 0 7000 sv sample_passes_ok Es) as (H1 & _ & H3 & _). split; [exact H1|].
  apply H3. destruct (_gameRooms sv !! 1) as [w|]; [|contradiction]. exists w. split; [reflexivity|exact Ho].
Defined.

Lemma Tick_spec_witness :
  let sv := (new_DediServerService 10 7000) <| _heap := [mk_timer 20 0 7 1; mk_timer 9 1 8 1; mk_timer 5 2 9 1] |> in
  exists ran, Permutation ran [mk_timer 9 1 8 1; mk_timer 5 2 9 1] /\ StronglySorted in_time ran /\
    noheap (Tick sv) = noheap (run_callbacks ran sv).
Proof.
  intros sv. destruct (Tick_spec sv) as (ran & added & H1 & H2 & H3 & _). exists ran. split; [exact H1|]. split; [exact H2|exact H3].
Defined.

Lemma rooms_updated_in_turn_witness :
  exists sv w turn, main_loop sample_passes (new_DediServerService 0 7000) = Some sv /\ _gameRooms sv !! 1 = Some w /\ (turn < 4)%nat /\
    is_Some (_gameRooms (foldl pass sv [25; 30; 25; 40]) !! 1).
Proof.
  destruct sample_service_is as (sv & Es & _ & _ & Hp & Hn & Hl & _ & _ & _ & [w Hw] & _).
  destruct (rooms_updated_in_turn sv [25; 30; 25; 40] 1 w) as (turn & Ht & Hr).
  - rewrite Hp. split; [discriminate|reflexivity].
  - discriminate.
  - repeat constructor; discriminate.
  - reflexivity.
  - rewrite Hn, Hl. discriminate.
  - exact Hw.
  - exists sv, w, turn. split; [exact Es|]. split; [exact Hw|]. split; [exact Ht|]. rewrite Hr. eexists. reflexivity.
Defined.

Lemma CheckRetransmits_spec_witness :
  exists sv w, _gameRooms sv !! 1 = Some w /\ _retransmitPhase (CheckRetransmits sv) = 1 /\
    is_Some (_gameRooms (CheckRetransmits sv) !! 1).
Proof.
  destruct sample_service_is as (sv & _ & Hok & _ & _ & Hn & _ & Hl & _ & Hph & [w Hw] & _).
  exists (advance 50 sv), (step (LClock 50) w).
  assert (Hw' : _gameRooms (advance 50 sv) !! 1 = Some (step (LClock 50) w)).
  { change (_gameRooms (advance 50 sv)) with (step (LClock 50) <$> _gameRooms sv). rewrite lookup_fmap, Hw. reflexivity. }
  destruct (CheckRetransmits_spec (advance 50 sv) 1 (step (LClock 50) w)) as (H1 & w' & H2 & _).
  - apply advance_ok, Hok.
  - unfold retransmit_due, advance. cbn. rewrite Hn, Hl. discriminate.
  - exact Hw'.
  - split; [exact Hw'|]. split; [rewrite H1; change (_retransmitPhase (advance 50 sv)) with (_retransmitPhase sv); rewrite Hph; reflexivity|].
    exists w'. exact H2.
Defined.

(** The process a pass later. *)
Lemma sample_later : exists sv sv', main_loop sample_passes (new_DediServerService 0 7000) = Some sv /\
  main_loop [(60, [CqBindIp "token_0000000000000000" "10.1.1.1"])] sv = Some sv' /\ is_Some (_gameRooms sv' !! 1).
Proof.
  assert (H : match main_loop sample_passes (new_DediServerService 0 7000) with
    Some sv => match main_loop [(60, [CqBindIp "token_0000000000000000" "10.1.1.1"])] sv with
               Some sv' => match _gameRooms sv' !! 1 with Some _ => true | None => false end | None => false end
    | None => false end = true) by (vm_compute; reflexivity).
  destruct (main_loop sample_passes (new_DediServerService 0 7000)) as [sv|] eqn:E0; [|done]. exists sv.
  destruct (main_loop _ sv) as [sv'|]; [|done]. exists sv'. split_and!; try done. by destruct (_gameRooms sv' !! 1).
Qed.
Lemma rooms_only_run_witness : exists sv sv' w ls, main_loop sample_passes (new_DediServerService 0 7000) = Some sv /\
  _gameRooms sv !! 1 = Some w /\ _gameRooms sv' !! 1 = Some (run ls w).
Proof.
  destruct sample_later as (sv & sv' & Es & Es' & [w' Hw']). destruct sample_service_is as (sv0 & Es0 & Hok & Hid & _).
  assert (Heq : sv0 = sv) by (rewrite Es in Es0; injection Es0; intros H; exact (eq_sym H)). subst sv0.
  destruct (rooms_only_run _ sv sv' 1 w' Hok Es' Hw') as (w & Hw & [ls Hr] & _); [rewrite Hid; discriminate|].
  exists sv, sv', w, ls. split; [exact Es|]. split; [exact Hw|]. rewrite <- Hr. exact Hw'.
Defined.
