(* ===== verification/Groups.v ===== *)
(** * Groups and their rooms

    The beginning and the end of a room: that the search for a new token ends, what a
    group is given when its room is made, how a token admits its player once, and what
    the destruction of the room gives back.  The definitions are those of Service.v. *)

From S2P Require Import Prelude Items Transport Geometry MapData Protocol Session Room Handlers Calm Safety Rooms Stores Main DBProxy Service Process.
From Stdlib Require Import Ascii.
From stdpp Require Import strings sorting.
Local Open Scope Z_scope.

(** ** Tokens *)

Section tokens.
Context {Y : System}.

Lemma find_token_Some fuel k used t k' : find_token fuel k used = Some (t, k') ->
  used !! t = None /\ t = token_at (k' - 1) /\ (k < k' <= k + fuel)%nat.
Proof.
  revert k. induction fuel as [|fuel IH]; intros k; [done|]. cbn [find_token]. case_decide as Hu.
  - intros (H1 & H2 & H3)%IH. split_and!; [done|done|lia..].
  - intros [= <- <-]. split_and!; [by apply eq_None_not_Some|f_equal; lia|lia|lia].
Qed.
Lemma find_token_None fuel k used : find_token fuel k used = None -> forall i, (k <= i < k + fuel)%nat -> is_Some (used !! token_at i).
Proof.
  revert k. induction fuel as [|fuel IH]; intros k; [lia|]. cbn [find_token]. case_decide as Hu; [|done].
  intros H i Hi. destruct (decide (i = k)) as [->|]; [done|]. apply (IH (S k) H). lia.
Qed.

(** [n] draws from the [k]-th on are different. *)
Definition distinct_draws (k n : nat) : Prop := NoDup (map token_at (seq k n)).
Lemma distinct_part k n k' n' : distinct_draws k n -> (k <= k')%nat -> (k' + n' <= k + n)%nat -> distinct_draws k' n'.
Proof.
  unfold distinct_draws. intros H H1 H2. replace n with ((k' - k) + (n' + (n - n' - (k' - k))))%nat in H by lia.
  rewrite !seq_app, !map_app in H. apply NoDup_app in H as (_ & _ & H). apply NoDup_app in H as (H & _ & _).
  by replace (k + (k' - k))%nat with k' in H by lia.
Qed.

(** As many different draws as there are tokens, and one more, have a new one. *)
Lemma GetUniqueToken_total sv : distinct_draws (sv_tokens sv) (S (size (_tokenToPlayerSession sv))) ->
  exists t k, GetUniqueToken sv = Some (t, sv <| sv_tokens := k |>) /\ _tokenToPlayerSession sv !! t = None /\
    (sv_tokens sv < k <= sv_tokens sv + S (size (_tokenToPlayerSession sv)))%nat /\ t = token_at (k - 1).
Proof.
  intros Hd. unfold GetUniqueToken. destruct (find_token _ _ _) as [[t k]|] eqn:Ef.
  - exists t, k. by apply find_token_Some in Ef as (H1 & H2 & H3).
  - exfalso. set (used := _tokenToPlayerSession sv) in *. set (ts := map token_at (seq (sv_tokens sv) (S (size used)))) in *.
    assert (Hsub : list_to_set (C := gset string) ts ⊆ dom used).
    { intros t Ht. apply elem_of_list_to_set, list_elem_of_fmap in Ht as (i & -> & Hi%elem_of_seq).
      apply elem_of_dom. by apply (find_token_None _ _ _ Ef). }
    apply subseteq_size in Hsub. rewrite size_list_to_set, size_dom in Hsub by done. unfold ts in Hsub.
    rewrite length_map, length_seq in Hsub. lia.
Qed.
End tokens.

(** Entries added one after the other. *)
Lemma foldl_insert_other `{Countable K} {A V} (key : A -> K) (val : A -> V) ts (m : gmap K V) k :
  k ∉ map key ts -> foldl (fun m t => <[ key t := val t ]> m) m ts !! k = m !! k.
Proof.
  revert m. induction ts as [|t ts IH]; intros m Hk; [done|]. cbn [map] in Hk. apply not_elem_of_cons in Hk as [H1 H2].
  cbn [foldl]. rewrite IH by done. by apply lookup_insert_ne.
Qed.
Lemma foldl_insert_lookup `{Countable K} {A V} (key : A -> K) (val : A -> V) ts (m : gmap K V) t :
  NoDup (map key ts) -> t ∈ ts -> foldl (fun m t => <[ key t := val t ]> m) m ts !! key t = Some (val t).
Proof.
  revert m. induction ts as [|x ts IH]; intros m Hd; [by intros ?%elem_of_nil|]. cbn [map] in Hd. apply NoDup_cons in Hd as [H1 Hd].
  intros [->|Ht]%elem_of_cons; cbn [foldl]; [|by apply IH]. rewrite foldl_insert_other by done. apply lookup_insert_eq.
Qed.

(** ** Seating *)

Section seating.
Context {E : External} {L : ExternalLaws E} {G : Rng} {Y : System} {LY : SystemLaws Y}.

(** A place taken: whose, its id, the token and the key. *)
Record Seat := mk_seat { st_info : PlayerInfo; st_sid : Z; st_token : string; st_key : Z }.
Definition seat_session (rid : Z) (t : Seat) : PlayerSession :=
  let info := st_info t in
  new_PlayerSession (pi_ticket_id info) (st_token t) (st_sid t) rid (pi_uid info) (pi_user_id info) (pi_rating info)
    (map info_slot (pi_inventory_items info)) (map info_slot (pi_equipment_items info)) (pi_character_type info) (st_key t).
Definition announce (c : Collected) (ts : list Seat) : Collected :=
  mk_collected (cl_tickets c ++ map (fun t => pi_ticket_id (st_info t)) ts) (cl_sessions c ++ map st_sid ts)
    (cl_tokens c ++ map st_token ts) (cl_keys c ++ map st_key ts).

Lemma announce_app c ts ts' : announce (announce c ts) ts' = announce c (ts ++ ts').
Proof. unfold announce. cbn. by rewrite !map_app, !app_assoc. Qed.

(** What seating adds. *)
Definition entered (rid : Z) (ts : list Seat) (m : gmap Z PlayerSession) : gmap Z PlayerSession :=
  foldl (fun m t => <[ st_sid t := seat_session rid t ]> m) m ts.
Definition admitted (rid : Z) (ts : list Seat) (m : gmap string (Z * Z)) : gmap string (Z * Z) :=
  foldl (fun m t => <[ st_token t := (rid, st_sid t) ]> m) m ts.
Record seated (rid : Z) (ts : list Seat) (w : World) (sv : Service) (w' : World) (sv' : Service) : Prop := {
  sd_sess : sess w' = entered rid ts (sess w);
  sd_map : _tokenToPlayerSession sv' = admitted rid ts (_tokenToPlayerSession sv);
  sd_sids : NoDup (map st_sid ts) /\ Forall (fun t => sess w !! st_sid t = None) ts;
  sd_toks : NoDup (map st_token ts) /\ Forall (fun t => _tokenToPlayerSession sv !! st_token t = None) ts;
  sd_still : _gameRooms sv' = _gameRooms sv /\ _udpPort sv' = _udpPort sv /\ sv_toMain sv' = sv_toMain sv /\ sv_roomId sv' = sv_roomId sv;
  sd_drawn : Forall (fun t => exists k, st_token t = token_at k) ts }.

Lemma seated_cons rid t ts w sv w1 sv1 w' sv' :
  seated rid [t] w sv w1 sv1 -> seated rid ts w1 sv1 w' sv' -> seated rid (t :: ts) w sv w' sv'.
Proof.
  intros [A1 A2 [_ A3] [_ A4] (A5 & A6 & A7 & A8) A9] [B1 B2 [B3 B3'] [B4 B4'] (B5 & B6 & B7 & B8) B9].
  rewrite Forall_singleton in A3, A4, A9. cbn in A1, A2. rewrite A1 in B3'. rewrite A2 in B4'. constructor.
  - by rewrite B1, A1.
  - by rewrite B2, A2.
  - split; [|constructor; [done|eapply Forall_impl; [exact B3'|]; intros x; by intros [H _]%lookup_insert_None]].
    cbn. apply NoDup_cons. split; [|done]. intros (x & Heq & Hx)%list_elem_of_fmap. rewrite Forall_forall in B3'.
    specialize (B3' x Hx). apply lookup_insert_None in B3' as [_ H]. by apply H.
  - split; [|constructor; [done|eapply Forall_impl; [exact B4'|]; intros x; by intros [H _]%lookup_insert_None]].
    cbn. apply NoDup_cons. split; [|done]. intros (x & Heq & Hx)%list_elem_of_fmap. rewrite Forall_forall in B4'.
    specialize (B4' x Hx). apply lookup_insert_None in B4' as [_ H]. by apply H.
  - split_and!; congruence.
  - by constructor.
Qed.

Lemma GetFreeSessionId_still sv : _udpPort (snd (GetFreeSessionId sv)) = _udpPort sv /\ sv_tokens (snd (GetFreeSessionId sv)) = sv_tokens sv.
Proof. unfold GetFreeSessionId. by destruct (_freePlayerIds sv). Qed.

Lemma seat_player_spec rooms rid info w c sv :
  accounts (<[ rid := w ]> rooms) sv -> distinct_draws (sv_tokens sv) (S (size (_tokenToPlayerSession sv))) ->
  exists t w' sv', st_info t = info /\ seat_player rid info w c sv = Some (w', announce c [t], sv') /\ seated rid [t] w sv w' sv' /\
    (sv_tokens sv <= sv_tokens sv' <= sv_tokens sv + S (size (_tokenToPlayerSession sv)))%nat.
Proof.
  intros Hac Hd. destruct (GetUniqueToken_total sv Hd) as (token & k & Et & Hfresh & Hk & Htok). unfold seat_player. rewrite Et.
  cbn [mbind option_bind]. set (sv1 := sv <| sv_tokens := k |>).
  assert (Hac1 : accounts (<[ rid := w ]> rooms) sv1) by by destruct Hac.
  pose proof (GetFreeSessionId_spec _ sv1 Hac1) as Hf. pose proof (GetFreeSessionId_still sv1) as Hst.
  destruct (GetFreeSessionId sv1) as [sid sv2].
  destruct Hf as (F1 & _ & _ & F4 & _ & _ & _ & _ & R1 & R2 & R3 & R4). cbn [fst snd] in Hst. destruct Hst as [U1 U2].
  exists (mk_seat info sid token (sys_key (sv_keys sv2))). eexists _, _. split; [done|]. split; [reflexivity|]. cbn [st_sid st_token].
  assert (Hnone : sess w !! sid = None).
  { destruct (sess w !! sid) as [s|] eqn:Hs; [|done]. exfalso.
    destruct (ac_session _ _ Hac1 rid w sid) as [_ Hp]; [apply lookup_insert_eq|unfold own; rewrite Hs; by eexists|]. by apply (F4 rid). }
  split; [|cbn; rewrite U2; cbn; lia]. constructor.
  - unfold RegisterPlayerSession, upd_room, exec, modify, sess in *. cbn. by rewrite Hnone.
  - cbn. by rewrite R3.
  - split; [apply NoDup_singleton|by apply Forall_singleton].
  - split; [apply NoDup_singleton|by apply Forall_singleton].
  - cbn. by rewrite R1, U1, R4, R2.
  - apply Forall_singleton. by eexists.
Qed.

Lemma seat_players_spec rooms rid infos w c sv :
  accounts (<[ rid := w ]> rooms) sv -> being_filled w -> 0 < rid <= sv_roomId sv -> NoDup (map pi_uid infos) ->
  (forall sid s, own sid w = Some s -> session_uid s ∉ map pi_uid infos) ->
  distinct_draws (sv_tokens sv) (length infos * S (size (_tokenToPlayerSession sv) + length infos)) ->
  exists ts w' sv', map st_info ts = infos /\ seat_players rid infos w c sv = Some (w', announce c ts, sv') /\ seated rid ts w sv w' sv'.
Proof.
  revert w c sv. induction infos as [|info infos IH]; intros w c sv Hac Hbf Hrid Hd Hu Hdraws; cbn [seat_players].
  { exists [], w, sv. split; [done|]. split; [unfold announce; cbn; rewrite !app_nil_r; by destruct c|].
    constructor; try done; try (split; constructor). }
  cbn [map] in Hd, Hu. apply NoDup_cons in Hd as [Hd1 Hd]. cbn [length] in Hdraws. set (n := length infos) in *.
  set (z := size (_tokenToPlayerSession sv)) in *.
  assert (Hdr1 : distinct_draws (sv_tokens sv) (S z)) by (apply (distinct_part _ _ _ _ Hdraws); lia).
  destruct (seat_player_spec rooms rid info w c sv Hac Hdr1) as (t & w1 & sv1 & Hi & Es & Hs1 & Hk). rewrite Es. cbn [mbind option_bind].
  assert (Hu1 : forall sid s, own sid w = Some s -> session_uid s <> pi_uid info).
  { intros sid s Ho Heq. apply (Hu sid s Ho). rewrite Heq. by left. }
  destruct (seat_ok rooms rid info w c sv w1 _ sv1 Hac Hbf Hrid Hu1 Es) as (A & B & U & R & I).
  assert (Hz : size (_tokenToPlayerSession sv1) = S z).
  { rewrite (sd_map _ _ _ _ _ _ Hs1). cbn. apply map_size_insert_None. pose proof (sd_toks _ _ _ _ _ _ Hs1) as [_ H].
    by rewrite Forall_singleton in H. }
  destruct (IH w1 (announce c [t]) sv1) as (ts & w' & sv' & Hts & Ess & Hs); try done.
  - by rewrite I.
  - intros sid s Ho Hin. destruct (U sid s Ho) as [Heq|(s' & Ho' & Heq)]; [by rewrite Heq in Hin|].
    apply (Hu sid s' Ho'). right. by rewrite Heq.
  - rewrite Hz. apply (distinct_part _ _ _ _ Hdraws); [lia|]. nia.
  - exists (t :: ts), w', sv'. split; [cbn; by rewrite Hi, Hts|]. split; [|by eapply seated_cons].
    rewrite Ess. by rewrite announce_app.
Qed.

(** What was added is found. *)
Lemma entered_lookup rid ts m t : NoDup (map st_sid ts) -> t ∈ ts -> entered rid ts m !! st_sid t = Some (seat_session rid t).
Proof. apply (foldl_insert_lookup st_sid (seat_session rid)). Qed.
Lemma admitted_lookup rid ts m t : NoDup (map st_token ts) -> t ∈ ts -> admitted rid ts m !! st_token t = Some (rid, st_sid t).
Proof. apply (foldl_insert_lookup st_token (fun t => (rid, st_sid t))). Qed.
End seating.

(** ** The end of a room *)

Section ending.
Context {E : External} {L : ExternalLaws E} {G : Rng} {Y : System} {LY : SystemLaws Y}.

Lemma release_tokens w ks sv : let sv' := foldl (release_session w) sv ks in
  (forall t, _tokenToPlayerSession sv' !! t = _tokenToPlayerSession sv !! t \/ _tokenToPlayerSession sv' !! t = None) /\
  (forall sid s, sid ∈ ks -> sess w !! sid = Some s -> _tokenToPlayerSession sv' !! _entryToken s = None).
Proof.
  cbn zeta. revert sv. induction ks as [|k ks IH]; intros sv; cbn [foldl]; [split; [by left|by intros ? ? ?%elem_of_nil]|].
  destruct (IH (release_session w sv k)) as [I1 I2].
  assert (Hk : forall t, _tokenToPlayerSession (release_session w sv k) !! t = _tokenToPlayerSession sv !! t \/
                         _tokenToPlayerSession (release_session w sv k) !! t = None).
  { intros t. unfold release_session. destruct (sess w !! k) as [s|]; [|by left]. cbn.
    destruct (decide (_entryToken s = t)) as [<-|]; [right; apply lookup_delete_eq|left; by apply lookup_delete_ne]. }
  split.
  - intros t. destruct (I1 t) as [->|]; [apply Hk|by right].
  - intros sid s [->|Hin]%elem_of_cons Hs; [|by apply (I2 sid)]. destruct (I1 (_entryToken s)) as [->|]; [|done].
    unfold release_session. rewrite Hs. cbn. apply lookup_delete_eq.
Qed.

Definition session_ids (w : World) : list Z := ext_keys _ (sess w).
Lemma session_ids_in w sid : sid ∈ session_ids w <-> is_Some (sess w !! sid).
Proof.
  unfold session_ids. rewrite (keys_perm _ (sess w)), list_elem_of_fmap. split.
  - intros ([k s] & -> & H%elem_of_map_to_list). by eexists.
  - intros [s Hs]. exists (sid, s). split; [done|]. by apply elem_of_map_to_list.
Qed.

(** What the destruction of the rooms [ids] does. *)
Record released (ids : list Z) (sv sv' : Service) : Prop := {
  rl_rooms : forall rid, _gameRooms sv' !! rid = if bool_decide (rid ∈ ids) then None else _gameRooms sv !! rid;
  rl_free : _freePlayerIds sv' = _freePlayerIds sv ++ concat (map (fun rid => from_option session_ids [] (_gameRooms sv !! rid)) ids);
  rl_main : sv_toMain sv' = sv_toMain sv ++
    map (fun rid => TmRoomDestroyed rid (i32 (from_option (fun w => Z.of_nat (size (sess w))) 0 (_gameRooms sv !! rid)))) ids;
  rl_tokens : forall t, _tokenToPlayerSession sv' !! t = _tokenToPlayerSession sv !! t \/ _tokenToPlayerSession sv' !! t = None;
  rl_dead : forall rid w sid s, rid ∈ ids -> _gameRooms sv !! rid = Some w -> sess w !! sid = Some s ->
    _tokenToPlayerSession sv' !! _entryToken s = None }.

Lemma released_nil sv sv' : _gameRooms sv' = _gameRooms sv -> _freePlayerIds sv' = _freePlayerIds sv ->
  sv_toMain sv' = sv_toMain sv -> _tokenToPlayerSession sv' = _tokenToPlayerSession sv -> released [] sv sv'.
Proof.
  intros H1 H2 H3 H4. constructor; rewrite ?H1, ?H2, ?H3, ?H4; cbn; rewrite ?app_nil_r; try done; [by left|by intros ? ? ? ? ?%elem_of_nil].
Qed.
Lemma DestroyRoom_spec sv rid w : service_ok sv -> _gameRooms sv !! rid = Some w -> released [rid] sv (DestroyRoom sv rid).
Proof.
  intros Hok Hw. unfold DestroyRoom. rewrite Hw. set (sv1 := to_main _ sv).
  destruct (release_spec w (session_ids w) sv1) as (R1 & _ & R3 & _ & _ & R6).
  { unfold session_ids. rewrite (keys_perm _ (sess w)). apply NoDup_fst_map_to_list. }
  { apply Forall_forall. intros sid Hsid. apply session_ids_in in Hsid. split; [done|].
    destruct (ac_session _ _ Hok rid w sid Hw) as [H1 H2]; [unfold own; by apply fmap_is_Some|].
    apply lookup_lt_Some in H2. split; [done|]. cbn. lia. }
  destruct (release_tokens w (session_ids w) sv1) as [T1 T2].
  constructor; cbn; rewrite ?Hw; cbn; rewrite ?app_nil_r.
  - intros k. fold (session_ids w). rewrite R1. cbn. case_bool_decide as Hk.
    + apply elem_of_cons in Hk as [->|Hk%elem_of_nil]; [apply lookup_delete_eq|done].
    + apply lookup_delete_ne. intros ->. apply Hk. by left.
  - exact R3.
  - exact R6.
  - exact T1.
  - intros k w' sid s [->|Hk%elem_of_nil]%elem_of_cons Hw' Hs; [|done]. rewrite Hw in Hw'. injection Hw' as <-.
    apply (T2 sid); [|done]. apply session_ids_in. by eexists.
Qed.

Lemma released_cons rid ids sv sv1 sv2 : released [rid] sv sv1 -> released ids sv1 sv2 -> rid ∉ ids -> released (rid :: ids) sv sv2.
Proof.
  intros [A1 A2 A3 A4 A5] [B1 B2 B3 B4 B5] Hn.
  assert (Hsame : forall k, k ∈ ids -> _gameRooms sv1 !! k = _gameRooms sv !! k).
  { intros k Hk. rewrite A1, bool_decide_eq_false_2; [done|]. intros [->|H%elem_of_nil]%elem_of_cons; done. }
  constructor.
  - intros k. rewrite B1, A1. destruct (decide (k = rid)) as [->|Hne].
    + rewrite (bool_decide_eq_true_2 (rid ∈ [rid])), (bool_decide_eq_true_2 (rid ∈ rid :: ids)) by (by left). by case_bool_decide.
    + rewrite (bool_decide_eq_false_2 (k ∈ [rid])) by (by intros [->|?%elem_of_nil]%elem_of_cons).
      rewrite (bool_decide_ext (k ∈ rid :: ids) (k ∈ ids)); [done|]. rewrite elem_of_cons. by intuition.
  - rewrite B2, A2, <- app_assoc. cbn. rewrite app_nil_r. do 2 f_equal. apply f_equal, map_ext_in.
    intros k Hk%list_elem_of_In. by rewrite Hsame.
  - rewrite B3, A3, <- app_assoc. cbn. do 2 f_equal. apply map_ext_in. intros k Hk%list_elem_of_In. by rewrite Hsame.
  - intros t. destruct (B4 t) as [->|]; [apply A4|by right].
  - intros k w sid s [->|Hk]%elem_of_cons Hw Hs.
    + destruct (B4 (_entryToken s)) as [->|]; [|done]. apply (A5 rid w sid s); [by left|done..].
    + apply (B5 k w sid s); [done|by rewrite Hsame|done].
Qed.

Lemma DestroyRooms_spec rids sv : service_ok sv -> exists ids, NoDup ids /\
  (forall rid, rid ∈ ids <-> rid ∈ rids /\ is_Some (_gameRooms sv !! rid)) /\ released ids sv (foldl DestroyRoom sv rids).
Proof.
  revert sv. induction rids as [|rid rids IH]; intros sv Hok; cbn [foldl].
  { exists []. split; [constructor|]. split; [set_solver|by apply released_nil]. }
  destruct (IH (DestroyRoom sv rid)) as (ids & Hd & Hin & Hr); [by apply DestroyRoom_ok|].
  destruct (_gameRooms sv !! rid) as [w|] eqn:Hw.
  - pose proof (DestroyRoom_spec sv rid w Hok Hw) as H1. pose proof (rl_rooms _ _ _ H1) as Hrm.
    assert (Hn : rid ∉ ids). { intros [_ [x Hx]]%Hin. by rewrite Hrm, bool_decide_eq_true_2 in Hx by (by left). }
    exists (rid :: ids). split; [by apply NoDup_cons|]. split; [|by eapply released_cons].
    intros k. rewrite !elem_of_cons, Hin, Hrm. destruct (decide (k = rid)) as [->|Hne].
    + split; [intros _; split; [by left|by eexists]|by left].
    + rewrite bool_decide_eq_false_2 by set_solver. intuition.
  - assert (Hsame : DestroyRoom sv rid = sv) by (unfold DestroyRoom; by rewrite Hw). rewrite Hsame in *.
    exists ids. split; [done|]. split; [|done]. intros k. rewrite Hin, elem_of_cons.
    split; [intros [? ?]; split; [by right|done]|]. intros [[->|?] Hx]; [|done]. rewrite Hw in Hx. by destruct Hx.
Qed.
End ending.

(** ** Theorems *)

Section theorems.
Context {E : External} {L : ExternalLaws E} {G : Rng} {Y : System} {LY : SystemLaws Y} {R : Redis} {M : Mysql} {N : MainEnv}.

Definition known_map (mapId : Z) : Prop := mapId = MAP_ID_TUTORIAL \/ mapId = MAP_ID_TENERIFE.
(** The draws of a group's tokens, however many of them are taken. *)
Definition tokens_suffice (n : nat) (sv : Service) : Prop :=
  distinct_draws (sv_tokens sv) (n * S (size (_tokenToPlayerSession sv) + n)).

Lemma make_room_known mapId rid now draws : known_map mapId -> exists r draws', make_room mapId rid now draws = Some (r, draws').
Proof.
  unfold make_room. intros [-> | ->]; cbn.
  - destruct (new_TestGameRoom rid now draws) as [r d]. by exists r, d.
  - destruct (new_TenerifeGameRoom rid now draws) as [r d]. by exists r, d.
Qed.
Definition collect_seats (ts : list Seat) : Collected := announce (mk_collected [] [] [] []) ts.
Lemma MakeRoom_seats pkt sv : let infos := mr_player_infos pkt in let rid := sv_roomId sv + 1 in
  service_ok sv -> group_ok pkt -> known_map (mr_map_id pkt) -> tokens_suffice (length infos) sv ->
  exists r draws ts w sv2, map st_info ts = infos /\ _playerSessions r = ∅ /\
    seated rid ts (mk_world r (sv_now sv) [] false) (sv <| sv_roomId := rid |> <| sv_loot := draws |>) w sv2 /\
    MakeRoomForThisGroup pkt sv = Some (true, to_main (TmEntryTokens (MakeD2MUpdateEntryTokenPkt (_udpPort sv2) (collect_seats ts)))
                                                (sv2 <| _gameRooms ::= <[ rid := w ]> |>)).
Proof.
  intros infos rid Hok Hg Hmap Hdraws. unfold MakeRoomForThisGroup. fold rid infos.
  destruct (make_room_known (mr_map_id pkt) rid (sv_now sv) (sv_loot sv) Hmap) as (r & draws & Em).
  destruct (make_room_empty _ _ _ _ _ _ Em) as (E1 & E2 & _). rewrite Em.
  set (w0 := mk_world r (sv_now sv) [] false). set (sv0 := sv <| sv_roomId := rid |> <| sv_loot := draws |>).
  assert (Hbf : being_filled w0) by by apply empty_filled.
  pose proof (accounts_empty_room rid w0 sv Hok ltac:(unfold rid; lia) Hbf E1) as Hac.
  assert (Hac0 : accounts (<[ rid := w0 ]> (_gameRooms sv)) sv0) by by destruct Hac.
  destruct (seat_players_spec (_gameRooms sv) rid infos w0 (mk_collected [] [] [] []) sv0) as (ts & w & sv2 & Hts & Es & Hs); try done.
  { cbn. pose proof (ac_id _ _ Hok). unfold rid. lia. }
  { intros sid s Ho. unfold own in Ho. change (sess w0) with (_playerSessions r) in Ho. by rewrite E1, lookup_empty in Ho. }
  exists r, draws, ts, w, sv2. by rewrite Es.
Qed.

(** The message of a group is one the main process takes as it is. *)
Lemma announced_accepted fd port ts (m : Main R M) :
  Handle_D2M_UpdateEntryToken fd (MakeD2MUpdateEntryTokenPkt port (collect_seats ts)) m =
  (_ ← RegisterDBRequest (UpdateEntryTokenRequest fd (map pi_ticket_id (map st_info ts)) (map st_sid ts) (map st_token ts)
         (map st_key ts) port); mret true) m.
Proof.
  unfold MakeD2MUpdateEntryTokenPkt, collect_seats, announce. cbn [cl_tickets cl_sessions cl_tokens cl_keys app].
  rewrite !length_map, !Nat.eqb_refl. cbn [andb]. unfold Handle_D2M_UpdateEntryToken.
  cbn [ut_size ut_port ut_ticket_ids ut_session_ids ut_entry_tokens ut_security_keys].
  rewrite (proj2 (Z.eqb_neq _ _)), (proj2 (Z.ltb_ge _ _)), Nat2Z.id by lia. rewrite !length_map, Nat.leb_refl. cbn [andb].
  rewrite !firstn_all2 by (by rewrite length_map). by rewrite map_map.
Qed.

Lemma entered_dom rid ts sid : NoDup (map st_sid ts) -> is_Some (entered rid ts ∅ !! sid) <-> sid ∈ map st_sid ts.
Proof.
  intros Hd. split.
  - intros H. destruct (decide (sid ∈ map st_sid ts)) as [|Hn]; [done|].
    unfold entered in H. rewrite foldl_insert_other, lookup_empty in H by done. by destruct H.
  - intros (t & -> & Ht)%list_elem_of_fmap. rewrite entered_lookup by done. by eexists.
Qed.

(** However long the room has run, its sessions are the seats of its group. *)
Lemma room_members rid ts ls w : sess w = entered rid ts ∅ -> NoDup (map st_sid ts) -> leave_inv w ->
  (forall sid, sid ∈ session_ids (run ls w) <-> sid ∈ map st_sid ts) /\ length (session_ids (run ls w)) = length ts.
Proof.
  intros HS Hnd Hl. assert (Hdom : forall sid, sid ∈ session_ids (run ls w) <-> sid ∈ map st_sid ts).
  { intros sid. rewrite session_ids_in, <- (fmap_is_Some strip), <- (entered_dom rid), <- HS, <- (fmap_is_Some strip (sess w !! sid)) by done.
    change (strip <$> sess (run ls w) !! sid) with (own sid (run ls w)). change (strip <$> sess w !! sid) with (own sid w).
    pose proof (proj2 (run_kept ls w Hl) sid) as H. rewrite <- !not_eq_None_Some. tauto. }
  split; [done|]. rewrite <- (length_map st_sid). apply Permutation_length, NoDup_Permutation; [|done|done].
  unfold session_ids. rewrite keys_perm. apply NoDup_fst_map_to_list.
Qed.

(** A token admits once, and binds the address. *)
Definition admits_once (sv : Service) (rid : Z) (t : Seat) : Prop := forall ip ip',
  let '(ok, sv1) := Handle_H2M2D_BCITSpkt (st_token t) ip sv in
  ok = true /\ Handle_H2M2D_BCITSpkt (st_token t) ip' sv1 = (false, sv1) /\
  exists w1, _gameRooms sv1 !! rid = Some w1 /\ sess w1 !! st_sid t = Some (SetIp (sys_inet ip) (seat_session rid t)).
Lemma token_admits sv rid t w : _tokenToPlayerSession sv !! st_token t = Some (rid, st_sid t) ->
  _gameRooms sv !! rid = Some w -> sess w !! st_sid t = Some (seat_session rid t) -> admits_once sv rid t.
Proof.
  intros Htok Hrid Hst ip ip'. unfold Handle_H2M2D_BCITSpkt at 1. rewrite Htok. split; [done|]. split.
  - unfold Handle_H2M2D_BCITSpkt. cbn. by rewrite lookup_delete_eq.
  - cbn. rewrite in_room_rooms, decide_True by done. rewrite Hrid. cbn. eexists. split; [done|].
    unfold exec, upd_session, upd_room, modify, sess in *. cbn. rewrite lookup_alter, Hst. by rewrite decide_True.
Qed.

(** A group of distinct players for a known map is always given a room, provided the
    generator of tokens does not keep repeating itself: a new room holds a session for each
    player, made from the player's rows, with an id and a token no one else has; the
    main process is told of all of them in the order of the group, in a message it
    takes as it is; and each token admits once, binding the sender's address. *)
Theorem group_gets_room pkt sv fd (m : Main R M) :
  let infos := mr_player_infos pkt in let rid := sv_roomId sv + 1 in
  service_ok sv -> group_ok pkt -> known_map (mr_map_id pkt) -> tokens_suffice (length infos) sv ->
  exists ts w sv', map st_info ts = infos /\ MakeRoomForThisGroup pkt sv = Some (true, sv') /\
    _gameRooms sv !! rid = None /\ _gameRooms sv' = <[ rid := w ]> (_gameRooms sv) /\
    (forall sid, is_Some (sess w !! sid) <-> sid ∈ map st_sid ts) /\ NoDup (map st_sid ts) /\ NoDup (map st_token ts) /\
    (forall t, t ∈ ts ->
       sess w !! st_sid t = Some (seat_session rid t) /\ GetPlayerSession (st_sid t) sv' = Some rid /\
       GetPlayerSession (st_sid t) sv = None /\ _tokenToPlayerSession sv !! st_token t = None /\ (exists k, st_token t = token_at k) /\
       admits_once sv' rid t) /\
    exists msg, sv_toMain sv' = sv_toMain sv ++ [TmEntryTokens msg] /\
      Handle_D2M_UpdateEntryToken fd msg m =
        (_ ← RegisterDBRequest (UpdateEntryTokenRequest fd (map pi_ticket_id infos) (map st_sid ts) (map st_token ts)
               (map st_key ts) (_udpPort sv)); mret true) m.
Proof.
  intros infos rid Hok Hg Hmap Hdraws.
  destruct (MakeRoom_seats pkt sv Hok Hg Hmap Hdraws) as (r & draws & ts & w & sv2 & Hts & Er & Hs & Em). fold infos rid in Hts, Hs, Em.
  pose proof (MakeRoom_ok pkt sv true _ Hok Hg Em) as Hok'. match type of Em with _ = Some (true, ?x) => set (sv' := x) in * end.
  destruct Hs as [S1 S2 [S3 _] [S4 S4'] (S5 & S6 & S7 & _) S8]. cbn in S2, S4', S5, S6, S7. unfold sess in S1 at 2. cbn in S1. rewrite Er in S1.
  assert (Hnew : _gameRooms sv !! rid = None).
  { destruct (_gameRooms sv !! rid) as [v|] eqn:Hv; [|done]. destruct (ac_rooms _ _ Hok rid v Hv). unfold rid in *. lia. }
  assert (Hrid : _gameRooms sv' = <[ rid := w ]> (_gameRooms sv)) by (unfold sv'; cbn; by rewrite S5).
  assert (Hw : _gameRooms sv' !! rid = Some w) by (rewrite Hrid; apply lookup_insert_eq).
  exists ts, w, sv'. split_and!; try done.
  - intros sid. rewrite S1. by apply entered_dom.
  - intros t Ht. assert (Hst : sess w !! st_sid t = Some (seat_session rid t)) by (rewrite S1; by apply entered_lookup).
    assert (Hpl : GetPlayerSession (st_sid t) sv' = Some rid) by (apply place_iff; [done|]; exists w; by rewrite Hw; unfold own; rewrite Hst).
    split_and!; [done|done| |by rewrite Forall_forall in S4'; apply S4'|by rewrite Forall_forall in S8; apply S8|].
    + destruct (GetPlayerSession _ sv) as [k|] eqn:Hk; [|done]. exfalso. apply place_iff in Hk as (v & Hv & Ho); [|done].
      assert (Hne : rid <> k) by (intros <-; congruence).
      assert (GetPlayerSession (st_sid t) sv' = Some k); [|congruence].
      apply place_iff; [done|]. exists v. by rewrite Hrid, lookup_insert_ne.
    + apply (token_admits sv' rid t w); [|done|done]. unfold sv'. cbn. rewrite S2. by apply admitted_lookup.
  - eexists. split; [unfold sv'; cbn; by rewrite S7|]. rewrite announced_accepted, S6. by rewrite <- Hts.
Qed.

(** When rooms are destroyed, each room asked for that is still there goes, once, and
    no other: the main process is told the number of its sessions, their ids
    are free again, and no token of theirs admits anyone any more. *)
Theorem DestroyPendingRooms_spec sv :
  service_ok sv -> ROOM_DESTROY_INTERVAL_MS <= sv_now sv - _lastRoomDestroyTime sv ->
  let sv' := DestroyPendingRooms sv in
  exists ids, NoDup ids /\ (forall rid, rid ∈ ids <-> rid ∈ _pendingDestroyRooms sv /\ is_Some (_gameRooms sv !! rid)) /\
    released ids sv sv' /\ _pendingDestroyRooms sv' = [] /\ service_ok sv'.
Proof.
  intros Hok Hdue. cbn zeta. pose proof (DestroyPendingRooms_ok sv Hok) as Hok'. revert Hok'.
  unfold DestroyPendingRooms. rewrite (proj2 (Z.ltb_ge _ _) Hdue). set (sv1 := sv <| _lastRoomDestroyTime := _ |>). intros Hok'.
  destruct (DestroyRooms_spec (_pendingDestroyRooms sv) sv1) as (ids & Hd & Hin & [R1 R2 R3 R4 R5]); [by apply (frame_ok sv)|].
  exists ids. split_and!; try done.
Qed.
(** C7. The places of a group come back with its room: however long the room lives, when
    it is destroyed the main process is told of as many players as the group had,
    which is what it then takes off the process's count, and their ids are free. *)
Theorem room_end_returns_places pkt sv sv1 ps sv2 w2 (s : M2DSession) :
  let rid := sv_roomId sv + 1 in let n := Z.of_nat (length (mr_player_infos pkt)) in
  service_ok sv -> group_ok pkt -> known_map (mr_map_id pkt) -> tokens_suffice (length (mr_player_infos pkt)) sv ->
  MakeRoomForThisGroup pkt sv = Some (true, sv1) ->
  Forall (fun p => Forall completion_ok p.2) ps -> main_loop ps sv1 = Some sv2 -> _gameRooms sv2 !! rid = Some w2 ->
  n < 2 ^ 31 -> 0 <= _allocatedPlayers s ->
  sv_toMain (DestroyRoom sv2 rid) = sv_toMain sv2 ++ [TmRoomDestroyed rid n] /\
  ReleasePlayers n (s <| _allocatedPlayers ::= fun a => a + n |>) = s /\
  exists ids, length ids = length (mr_player_infos pkt) /\ NoDup ids /\
    _freePlayerIds (DestroyRoom sv2 rid) = _freePlayerIds sv2 ++ ids /\
    forall sid, sid ∈ ids <-> GetPlayerSession sid sv1 = Some rid.
Proof.
  intros rid n Hok Hg Hmap Hdraws Em1 Hps Hrun Hw2 Hn Hs.
  destruct (MakeRoom_seats pkt sv Hok Hg Hmap Hdraws) as (r & draws & ts & w & sv' & Hts & Er & Hseat & Em).
  assert (Hok1 : service_ok sv1) by by eapply MakeRoom_ok. pose proof (main_loop_ok ps sv1 sv2 Hps Hok1 Hrun) as Hok2.
  assert (E1 : _gameRooms sv1 !! rid = Some w /\ sv_roomId sv1 = rid).
  { rewrite Em1 in Em. injection Em as ->. cbn. split; [apply lookup_insert_eq|]. apply Hseat. }
  destruct E1 as [Hw1 Hid1]. assert (HS : sess w = entered rid ts ∅).
  { rewrite <- Er. apply (sd_sess _ _ _ _ _ _ Hseat). }
  destruct (ev_rooms _ _ (evolves_loop ps sv1 sv2 Hrun) rid w2 Hw2) as (w' & ls & Hw' & ->); [lia|].
  rewrite Hw1 in Hw'. injection Hw' as <-. pose proof (proj1 (sd_sids _ _ _ _ _ _ Hseat)) as Hnds.
  pose proof (room_members rid ts ls w HS Hnds (proj1 (ac_rooms _ _ Hok1 rid w Hw1))) as [Hdom Hlen].
  rewrite <- (length_map st_info), Hts in Hlen.
  destruct (DestroyRoom_spec sv2 rid (run ls w) Hok2 Hw2) as [_ R2 R3 _ _]. cbn in R2, R3. rewrite Hw2 in R2, R3. cbn in R2, R3.
  assert (Hsize : Z.of_nat (size (sess (run ls w))) = n).
  { unfold n. rewrite <- Hlen. unfold session_ids. by rewrite (keys_perm _ (sess _)), length_map, length_map_to_list. }
  split_and!.
  - rewrite R3, Hsize, i32_id; [done|]. unfold is_i32. lia.
  - unfold ReleasePlayers. cbn. replace (_allocatedPlayers s + n - n) with (_allocatedPlayers s) by lia.
    rewrite (proj2 (Z.ltb_ge _ _)) by lia. by destruct s.
  - exists (session_ids (run ls w)). rewrite app_nil_r in R2. split_and!; try done.
    + unfold session_ids. rewrite keys_perm. apply NoDup_fst_map_to_list.
    + intros sid. rewrite place_iff by done. rewrite Hdom, <- (entered_dom rid), <- HS by done. split.
      * intros H. exists w. split; [done|]. unfold own. by apply fmap_is_Some.
      * intros (v & Hv & Ho). rewrite Hw1 in Hv. injection Hv as <-. by apply fmap_is_Some in Ho.
Qed.
End theorems.

(** ** Witnesses *)

#[local] Existing Instance sample_external.
#[local] Existing Instance sample_laws.
#[local] Existing Instance sample_rng.
#[local] Existing Instance sample_system.
#[local] Existing Instance sample_system_laws.
#[local] Existing Instance sample_redis.
#[local] Existing Instance sample_mysql.
#[local] Existing Instance sample_env.

Lemma group_gets_room_witness : exists ts w sv',
  MakeRoomForThisGroup sample_group (new_DediServerService 0 7000) = Some (true, sv') /\ length ts = 2%nat /\
  _gameRooms sv' !! 1 = Some w /\ (forall sid, is_Some (sess w !! sid) <-> sid ∈ map st_sid ts) /\
  forall t, t ∈ ts -> admits_once sv' 1 t.
Proof.
  destruct (group_gets_room sample_group (new_DediServerService 0 7000) 5 sample_main) as (ts & w & sv' & Hi & Em & _ & Hr & Hs & _ & _ & Ht & _).
  - apply new_service_ok.
  - unfold group_ok. apply (bool_decide_unpack _). vm_compute. exact I.
  - left. reflexivity.
  - unfold tokens_suffice, distinct_draws. apply (bool_decide_unpack _). vm_compute. exact I.
  - exists ts, w, sv'. split; [exact Em|]. split; [apply (f_equal length) in Hi; rewrite length_map in Hi; exact Hi|].
    split; [rewrite Hr; apply lookup_insert_eq|]. split; [exact Hs|]. intros t Hin. apply (Ht t Hin).
Defined.

Lemma DestroyPendingRooms_spec_witness : exists sv, is_Some (_gameRooms sv !! 1) /\ 
  _gameRooms (DestroyPendingRooms sv) !! 1 = None /\ _pendingDestroyRooms (DestroyPendingRooms sv) = [].
Proof.
  destruct sample_service_is as (sv & _ & Hok & _ & _ & Hn & _ & _ & Hl & _ & [w Hw] & _).
  exists (ReserveRoomDestroy 1 (advance 1000 sv)).
  assert (Hw' : is_Some (_gameRooms (ReserveRoomDestroy 1 (advance 1000 sv)) !! 1)).
  { change (_gameRooms (ReserveRoomDestroy 1 (advance 1000 sv))) with (step (LClock 1000) <$> _gameRooms sv).
    rewrite lookup_fmap, Hw. eexists. reflexivity. }
  destruct (DestroyPendingRooms_spec (ReserveRoomDestroy 1 (advance 1000 sv))) as (ids & _ & Hin & Hr & Hp & _).
  - apply (frame_ok (advance 1000 sv)); [apply advance_ok, Hok|reflexivity..].
  - cbn. rewrite Hn, Hl. discriminate.
  - split; [exact Hw'|]. split; [|exact Hp]. rewrite (rl_rooms _ _ _ Hr). rewrite bool_decide_eq_true_2; [reflexivity|].
    apply Hin. split; [|exact Hw']. cbn. apply elem_of_app. right. left.
Defined.

Lemma room_end_returns_places_witness : exists sv1 sv2,
  MakeRoomForThisGroup sample_group (new_DediServerService 0 7000) = Some (true, sv1) /\
  main_loop [(60, []); (700, [])] sv1 = Some sv2 /\
  sv_toMain (DestroyRoom sv2 1) = sv_toMain sv2 ++ [TmRoomDestroyed 1 2].
Proof.
  assert (H : match MakeRoomForThisGroup sample_group (new_DediServerService 0 7000) with
    Some (true, sv) => match main_loop [(60, []); (700, [])] sv with
               Some sv' => match _gameRooms sv' !! 1 with Some _ => true | None => false end | None => false end
    | _ => false end = true) by (vm_compute; reflexivity).
  destruct (MakeRoomForThisGroup sample_group (new_DediServerService 0 7000)) as [[[|] sv1]|] eqn:E1; try discriminate H.
  destruct (main_loop [(60, []); (700, [])] sv1) as [sv2|] eqn:E2; [|discriminate H].
  destruct (_gameRooms sv2 !! 1) as [w2|] eqn:Hw; [|discriminate H].
  destruct (room_end_returns_places sample_group (new_DediServerService 0 7000) sv1 [(60, []); (700, [])] sv2 w2 (new_M2DSession 100)) as (H1 & _).
  - apply new_service_ok.
  - unfold group_ok. apply (bool_decide_unpack _). vm_compute. exact I.
  - left. reflexivity.
  - unfold tokens_suffice, distinct_draws. apply (bool_decide_unpack _). vm_compute. exact I.
  - exact E1.
  - repeat constructor.
  - exact E2.
  - exact Hw.
  - reflexivity.
  - discriminate.
  - exists sv1, sv2. split; [reflexivity|]. split; [exact E2|exact H1].
Defined.
