(* ===== verification/Tasks.v ===== *)
(** * Tasks and buffers in the hands of the kernel

    Models src/src/ObjectPool.h, the [Register...] functions of IoUringWrapper.cpp, the tasks
    of IOTask.cpp and UDPTask.cpp with their callbacks, and the [Recv] and [Send] of the
    sessions: what is acquired for a request of io_uring, and what its completion gives
    back.  Both processes share the code; a dedicated process starts with the receives
    of its UDP socket, the main process with its two accepts.

    An object is known by its address.  Whether io_uring has a free entry for a request
    ([io_uring_get_sqe]) is up to the kernel, and so is which request completes
    next. *)

From S2P Require Import Prelude Transport Protocol.
From stdpp Require Import functions.
Local Open Scope Z_scope.

(** ** Object pools *)

(** The objects released, the last one first, and how many have been allocated; a new
    address is that of none before. *)
Record Pool := mk_pool { _instance : list nat; p_made : nat }.
#[export] Instance eta_Pool : Eta Pool := fun p => mk_pool (_instance p) (p_made p).

Definition Acquire : ST Pool nat := fun p =>
  match _instance p with
  | x :: l => (x, p <| _instance := l |>)
  | [] => (p_made p, p <| p_made ::= S |>)
  end.
Definition Release (x : nat) (p : Pool) : Pool := p <| _instance ::= cons x |>.

(** Every object is in use or in the pool, once. *)
Definition pool_ok (used : list nat) (p : Pool) : Prop := Permutation (used ++ _instance p) (seq 0 (p_made p)).

Lemma Acquire_ok used p : pool_ok used p -> let '(x, p') := Acquire p in pool_ok (x :: used) p'.
Proof.
  destruct p as [[|x l] n]; unfold pool_ok, Acquire; cbn [_instance p_made]; intros H.
  - change (Permutation ((n :: used) ++ []) (seq 0 (S n))). rewrite seq_S. rewrite app_nil_r in *.
    by rewrite H, Permutation_cons_append.
  - change (Permutation (x :: used ++ l) (seq 0 n)). by rewrite <- H, Permutation_middle.
Qed.
Lemma Release_ok x used p : pool_ok (x :: used) p -> pool_ok used (Release x p).
Proof. unfold pool_ok, Release. cbn. intros <-. by rewrite Permutation_middle. Qed.
#[export] Instance pool_ok_proper : Proper (Permutation ==> eq ==> iff) pool_ok.
Proof. intros l l' Hl p p' <-. unfold pool_ok. by rewrite Hl. Qed.

(** ** Requests *)

(** The types with a pool. *)
Inductive Pooled := TD2CRecv | TD2CSend | TIPCSend | TDediRecv | TH2SRead | TDediAccept | TH2SAccept | TSendBuffer.
#[export] Instance Pooled_eq_dec : EqDecision Pooled.
Proof. solve_decision. Defined.
Definition Object : Type := Pooled * nat.

Inductive Request :=
| RqRecvMsg (task : nat)           (* [D2CRecvTask] *)
| RqSendMsg (task buffer : nat)    (* [D2CSendTask] *)
| RqSend (task buffer : nat)       (* [IPCSendTask] *)
| RqRead (task : nat)              (* [DediRecvTask] *)
| RqHttpRead (task : nat)          (* [H2SReadTask] *)
| RqAccept (task : nat)            (* [DediAcceptTask] *)
| RqHttpAccept (task : nat).       (* [H2SAcceptTask] *)

(** The objects a request has. *)
Definition objects (q : Request) : list Object :=
  match q with
  | RqRecvMsg t => [(TD2CRecv, t)]
  | RqSendMsg t b => [(TD2CSend, t); (TSendBuffer, b)]
  | RqSend t b => [(TIPCSend, t); (TSendBuffer, b)]
  | RqRead t => [(TDediRecv, t)]
  | RqHttpRead t => [(TH2SRead, t)]
  | RqAccept t => [(TDediAccept, t)]
  | RqHttpAccept t => [(TH2SAccept, t)]
  end.

(** The pool of each type, what the kernel has been asked for, and the datagrams given to
    [HandleClientPacket]. *)
Record Io := mk_io { pools : Pooled -> Pool; submitted : list Request; handled : list (list Z * sockaddr_in) }.
#[export] Instance eta_Io : Eta Io := fun io => mk_io (pools io) (submitted io) (handled io).

(** [ObjectPool<T>::Acquire] and [Release]. *)
Definition acquire (k : Pooled) : ST Io nat := fun io =>
  let '(x, p) := Acquire (pools io k) in (x, io <| pools ::= <[ k := p ]> |>).
Definition release (k : Pooled) (x : nat) (io : Io) : Io := io <| pools ::= alter (Release x) k |>.

Definition submit (q : Request) (io : Io) : Io := io <| submitted ::= fun l => l ++ [q] |>.
Definition RegisterRecv (sqe : bool) (q : Request) (io : Io) : Io := if sqe then submit q io else io.
Definition RegisterAcceptTask (sqe : bool) (q : Request) (io : Io) : Io := if sqe then submit q io else io.
Definition RegisterRecvMsg (sqe : bool) (task : nat) (io : Io) : Io := if sqe then submit (RqRecvMsg task) io else io.
Definition RegisterSendMsg (sqe : bool) (task buffer : nat) (io : Io) : Io := if sqe then submit (RqSendMsg task buffer) io else io.
Definition RegisterIPCSendTask (sqe : bool) (task buffer : nat) (io : Io) : Io :=
  if sqe then submit (RqSend task buffer) io else release TIPCSend task (release TSendBuffer buffer io).

(** [D2CSession]; [sqes] has an entry for each of [count]. *)
Definition post_recv (io : Io) (sqe : bool) : Io :=
  let '(task, io1) := acquire TD2CRecv io in RegisterRecvMsg sqe task io1.
Definition PumpRecvTasks (sqes : list bool) (io : Io) : Io := foldl post_recv io sqes.
Definition D2CSession_Send (sqe : bool) (buffer : nat) (io : Io) : Io :=
  let '(task, io1) := acquire TD2CSend io in RegisterSendMsg sqe task buffer io1.
Definition OnRecvComplete (sqe : bool) (bytes : list Z) (clientAddr : sockaddr_in) (io : Io) : Io :=
  PumpRecvTasks [sqe]
    (if Z.of_nat (length bytes) <? UDP_HEADER_SIZE then io else io <| handled ::= fun l => l ++ [(bytes, clientAddr)] |>).
(** [Send] and [Recv] of the sessions to another process, and [Recv] of the HTTP server's. *)
Definition Session_Send (sqe : bool) (buffer : nat) (io : Io) : Io :=
  let '(task, io1) := acquire TIPCSend io in RegisterIPCSendTask sqe task buffer io1.
Definition Session_Recv (sqe : bool) (io : Io) : Io :=
  let '(task, io1) := acquire TDediRecv io in RegisterRecv sqe (RqRead task) io1.
Definition HttpIPCSession_Recv (sqe : bool) (io : Io) : Io :=
  let '(task, io1) := acquire TH2SRead io in RegisterRecv sqe (RqHttpRead task) io1.

(** ** Callbacks *)

(** A datagram as the kernel copies it; [None] is a negative result. *)
Definition RECV_BUFFER_SIZE : nat := 1024.
Definition D2CRecvTask_callback (sqe : bool) (task : nat) (result : option (list Z * sockaddr_in)) (io : Io) : Io :=
  release TD2CRecv task
    (match result with
     | Some (b :: l, clientAddr) => OnRecvComplete sqe (take RECV_BUFFER_SIZE (b :: l)) clientAddr io
     | _ => io
     end).
Definition D2CSendTask_callback (task buffer : nat) (io : Io) : Io := release TD2CSend task (release TSendBuffer buffer io).
Definition IPCSendTask_callback (task buffer : nat) (io : Io) : Io := release TIPCSend task (release TSendBuffer buffer io).
(** [again]: whether [OnReadComplete] asks for another read. *)
Definition DediRecvTask_callback (again sqe : bool) (task : nat) (io : Io) : Io :=
  release TDediRecv task (if again then Session_Recv sqe io else io).
Definition H2SReadTask_callback (again sqe : bool) (task : nat) (io : Io) : Io :=
  release TH2SRead task (if again then HttpIPCSession_Recv sqe io else io).
(** The read of the new session, then the next accept. *)
Definition DediAcceptTask_callback (result : Z) (sqe1 sqe2 : bool) (task : nat) (io : Io) : Io :=
  RegisterAcceptTask sqe2 (RqAccept task) (if result <? 0 then io else Session_Recv sqe1 io).
(** [again]: there is no session yet. *)
Definition H2SAcceptTask_callback (result : Z) (again sqe1 sqe2 : bool) (task : nat) (io : Io) : Io :=
  if result <? 0 then RegisterAcceptTask sqe2 (RqHttpAccept task) io
  else release TH2SAccept task (if again then HttpIPCSession_Recv sqe1 io else io).

(** What comes of a request: a datagram or nothing, a read that is followed by another or
    not, the result of an accept; the grants of the requests the callback makes. *)
Record Completion := mk_completion {
  cp_datagram : option (list Z * sockaddr_in); cp_again : bool; cp_result : Z; cp_sqe1 : bool; cp_sqe2 : bool }.

Definition complete_task (q : Request) (c : Completion) (io : Io) : Io :=
  match q with
  | RqRecvMsg task => D2CRecvTask_callback (cp_sqe1 c) task (cp_datagram c) io
  | RqSendMsg task b => D2CSendTask_callback task b io
  | RqSend task b => IPCSendTask_callback task b io
  | RqRead task => DediRecvTask_callback (cp_again c) (cp_sqe1 c) task io
  | RqHttpRead task => H2SReadTask_callback (cp_again c) (cp_sqe1 c) task io
  | RqAccept task => DediAcceptTask_callback (cp_result c) (cp_sqe1 c) (cp_sqe2 c) task io
  | RqHttpAccept task => H2SAcceptTask_callback (cp_result c) (cp_again c) (cp_sqe1 c) (cp_sqe2 c) task io
  end.

(** A packet to a client, a message to another process, the completion of the [i]th
    request the kernel has. *)
Inductive IoEvent :=
| IoPacket (sqe : bool)
| IoMessage (sqe : bool)
| IoComplete (i : nat) (c : Completion).

Definition io_step (io : Io) (e : IoEvent) : Io :=
  match e with
  | IoPacket sqe => let '(b, io1) := acquire TSendBuffer io in D2CSession_Send sqe b io1
  | IoMessage sqe => let '(b, io1) := acquire TSendBuffer io in Session_Send sqe b io1
  | IoComplete i c =>
      match submitted io !! i with
      | None => io
      | Some q => complete_task q c (io <| submitted ::= delete i |>)
      end
  end.
Definition io_run (es : list IoEvent) (io : Io) : Io := foldl io_step io es.

(** The requests of [Init] of the service: the greeting and the read of [InitMainIPC], the ten
    receives of [InitUDP]; and those of [main]: its two accepts. *)
Definition io_new : Io := mk_io (fun _ => mk_pool [] 0) [] [].
Definition io_start : Io := PumpRecvTasks (replicate 10 true) (Session_Recv true (io_step io_new (IoMessage true))).
Definition io_main : Io :=
  let '(http, io1) := acquire TH2SAccept io_new in
  let '(dedi, io2) := acquire TDediAccept (RegisterAcceptTask true (RqHttpAccept http) io1) in
  RegisterAcceptTask true (RqAccept dedi) io2.
Definition io_boot (dedicated : bool) : Io := if dedicated then io_start else io_main.

(** ** What is in use *)

Definition held (l : list Request) : list Object := flat_map objects l.
Definition of_type (k : Pooled) (l : list Object) : list nat := omap (fun '(k', x) => if decide (k' = k) then Some x else None) l.
(** The objects of a type that are in a request. *)
Definition in_use (k : Pooled) (io : Io) : list nat := of_type k (held (submitted io)).

#[export] Instance of_type_proper k : Proper (Permutation ==> Permutation) (of_type k).
Proof. intros l l' H. unfold of_type. by rewrite H. Qed.
Lemma of_type_app k l l' : of_type k (l ++ l') = of_type k l ++ of_type k l'.
Proof. apply omap_app. Qed.
Lemma of_type_cons k k' x l : of_type k ((k', x) :: l) = (if decide (k' = k) then [x] else []) ++ of_type k l.
Proof. unfold of_type. cbn. by destruct (decide (k' = k)). Qed.
Lemma of_type_none k l : Forall (fun o => o.1 <> k) l -> of_type k l = [].
Proof. induction 1 as [|[k' x] l Hk _ IH]; [done|]. by rewrite of_type_cons, decide_False, IH by exact Hk. Qed.
Lemma held_app l l' : held (l ++ l') = held l ++ held l'.
Proof. apply flat_map_app. Qed.
Lemma held_delete l i q : l !! i = Some q -> Permutation (held l) (objects q ++ held (delete i l)).
Proof.
  intros H. rewrite <- (take_drop_middle l i q H) at 1. rewrite delete_take_drop. rewrite !held_app. cbn.
  by rewrite Permutation_app_swap_app.
Qed.

(** The kernel's requests have their objects to themselves; those of [out] are in use
    without a request. *)
Definition in_hand (out : list Object) (io : Io) : Prop :=
  forall k, pool_ok (of_type k (held (submitted io) ++ out)) (pools io k).

#[export] Instance in_hand_proper : Proper (Permutation ==> eq ==> iff) in_hand.
Proof. intros l l' Hl io io' <-. unfold in_hand. by setoid_rewrite Hl. Qed.

Lemma hand_acquire k out io : in_hand out io -> let '(x, io') := acquire k io in in_hand ((k, x) :: out) io'.
Proof.
  intros H. unfold acquire. destruct (Acquire (pools io k)) as [x p] eqn:Ea. intros k'.
  change (pool_ok (of_type k' (held (submitted io) ++ (k, x) :: out)) (<[ k := p ]> (pools io) k')).
  rewrite <- Permutation_middle, of_type_cons. destruct (decide (k = k')) as [<-|Hne].
  - rewrite fn_lookup_insert. specialize (H k). apply Acquire_ok in H. by rewrite Ea in H.
  - rewrite fn_lookup_insert_ne by done. exact (H k').
Qed.
Lemma hand_release k x out io : in_hand ((k, x) :: out) io -> in_hand out (release k x io).
Proof.
  intros H k'. specialize (H k'). rewrite <- Permutation_middle, of_type_cons in H.
  change (pool_ok (of_type k' (held (submitted io) ++ out)) (alter (Release x) k (pools io) k')).
  destruct (decide (k = k')) as [<-|Hne].
  - rewrite fn_lookup_alter. by apply Release_ok.
  - by rewrite fn_lookup_alter_ne.
Qed.
Lemma hand_submit q out io : in_hand (objects q ++ out) io -> in_hand out (submit q io).
Proof.
  intros H k. specialize (H k). change (pool_ok (of_type k (held (submitted io ++ [q]) ++ out)) (pools io k)).
  rewrite held_app, <- app_assoc. cbn [held flat_map]. by rewrite app_nil_r.
Qed.
Lemma hand_complete i q out io : submitted io !! i = Some q -> in_hand out io -> in_hand (objects q ++ out) (io <| submitted ::= delete i |>).
Proof.
  intros Hq H k. specialize (H k). rewrite (held_delete _ _ _ Hq) in H.
  change (pool_ok (of_type k (held (delete i (submitted io)) ++ objects q ++ out)) (pools io k)).
  rewrite Permutation_app_swap_app, app_assoc. exact H.
Qed.
Lemma hand_handled f out io : in_hand out io -> in_hand out (io <| handled ::= f |>).
Proof. intros H k. exact (H k). Qed.

(** What a call has lost: nothing where its requests were granted, never the task of a
    message between the processes. *)
Definition spent (ok : bool) (out : list Object) (io : Io) : Prop :=
  exists lost, in_hand (lost ++ out) io /\ (ok = true -> lost = []) /\ Forall (fun o => o.1 <> TIPCSend) lost.

Lemma spent_none ok out io : in_hand out io -> spent ok out io.
Proof. intros H. by exists []. Qed.
Lemma spent_release ok k x out io : spent ok ((k, x) :: out) io -> spent ok out (release k x io).
Proof.
  intros (lost & H & Hl). exists lost. split; [|done]. apply hand_release. by rewrite Permutation_middle.
Qed.
Lemma spent_register (q : Request) ok sqe out io : Forall (fun o => o.1 <> TIPCSend) (objects q) -> spent ok (objects q ++ out) io ->
  spent (ok && sqe) out (if sqe then submit q io else io).
Proof.
  intros Hq (lost & H & Hok & Hl). destruct sqe; rewrite ?andb_true_r, ?andb_false_r.
  - exists lost. split; [|done]. apply hand_submit. by rewrite Permutation_app_swap_app.
  - exists (lost ++ objects q). rewrite <- app_assoc. split; [done|]. split; [done|]. by apply Forall_app.
Qed.
Lemma spent_post k (q : nat -> Request) sqe out io : (forall x, objects (q x) = [(k, x)]) -> k <> TIPCSend -> in_hand out io ->
  spent sqe out (let '(x, io1) := acquire k io in if sqe then submit (q x) io1 else io1).
Proof.
  intros Hq Hk H. pose proof (hand_acquire k out io H) as H1. destruct (acquire k io) as [x io1].
  apply (spent_register (q x) true sqe); rewrite Hq; [by constructor|by apply spent_none].
Qed.
Lemma spent_weaken ok ok' out io : (ok' = true -> ok = true) -> spent ok out io -> spent ok' out io.
Proof. intros Ho (lost & H & Hl & Hf). exists lost. auto. Qed.

(** The request went through, or the kernel had no entry for it. *)
Definition granted (e : IoEvent) : bool :=
  match e with IoPacket sqe | IoMessage sqe => sqe | IoComplete _ c => cp_sqe1 c && cp_sqe2 c end.

Lemma post_recv_spent out io sqe : in_hand out io -> spent sqe out (post_recv io sqe).
Proof. by apply (spent_post TD2CRecv RqRecvMsg). Qed.
Lemma Session_Recv_spent sqe out io : in_hand out io -> spent sqe out (Session_Recv sqe io).
Proof. by apply (spent_post TDediRecv RqRead). Qed.
Lemma HttpIPCSession_Recv_spent sqe out io : in_hand out io -> spent sqe out (HttpIPCSession_Recv sqe io).
Proof. by apply (spent_post TH2SRead RqHttpRead). Qed.
Create HintDb hand.
#[local] Hint Resolve post_recv_spent Session_Recv_spent HttpIPCSession_Recv_spent spent_none hand_handled : hand.

Lemma complete_task_spent q c out io : in_hand (objects q ++ out) io -> spent (cp_sqe1 c && cp_sqe2 c) out (complete_task q c io).
Proof.
  intros H. destruct c as [d again result sqe1 sqe2]. cbn [cp_sqe1 cp_sqe2].
  assert (Hw : forall io', spent sqe1 out io' -> spent (sqe1 && sqe2) out io') by (intros io'; apply spent_weaken;
    by intros [? _]%andb_true_iff).
  destruct q as [t|t b|t b|t|t|t|t]; cbn [complete_task cp_datagram cp_again cp_result cp_sqe1 cp_sqe2 objects app] in *.
  - apply Hw, spent_release. destruct d as [[[|x l] addr]|]; [by auto with hand| |by auto with hand].
    unfold OnRecvComplete. cbn [PumpRecvTasks foldl]. apply post_recv_spent. case_match; auto with hand.
  - apply spent_none. by apply hand_release, hand_release; rewrite perm_swap.
  - apply spent_none. by apply hand_release, hand_release; rewrite perm_swap.
  - apply Hw, spent_release. destruct again; auto with hand.
  - apply Hw, spent_release. destruct again; auto with hand.
  - unfold DediAcceptTask_callback, RegisterAcceptTask. apply (spent_register (RqAccept t) sqe1); [by constructor|].
    destruct (result <? 0); auto with hand.
  - unfold H2SAcceptTask_callback, RegisterAcceptTask. destruct (result <? 0).
    + apply (spent_weaken (true && sqe2)); [by intros [_ ->]%andb_true_iff|].
      apply (spent_register (RqHttpAccept t)); [by constructor|auto with hand].
    + apply Hw, spent_release. destruct again; auto with hand.
Qed.

Lemma io_step_spent out io e : in_hand out io -> spent (granted e) out (io_step io e).
Proof.
  intros H. destruct e as [sqe|sqe|i c]; cbn [io_step granted].
  - pose proof (hand_acquire TSendBuffer out io H) as H1. destruct (acquire TSendBuffer io) as [b io1]. unfold D2CSession_Send.
    pose proof (hand_acquire TD2CSend _ io1 H1) as H2. destruct (acquire TD2CSend io1) as [t io2].
    apply (spent_register (RqSendMsg t b) true); [by repeat constructor|by apply spent_none].
  - pose proof (hand_acquire TSendBuffer out io H) as H1. destruct (acquire TSendBuffer io) as [b io1]. unfold Session_Send.
    pose proof (hand_acquire TIPCSend _ io1 H1) as H2. destruct (acquire TIPCSend io1) as [t io2]. apply spent_none.
    destruct sqe; [by apply hand_submit|]. apply hand_release, hand_release. by rewrite perm_swap.
  - destruct (submitted io !! i) as [q|] eqn:Eq; [|by apply spent_none]. by apply complete_task_spent, hand_complete.
Qed.
Lemma io_run_spent es ok out io : spent ok out io -> spent (ok && forallb granted es) out (io_run es io).
Proof.
  unfold io_run. revert ok io. induction es as [|e es IH]; intros ok io H; cbn [foldl forallb]; [by rewrite andb_true_r|].
  rewrite andb_assoc. apply IH. destruct H as (lost & H & Hok & Hf).
  destruct (io_step_spent _ io e H) as (lost' & H' & Hok' & Hf'). exists (lost' ++ lost). rewrite <- app_assoc. split; [done|].
  split; [|by apply Forall_app]. intros [H1 H2]%andb_true_iff. by rewrite (Hok H1), (Hok' H2).
Qed.
Lemma io_boot_hand dedicated : in_hand [] (io_boot dedicated).
Proof. intros k. destruct dedicated, k; vm_compute; reflexivity. Qed.

(** *** How many requests of a type there are *)

Definition posted (k : Pooled) (io : Io) : nat := length (in_use k io).

Lemma posted_submit k q io : posted k (submit q io) = (posted k io + length (of_type k (objects q)))%nat.
Proof.
  unfold posted, in_use, submit. cbn [setf submitted]. rewrite held_app, of_type_app, length_app. cbn [held flat_map].
  by rewrite app_nil_r.
Qed.
Lemma posted_complete k i q io : submitted io !! i = Some q ->
  posted k io = (posted k (io <| submitted ::= delete i |>) + length (of_type k (objects q)))%nat.
Proof. intros H. unfold posted, in_use. cbn [setf submitted]. rewrite (held_delete _ _ _ H), of_type_app, length_app. lia. Qed.
Lemma posted_same k io io' : submitted io' = submitted io -> posted k io' = posted k io.
Proof. unfold posted, in_use. by intros ->. Qed.
Lemma submitted_acquire k io : submitted (snd (acquire k io)) = submitted io.
Proof. unfold acquire. by destruct (Acquire _). Qed.
Lemma handled_acquire k io : handled (snd (acquire k io)) = handled io.
Proof. unfold acquire. by destruct (Acquire _). Qed.
(** A request with a new object. *)
Lemma posted_post k k' (q : nat -> Request) (sqe : bool) io : (forall x, objects (q x) = [(k', x)]) ->
  let io' : Io := let '(x, io1) := acquire k' io in if sqe then submit (q x) io1 else io1 in
  posted k io' = (posted k io + (if decide (k' = k) then Nat.b2n sqe else 0))%nat /\ handled io' = handled io.
Proof.
  intros Hq. pose proof (submitted_acquire k' io) as Hs. pose proof (handled_acquire k' io) as Hh.
  destruct (acquire k' io) as [x io1]. cbn [snd] in *. cbn zeta. rewrite <- (posted_same k io io1 Hs), <- Hh. destruct sqe.
  - split; [|done]. rewrite posted_submit, Hq, of_type_cons, length_app. by destruct (decide (k' = k)).
  - split; [|done]. destruct (decide (k' = k)); cbn; lia.
Qed.
Lemma post_recv_posted k sqe io :
  posted k (post_recv io sqe) = (posted k io + (if decide (TD2CRecv = k) then Nat.b2n sqe else 0))%nat /\ handled (post_recv io sqe) = handled io.
Proof. by apply (posted_post k TD2CRecv RqRecvMsg). Qed.
Lemma Session_Recv_posted k sqe io :
  posted k (Session_Recv sqe io) = (posted k io + (if decide (TDediRecv = k) then Nat.b2n sqe else 0))%nat /\ handled (Session_Recv sqe io) = handled io.
Proof. by apply (posted_post k TDediRecv RqRead). Qed.
Lemma HttpIPCSession_Recv_posted k sqe io :
  posted k (HttpIPCSession_Recv sqe io) = (posted k io + (if decide (TH2SRead = k) then Nat.b2n sqe else 0))%nat /\
  handled (HttpIPCSession_Recv sqe io) = handled io.
Proof. by apply (posted_post k TH2SRead RqHttpRead). Qed.

(** What a callback does to the requests of a type, and to the datagrams handled. *)
Lemma complete_task_quiet k q c io : k = TD2CRecv \/ k = TDediAccept -> (forall t, q <> RqRecvMsg t) ->
  posted k (complete_task q c io) = (posted k io + match q with RqAccept _ => if decide (TDediAccept = k) then Nat.b2n (cp_sqe2 c) else 0 | _ => 0 end)%nat /\
  handled (complete_task q c io) = handled io.
Proof.
  intros Hk Hq. destruct c as [d again result sqe1 sqe2].
  destruct (Session_Recv_posted k sqe1 io) as [S1 S2], (HttpIPCSession_Recv_posted k sqe1 io) as [T1 T2].
  destruct q as [t|t b|t b|t|t|t|t]; [by destruct (Hq t)|..];
    cbn [complete_task cp_datagram cp_again cp_result cp_sqe1 cp_sqe2].
  - rewrite Nat.add_0_r. by split.
  - rewrite Nat.add_0_r. by split.
  - unfold DediRecvTask_callback. split; [|by destruct again]. rewrite Nat.add_0_r.
    rewrite (posted_same k (if again then _ else io)) by done. destruct again; [|done].
    rewrite S1, decide_False by (by intros <-; destruct Hk). lia.
  - unfold H2SReadTask_callback. split; [|by destruct again]. rewrite Nat.add_0_r.
    rewrite (posted_same k (if again then _ else io)) by done. destruct again; [|done].
    rewrite T1, decide_False by (by intros <-; destruct Hk). lia.
  - unfold DediAcceptTask_callback, RegisterAcceptTask. set (io1 := if result <? 0 then io else Session_Recv sqe1 io).
    assert (E1 : posted k io1 = posted k io /\ handled io1 = handled io).
    { unfold io1. destruct (result <? 0); [done|]. split; [|done]. rewrite S1, decide_False by (by intros <-; destruct Hk). lia. }
    destruct E1 as [<- <-]. destruct sqe2; (split; [|done]).
    + rewrite posted_submit. cbn [objects]. rewrite of_type_cons, length_app. by destruct (decide (TDediAccept = k)).
    + by destruct (decide (TDediAccept = k)); cbn [Nat.b2n]; rewrite Nat.add_0_r.
  - unfold H2SAcceptTask_callback, RegisterAcceptTask. destruct (result <? 0).
    + destruct sqe2; (split; [|done]); [|lia]. rewrite posted_submit. cbn [objects].
      by rewrite of_type_cons, decide_False by (by intros <-; destruct Hk).
    + split; [|by destruct again]. rewrite Nat.add_0_r. rewrite (posted_same k (if again then _ else io)) by done.
      destruct again; [|done]. rewrite T1, decide_False by (by intros <-; destruct Hk). lia.
Qed.

(** *** Receives and accepts *)

(** The receives that come back with nothing: a negative result or an empty datagram. *)
Definition wastes (io : Io) (e : IoEvent) : bool :=
  match e with
  | IoComplete i c =>
      match submitted io !! i, cp_datagram c with Some (RqRecvMsg _), (None | Some ([], _)) => true | _, _ => false end
  | _ => false
  end.
(** The datagrams a client's packet can be in, as long as one is received. *)
Definition arrival (io : Io) (e : IoEvent) : list (list Z * sockaddr_in) :=
  match e with
  | IoComplete i c =>
      match submitted io !! i, cp_datagram c with
      | Some (RqRecvMsg _), Some (bytes, clientAddr) =>
          let d := take RECV_BUFFER_SIZE bytes in if Z.of_nat (length d) <? UDP_HEADER_SIZE then [] else [(d, clientAddr)]
      | _, _ => []
      end
  | _ => []
  end.
Fixpoint wasted (es : list IoEvent) (io : Io) : nat :=
  match es with [] => 0 | e :: es' => Nat.b2n (wastes io e) + wasted es' (io_step io e) end.
Fixpoint arrived (es : list IoEvent) (io : Io) : list (list Z * sockaddr_in) :=
  match es with [] => [] | e :: es' => arrival io e ++ arrived es' (io_step io e) end.

Lemma send_posted k e io : match e with IoComplete _ _ => False | _ => True end -> k = TD2CRecv \/ k = TDediAccept ->
  posted k (io_step io e) = posted k io /\ handled (io_step io e) = handled io.
Proof.
  intros He Hk. destruct e as [sqe|sqe|]; [| |done]; cbn [io_step].
  - pose proof (submitted_acquire TSendBuffer io) as Hs. pose proof (handled_acquire TSendBuffer io) as Hh.
    destruct (acquire TSendBuffer io) as [b io1]. cbn [snd] in *. rewrite <- (posted_same k io io1 Hs), <- Hh.
    pose proof (submitted_acquire TD2CSend io1) as Hs1. pose proof (handled_acquire TD2CSend io1) as Hh1. unfold D2CSession_Send.
    destruct (acquire TD2CSend io1) as [t io2]. cbn [snd] in *. rewrite <- (posted_same k io1 io2 Hs1), <- Hh1.
    destruct sqe; [|done]. split; [|done]. unfold RegisterSendMsg.
    rewrite posted_submit, of_type_none by (destruct Hk as [-> | ->]; by repeat constructor).
    cbn [length]. lia.
  - pose proof (submitted_acquire TSendBuffer io) as Hs. pose proof (handled_acquire TSendBuffer io) as Hh.
    destruct (acquire TSendBuffer io) as [b io1]. cbn [snd] in *. rewrite <- (posted_same k io io1 Hs), <- Hh.
    pose proof (submitted_acquire TIPCSend io1) as Hs1. pose proof (handled_acquire TIPCSend io1) as Hh1. unfold Session_Send.
    destruct (acquire TIPCSend io1) as [t io2]. cbn [snd] in *. rewrite <- (posted_same k io1 io2 Hs1), <- Hh1.
    destruct sqe; [|done]. split; [|done]. unfold RegisterIPCSendTask.
    rewrite posted_submit, of_type_none by (destruct Hk as [-> | ->]; by repeat constructor).
    cbn [length]. lia.
Qed.

Lemma io_step_received io e :
  handled (io_step io e) = handled io ++ arrival io e /\
  (posted TD2CRecv (io_step io e) + Nat.b2n (wastes io e) <= posted TD2CRecv io)%nat /\
  (granted e = true -> (posted TD2CRecv (io_step io e) + Nat.b2n (wastes io e) = posted TD2CRecv io)%nat).
Proof.
  destruct e as [sqe|sqe|i c]; cbn [wastes arrival granted Nat.b2n]; rewrite ?app_nil_r.
  { destruct (send_posted TD2CRecv (IoPacket sqe) io I ltac:(by left)) as [-> ->]. split; [done|lia]. }
  { destruct (send_posted TD2CRecv (IoMessage sqe) io I ltac:(by left)) as [-> ->]. split; [done|lia]. }
  cbn [io_step]. destruct (submitted io !! i) as [q|] eqn:Eq; [|rewrite app_nil_r; cbn; split; [done|lia]].
  pose proof (posted_complete TD2CRecv i q io Eq) as Hp. set (io1 := io <| submitted ::= delete i |>) in *.
  assert (Hh : handled io1 = handled io) by done. clearbody io1. rewrite <- Hh, Hp. clear Hp Hh Eq io.
  assert (Hd : (exists t, q = RqRecvMsg t) \/ forall t, q <> RqRecvMsg t) by (destruct q; [left; by eexists|right; done..]).
  destruct Hd as [[t ->]|Hq].
  - destruct c as [d again result sqe1 sqe2]. cbn [complete_task cp_datagram cp_sqe1 cp_sqe2].
    assert (E0 : length (of_type TD2CRecv (objects (RqRecvMsg t))) = 1%nat) by done. rewrite E0. unfold D2CRecvTask_callback.
    destruct d as [[[|x l] addr]|]; cbn [Nat.b2n];
      [rewrite (posted_same _ io1), app_nil_r by done; split;
        [done|lia]| |rewrite (posted_same _ io1), app_nil_r by done; split; [done|lia]].
    set (dg := take RECV_BUFFER_SIZE (x :: l)). clearbody dg. unfold OnRecvComplete. cbn [PumpRecvTasks foldl].
    set (io2 := if Z.of_nat (length dg) <? UDP_HEADER_SIZE then io1 else io1 <| handled ::= fun k => k ++ [(dg, addr)] |>).
    assert (E2 : posted TD2CRecv io2 = posted TD2CRecv io1) by (unfold io2; by case_match).
    destruct (post_recv_posted TD2CRecv sqe1 io2) as [P1 P2].
    change (handled (release TD2CRecv t (post_recv io2 sqe1))) with (handled (post_recv io2 sqe1)).
    change (posted TD2CRecv (release TD2CRecv t (post_recv io2 sqe1))) with (posted TD2CRecv (post_recv io2 sqe1)).
    rewrite P1, P2, E2. rewrite decide_True by done. split; [unfold io2;
      destruct (Z.of_nat (length dg) <? UDP_HEADER_SIZE); by rewrite ?app_nil_r|].
    destruct sqe1; cbn; [lia|split; [lia|done]].
  - destruct (complete_task_quiet TD2CRecv q c io1 ltac:(by left) Hq) as [-> ->].
    assert (E0 : match q with RqAccept _ => if decide (TDediAccept = TD2CRecv) then Nat.b2n (cp_sqe2 c) else 0%nat | _ => 0%nat end = 0%nat)
      by (by destruct q).
    rewrite E0, (of_type_none TD2CRecv (objects q)) by (destruct q; [by destruct (Hq task)|..]; by repeat constructor).
    destruct q; [by destruct (Hq task)|..]; cbn [Nat.b2n length]; rewrite app_nil_r; (split; [done|lia]).
Qed.
Lemma io_run_received es io :
  handled (io_run es io) = handled io ++ arrived es io /\
  (posted TD2CRecv (io_run es io) + wasted es io <= posted TD2CRecv io)%nat /\
  (forallb granted es = true -> (posted TD2CRecv (io_run es io) + wasted es io = posted TD2CRecv io)%nat).
Proof.
  unfold io_run. revert io. induction es as [|e es IH]; intros io; cbn [foldl wasted arrived forallb];
    [rewrite app_nil_r; (split; [done|]); lia|].
  destruct (io_step_received io e) as (S1 & S2 & S3), (IH (io_step io e)) as (R1 & R2 & R3). rewrite R1, S1, <- app_assoc.
  split_and!; [done|lia|]. intros [H1 H2]%andb_true_iff. specialize (S3 H1). specialize (R3 H2). lia.
Qed.
Lemma deaf es io : posted TD2CRecv io = 0%nat -> arrived es io = [].
Proof.
  revert io. induction es as [|e es IH]; intros io H; [done|]. cbn [arrived]. rewrite IH.
  - rewrite app_nil_r. destruct e as [| |i c]; cbn [arrival]; try done. destruct (submitted io !! i) as [q|] eqn:Eq; [|done].
    apply (posted_complete TD2CRecv) in Eq. destruct q; try done. rewrite H in Eq. cbn [objects] in Eq.
    rewrite of_type_cons, length_app in Eq.
    cbn [length decide] in Eq. rewrite decide_True in Eq by done. cbn in Eq. lia.
  - destruct (io_step_received io e) as (_ & S2 & _). lia.
Qed.

(** With its requests granted the main process goes on accepting. *)
Lemma io_step_accepts io e : granted e = true -> posted TDediAccept (io_step io e) = posted TDediAccept io.
Proof.
  intros Hg. destruct e as [sqe|sqe|i c].
  1-2: by apply send_posted; [|right].
  cbn [io_step]. destruct (submitted io !! i) as [q|] eqn:Eq; [|done]. rewrite (posted_complete TDediAccept i q io Eq).
  set (io1 := io <| submitted ::= delete i |>). apply andb_true_iff in Hg as [G1 G2].
  assert (Hd : (exists t, q = RqRecvMsg t) \/ forall t, q <> RqRecvMsg t) by (destruct q; [left; by eexists|right; done..]).
  destruct Hd as [[t ->]|Hq].
  - cbn [complete_task objects]. rewrite of_type_cons, decide_False by done. cbn [of_type omap list_omap length app].
    rewrite Nat.add_0_r.
    unfold D2CRecvTask_callback, OnRecvComplete. cbn [PumpRecvTasks foldl].
    destruct (cp_datagram c) as [[[|x l] addr]|]; [done| |done].
    match goal with |- posted _ (release _ _ (post_recv ?x _)) = _ => set (io2 := x) end.
    change (posted TDediAccept (post_recv io2 (cp_sqe1 c)) = posted TDediAccept io1).
    rewrite (proj1 (post_recv_posted TDediAccept _ io2)), decide_False, Nat.add_0_r by done. unfold io2. by case_match.
  - rewrite (proj1 (complete_task_quiet TDediAccept q c io1 ltac:(by right) Hq)). f_equal. rewrite G2.
    destruct q; cbn [objects]; rewrite ?of_type_cons; done.
Qed.
Theorem accepts_go_on es : forallb granted es = true -> posted TDediAccept (io_run es io_main) = 1%nat.
Proof.
  assert (H : forall io, forallb granted es = true -> posted TDediAccept (io_run es io) = posted TDediAccept io);
    [|intros Hg; by rewrite (H io_main Hg)].
  unfold io_run. induction es as [|e l IH]; intros io Hg; [done|]. cbn [forallb] in Hg. apply andb_true_iff in Hg as [G1 G2].
  cbn [foldl]. by rewrite IH, io_step_accepts.
Qed.

(** ** Theorems *)

(** C35. Whatever the kernel does and in whatever order, in a dedicated process and in the main
    process: no task and no buffer is in two requests, nor given out again while it is
    in one; as long as the kernel has an entry for every request, whatever is not in a
    request is back in its pool, and the tasks of messages between the processes
    always are. *)
Theorem objects_in_hand es dedicated : let io := io_run es (io_boot dedicated) in
  (forall k, NoDup (in_use k io ++ _instance (pools io k))) /\
  pool_ok (in_use TIPCSend io) (pools io TIPCSend) /\
  (forallb granted es = true -> forall k, pool_ok (in_use k io) (pools io k)).
Proof.
  cbn zeta. destruct (io_run_spent es true [] _ (spent_none true _ _ (io_boot_hand dedicated))) as (lost & H & Hok & Hl).
  set (io := io_run es (io_boot dedicated)) in *. rewrite app_nil_r in H.
  assert (Hk : forall k, pool_ok (in_use k io ++ of_type k lost) (pools io k)) by (intros k; unfold in_use;
    rewrite <- of_type_app; apply H).
  split_and!.
  - intros k. specialize (Hk k). assert (Hn : NoDup ((in_use k io ++ of_type k lost) ++ _instance (pools io k))) by (rewrite Hk; apply NoDup_seq).
    rewrite (Permutation_app_comm (in_use k io)), <- app_assoc in Hn. apply list.NoDup_app in Hn. tauto.
  - specialize (Hk TIPCSend). by rewrite (of_type_none TIPCSend lost Hl), app_nil_r in Hk.
  - intros Hg k. specialize (Hk k). by rewrite (Hok Hg), app_nil_r in Hk.
Qed.

(** C9. The ten receives of the UDP socket: every datagram long enough for a header is handled,
    in the order of completion, while there is a receive for it; a datagram with at
    least a byte is followed by a new receive, but one that is empty, or an error,
    costs a receive for good, and after ten of these the process hears no client any
    more. *)
Theorem empty_datagrams_deafen es : let io := io_run es io_start in
  handled io = arrived es io_start /\
  (forallb granted es = true -> (posted TD2CRecv io + wasted es io_start = 10)%nat) /\
  (wasted es io_start = 10%nat -> forall es', handled (io_run (es ++ es') io_start) = handled io).
Proof.
  cbn zeta. destruct (io_run_received es io_start) as (R1 & R2 & R3). split_and!; [done|done|]. intros Hw es'.
  unfold io_run. rewrite foldl_app. destruct (io_run_received es' (io_run es io_start)) as (R4 & _). unfold io_run in R4.
  rewrite R4.
  rewrite deaf; [by rewrite app_nil_r|]. change (posted TD2CRecv io_start) with 10%nat in R2. unfold io_run in R2. lia.
Qed.

(** ** Witnesses *)

(** A packet is sent, a datagram and the end of the send come back; then ten empty
    datagrams, and what comes after them is not heard. *)
Definition datagram (d : option (list Z * sockaddr_in)) : Completion := mk_completion d false 0 true true.
Definition sample_io : list IoEvent :=
  [IoPacket true; IoComplete 2 (datagram (Some (replicate 40 7, mk_sockaddr 1 2))); IoComplete 11 (datagram None);
   IoComplete 0 (datagram None); IoComplete 0 (mk_completion None true 0 true true)].
Definition empty_datagrams : list IoEvent := replicate 10 (IoComplete 0 (datagram (Some ([], mk_sockaddr 3 4)))).

Lemma objects_in_hand_witness : let io := io_run sample_io (io_boot true) in
  (forall k, pool_ok (in_use k io) (pools io k)) /\ in_use TD2CRecv io = [1; 2; 3; 4; 5; 6; 7; 8; 9; 10]%nat /\
  in_use TSendBuffer io = [] /\ p_made (pools io TSendBuffer) = 2%nat.
Proof.
  intros io. destruct (objects_in_hand sample_io true) as (_ & _ & H). split; [exact (H eq_refl)|].
  split; [vm_compute; reflexivity|]. split; vm_compute; reflexivity.
Defined.
Lemma empty_datagrams_deafen_witness :
  map fst (handled (io_run (sample_io ++ empty_datagrams) io_start)) = [replicate 40 7] /\
  handled (io_run ((sample_io ++ empty_datagrams) ++ sample_io) io_start) = handled (io_run (sample_io ++ empty_datagrams) io_start).
Proof.
  destruct (empty_datagrams_deafen (sample_io ++ empty_datagrams)) as (_ & _ & H).
  split; [vm_compute; reflexivity|]. apply H. vm_compute. reflexivity.
Defined.
