(* ===== verification/Ipc.v ===== *)
(** * Messages between the processes

    Models the packet ids, the handler table and [HandlePacket] of src/src/PacketHandler.h,
    the handlers of PacketHandler.cpp as the table calls them in the main process and
    in a dedicated one, and the session of a connection that has not said yet which
    process it is ([M2DTempSession] of M2DSessions.cpp).  The streams and frames are those of
    Buffers.v.

    protobuf is the class [Ipc].  Its law is what proto3 promises: a message whose integers
    are in the width of their fields and whose strings are text (ASCII is enough
    here) is parsed from what it was serialised to. *)

From S2P Require Import Prelude Items MapData Buffers Protocol Session Room Handlers Calm Safety Rooms Stores Main Matchmaker DBProxy Service Process Groups.
From Stdlib Require Import Ascii.
From stdpp Require Import strings.
Local Open Scope Z_scope.

(** ** Messages *)

Inductive IpcMessage :=
| M2HWelcome (echo_message : Z)
| H2MWelcome (echo_message : Z)
| H2MMatchMake (ticket_redis_key : string)
| H2MMatchMakeCancel (ticket_redis_key : string)
| H2M2DBindClientIpToSession (token ip : string)
| D2MInitComplete (pid : Z)
| M2DMakeRoom (pkt : M2DMakeRoomForThisGroup)
| D2MTokens (pkt : D2MUpdateEntryToken)
| D2MLeft (pkt : D2MNotifyPlayerLeft)
| D2MRoomDestroyed (room_id player_count : Z).

Definition packet_id (m : IpcMessage) : Z :=
  match m with
  | M2HWelcome _ => 0 | H2MWelcome _ => 1 | H2MMatchMake _ => 2 | H2MMatchMakeCancel _ => 3
  | H2M2DBindClientIpToSession _ _ => 4 | D2MInitComplete _ => 100 | M2DMakeRoom _ => 101
  | D2MTokens _ => 102 | D2MLeft _ => 103 | D2MRoomDestroyed _ _ => 104
  end.

(** Fields in their width, strings of text. *)
Definition i32b (z : Z) : bool := (- 2 ^ 31 <=? z) && (z <? 2 ^ 31).
Definition u32b (z : Z) : bool := (0 <=? z) && (z <? 2 ^ 32).
Definition text (s : string) : bool := forallb (fun c => (nat_of_ascii c <? 128)%nat) (String.list_ascii_of_string s).
Definition slot_in_range (s : ItemSlot) : bool := u32b (is_item_id s) && i32b (is_slot_index s) && i32b (is_quantity s).
Definition info_in_range (i : PlayerInfo) : bool :=
  text (pi_ticket_id i) && i32b (pi_uid i) && text (pi_user_id i) && i32b (pi_rating i) &&
  forallb slot_in_range (pi_inventory_items i) && forallb slot_in_range (pi_equipment_items i) && i32b (pi_character_type i).
Definition in_range (m : IpcMessage) : bool :=
  match m with
  | M2HWelcome z | H2MWelcome z | D2MInitComplete z => i32b z
  | H2MMatchMake s | H2MMatchMakeCancel s => text s
  | H2M2DBindClientIpToSession t ip => text t && text ip
  | M2DMakeRoom p => i32b (mr_map_id p) && forallb info_in_range (mr_player_infos p)
  | D2MTokens p => i32b (ut_size p) && i32b (ut_port p) && forallb text (ut_ticket_ids p) && forallb i32b (ut_session_ids p) &&
                   forallb text (ut_entry_tokens p) && forallb i32b (ut_security_keys p)
  | D2MLeft p => i32b (pl_uid p) && forallb slot_in_range (pl_inventory p) && forallb slot_in_range (pl_equipment p)
  | D2MRoomDestroyed r n => i32b r && i32b n
  end.

Class Ipc := {
  ipc_serialize : IpcMessage -> list Z;
  ipc_parse : Z -> list Z -> option IpcMessage }.
Class IpcLaws (I : Ipc) : Prop := {
  ipc_roundtrip m : in_range m = true -> ipc_parse (packet_id m) (ipc_serialize m) = Some m;
  ipc_typed id b m : ipc_parse id b = Some m -> packet_id m = id }.

(** The ids [Init] gives a handler; the table has [UINT16_MAX] entries. *)
Definition registered (id : Z) : bool := existsb (Z.eqb id) [1; 2; 3; 4; 100; 101; 102; 103; 104].
Definition TABLE_SIZE : Z := 65535.

Section packets.
Context {I : Ipc}.

(** [PacketHandler::MakeSendBuffer]. *)
Definition MakeSendBuffer (m : IpcMessage) : list Z := frame (packet_id m) (ipc_serialize m).

(** The entry of the table for a message: [ParseFromArray], then the handler. *)
Definition parse_and_handle {W} (handlers : IpcMessage -> EX W bool) (id : Z) (payload : list Z) : EX W bool :=
  match ipc_parse id payload with
  | None => mret false
  | Some m => handlers m
  end.
(** [PacketHandler::HandlePacket] with the handlers of a process. *)
Definition HandlePacket {W} (handlers : IpcMessage -> EX W bool) (bytes : list Z) : EX W bool :=
  let id := ph_id (decode_header bytes) in
  if TABLE_SIZE <=? id then throw Undefined
  else if negb (registered id) then mret false   (* Handle_Invalid *)
  else parse_and_handle handlers id (drop 4 bytes).

(** A process that reads packets: an exception no handler catches ends it, and nothing
    happens in it any more. *)
Definition in_process {W} (handle : list Z -> EX W bool) (bytes : list Z) : ST (option Exn * W) bool := fun '(dead, w) =>
  match dead with
  | Some _ => (true, (dead, w))
  | None => match handle bytes w with
            | (inl e, w') => (true, (Some e, w'))
            | (inr ok, w') => (ok, (None, w'))
            end
  end.
End packets.

(** ** The main process *)

Section main.
Context {I : Ipc} {R : Redis} {M : Mysql} {E : MainEnv}.
Local Abbreviation Mn := (Main R M).

(** The session a packet comes from: that of the HTTP server or of a dedicated process. *)
Inductive Peer := HttpPeer (fd : Z) | DediPeer (pid fd : Z).
Definition GetFd (p : Peer) : Z := match p with HttpPeer fd | DediPeer _ fd => fd end.
Definition peer_pid (p : Peer) : option Z := match p with HttpPeer _ => None | DediPeer pid _ => Some pid end.

(** The main process has no [pDediServer]. *)
Definition handlers_main (peer : Peer) (m : IpcMessage) : EX Mn bool :=
  match m with
  | M2HWelcome _ => mret false
  | H2MWelcome _ => mret true
  | H2MMatchMake key => Handle_H2M_MatchMake key
  | H2MMatchMakeCancel key => Handle_H2M_MatchMakeCancel key
  | H2M2DBindClientIpToSession token ip =>
      match peer with
      | HttpPeer _ => _ ← BindClientIpToSession token ip; mret true
      | DediPeer _ _ => mret false
      end
  | D2MInitComplete _ => mret true
  | M2DMakeRoom _ => mret false
  | D2MTokens pkt => Handle_D2M_UpdateEntryToken (GetFd peer) pkt
  | D2MLeft pkt => Handle_D2M_NotifyPlayerLeft (GetFd peer) pkt
  | D2MRoomDestroyed _ player_count => Handle_D2M_NotifyRoomDestroyed (peer_pid peer) player_count
  end.
Definition read_main (peer : Peer) : list Z -> ST (option Exn * Mn) bool := in_process (HandlePacket (handlers_main peer)).
(** The sessions' [OnReadComplete]. *)
Definition HttpIPCSession_OnReadComplete (fd : Z) : list Z -> @StreamSession (option Exn * Mn) -> option StreamSession :=
  OnReadComplete (read_main (HttpPeer fd)).
Definition M2DSession_OnReadComplete (pid fd : Z) : list Z -> @StreamSession (option Exn * Mn) -> option StreamSession :=
  OnReadComplete (read_main (DediPeer pid fd)).

(** *** A connection that has not said who it is

    What is left of the session after a read: it reads on, it waits for nothing, it has
    handed its socket to the session of a process, or it is gone and its socket closed. *)
Inductive TempSession := TempReads (r : RecvBuffer) | TempSilent | TempPromoted | TempClosed.

(** [OnReadComplete]; [[]] is the end of the stream, after which no read is registered. A frame shorter than its header has no payload to parse. *)
Definition Temp_OnReadComplete (fd : Z) (bytes : list Z) (r : RecvBuffer) : EX Mn TempSession :=
  let r' := OnRead bytes r in
  match bytes with
  | [] => mret TempSilent
  | _ =>
      if DataSize r' <? PACKET_HEADER_SIZE then mret (TempReads r')
      else
        let header := decode_header (pending_bytes r') in
        if DataSize r' <? ph_size header then mret (TempReads r')
        else if ph_size header <? PACKET_HEADER_SIZE then throw Undefined
        else match ipc_parse 100 (take (Z.to_nat (ph_size header - PACKET_HEADER_SIZE)) (drop 4 (pending_bytes r'))) with
             | Some (D2MInitComplete childPid) => fun m =>
                 let '(ok, m') := FinalizeConnection childPid fd m in (inr (if ok then TempPromoted else TempClosed), m')
             | _ => mret TempClosed
             end
  end.
(** The reads of a session, one after the other, while it reads. *)
Fixpoint Temp_feed (fd : Z) (chunks : list (list Z)) (t : TempSession) : EX Mn TempSession :=
  match chunks, t with
  | c :: chunks', TempReads r => t' ← Temp_OnReadComplete fd c r; Temp_feed fd chunks' t'
  | _, _ => mret t
  end.
End main.

(** ** A dedicated process *)

Section dedicated.
Context {I : Ipc} {E : External} {G : Rng} {Y : System}.

(** A dedicated process has neither Redis nor a queue of requests: the handlers that
    use them are not for it.  [Undefined] is also a search for a token without end. *)
Definition handlers_dedi (m : IpcMessage) : EX Service bool :=
  match m with
  | M2HWelcome _ => mret false
  | H2MWelcome _ | H2MMatchMakeCancel _ | D2MInitComplete _ => mret true
  | H2MMatchMake _ | D2MLeft _ => throw Undefined
  | H2M2DBindClientIpToSession token ip => fun sv => (inr true, snd (Handle_H2M2D_BCITSpkt token ip sv))
  | M2DMakeRoom pkt => fun sv =>
      match MakeRoomForThisGroup pkt sv with Some (ok, sv') => (inr ok, sv') | None => (inl Undefined, sv) end
  | D2MTokens pkt => if ut_size pkt =? -1 then mret false else if ut_size pkt <? 0 then throw StdException else throw Undefined
  | D2MRoomDestroyed _ _ => mret false
  end.
Definition read_dedi : list Z -> ST (option Exn * Service) bool := in_process (HandlePacket handlers_dedi).
Definition D2MSession_OnReadComplete : list Z -> @StreamSession (option Exn * Service) -> option StreamSession := OnReadComplete read_dedi.
End dedicated.

(** ** Lemmas: packets through a stream *)

Section delivery.
Context {I : Ipc} {LI : IpcLaws I}.

(** A message that survives the wire: its fields fit and so does its frame. *)
Definition fits (m : IpcMessage) : Prop :=
  in_range m = true /\ Z.of_nat (length (ipc_serialize m)) + PACKET_HEADER_SIZE < 2 ^ 16.

Lemma ipc_id_range m : is_u16 (packet_id m).
Proof. unfold is_u16. by destruct m. Qed.
Lemma MakeSendBuffer_frame m : fits m -> Buffers.frame_ok (MakeSendBuffer m).
Proof. intros [_ Hl]. by apply frame_frame_ok; [apply ipc_id_range|]. Qed.
Lemma HandlePacket_sent {W} (handlers : IpcMessage -> EX W bool) m : fits m -> packet_id m <> 0 ->
  HandlePacket handlers (MakeSendBuffer m) = handlers m.
Proof.
  intros [Hr Hl] H0. destruct (frame_frame_ok (packet_id m) (ipc_serialize m) (ipc_id_range m) Hl) as (_ & Hh & Hd).
  unfold HandlePacket, parse_and_handle, MakeSendBuffer. rewrite Hh, Hd. cbn [ph_id]. rewrite ipc_roundtrip by done. by destruct m.
Qed.

(** What the frames do when no handler throws or refuses. *)
Fixpoint all_handled {W} (handlers : IpcMessage -> EX W bool) (ms : list IpcMessage) (w w' : W) : Prop :=
  match ms with
  | [] => w' = w
  | m :: ms' => exists w1, handlers m w = (inr true, w1) /\ all_handled handlers ms' w1 w'
  end.
Lemma frames_handled {W} (handlers : IpcMessage -> EX W bool) ms w w' :
  Forall fits ms -> Forall (fun m => packet_id m <> 0) ms -> all_handled handlers ms w w' ->
  Buffers.accepted (in_process (HandlePacket handlers)) (map MakeSendBuffer ms) (None, w) /\
  handle_all (in_process (HandlePacket handlers)) (map MakeSendBuffer ms) (None, w) = (None, w').
Proof.
  intros Hf H0. revert w. induction ms as [|m ms IH]; intros w Hall; cbn [all_handled map] in *; [by subst|].
  destruct Hall as (w1 & Hm & Hall). apply Forall_cons in Hf as [Hf1 Hf], H0 as [H01 H0].
  assert (Hstep : in_process (HandlePacket handlers) (MakeSendBuffer m) (None, w) = (true, (None, w1))).
  { unfold in_process. by rewrite HandlePacket_sent, Hm. }
  cbn [Buffers.accepted]. unfold exec. rewrite Hstep. cbn [fst snd].
  change (handle_all (in_process (HandlePacket handlers)) (MakeSendBuffer m :: map MakeSendBuffer ms) (None, w)) with
    (handle_all (in_process (HandlePacket handlers)) (map MakeSendBuffer ms) (snd (in_process (HandlePacket handlers) (MakeSendBuffer m) (None, w)))).
  rewrite Hstep. cbn [snd]. destruct (IH Hf H0 w1 Hall) as [I1 I2]. done.
Qed.

Lemma all_handled_app {W} (handlers : IpcMessage -> EX W bool) ms ms' w w' :
  all_handled handlers (ms ++ ms') w w' <-> exists w1, all_handled handlers ms w w1 /\ all_handled handlers ms' w1 w'.
Proof.
  revert w. induction ms as [|m ms IH]; intros w; cbn [app all_handled].
  - split; [intros H; by exists w|]. by intros (w1 & -> & H).
  - split.
    + intros (w1 & Hm & (w2 & H1 & H2)%IH). exists w2. eauto.
    + intros (w2 & (w1 & Hm & H1) & H2). exists w1. split; [done|]. apply IH. eauto.
Qed.
Lemma all_handled_det {W} (handlers : IpcMessage -> EX W bool) ms w w1 w2 :
  all_handled handlers ms w w1 -> all_handled handlers ms w w2 -> w1 = w2.
Proof.
  revert w. induction ms as [|m ms IH]; intros w; cbn [all_handled]; [by intros -> ->|].
  intros (x & Hx & H1) (y & Hy & H2). rewrite Hx in Hy. injection Hy as <-. eauto.
Qed.

(** The bytes on the wire, and how many whole messages a number of them makes. *)
Definition wire (ms : list IpcMessage) : list Z := concat (map MakeSendBuffer ms).
Definition whole (ms : list IpcMessage) (bytes n : nat) : Prop :=
  (n <= length ms)%nat /\ (length (wire (take n ms)) <= bytes)%nat /\
  ((n < length ms)%nat -> (bytes < length (wire (take (S n) ms)))%nat).

(** What of a stream of messages has arrived, in the chunks of the kernel. *)
Definition arrived (chunks : list (list Z)) (ms : list IpcMessage) : Prop :=
  Forall (fun c => c <> []) chunks /\ concat chunks `prefix_of` wire ms.

Lemma whole_split ms1 ms2 partial rest : partial ++ rest = wire ms2 -> incomplete partial (map MakeSendBuffer ms2) ->
  whole (ms1 ++ ms2) (length (wire ms1 ++ partial)) (length ms1).
Proof.
  intros Hp Hi. unfold whole. rewrite take_app_length, !length_app. split_and!; [lia|lia|].
  destruct ms2 as [|m ms2]; [cbn; lia|]. intros _. cbn [map incomplete] in Hi.
  replace (S (length ms1)) with (length ms1 + 1)%nat by lia. rewrite take_app_add. cbn [take].
  unfold wire. rewrite map_app, concat_app, length_app. cbn [map concat]. rewrite app_nil_r. lia.
Qed.

(** The messages that have arrived whole are handled when all of them can be. *)
Lemma delivered {W} (handlers : IpcMessage -> EX W bool) ms chunks w w' :
  Forall fits ms -> Forall (fun m => packet_id m <> 0) ms -> all_handled handlers ms w w' ->
  arrived chunks ms -> Z.of_nat (length (concat chunks)) <= _capacity ->
  exists n s' wn, whole ms (length (concat chunks)) n /\ all_handled handlers (take n ms) w wn /\
    feed (in_process (HandlePacket handlers)) chunks (stream_init (None, w)) = Some s' /\ s_app s' = (None, wn) /\
    s_armed s' = Some (_capacity - Z.of_nat (length (concat chunks))).
Proof.
  intros Hf H0 Hall [Hne [rest E]] Hcap. destruct (frames_handled handlers ms w w' Hf H0 Hall) as [Hacc _].
  assert (Hfs : Forall Buffers.frame_ok (map MakeSendBuffer ms)).
  { apply Forall_fmap. eapply Forall_impl; [exact Hf|]. apply MakeSendBuffer_frame. }
  destruct (feed_part (in_process (HandlePacket handlers)) chunks (map MakeSendBuffer ms) rest (stream_init (None, w)))
    as (s' & fs1 & fs2 & H1 & H2 & H3 & H4 & H5 & H6 & H7); try done; [by apply incomplete_init|].
  apply map_eq_app in H2 as (ms1 & ms2 & -> & <- & <-).
  apply Forall_app in Hf as [Hf1 _], H0 as [H01 _]. apply all_handled_app in Hall as (w1 & Hall1 & _).
  destruct (frames_handled handlers ms1 w w1 Hf1 H01 Hall1) as [_ Hres].
  exists (length ms1), s', w1. rewrite take_app_length. split_and!; [|done|done|by rewrite H3, <- Hres|].
  - assert (Hc : concat chunks = wire ms1 ++ pending_bytes (_recvBuffer s')).
    { unfold wire in E. rewrite map_app, concat_app, <- H4, app_assoc in E. by apply app_inv_tail in E. }
    rewrite Hc. eapply whole_split; [exact H4|done].
  - rewrite H6. unfold RecvFreeSize. by rewrite H7.
Qed.
(** No more than a buffer of it is ever read. *)
Lemma undelivered {W} (handlers : IpcMessage -> EX W bool) chunks w : _capacity < Z.of_nat (length (concat chunks)) ->
  feed (in_process (HandlePacket handlers)) chunks (stream_init (None, w)) = None.
Proof.
  intros H. destruct (feed _ chunks _) as [s'|] eqn:E; [|done]. apply stream_buffer_exhausts in E as [E _]. lia.
Qed.
End delivery.

(** ** Theorems *)

(** The reports of a dedicated process as messages, and what they ask of the main process. *)
Definition to_ipc (r : ToMain) : IpcMessage :=
  match r with
  | TmEntryTokens p => D2MTokens p
  | TmLeft p => D2MLeft p
  | TmRoomDestroyed roomId n => D2MRoomDestroyed roomId n
  end.
Definition report_request (fd : Z) (r : ToMain) : option PendingDBRequest :=
  match r with
  | TmEntryTokens p => Some (UpdateEntryTokenRequest fd (ut_ticket_ids p) (ut_session_ids p) (ut_entry_tokens p) (ut_security_keys p) (ut_port p))
  | TmLeft p => Some (NotifyPlayerLeftRequest fd (pl_uid p) (leave_code (pl_leave_reason p))
      (map (table_row INVENTORY_SLOT_INDEX_BEGIN) (pl_inventory p) ++ map (table_row LOADOUT_SLOT_INDEX_BEGIN) (pl_equipment p)))
  | TmRoomDestroyed _ _ => None
  end.
Definition report_players (r : ToMain) : option Z := match r with TmRoomDestroyed _ n => Some n | _ => None end.

(** The commands of the main process to a dedicated one. *)
Definition command (o : MainOut) : IpcMessage :=
  match o with OutMakeRoom _ pkt => M2DMakeRoom pkt | OutBindIp _ token ip => H2M2DBindClientIpToSession token ip end.
Definition completion (o : MainOut) : Completion :=
  match o with OutMakeRoom _ pkt => CqMakeRoom pkt | OutBindIp _ token ip => CqBindIp token ip end.
Definition for_known_map (o : MainOut) : Prop := match o with OutMakeRoom _ pkt => known_map (mr_map_id pkt) | _ => True end.

Section processes.
Context {I : Ipc} {LI : IpcLaws I} {R : Redis} {M : Mysql} {N : MainEnv} {E : External} {L : ExternalLaws E} {G : Rng} {Y : System}.
Local Abbreviation Mn := (Main R M).

(** What reports do to the main process. *)
Definition after_reports (pid fd : Z) (l : list ToMain) (m : Mn) : Mn :=
  m <| _requestQueue ::= fun q => q ++ omap (report_request fd) l |>
    <| _dediSessions ::= alter (fun s => foldl (fun s n => ReleasePlayers n s) s (omap report_players l)) pid |>.

Lemma after_reports_nil pid fd (m : Mn) : after_reports pid fd [] m = m.
Proof. unfold after_reports. cbn. destruct m. cbn. rewrite app_nil_r. f_equal. by apply alter_id. Qed.
Lemma report_handled pid fd r (m : Mn) : consistent r ->
  handlers_main (DediPeer pid fd) (to_ipc r) m = (inr true, after_reports pid fd [r] m).
Proof.
  assert (Hid : forall f : M2DSession -> M2DSession, (forall s, f s = s) -> alter f pid (_dediSessions m) = _dediSessions m).
  { intros f Hf. apply alter_id. intros s _. apply Hf. }
  destruct r as [p|p|roomId n]; cbn [to_ipc handlers_main consistent GetFd peer_pid].
  - intros (H1 & H2 & H3 & H4). unfold Handle_D2M_UpdateEntryToken. rewrite H1, (proj2 (Z.eqb_neq _ _)), (proj2 (Z.ltb_ge _ _)), Nat2Z.id by lia.
    rewrite H2, H3, H4, Nat.leb_refl. cbn [andb]. rewrite !firstn_all2 by lia. unfold after_reports. cbn. f_equal.
    destruct m. cbn in *. by rewrite Hid.
  - intros _. unfold after_reports. cbn. f_equal. destruct m. cbn in *. by rewrite Hid.
  - intros _. unfold after_reports. cbn. f_equal. destruct m. cbn. by rewrite app_nil_r.
Qed.
Lemma after_reports_cons pid fd r l (m : Mn) : after_reports pid fd l (after_reports pid fd [r] m) = after_reports pid fd (r :: l) m.
Proof.
  destruct m. unfold after_reports. cbn. f_equal.
  - rewrite alter_alter_eq. apply alter_ext. intros s _. by destruct (report_players r).
  - destruct (report_request fd r); cbn; by rewrite <- app_assoc.
Qed.
Lemma reports_handled pid fd l (m : Mn) : Forall consistent l ->
  all_handled (handlers_main (DediPeer pid fd)) (map to_ipc l) m (after_reports pid fd l m).
Proof.
  intros Hl. revert m. induction Hl as [|r l Hr Hl IH]; intros m; cbn [map all_handled].
  - apply after_reports_nil.
  - eexists. split; [by apply report_handled|]. rewrite <- (after_reports_cons pid fd r l m). apply IH.
Qed.

(** C11. What a dedicated process reports reaches the main process: whatever passes it goes
    through, its reports are consistent, and when they fit their fields and frames,
    then of what has arrived, cut in any way the kernel likes, exactly the reports
    that are there whole have been handled, in order and once each - the tokens and
    departures as requests at the end of the queue, the places of destroyed rooms
    given back - without a refusal or an exception.  That goes for the first 64 KiB of the
    connection: after each read the main process asks for what is left of them, and
    more than that it never reads. *)
Theorem reports_reach_main ps sv sv' pid fd (m : Mn) :
  main_loop ps sv = Some sv' ->
  exists l, sv_toMain sv' = sv_toMain sv ++ l /\
    forall chunks, Forall fits (map to_ipc l) -> arrived chunks (map to_ipc l) ->
    let bytes := length (concat chunks) in
    let fed := feed (read_main (DediPeer pid fd)) chunks (stream_init (None, m)) in
    if Z.of_nat bytes <=? _capacity then
      exists n s', fed = Some s' /\ whole (map to_ipc l) bytes n /\
        s_app s' = (None, after_reports pid fd (take n l) m) /\
        s_armed s' = Some (_capacity - Z.of_nat bytes)
    else fed = None.
Proof.
  intros Hrun. destruct (ev_reports _ _ (evolves_loop ps sv sv' Hrun)) as (l & El & Hl). exists l. split; [done|].
  intros chunks Hf Ha. cbn zeta. destruct (Z.leb_spec (Z.of_nat (length (concat chunks))) _capacity); [|by apply undelivered].
  destruct (delivered (handlers_main (DediPeer pid fd)) (map to_ipc l) chunks m (after_reports pid fd l m) Hf) as (n & s' & mn & H1 & H2 & H3 & H4 & H5);
    [apply Forall_fmap, Forall_true; by intros []|by apply reports_handled|done|done|].
  exists n, s'. split_and!; try done. rewrite H4. f_equal. rewrite firstn_map in H2.
  eapply all_handled_det; [exact H2|]. apply reports_handled. by apply Forall_take.
Qed.

Lemma MakeRoom_known pkt sv ok sv' : known_map (mr_map_id pkt) -> MakeRoomForThisGroup pkt sv = Some (ok, sv') -> ok = true.
Proof.
  intros Hk. unfold MakeRoomForThisGroup. destruct (make_room_known (mr_map_id pkt) (sv_roomId sv + 1) (sv_now sv) (sv_loot sv) Hk) as (r & d & ->).
  destruct (seat_players _ _ _ _ _) as [[[w c] sv2]|]; [by intros [= <- _]|done].
Qed.
Lemma commands_handled cmds sv sv' : Forall for_known_map cmds -> complete_all (map completion cmds) sv = Some sv' ->
  all_handled handlers_dedi (map command cmds) sv sv'.
Proof.
  intros Hk. revert sv. induction Hk as [|o cmds Ho Hk IH]; intros sv; cbn [map complete_all all_handled]; [by intros [= <-]|].
  destruct (complete sv (completion o)) as [sv1|] eqn:E1; [|done]. cbn [mbind option_bind]. intros H. exists sv1. split; [|by apply IH].
  destruct o as [pid pkt|pid token ip]; cbn [completion complete command handlers_dedi] in *.
  - destruct (MakeRoomForThisGroup pkt sv) as [[ok sv2]|] eqn:Em; [|done]. injection E1 as <-. by rewrite (MakeRoom_known _ _ _ _ Ho Em).
  - by injection E1 as <-.
Qed.

Lemma complete_all_take cmds n sv sv' : complete_all cmds sv = Some sv' -> exists svn, complete_all (take n cmds) sv = Some svn.
Proof.
  revert n sv. induction cmds as [|c cmds IH]; intros [|n] sv H; cbn [take complete_all] in *; try by eexists.
  destruct (complete sv c) as [sv1|]; [|done]. by apply (IH n sv1).
Qed.

(** C12. The commands of the main process are the completions of a pass: when rooms are asked
    for maps that exist, the messages fit their fields and frames and the process
    can carry the commands out, then of what has arrived, cut in any way the kernel
    likes, exactly the commands that are there whole have been carried out, in order
    and once each, as by the pass with these completions.  That goes for the first
    64 KiB of the connection: after each read the process asks for what is left of them,
    and more than that it never reads. *)
Theorem commands_reach_process cmds chunks sv sv' :
  Forall for_known_map cmds -> Forall fits (map command cmds) ->
  complete_all (map completion cmds) sv = Some sv' -> arrived chunks (map command cmds) ->
  let bytes := length (concat chunks) in
  let fed := feed read_dedi chunks (stream_init (None, sv)) in
  if Z.of_nat bytes <=? _capacity then
    exists n s' svn, fed = Some s' /\ whole (map command cmds) bytes n /\
      complete_all (map completion (take n cmds)) sv = Some svn /\ s_app s' = (None, svn) /\
      s_armed s' = Some (_capacity - Z.of_nat bytes)
  else fed = None.
Proof.
  intros Hk Hf Hc Ha. cbn zeta. destruct (Z.leb_spec (Z.of_nat (length (concat chunks))) _capacity); [|by apply undelivered].
  destruct (delivered handlers_dedi (map command cmds) chunks sv sv' Hf) as (n & s' & w & H1 & H2 & H3 & H4 & H5);
    [apply Forall_fmap, Forall_true; by intros []|by apply commands_handled|done|done|].
  destruct (complete_all_take _ n _ _ Hc) as [svn Hn]. rewrite firstn_map in H2, Hn.
  exists n, s', svn. split_and!; try done. rewrite H4. f_equal. eapply all_handled_det; [exact H2|].
  apply commands_handled; [by apply Forall_take|exact Hn].
Qed.

(** One read of a connection that has received [p] of a frame. *)
Lemma Temp_partial fd p c f (m : Mn) : c <> [] -> Buffers.frame_ok f -> (exists y, y <> [] /\ f = (p ++ c) ++ y) ->
  Temp_OnReadComplete fd c (mk_recv_buffer p 0) m = (inr (TempReads (mk_recv_buffer (p ++ c) 0)), m).
Proof.
  intros Hc [Hl Hs] (y & Hy & Hf). unfold Temp_OnReadComplete. destruct c as [|x c]; [done|].
  change (OnRead (x :: c) (mk_recv_buffer p 0)) with (mk_recv_buffer (p ++ x :: c) 0). generalize dependent (p ++ x :: c). intros q Hf.
  change (DataSize (mk_recv_buffer q 0)) with (Z.of_nat (length q) - 0). rewrite Z.sub_0_r.
  change (pending_bytes (mk_recv_buffer q 0)) with q.
  destruct (Z.ltb_spec (Z.of_nat (length q)) PACKET_HEADER_SIZE) as [|Hq]; [done|].
  rewrite <- (decode_header_prefix f q y Hf Hq), Hs. rewrite Hf, length_app.
  destruct (Z.ltb_spec (Z.of_nat (length q)) (Z.of_nat (length q + length y))); [done|].
  destruct y; [done|cbn in *; lia].
Qed.
Lemma Temp_complete fd p c pid (m : Mn) : c <> [] -> fits (D2MInitComplete pid) -> p ++ c = MakeSendBuffer (D2MInitComplete pid) ->
  Temp_OnReadComplete fd c (mk_recv_buffer p 0) m =
  let '(ok, m') := FinalizeConnection pid fd m in (inr (if ok then TempPromoted else TempClosed), m').
Proof.
  intros Hc Hfit Hf. unfold Temp_OnReadComplete. destruct c as [|x c]; [done|].
  change (OnRead (x :: c) (mk_recv_buffer p 0)) with (mk_recv_buffer (p ++ x :: c) 0). rewrite Hf. clear p x c Hc Hf.
  set (f := MakeSendBuffer (D2MInitComplete pid)).
  change (DataSize (mk_recv_buffer f 0)) with (Z.of_nat (length f) - 0). rewrite Z.sub_0_r. change (pending_bytes (mk_recv_buffer f 0)) with f.
  destruct (MakeSendBuffer_frame _ Hfit) as [Hl Hs]. fold f in Hl, Hs. destruct Hfit as [Hr Hlen].
  destruct (frame_frame_ok 100 (ipc_serialize (D2MInitComplete pid)) ltac:(done) Hlen) as (_ & Hh & Hd).
  change (frame 100 (ipc_serialize (D2MInitComplete pid))) with f in Hh, Hd.
  rewrite (proj2 (Z.ltb_ge _ _) Hl), Hs, Z.ltb_irrefl, (proj2 (Z.ltb_ge _ _) Hl), Hd.
  rewrite Hh in Hs. cbn [ph_size] in Hs. rewrite take_ge by lia.
  change 100 with (packet_id (D2MInitComplete pid)). by rewrite ipc_roundtrip.
Qed.

Lemma Temp_feed_app fd a b t (m : Mn) : Temp_feed fd (a ++ b) t m = (t' ← Temp_feed fd a t; Temp_feed fd b t') m.
Proof.
  revert t m. induction a as [|c a IH]; intros t m; [done|]. destruct t as [r| | |]; cbn [app Temp_feed]; try (by destruct b).
  unfold mbind, EX_bind. destruct (Temp_OnReadComplete fd c r m) as [[e|t'] m1]; [done|]. by rewrite IH.
Qed.
(** While part of the frame is missing the connection only reads. *)
Lemma Temp_feed_partial fd f part p rest (m : Mn) : Buffers.frame_ok f ->
  Forall (fun c => c <> []) (part ++ rest) -> rest <> [] -> p ++ concat (part ++ rest) = f ->
  Temp_feed fd part (TempReads (mk_recv_buffer p 0)) m = (inr (TempReads (mk_recv_buffer (p ++ concat part) 0)), m).
Proof.
  intros Hf. revert p. induction part as [|c part IH]; intros p Hn Hr He; [by rewrite app_nil_r|].
  cbn [app concat] in *. apply Forall_cons in Hn as [Hc Hn]. cbn [Temp_feed]. unfold mbind, EX_bind.
  rewrite (Temp_partial fd p c f m Hc Hf).
  - rewrite (IH (p ++ c)); [by rewrite <- app_assoc|done|done|by rewrite <- app_assoc].
  - exists (concat (part ++ rest)). split; [|by rewrite <- app_assoc]. rewrite concat_app.
    destruct rest as [|x rest]; [done|]. apply Forall_app in Hn as [_ [Hx _]%Forall_cons]. cbn [concat].
    destruct x; [done|]. by destruct (concat part).
Qed.

(** C26. A dedicated process is connected by its first packet: however the kernel cuts it,
    nothing happens before its last byte; then the process that was started under
    this id is ready on this socket, and the socket leads to it; a process nobody has
    started is turned away and changes nothing. *)
Theorem connection_handshake pid fd chunks (m : Mn) :
  fits (D2MInitComplete pid) -> fd ∈ _tempSessions m ->
  Forall (fun c => c <> []) chunks -> concat chunks = MakeSendBuffer (D2MInitComplete pid) ->
  (forall part c rest, chunks = part ++ c :: rest -> exists r, Temp_feed fd part (TempReads recv_buffer_init) m = (inr (TempReads r), m)) /\
  exists m', Temp_feed fd chunks (TempReads recv_buffer_init) m =
    (inr (if bool_decide (is_Some (_dediSessions m !! pid)) then TempPromoted else TempClosed), m') /\
    if bool_decide (is_Some (_dediSessions m !! pid)) then
      _sessionFd2pid m' !! fd = Some pid /\ ~ (fd ∈ _tempSessions m') /\
      _dediSessions m' !! pid = (BindSocket fd <$> _dediSessions m !! pid) /\
      forall p, p <> pid -> _dediSessions m' !! p = _dediSessions m !! p
    else m' = m.
Proof.
  intros Hfit Hfd Hne Ec. pose proof (MakeSendBuffer_frame _ Hfit) as Hf.
  split; [intros part c rest ->; eexists; by apply (Temp_feed_partial fd _ part [] (c :: rest) m Hf)|].
  assert (Hlast : exists part c, chunks = part ++ [c]).
  { destruct (exists_last (l := chunks)) as (part & c & ->); [|by exists part, c]. intros ->.
    destruct Hf as [Hl _]. rewrite <- Ec in Hl. done. }
  destruct Hlast as (part & c & ->). rewrite Temp_feed_app. unfold mbind, EX_bind.
  change recv_buffer_init with (mk_recv_buffer [] 0).
  rewrite (Temp_feed_partial fd _ part [] [c] m Hf) by done. apply Forall_app in Hne as [_ [Hc _]%Forall_cons].
  cbn [Temp_feed]. unfold mbind, EX_bind. rewrite (Temp_complete fd _ c pid m Hc Hfit) by (by rewrite <- Ec, concat_app; cbn; rewrite app_nil_r).
  unfold FinalizeConnection. rewrite (bool_decide_eq_true_2 (fd ∈ _)) by done. cbn [andb].
  case_bool_decide as Hpid; eexists; (split; [reflexivity|]); [|done]. split_and!.
  - cbn. apply lookup_insert_eq.
  - cbn. intros H%list_elem_of_In%filter_In. rewrite Z.eqb_refl in H. by destruct H.
  - cbn. by rewrite lookup_alter, decide_True.
  - intros p Hp. cbn. by rewrite lookup_alter_ne.
Qed.
End processes.

(** ** A concrete instance

    A binary format: integers in four bytes, lists and strings element by element, each
    announced by a byte. *)

Record Codec (A : Type) := mk_codec {
  put : A -> list Z; get : list Z -> option (A * list Z); codable : A -> bool;
  get_put a rest : codable a = true -> get (put a ++ rest) = Some (a, rest) }.
Arguments mk_codec {A} _ _ _ _. Arguments put {A} _ _. Arguments get {A} _ _. Arguments codable {A} _ _. Arguments get_put {A} _ _ _ _.

Definition word (b : list Z) : option (Z * list Z) := if (4 <=? length b)%nat then Some (of_le (take 4 b), drop 4 b) else None.
Lemma word_put z rest : 0 <= z < 2 ^ 32 -> word (le_bytes 4 z ++ rest) = Some (z, rest).
Proof.
  intros Hz. unfold word. rewrite length_app, length_le_bytes. cbn [Nat.leb Nat.add].
  rewrite <- (length_le_bytes 4 z) at 1. rewrite take_app_length. rewrite <- (length_le_bytes 4 z) at 2.
  by rewrite drop_app_length, of_le_bytes.
Qed.

Lemma u32_get_put z rest : u32b z = true -> word (le_bytes 4 z ++ rest) = Some (z, rest).
Proof. intros [H1%Z.leb_le H2%Z.ltb_lt]%andb_true_iff. by apply word_put. Qed.
Definition c_u32 : Codec Z := mk_codec (le_bytes 4) word u32b u32_get_put.
Definition get_i32 (b : list Z) : option (Z * list Z) := '(z, r) ← word b; Some (i32 z, r).
Lemma i32_get_put z rest : i32b z = true -> get_i32 (le_bytes 4 (u32 z) ++ rest) = Some (z, rest).
Proof.
  intros [H1%Z.leb_le H2%Z.ltb_lt]%andb_true_iff. unfold get_i32. rewrite word_put by apply u32_range. cbn. do 2 f_equal. width.
Qed.
Definition c_i32 : Codec Z := mk_codec (fun z => le_bytes 4 (u32 z)) get_i32 i32b i32_get_put.

Section combinators.
Context {A B : Type} (a : Codec A) (b : Codec B).

Definition get_pair (l : list Z) : option ((A * B) * list Z) := '(x, l1) ← get a l; '(y, l2) ← get b l1; Some ((x, y), l2).
Lemma pair_get_put p rest : codable a p.1 && codable b p.2 = true -> get_pair ((put a p.1 ++ put b p.2) ++ rest) = Some (p, rest).
Proof.
  intros [H1 H2]%andb_true_iff. unfold get_pair. rewrite <- app_assoc, (get_put a) by done. cbn.
  rewrite (get_put b) by done. by destruct p.
Qed.
Definition c_pair : Codec (A * B) := mk_codec (fun p => put a p.1 ++ put b p.2) get_pair (fun p => codable a p.1 && codable b p.2) pair_get_put.

Fixpoint get_list (fuel : nat) (l : list Z) : option (list A * list Z) :=
  match fuel, l with
  | S fuel', 1 :: l' => '(x, l1) ← get a l'; '(xs, l2) ← get_list fuel' l1; Some (x :: xs, l2)
  | _, 0 :: l' => Some ([], l')
  | _, _ => None
  end.
Definition put_list (xs : list A) : list Z := concat (map (fun x => 1 :: put a x) xs) ++ [0].
Lemma length_put_list xs : (length xs < length (put_list xs))%nat.
Proof. unfold put_list. rewrite length_app. induction xs as [|x xs IH]; cbn in *; [lia|]. rewrite length_app. lia. Qed.
Lemma list_get_put xs rest : forallb (codable a) xs = true -> get_list (length (put_list xs ++ rest)) (put_list xs ++ rest) = Some (xs, rest).
Proof.
  assert (H : forall fuel, (length xs < fuel)%nat -> forallb (codable a) xs = true -> get_list fuel (put_list xs ++ rest) = Some (xs, rest)).
  { induction xs as [|x xs IH]; intros [|fuel] Hf; try lia; cbn; [done|]. intros [Hx Hxs]%andb_true_iff. cbn in Hf.
    unfold put_list. cbn. rewrite <- !app_assoc, (get_put a) by done. cbn.
    replace (concat (map (fun x => 1 :: put a x) xs) ++ 0 :: rest) with (put_list xs ++ rest) by (unfold put_list; by rewrite <- app_assoc).
    rewrite IH by (done || lia). done. }
  apply H. rewrite length_app. pose proof (length_put_list xs). lia.
Qed.
Definition c_list : Codec (list A) := mk_codec put_list (fun l => get_list (length l) l) (forallb (codable a)) list_get_put.

(** Along a bijection. *)
Context (to : A -> B) (from : B -> A) (Hof : forall y, to (from y) = y).
Lemma iso_get_put y rest : codable a (from y) = true -> ('(x, l) ← get a (put a (from y) ++ rest); Some (to x, l)) = Some (y, rest).
Proof. intros H. rewrite (get_put a) by done. cbn. by rewrite Hof. Qed.
Definition c_iso : Codec B := mk_codec (fun y => put a (from y)) (fun l => '(x, l') ← get a l; Some (to x, l')) (fun y => codable a (from y)) iso_get_put.
End combinators.

Definition get_char (l : list Z) : option (ascii * list Z) := match l with [] => None | x :: l' => Some (ascii_of_nat (Z.to_nat x), l') end.
Lemma char_get_put c rest : (nat_of_ascii c <? 128)%nat = true -> get_char ([Z.of_nat (nat_of_ascii c)] ++ rest) = Some (c, rest).
Proof. intros _. cbn. by rewrite Nat2Z.id, ascii_nat_embedding. Qed.
Definition c_char : Codec ascii := mk_codec (fun c => [Z.of_nat (nat_of_ascii c)]) get_char (fun c => (nat_of_ascii c <? 128)%nat) char_get_put.
Definition c_text : Codec string := c_iso (c_list c_char) String.string_of_list_ascii String.list_ascii_of_string String.string_of_list_ascii_of_string.
Definition c_slot : Codec ItemSlot :=
  c_iso (c_pair c_u32 (c_pair c_i32 c_i32)) (fun '(i, (x, q)) => mk_item_slot i x q)
    (fun s => (is_item_id s, (is_slot_index s, is_quantity s))) ltac:(by intros []).
Definition c_reason : Codec LeaveReason :=
  mk_codec (fun r => [leave_code r])
    (fun l => match l with 0 :: l' => Some (LR_NONE, l') | 1 :: l' => Some (LR_RECALLED, l') | 2 :: l' => Some (LR_DEAD, l')
                         | 3 :: l' => Some (LR_DISCONNECTED, l') | _ => None end) (fun _ => true) ltac:(by intros []).
Definition c_info : Codec PlayerInfo :=
  c_iso (c_pair c_text (c_pair c_i32 (c_pair c_text (c_pair c_i32 (c_pair (c_list c_slot) (c_pair (c_list c_slot) c_i32))))))
    (fun '(t, (u, (n, (r, (i, (e, c)))))) => mk_info t u n r i e c)
    (fun i => (pi_ticket_id i, (pi_uid i, (pi_user_id i, (pi_rating i, (pi_inventory_items i, (pi_equipment_items i, pi_character_type i)))))))
    ltac:(by intros []).
Definition c_make_room : Codec M2DMakeRoomForThisGroup :=
  c_iso (c_pair c_i32 (c_list c_info)) (fun '(m, l) => mk_make_room m l) (fun p => (mr_map_id p, mr_player_infos p)) ltac:(by intros []).
Definition c_tokens : Codec D2MUpdateEntryToken :=
  c_iso (c_pair c_i32 (c_pair c_i32 (c_pair (c_list c_text) (c_pair (c_list c_i32) (c_pair (c_list c_text) (c_list c_i32))))))
    (fun '(n, (p, (t, (s, (e, k))))) => mk_update_token n p t s e k)
    (fun p => (ut_size p, (ut_port p, (ut_ticket_ids p, (ut_session_ids p, (ut_entry_tokens p, ut_security_keys p)))))) ltac:(by intros []).
Definition c_left : Codec D2MNotifyPlayerLeft :=
  c_iso (c_pair c_i32 (c_pair c_reason (c_pair (c_list c_slot) (c_list c_slot)))) (fun '(u, (r, (i, e))) => mk_left u r i e)
    (fun p => (pl_uid p, (pl_leave_reason p, (pl_inventory p, pl_equipment p)))) ltac:(by intros []).
Definition c_texts : Codec (string * string) := c_pair c_text c_text.
Definition c_ints : Codec (Z * Z) := c_pair c_i32 c_i32.

Definition parsed {A} (c : Codec A) (f : A -> IpcMessage) (b : list Z) : option IpcMessage := '(x, _) ← get c b; Some (f x).
#[local] Instance sample_ipc : Ipc := {|
  ipc_serialize m := match m with
    | M2HWelcome z | H2MWelcome z | D2MInitComplete z => put c_i32 z
    | H2MMatchMake k | H2MMatchMakeCancel k => put c_text k
    | H2M2DBindClientIpToSession t ip => put c_texts (t, ip)
    | M2DMakeRoom p => put c_make_room p | D2MTokens p => put c_tokens p | D2MLeft p => put c_left p
    | D2MRoomDestroyed r n => put c_ints (r, n)
    end;
  ipc_parse id b :=
    if id =? 0 then parsed c_i32 M2HWelcome b else if id =? 1 then parsed c_i32 H2MWelcome b
    else if id =? 2 then parsed c_text H2MMatchMake b else if id =? 3 then parsed c_text H2MMatchMakeCancel b
    else if id =? 4 then parsed c_texts (fun '(t, ip) => H2M2DBindClientIpToSession t ip) b
    else if id =? 100 then parsed c_i32 D2MInitComplete b else if id =? 101 then parsed c_make_room M2DMakeRoom b
    else if id =? 102 then parsed c_tokens D2MTokens b else if id =? 103 then parsed c_left D2MLeft b
    else if id =? 104 then parsed c_ints (fun '(r, n) => D2MRoomDestroyed r n) b else None |}.

Lemma parsed_put {A} (c : Codec A) (f : A -> IpcMessage) x : codable c x = true -> parsed c f (put c x) = Some (f x).
Proof. intros H. unfold parsed. rewrite <- (app_nil_r (put c x)), get_put by done. done. Qed.
Lemma parsed_is {A} (c : Codec A) (f : A -> IpcMessage) b m : parsed c f b = Some m -> exists x, m = f x.
Proof. unfold parsed. destruct (get c b) as [[x l]|]; [|done]. intros [= <-]. by exists x. Qed.
Lemma slot_codable s : codable c_slot s = slot_in_range s.
Proof. cbn. unfold slot_in_range. apply andb_assoc. Qed.
Lemma slots_codable l : forallb (codable c_slot) l = forallb slot_in_range l.
Proof. induction l as [|s l IH]; [done|]. cbn [forallb]. by rewrite slot_codable, IH. Qed.
Lemma infos_codable l : forallb info_in_range l = true -> forallb (codable c_info) l = true.
Proof.
  rewrite !forallb_forall. intros H i Hi. specialize (H i Hi). unfold info_in_range in H.
  cbn [codable c_info c_iso c_pair c_list fst snd]. rewrite !slots_codable. cbn [codable c_text c_iso c_list c_i32].
  change (forallb (codable c_char) (String.list_ascii_of_string (pi_ticket_id i))) with (text (pi_ticket_id i)).
  change (forallb (codable c_char) (String.list_ascii_of_string (pi_user_id i))) with (text (pi_user_id i)).
  rewrite !andb_true_iff in *. tauto.
Qed.
Lemma sample_ipc_laws : IpcLaws sample_ipc.
Proof.
  constructor.
  - intros m H. destruct m as [z|z|k|k|t ip|pid|p|p|p|r n]; cbn [packet_id ipc_serialize ipc_parse sample_ipc Z.eqb Pos.eqb];
      rewrite parsed_put; try done.
    + cbn [in_range] in H. cbn [codable c_make_room c_iso c_pair fst snd]. apply andb_true_iff in H as [H1 H2]. apply andb_true_iff.
      split; [exact H1|by apply infos_codable].
    + cbn [in_range] in H. cbn [codable c_tokens c_iso c_pair fst snd]. rewrite !andb_true_iff in *.
      destruct H as (((((H1 & H2) & H3) & H4) & H5) & H6). by split_and!.
    + cbn [in_range] in H. cbn [codable c_left c_iso c_pair c_reason fst snd c_list]. rewrite !slots_codable, !andb_true_iff in *.
      destruct H as ((H1 & H2) & H3). by split_and!.
  - intros id b m. cbn [ipc_parse sample_ipc].
    repeat (match goal with |- context [id =? ?k] => destruct (Z.eqb_spec id k) as [->|_] end;
      [intros H; apply parsed_is in H as [x ->]; by try destruct x|]). done.
Qed.

(** ** Witnesses *)

#[local] Existing Instance sample_ipc_laws.
#[local] Existing Instance sample_redis.
#[local] Existing Instance sample_mysql.
#[local] Existing Instance sample_env.
#[local] Existing Instance sample_external.
#[local] Existing Instance sample_laws.
#[local] Existing Instance sample_rng.
#[local] Existing Instance sample_system.

Definition fitsb (m : IpcMessage) : bool := in_range m && (Z.of_nat (length (ipc_serialize m)) + PACKET_HEADER_SIZE <? 2 ^ 16).
Lemma fitsb_spec m : fitsb m = true -> fits m.
Proof. intros [H1 H2%Z.ltb_lt]%andb_true_iff. by split. Qed.
Lemma fitsb_all ms : forallb fitsb ms = true -> Forall fits ms.
Proof. rewrite forallb_forall. intros H. apply Forall_forall. intros m Hm. apply fitsb_spec, H. by apply list_elem_of_In. Qed.

(** The process reports once; the first read brings five bytes, which is not a report yet, the
    second the rest. *)
Lemma reports_reach_main_witness : exists sv l s1 s2,
  main_loop sample_passes (new_DediServerService 0 7000) = Some sv /\ sv_toMain sv = l /\ length l = 1%nat /\
  feed (read_main (DediPeer 100 5)) [take 5 (wire (map to_ipc l))] (stream_init (None, sample_main)) = Some s1 /\
  s_app s1 = (None, sample_main) /\
  feed (read_main (DediPeer 100 5)) [take 5 (wire (map to_ipc l)); drop 5 (wire (map to_ipc l))] (stream_init (None, sample_main)) = Some s2 /\
  s_app s2 = (None, after_reports 100 5 l sample_main).
Proof.
  assert (H : match main_loop sample_passes (new_DediServerService 0 7000) with
    | Some sv => (length (sv_toMain sv) =? 1)%nat && forallb fitsb (map to_ipc (sv_toMain sv)) &&
                 (Z.of_nat (length (wire (map to_ipc (sv_toMain sv)))) <=? _capacity) &&
                 (5 <? Z.of_nat (length (wire (map to_ipc (sv_toMain sv)))))
    | None => false end = true) by (vm_compute; reflexivity).
  destruct (main_loop sample_passes (new_DediServerService 0 7000)) as [sv|] eqn:Es; [|discriminate H].
  apply andb_true_iff in H as [H H4]. apply andb_true_iff in H as [H H3]. apply andb_true_iff in H as [H1 H2].
  apply Nat.eqb_eq in H1. apply Z.leb_le in H3. apply Z.ltb_lt in H4.
  destruct (reports_reach_main sample_passes (new_DediServerService 0 7000) sv 100 5 sample_main Es) as (l & El & Hl).
  cbn [sv_toMain new_DediServerService app] in El. subst l. destruct (sv_toMain sv) as [|r [|]] eqn:Er; try discriminate H1.
  set (w := wire (map to_ipc [r])) in *.
  assert (Hw : take 5 w <> [] /\ drop 5 w <> []).
  { split; intros E; apply (f_equal length) in E; rewrite ?length_take, ?length_drop in E; cbn [length] in E; lia. }
  destruct Hw as [Hw1 Hw2]. exists sv, [r].
  pose proof (Hl [take 5 w] (fitsb_all _ H2)) as L1. pose proof (Hl [take 5 w; drop 5 w] (fitsb_all _ H2)) as L2. clear Hl.
  cbn [concat] in L1, L2. rewrite app_nil_r in L1, L2. rewrite take_drop in L2. cbn zeta in L1, L2.
  rewrite length_take, Nat.min_l in L1 by lia. rewrite (proj2 (Z.leb_le _ _) H3) in L2. change (Z.of_nat 5 <=? _capacity) with true in L1. cbv iota in L1, L2.
  destruct L1 as (n1 & s1 & F1 & W1 & A1 & _). { split; [by apply Forall_singleton|]. cbn [concat]. rewrite app_nil_r. apply prefix_take. }
  destruct L2 as (n2 & s2 & F2 & W2 & A2 & _).
  { split; [by repeat constructor|]. cbn [concat]. by rewrite app_nil_r, take_drop. }
  exists s1, s2. split_and!; try done.
  - rewrite A1. destruct W1 as (W1 & W2' & _). destruct n1 as [|n1]; [f_equal; apply after_reports_nil|exfalso].
    assert (n1 = 0%nat) as -> by (cbn in W1; lia). change (take 1 (map to_ipc [r])) with (map to_ipc [r]) in W2'. fold w in W2'. lia.
  - rewrite A2. destruct W2 as (W2 & _ & W3). destruct n2 as [|n2]; [exfalso|].
    + change (take 1 (map to_ipc [r])) with (map to_ipc [r]) in W3. fold w in W3. cbn in W3. lia.
    + assert (n2 = 0%nat) as -> by (cbn in W2; lia). done.
Defined.

Definition sample_commands : list MainOut := [OutMakeRoom 100 sample_group; OutBindIp 100 "token_0000000000000000" "10.1.1.1"].
(** The last byte is missing: the room has been made, the address is not yet bound. *)
Lemma commands_reach_process_witness : exists sv1 s',
  complete_all [CqMakeRoom sample_group] (new_DediServerService 0 7000) = Some sv1 /\
  feed read_dedi [take 9 (wire (map command sample_commands)); drop 9 (removelast (wire (map command sample_commands)))]
    (stream_init (None, new_DediServerService 0 7000)) = Some s' /\ s_app s' = (None, sv1).
Proof.
  assert (H : match complete_all (map completion sample_commands) (new_DediServerService 0 7000) with Some _ => true | None => false end = true)
    by (vm_compute; reflexivity).
  destruct (complete_all (map completion sample_commands) (new_DediServerService 0 7000)) as [sv'|] eqn:Ec; [|discriminate H].
  pose proof (commands_reach_process sample_commands [take 9 (wire (map command sample_commands)); drop 9 (removelast (wire (map command sample_commands)))]
    (new_DediServerService 0 7000) sv') as L. cbv zeta in L.
  set (w := wire (map command sample_commands)) in *.
  assert (Hb : concat [take 9 w; drop 9 (removelast w)] = removelast w) by (vm_compute; reflexivity). rewrite Hb in L.
  assert (Hlen : (Z.of_nat (length (removelast w)) <=? _capacity) = true) by (vm_compute; reflexivity). rewrite Hlen in L.
  destruct L as (n & s' & svn & F & (W1 & W2 & W3) & C & A & _).
  - repeat constructor.
  - apply fitsb_all. vm_compute. reflexivity.
  - exact Ec.
  - split; [repeat (apply Forall_cons; split; [vm_compute; discriminate|]); apply Forall_nil_2|].
    rewrite Hb. exists (drop (length w - 1) w). vm_compute. reflexivity.
  - assert (n = 1%nat) as ->.
    { destruct n as [|[|[|n]]]; [exfalso| |exfalso|exfalso; cbn in W1; lia].
      - assert (Hlt : (length (removelast w) <? length (wire (take 1 (map command sample_commands))))%nat = false) by (vm_compute; reflexivity).
        apply Nat.ltb_ge in Hlt. specialize (W3 ltac:(cbn; lia)). lia.
      - reflexivity.
      - assert (Hlt : (length (wire (take 2 (map command sample_commands))) <=? length (removelast w))%nat = false) by (vm_compute; reflexivity).
        apply Nat.leb_gt in Hlt. lia. }
    exists svn, s'. split_and!; [exact C|exact F|exact A].
Defined.

Lemma connection_handshake_witness : exists m',
  Temp_feed 7 [take 3 (MakeSendBuffer (D2MInitComplete 100)); drop 3 (MakeSendBuffer (D2MInitComplete 100))]
    (TempReads recv_buffer_init) sample_main = (inr TempPromoted, m') /\ _sessionFd2pid m' !! 7 = Some 100.
Proof.
  destruct (connection_handshake 100 7 [take 3 (MakeSendBuffer (D2MInitComplete 100)); drop 3 (MakeSendBuffer (D2MInitComplete 100))]
    sample_main) as (_ & m' & H1 & H2).
  - apply fitsb_spec. vm_compute. reflexivity.
  - left.
  - repeat (apply Forall_cons; split; [vm_compute; discriminate|]). apply Forall_nil_2.
  - vm_compute. reflexivity.
  - exists m'. rewrite bool_decide_eq_true_2 in H1, H2 by (eexists; reflexivity). split; [exact H1|apply H2].
Defined.
