(* ===== verification/Server.v ===== *)
(** * The main process as a whole

    Models the loop of src/src/main.cpp, the callbacks of the main process in IOTask.cpp
    (connections accepted, reads of the HTTP server's session and of the dedicated
    processes') and the constructor of DediManager, over the components of the main
    process, and shows what the loop keeps whatever arrives on its sockets and
    whatever becomes of its commands to Redis and MySQL.

    The HTTP server writes to Redis between the passes: a pass comes with what
    it has done to it. *)

From S2P Require Import Prelude Buffers Session Stores Main Matchmaker DBProxy Manager Service Process Ipc.
From Stdlib Require Import Ascii.
From stdpp Require Import strings.
Local Open Scope Z_scope.

(** ** The process *)

(** What io_uring completes: the result of an accept, the bytes of a read ([[]] when
    there are none), a send. *)
Inductive CQE :=
| CqHttpAccept (result : Z)
| CqDediAccept (result : Z)
| CqHttpRead (bytes : list Z)
| CqTempRead (fd : Z) (bytes : list Z)
| CqDediRead (pid : Z) (bytes : list Z)
| CqSent.

(** One turn of the loop: the time since the last one, what the HTTP server did to Redis
    in it, the completions. *)
Record Turn (R : Redis) := mk_turn { tn_elapsed : Z; tn_redis : r_state -> r_state; tn_cqes : list CQE }.
Arguments mk_turn {R} _ _ _. Arguments tn_elapsed {R} _. Arguments tn_redis {R} _. Arguments tn_cqes {R} _.

Section server.
Context {I : Ipc} {R : Redis} {M : Mysql} {E : MainEnv}.
Local Abbreviation Mn := (Main R M).

(** The components and the exception that ended the process, the HTTP server's
    connection, the buffers of the connections without a name and of the
    processes' sessions. *)
Record Server := mk_server {
  se_main : option Exn * Mn;
  HttpSession : option (Z * RecvBuffer);
  se_temps : gmap Z RecvBuffer;
  se_streams : gmap Z RecvBuffer }.
#[export] Instance eta_Server : Eta Server := fun s =>
  mk_server (se_main s) (HttpSession s) (se_temps s) (se_streams s).

(** [DediManager::DediManager]. *)
Definition new_DediManager (redis : Remote r_state) (db : Remote (Database db_state)) (now : Z) : Mn :=
  mk_main redis db ∅ 1 ∅ ∅ [] (map (fun i => new_MatchMaker (Z.of_nat i) MAX_AGRESSION) (seq 0 (Z.to_nat MAP_MAX))) 0 [] now 0 [].

(** A call from the loop. *)
Definition in_main {A} (x : EX Mn A) (am : option Exn * Mn) : option A * (option Exn * Mn) :=
  match am with
  | (Some e, m) => (None, (Some e, m))
  | (None, m) => match x m with (inl e, m') => (None, (Some e, m')) | (inr a, m') => (Some a, (None, m')) end
  end.

(** A read of a session that handles packets; a loop without end means nothing either. *)
Definition read_stream (session : list Z -> @StreamSession (option Exn * Mn) -> option StreamSession)
    (bytes : list Z) (r : RecvBuffer) (am : option Exn * Mn) : RecvBuffer * (option Exn * Mn) :=
  match session bytes (mk_stream r None am) with
  | Some s => (_recvBuffer s, s_app s)
  | None => (r, (Some Undefined, snd am))
  end.

Definition stream_of (pid : Z) (s : Server) : RecvBuffer := default recv_buffer_init (se_streams s !! pid).

(** [IOTask::callback].  The HTTP server is accepted once; sessions without a read get
    no completion of one. *)
Definition callback (c : CQE) (s : Server) : Server :=
  match fst (se_main s) with
  | Some _ => s
  | None =>
      match c with
      | CqHttpAccept result =>
          if result <? 0 then s
          else match HttpSession s with Some _ => s | None => s <| HttpSession := Some (result, recv_buffer_init) |> end
      | CqDediAccept result =>
          if result <? 0 then s
          else s <| se_main ::= fun am => (fst am, OnAcceptDedi result (snd am)) |> <| se_temps ::= <[ result := recv_buffer_init ]> |>
      | CqHttpRead bytes =>
          match HttpSession s with
          | None => s
          | Some (fd, r) =>
              let '(r', am) := read_stream (HttpIPCSession_OnReadComplete fd) bytes r (se_main s) in
              s <| HttpSession := Some (fd, r') |> <| se_main := am |>
          end
      | CqTempRead fd bytes =>
          match se_temps s !! fd with
          | None => s
          | Some r =>
              let '(t, am) := in_main (Temp_OnReadComplete fd bytes r) (se_main s) in
              s <| se_main := am |> <| se_temps ::= match t with Some (TempReads r') => <[ fd := r' ]> | _ => delete fd end |>
          end
      | CqDediRead pid bytes =>
          match _dediSessions (snd (se_main s)) !! pid with
          | None => s
          | Some ses =>
              let '(r', am) := read_stream (M2DSession_OnReadComplete pid (_fd ses)) bytes (stream_of pid s) (se_main s) in
              s <| se_streams ::= <[ pid := r' ]> |> <| se_main := am |>
          end
      | CqSent => s
      end
  end.
Definition ExecuteCQTask (cqes : list CQE) (s : Server) : Server := foldl (fun s c => callback c s) s cqes.

Definition wait (ns : Z) (redis : r_state -> r_state) (m : Mn) : Mn :=
  m <| m_now ::= fun t => t + ns |> <| m_redis ::= fun r => r <| r_data ::= redis |> |>.

(** The body of [while (true)]: the round of matchmaking when it is due, the completions, the
    requests for the stores, and a pause of 30 ms after an idle turn. *)
Definition begin_turn (t : Turn R) (s : Server) : Server :=
  s <| se_main ::= fun am => snd (in_main MatchMake (fst am, wait (tn_elapsed t) (tn_redis t) (snd am))) |>.
Definition end_turn (hasIOWork : bool) (s : Server) : Server :=
  let '(hasDBWork, am) := in_main ExecuteAll (se_main s) in
  if negb hasIOWork && negb (default true hasDBWork)
  then s <| se_main := (fst am, wait 30000000 id (snd am)) |> else s <| se_main := am |>.
Definition turn (t : Turn R) (s : Server) : Server :=
  let hasIOWork := match tn_cqes t with [] => false | _ => true end in
  end_turn hasIOWork (ExecuteCQTask (tn_cqes t) (begin_turn t s)).
Definition main_turns (ts : list (Turn R)) (s : Server) : Server := foldl (fun s t => turn t s) s ts.

(** The process before its loop: one dedicated process has been started. *)
Definition start (redis : Remote r_state) (db : Remote (Database db_state)) (now : Z) : Server :=
  mk_server (None, snd (SpawnSingleServer (new_DediManager redis db now))) None ∅ ∅.
End server.
Arguments Server : clear implicits. Arguments Server {R M}.
Arguments mk_server {R M} _ _ _ _.

(** ** What every call of the main process leaves alone *)

(** The locks of players in a match are strings; every other key with an aggression has that of a bucket. *)
Definition is_lock (key : string) : Prop := exists u, key = "active_match:" +:+ u.
Definition rows_ok {R : Redis} (s : r_state) : Prop := forall key a, ~ is_lock key ->
  r_hget key "aggression" s ≫= stoi = Some a -> 0 <= a <= MAX_AGRESSION.

Section rows.
Context {R : Redis} {LR : RedisLaws R}.

Lemma rows_same s s' : (forall k, ~ is_lock k -> r_hgetall k s' = r_hgetall k s) -> rows_ok s -> rows_ok s'.
Proof. intros H Hs key a Hk. unfold r_hget. rewrite H by done. by apply Hs. Qed.
Lemma rows_hset k f v s : f <> "aggression" -> rows_ok s -> rows_ok (r_hset k f v s).
Proof.
  intros Hf Hs key a Hl. unfold r_hget. destruct (decide (k = key)) as [->|Hk].
  - rewrite hgetall_hset, lookup_insert_ne by done. by apply Hs.
  - rewrite hgetall_hset_ne by done. by apply Hs.
Qed.
Lemma rows_del ks s : rows_ok s -> rows_ok (r_del ks s).
Proof.
  intros Hs key a Hl. unfold r_hget. destruct (decide (key ∈ ks)) as [Hk|Hk].
  - by rewrite hgetall_del.
  - rewrite hgetall_del_ne by done. by apply Hs.
Qed.
Lemma rows_foldl {A} (f : r_state -> A -> r_state) l s : (forall s x, x ∈ l -> rows_ok s -> rows_ok (f s x)) ->
  rows_ok s -> rows_ok (foldl f s l).
Proof.
  revert s. induction l as [|x l IH]; intros s Hf Hs; [done|]. cbn [foldl]. apply IH; [|apply Hf; [by left|done]].
  intros s' y Hy. apply Hf. by right.
Qed.
Lemma rows_entry {N : MainEnv} fd port e loadout uid :
  Forall (fun w : r_state -> r_state => forall s, rows_ok s -> rows_ok (w s)) (entry_commands fd port e loadout uid).
Proof.
  unfold entry_commands. apply Forall_app. split.
  - destruct uid as [u|]; constructor; [|constructor]. intros s Hs. refine (rows_same s _ _ Hs).
    intros k Hk. apply hgetall_set_ne. intros <-. apply Hk. by exists u.
  - repeat (apply Forall_cons; split; [intros s Hs|]); [| | |by apply Forall_nil_2];
      [unfold hset_all; cbn [foldl fst snd]; by repeat (apply rows_hset; [done|])..|].
    apply (rows_same s); [|done]. intros k _. apply hgetall_expire.
Qed.
End rows.

Section steady.
Context {R : Redis} {LR : RedisLaws R} {M : Mysql} {E : MainEnv}.
Local Abbreviation Mn := (Main R M).

Record steady (m m' : Mn) : Prop := {
  sd_next : m_nextTicket m' = m_nextTicket m;
  sd_now : m_now m' = m_now m;
  sd_tickets : forall p t', m_tickets m' !! p = Some t' -> exists t, m_tickets m !! p = Some t /\ core t' = core t;
  sd_mms : map _maxAgression (_matchmakers m') = map _maxAgression (_matchmakers m);
  sd_rows : rows_ok (r_data (m_redis m)) -> rows_ok (r_data (m_redis m')) }.
Lemma steady_trans m m1 m2 : steady m m1 -> steady m1 m2 -> steady m m2.
Proof.
  intros [A1 A2 A3 A4 A5] [B1 B2 B3 B4 B5]. constructor; [congruence|congruence| |congruence|auto].
  intros p t'' H. destruct (B3 p t'' H) as (t' & H' & E'). destruct (A3 p t' H') as (t & H0 & E0). exists t. split; [done|congruence].
Qed.
Lemma steady_same m m' : m_nextTicket m' = m_nextTicket m -> m_now m' = m_now m -> m_tickets m' = m_tickets m ->
  _matchmakers m' = _matchmakers m -> m_redis m' = m_redis m -> steady m m'.
Proof. intros H1 H2 H3 H4 H5. constructor; rewrite ?H3, ?H4, ?H5; try done. intros p t' H. by exists t'. Qed.
Lemma steady_refl m : steady m m.
Proof. by apply steady_same. Qed.

Class Steady {A} (x : EX Mn A) : Prop := steadily : forall m, steady m (snd (x m)).

#[export] Instance steady_ret {A} (a : A) : Steady (mret a).
Proof. intros m. apply steady_refl. Qed.
#[export] Instance steady_throw {A} e : Steady (throw (A:=A) e).
Proof. intros m. apply steady_refl. Qed.
#[export] Instance steady_exget {A} (f : Mn -> A) : Steady (exget f).
Proof. intros m. apply steady_refl. Qed.
#[export] Instance steady_or_throw {A} (o : option A) : Steady (or_throw o).
Proof. intros m. destruct o; apply steady_refl. Qed.
#[export] Instance steady_bind {A B} (x : EX Mn A) (k : A -> EX Mn B) :
  Steady x -> (forall a, Steady (k a)) -> Steady (x ≫= k).
Proof.
  intros Hx Hk m. specialize (Hx m). unfold mbind, EX_bind. destruct (x m) as [[e|a] m1]; [done|].
  eapply steady_trans; [exact Hx|apply Hk].
Qed.
#[export] Instance steady_catch {A} (x : EX Mn A) h : Steady x -> (forall e, from_option Steady True (h e)) -> Steady (catch x h).
Proof.
  intros Hx Hk m. unfold catch. specialize (Hx m). destruct (x m) as [[e|a] m1]; [|done].
  specialize (Hk e). destruct (h e) as [k|]; [|done]. eapply steady_trans; [exact Hx|apply Hk].
Qed.
#[export] Instance steady_catch_redis {A} (x k : EX Mn A) : Steady x -> Steady k -> Steady (catch_redis x k).
Proof. intros. apply steady_catch; [done|]. by intros []. Qed.
#[export] Instance steady_catch_sql {A} (x k : EX Mn A) : Steady x -> Steady k -> Steady (catch_sql x k).
Proof. intros. apply steady_catch; [done|]. by intros []. Qed.
#[export] Instance steady_catch_all {A} (x k : EX Mn A) : Steady x -> Steady k -> Steady (catch_all x k).
Proof. intros. apply steady_catch; [done|]. by intros []. Qed.
#[export] Instance steady_for {A} xs (body : A -> EX Mn unit) : (forall x, Steady (body x)) -> Steady (ex_for xs body).
Proof. intros H. induction xs as [|x xs IH]; cbn [ex_for]; apply _. Qed.
Lemma steady_exmod (f : Mn -> Mn) : (forall m, steady m (f m)) -> Steady (exmod f).
Proof. done. Qed.
Lemma steady_redis {A} (f : r_state -> A * r_state) : (forall s, rows_ok s -> rows_ok (snd (f s))) -> Steady (redis f).
Proof.
  intros Hf m. unfold redis, call. specialize (Hf (r_data (m_redis m))). destruct (f (r_data (m_redis m))) as [a d].
  destruct (r_answers (m_redis m)) as [|[] l]; (constructor; cbn; try done); intros p t' H; by exists t'.
Qed.
#[export] Instance steady_hget k f : Steady (redis_hget (R:=R) (M:=M) k f).
Proof. by apply steady_redis. Qed.
#[export] Instance steady_hgetall k : Steady (redis_hgetall (R:=R) (M:=M) k).
Proof. by apply steady_redis. Qed.
#[export] Instance steady_del ks : Steady (redis_del (R:=R) (M:=M) ks).
Proof. apply steady_redis. intros s. apply rows_del. Qed.
#[export] Instance steady_sql f : Steady (sql (R:=R) (M:=M) f).
Proof. intros m. unfold sql. destruct (call _ _ _) as [[|[]] ?]; by apply steady_same. Qed.
#[local] Hint Extern 1 (Steady (exmod _)) => (apply steady_exmod; intros; by apply steady_same) : typeclass_instances.

(** *** The calls *)

#[export] Instance steady_make_infos group : Steady (make_infos (R:=R) (M:=M) group).
Proof. induction group as [|t group IH]; cbn [make_infos]; [apply _|]. apply steady_bind; [apply _|]. intros v. case_decide; apply _. Qed.
Lemma steady_flush pid (m : Mn) : steady m (FlushPendingTickets pid m).
Proof.
  unfold FlushPendingTickets. destruct (_dediSessions m !! pid) as [s|]; [|apply steady_refl].
  set (pkts := _tempMatchPkts s). apply (steady_trans _ (foldl (fun m pkt => emit_main (OutMakeRoom pid pkt) m) m pkts)); [|by apply steady_same].
  generalize dependent m. induction pkts as [|k l IH]; intros m; cbn [foldl]; [apply steady_refl|].
  apply (steady_trans _ (emit_main (OutMakeRoom pid k) m)); [by apply steady_same|apply IH].
Qed.
#[export] Instance steady_allocate pid ts : Steady (AllocatePlayers (R:=R) (M:=M) pid ts).
Proof.
  intros m. unfold AllocatePlayers. destruct (_dediSessions m !! pid) as [s|]; [|apply steady_refl].
  destruct (_ && _); [|apply steady_refl]. refine (steadily (Steady:=steady_bind _ _ _ _) m). intros [].
  apply steady_bind; [destruct ts; unfold MakeM2DMakeRoomForThisGroup; apply _|]. intros pkt.
  apply steady_bind; [apply _|]. intros []. apply steady_bind; [|apply _]. apply steady_exmod. intros m'.
  case_bool_decide; [apply steady_flush|apply steady_refl].
Qed.
#[export] Instance steady_find pids ts : Steady (find_available (R:=R) (M:=M) pids ts).
Proof. induction pids as [|pid pids IH]; cbn [find_available]; [apply _|]. apply steady_bind; [apply _|]. intros []; apply _. Qed.
#[export] Instance steady_distribute ts : Steady (DistributePlayerGroup (R:=R) (M:=M) ts).
Proof.
  unfold DistributePlayerGroup. apply steady_bind; [intros m; apply (steady_find (me_keys _ (_dediSessions m)) ts m)|].
  intros []; [apply _|]. apply steady_bind; [|intros pid; case_match; apply _].
  intros m. unfold SpawnSingleServer. destruct (me_fork (m_forks m) <? 0); by apply steady_same.
Qed.

(** Tickets marked and released, queues changed. *)
Lemma cores_tickets (h h' : Tickets) p t' : same_cores h h' -> h' !! p = Some t' -> exists t, h !! p = Some t /\ core t' = core t.
Proof.
  intros [H1 H2] Hp. destruct (proj1 (H1 p) ltac:(by eexists)) as [t Ht]. exists t. split; [done|].
  specialize (H2 p). unfold at_ in H2. by rewrite Hp, Ht in H2.
Qed.
#[export] Instance steady_mark b g : Steady (upd_tickets (R:=R) (M:=M) (mark_all b g)).
Proof. apply steady_exmod. intros m. constructor; try done. intros p t'. apply cores_tickets, mark_all_cores. Qed.
#[export] Instance steady_set_matched b p : Steady (upd_tickets (R:=R) (M:=M) (set_matched b p)).
Proof. apply (steady_mark b [p]). Qed.
#[export] Instance steady_set_invalid q : Steady (upd_tickets (R:=R) (M:=M) (set_invalid q)).
Proof. apply steady_exmod. intros m. constructor; try done. intros p t'. by apply cores_tickets, alter_cores. Qed.
#[export] Instance steady_release l : Steady (upd_tickets (R:=R) (M:=M) (release_all l)).
Proof.
  apply steady_exmod. intros m. constructor; try done. intros p t'. cbn. rewrite release_lookup.
  case_bool_decide; [done|]. intros Ht. by exists t'.
Qed.
Lemma map_alter {A B} (g : A -> B) f i l : (forall x, g (f x) = g x) -> map g (alter f i l) = map g l.
Proof. intros H. revert i. induction l as [|x l IH]; intros [|i]; cbn; [done|done|by rewrite H|]. f_equal. apply IH. Qed.
Lemma steady_upd_mm i (f : MatchMaker -> MatchMaker) : (forall mm, _maxAgression (f mm) = _maxAgression mm) -> Steady (upd_mm (R:=R) (M:=M) i f).
Proof. intros Hf. apply steady_exmod. intros m. constructor; try done; [intros p t' H; by exists t'|]. cbn. by apply map_alter. Qed.

#[export] Instance steady_start_group g : Steady (start_group (R:=R) (M:=M) g).
Proof.
  unfold start_group. apply steady_bind; [apply _|]. intros h. apply steady_bind.
  - unfold VerifyAndSetMatchStatus. case_match; [apply _|]. apply steady_catch_redis; [|apply _]. apply steady_bind; [|apply _].
    apply steady_redis. intros d Hd. unfold verify_script. case_match; [|done]. cbn [snd].
    apply rows_foldl; [|done]. intros d' x _. by apply rows_hset.
  - intros []; [apply steady_bind; [apply _|intros []; [apply _|]]|].
    + unfold requeue. apply steady_bind; [apply _|]. intros []. apply steady_bind; [apply _|]. intros h'. apply steady_redis.
      intros s Hs. cbn [snd]. apply rows_foldl; [|done]. intros s' x _. by apply rows_hset.
    + apply steady_for. intros p. unfold recheck. apply steady_bind; [apply _|]. intros h'. apply steady_bind; [apply _|].
      intros o. case_bool_decide; apply _.
Qed.
#[export] Instance steady_ReleaseAndDelete i : Steady (ReleaseAndDeleteTickets (R:=R) (M:=M) i).
Proof.
  unfold ReleaseAndDeleteTickets. apply steady_bind.
  { apply steady_exmod. intros m. by apply (steady_upd_mm i (sort_out (m_tickets m))). }
  intros []. apply steady_bind; [apply _|]. intros mm. apply steady_bind; [apply _|]. intros [].
  apply steady_bind; [by apply steady_upd_mm|]. intros []. case_match; [apply _|].
  apply steady_bind; [apply _|]. intros h. apply steady_bind; [apply _|]. intros []. apply steady_bind; [apply _|]. intros [].
  by apply steady_upd_mm.
Qed.
Lemma FindMatchGroup_cores now h mm : same_cores h (snd (FindMatchGroup now h mm)).
Proof.
  unfold FindMatchGroup. cbn [snd]. set (s0 := mk_search h _ _). change h with (se_tickets s0) at 1. generalize dependent s0. clear h.
  induction (_timeSortedTicketVector mm) as [|p l IH]; intros s0; cbn [foldl]; [reflexivity|]. etrans; [|apply IH].
  unfold pivot_step. case_match; [reflexivity|]. case_match; [reflexivity|]. case_match; [apply mark_all_cores|reflexivity].
Qed.
Lemma AddNewMatchTickets_max h mm mm' : AddNewMatchTickets h mm = Some mm' -> _maxAgression mm' = _maxAgression mm.
Proof.
  unfold AddNewMatchTickets. destruct (_ticketsToAdd mm); [by intros [= <-]|]. by destruct (push_all _ _ _); cbn; [intros [= <-]|].
Qed.
Lemma map_insert_same {A B} (g : A -> B) i l x y : l !! i = Some x -> g y = g x -> map g (<[ i := y ]> l) = map g l.
Proof.
  revert i. induction l as [|z l IH]; intros [|i]; cbn; [done|done|by intros [= ->] ->|]. intros H1 H2. f_equal. by apply IH.
Qed.
#[export] Instance steady_round i : Steady (StartMatchMake (R:=R) (M:=M) i).
Proof.
  unfold StartMatchMake. apply steady_bind.
  { intros m. destruct (_matchmakers m !! i) as [mm|] eqn:Ei; [|apply steady_refl].
    destruct (AddNewMatchTickets (m_tickets m) mm) as [mm'|] eqn:Ea; [|apply steady_refl].
    constructor; try done; [intros p t' H; by exists t'|]. cbn. eapply map_insert_same; [exact Ei|]. by eapply AddNewMatchTickets_max. }
  intros []. apply steady_bind.
  - apply steady_exmod. intros m. destruct (_matchmakers m !! i) as [mm|] eqn:Ei; [|apply steady_refl].
    pose proof (FindMatchGroup_cores (m_now m) (m_tickets m) mm) as Hc.
    destruct (FindMatchGroup (m_now m) (m_tickets m) mm) as [mm' h'] eqn:Ef. constructor; try done.
    + intros p t'. by apply cores_tickets.
    + cbn. eapply map_insert_same; [exact Ei|]. unfold FindMatchGroup in Ef. by injection Ef as <- _.
  - intros []. apply steady_bind; [unfold StartMatchMakeInternal; apply _|intros []; apply _].
Qed.

#[export] Instance steady_bind_client token ip : Steady (BindClientIpToSession (R:=R) (M:=M) token ip).
Proof.
  unfold BindClientIpToSession. apply steady_catch_all; [|apply _].
  apply steady_bind; [apply _|]. intros [fdStr|]; [|apply _]. apply steady_bind; [apply _|]. intros fd.
  apply steady_bind; [apply _|]. intros [pid|]; [|apply _]. apply steady_bind; [apply _|]. intros [s|]; apply _.
Qed.
#[export] Instance steady_probe f : Steady (probe (R:=R) (M:=M) f).
Proof. intros m. unfold probe. destruct (r_answers (m_db m)) as [|[] l]; by apply steady_same. Qed.
#[export] Instance steady_Get : Steady (Get (R:=R) (M:=M)).
Proof.
  unfold Get, setSchema, drop_connection. apply steady_catch_sql; [|apply _]. apply steady_bind; [apply _|]. intros conn.
  apply steady_bind; [destruct conn; apply _|]. intros []; [apply _|]. apply steady_bind; [destruct conn; apply _|]. intros []; apply _.
Qed.
#[export] Instance steady_attempts n uid slots : Steady (attempts (R:=R) (M:=M) n uid slots).
Proof.
  induction n as [|n IH]; cbn [attempts]; [apply _|]. apply steady_bind; [|intros []; apply _].
  unfold ApplyInventoryToDb. case_match; [apply _|]. apply steady_bind; [apply _|]. intros []; cbn [negb]; [|apply _].
  unfold transaction, setAutoCommit, sql_delete, sql_insert, sql_commit, sql_rollback. apply _.
Qed.
#[export] Instance steady_collect fd port es : Steady (collect (R:=R) (M:=M) fd port es).
Proof. induction es as [|e es IH]; cbn [collect]; apply _. Qed.
Lemma collect_rows fd port es (m : Mn) ws m' : collect fd port es m = (inr ws, m') ->
  Forall (fun w => forall s, rows_ok s -> rows_ok (w s)) ws.
Proof.
  revert m ws m'. induction es as [|e es IH]; intros m ws m'; cbn [collect]; [by intros [= <- <-]|].
  unfold mbind, EX_bind. destruct (redis_hget _ _ m) as [[?|loadout] m1]; [done|].
  destruct (redis_hget _ _ m1) as [[?|uid] m2]; [done|]. destruct (collect fd port es m2) as [[?|ws'] m3] eqn:Ec; [done|].
  intros [= <- <-]. apply Forall_app. split; [apply rows_entry|by eapply IH].
Qed.
Lemma steady_pipeline ws : Forall (fun w : r_state -> r_state => forall s, rows_ok s -> rows_ok (w s)) ws ->
  Steady (pipeline (R:=R) (M:=M) ws).
Proof.
  unfold pipeline. induction 1 as [|w ws Hw _ IH]; cbn [ex_for]; [apply _|]. apply steady_bind; [by apply steady_redis|].
  by intros [].
Qed.
#[export] Instance steady_execute q : Steady (Execute (R:=R) (M:=M) q).
Proof.
  destruct q as [fd tids sids toks ks port|]; cbn [Execute]; [|unfold Execute_NotifyPlayerLeft; apply _].
  unfold Execute_UpdateEntryToken. set (es := entries _ _ _ _). apply steady_catch_redis; [|apply _]. intros m.
  pose proof (steady_collect fd port es m) as Hc. unfold mbind, EX_bind. destruct (collect fd port es m) as [[e|ws] m1] eqn:Ec; [done|].
  eapply steady_trans; [exact Hc|]. apply (steady_pipeline ws). by eapply collect_rows.
Qed.
#[export] Instance steady_execute_loop n : Steady (execute_loop (R:=R) (M:=M) n).
Proof.
  induction n as [|n IH]; intros m; cbn [execute_loop]; [apply steady_refl|].
  destruct (_requestQueue m) as [|q l]; [apply steady_refl|].
  apply (steady_trans _ (m <| _requestQueue := l |>)); [by apply steady_same|]. apply (steadily (x:=Execute q ≫= _)).
Qed.
#[export] Instance steady_ExecuteAll : Steady (ExecuteAll (R:=R) (M:=M)).
Proof. intros m. unfold ExecuteAll. destruct (_requestQueue m) as [|q l]; [apply steady_refl|]. apply (steadily (x:=execute_loop _ ≫= _)). Qed.
End steady.

(** ** The invariant of the manager *)

Section manager.
Context {I : Ipc} {LI : IpcLaws I} {R : Redis} {LR : RedisLaws R} {M : Mysql} {E : MainEnv}.
Local Abbreviation Mn := (Main R M).

(** The queues are in order; tickets have the ids given out and began to wait in the
    past; there is a matchmaker for each map; the rows in Redis are in range. *)
Record manager_ok (m : Mn) : Prop := {
  ok_main : main_ok m;
  ok_tickets : forall p t, m_tickets m !! p = Some t -> p < m_nextTicket m /\ 0 <= startTime t <= m_now m;
  ok_maps : map _maxAgression (_matchmakers m) = replicate (Z.to_nat MAP_MAX) MAX_AGRESSION;
  ok_now : 0 <= m_now m;
  ok_rows : rows_ok (r_data (m_redis m)) }.

Lemma steady_ok m m' : steady m m' -> main_ok m' -> manager_ok m -> manager_ok m'.
Proof.
  intros [H1 H2 H3 H4 H5] Hm [_ O2 O3 O4 O5]. constructor; [done| |congruence|congruence|auto].
  intros p t' Hp. destruct (H3 p t' Hp) as (t & Ht & Hc). rewrite H1, H2. unfold core in Hc.
  destruct (O2 p t Ht). split; [done|]. by replace (startTime t') with (startTime t) by congruence.
Qed.
Lemma same_main m m' : m_tickets m' = m_tickets m -> _matchmakers m' = _matchmakers m -> main_ok m -> main_ok m'.
Proof. intros Ht Hm [H1 H2]. constructor; rewrite ?Ht, ?Hm; done. Qed.

(** A call that leaves the queues alone and is steady keeps the invariant, and stays within its arrays. *)
Definition safe {A} (x : EX Mn A) : Prop := triple manager_ok x (fun _ => manager_ok).
Lemma quiet_safe {A} (x : EX Mn A) `{!Quiet x} `{!Steady x} : safe x.
Proof.
  intros m Hm. pose proof (quiet (x:=x) m) as (H1 & H2 & H3). pose proof (steadily (x:=x) m) as Hs.
  destruct (x m) as [[e|a] m']; cbn in *; [congruence|].
  eapply steady_ok; [exact Hs|eapply same_main; [exact H1|exact H2|apply Hm]|exact Hm].
Qed.

#[export] Instance quiet_exget {A} (f : Mn -> A) : Quiet (exget f).
Proof. by intros m. Qed.
#[export] Instance quiet_sql f : Quiet (sql (R:=R) (M:=M) f).
Proof.
  intros m. unfold sql. destruct (call _ _ _) as [o r] eqn:Ec. apply call_data in Ec.
  destruct o as [e|[]]; cbn; [|done|done]. by destruct Ec as [-> _].
Qed.
Lemma quiet_catch_by {A} (x k : EX Mn A) h : (forall e, e <> Undefined -> h e = None \/ h e = Some k) ->
  Quiet x -> Quiet k -> Quiet (catch x h).
Proof.
  intros Hh Hx Hk m. unfold catch. specialize (Hx m). destruct (x m) as [[e|a] m1]; cbn in *; [|done].
  destruct Hx as (H1 & H2 & H3).
  destruct (Hh e ltac:(congruence)) as [-> | ->]; [done|]. destruct (Hk m1) as (H4 & H5 & H6). split_and!; congruence.
Qed.
#[export] Instance quiet_catch_sql {A} (x k : EX Mn A) : Quiet x -> Quiet k -> Quiet (catch_sql x k).
Proof. apply quiet_catch_by. intros []; auto. Qed.
#[export] Instance quiet_catch_all {A} (x k : EX Mn A) : Quiet x -> Quiet k -> Quiet (catch_all x k).
Proof. apply quiet_catch_by. intros []; auto. Qed.
#[export] Instance quiet_for {A} xs (body : A -> EX Mn unit) : (forall x, Quiet (body x)) -> Quiet (ex_for xs body).
Proof. intros H. induction xs as [|x xs IH]; cbn [ex_for]; apply _. Qed.
#[export] Instance quiet_bind_client token ip : Quiet (BindClientIpToSession (R:=R) (M:=M) token ip).
Proof.
  unfold BindClientIpToSession, redis_hget, redis_del. apply quiet_catch_all; [|apply _].
  apply quiet_bind; [apply _|]. intros [fdStr|]; [|apply _]. apply quiet_bind; [apply _|]. intros fd.
  apply quiet_bind; [apply _|]. intros [pid|]; [|apply _]. apply quiet_bind; [apply _|]. intros [s|]; [|apply _].
  apply quiet_bind; [by apply quiet_exmod|]. intros []. apply _.
Qed.
#[export] Instance quiet_collect fd port es : Quiet (collect (R:=R) (M:=M) fd port es).
Proof. induction es as [|e es IH]; cbn [collect]; unfold redis_hget; apply _. Qed.
#[export] Instance quiet_Get : Quiet (Get (R:=R) (M:=M)).
Proof.
  assert (Hp : forall f, Quiet (probe (R:=R) (M:=M) f)).
  { intros f m. unfold probe. destruct (r_answers (m_db m)) as [|[] l]; by split_and!. }
  assert (Hd : Quiet (drop_connection (R:=R) (M:=M))) by by apply quiet_exmod.
  unfold Get, setSchema. apply quiet_catch_sql; [|apply _]. apply quiet_bind; [apply _|]. intros conn.
  apply quiet_bind; [destruct conn; apply _|]. intros []; [apply _|]. apply quiet_bind; [destruct conn; apply _|]. intros []; apply _.
Qed.
#[export] Instance quiet_attempts n uid slots : Quiet (attempts (R:=R) (M:=M) n uid slots).
Proof.
  induction n as [|n IH]; cbn [attempts]; [apply _|]. apply quiet_bind; [|intros []; apply _].
  unfold ApplyInventoryToDb. case_match; [apply _|]. apply quiet_bind; [apply _|]. intros []; cbn [negb]; [|apply _].
  unfold transaction, setAutoCommit, sql_delete, sql_insert, sql_commit, sql_rollback, statement. apply _.
Qed.
#[export] Instance quiet_execute q : Quiet (Execute (R:=R) (M:=M) q).
Proof. destruct q; cbn [Execute]; unfold Execute_UpdateEntryToken, Execute_NotifyPlayerLeft, redis_del; apply _. Qed.
#[export] Instance quiet_execute_loop n : Quiet (execute_loop (R:=R) (M:=M) n).
Proof.
  induction n as [|n IH]; intros m; cbn [execute_loop]; [done|]. destruct (_requestQueue m) as [|q l]; [done|].
  exact (quiet (x:=Execute q ≫= fun _ => execute_loop n) (m <| _requestQueue := l |>)).
Qed.
#[export] Instance quiet_ExecuteAll : Quiet (ExecuteAll (R:=R) (M:=M)).
Proof. intros m. unfold ExecuteAll. destruct (_requestQueue m) as [|q l]; [done|].
exact (quiet (x:=execute_loop (length (q :: l)) ≫= fun _ => mret true) m). Qed.

(** *** Matchmaking *)

(** The clock has not run for as many seconds as an [int] counts. *)
Definition CLOCK_LIMIT : Z := 2 ^ 31 * 1000000000.

Lemma maps_length m : manager_ok m -> length (_matchmakers m) = 2%nat.
Proof. intros Hm. rewrite <- (length_map _maxAgression), (ok_maps _ Hm). done. Qed.
Lemma maps_max m i mm : manager_ok m -> _matchmakers m !! i = Some mm -> _maxAgression mm = MAX_AGRESSION.
Proof.
  intros Hm Hi. pose proof (ok_maps _ Hm) as H. apply (f_equal (lookup i)) in H.
  rewrite list_lookup_fmap, Hi in H. change (Z.to_nat MAP_MAX) with 2%nat in H. by destruct i as [|[|i]]; [injection H|injection H|].
Qed.
Lemma queued_live m i mm p : main_ok m -> _matchmakers m !! i = Some mm -> p ∈ tickets_of mm -> is_Some (m_tickets m !! p).
Proof.
  intros Hm Hi [Hp|Hp]%elem_of_app; destruct (ma_mm _ Hm i mm Hi) as [Hq]; [by apply (q_live _ _ Hq)|auto].
Qed.

Definition in_time_ (m : Mn) : Prop := manager_ok m /\ m_now m < CLOCK_LIMIT.
Lemma StartMatchMake_safe i : (i < 2)%nat -> triple in_time_ (StartMatchMake i) (fun _ => in_time_).
Proof.
  intros Hi m [Hm Ht]. destruct (lookup_lt_is_Some_2 (_matchmakers m) i ltac:(rewrite maps_length; done)) as [mm Hmm].
  assert (Hnew : new_times_ok (m_now m) (m_tickets m) mm).
  { intros p Hp. destruct (queued_live m i mm p (ok_main _ Hm) Hmm Hp) as [t Et]. unfold at_. rewrite Et. cbn.
    destruct (ok_tickets _ Hm p t Et) as [_ Hs]. unfold CLOCK_LIMIT in Ht. lia. }
  pose proof (round_keeps i m mm (ok_main _ Hm) Hmm Hnew) as Hr. pose proof (steadily (x:=StartMatchMake i) m) as Hs.
  destruct (StartMatchMake i m) as [[e|[]] m']; [done|]. cbn in Hs. split; [|by rewrite (sd_now _ _ Hs)].
  eapply steady_ok; [exact Hs|apply Hr|done].
Qed.
Lemma MatchMake_safe : triple in_time_ MatchMake (fun _ => in_time_).
Proof.
  intros m Hm. unfold MatchMake. destruct (MATCH_INTERVAL_MS <=? _); [|done]. rewrite (maps_length m (proj1 Hm)). cbn [seq].
  assert (H1 : in_time_ (m <| _lastTimeMatchStarted := m_now m |>)).
  { destruct Hm as [Hm Ht]. split; [|done]. apply (steady_ok m); [by apply steady_same|by apply (same_main m), Hm|done]. }
  revert H1. generalize (m <| _lastTimeMatchStarted := m_now m |>).
  change (triple in_time_ (ex_for [0; 1]%nat (StartMatchMake (M:=M))) (fun _ => in_time_)).
  cbn [ex_for]. eapply triple_bind; [by apply StartMatchMake_safe; lia|]. intros [].
  eapply triple_bind; [by apply StartMatchMake_safe; lia|]. intros []. apply (triple_ret tt (fun _ => in_time_)).
Qed.

(** A ticket with the next id, in a store of its own or in the queue of its map. *)
Lemma next_free m p mm i : manager_ok m -> _matchmakers m !! i = Some mm -> p ∈ tickets_of mm -> p <> m_nextTicket m.
Proof.
  intros Hm Hi Hp. destruct (queued_live m i mm p (ok_main _ Hm) Hi Hp) as [t Ht]. pose proof (proj1 (ok_tickets _ Hm p t Ht)). lia.
Qed.
Lemma main_ok_agree m m' : main_ok m -> _matchmakers m' = _matchmakers m ->
  (forall i mm p, _matchmakers m !! i = Some mm -> p ∈ tickets_of mm -> m_tickets m' !! p = m_tickets m !! p) -> main_ok m'.
Proof.
  intros [H1 H2] Hmm Ht. constructor; rewrite Hmm; [|done]. intros i mm Hi. eapply mm_ok_agree; [by eapply H1|]. intros p. by eapply Ht.
Qed.
Lemma new_ticket_main t m : manager_ok m -> main_ok (m <| m_tickets ::= <[ m_nextTicket m := t ]> |>).
Proof.
  intros Hm. eapply main_ok_agree; [apply Hm|done|]. intros i mm p Hi Hp. cbn. apply lookup_insert_ne. intros <-. by eapply next_free.
Qed.
Lemma refused_ticket_ok t m : manager_ok m ->
  manager_ok (m <| m_tickets := delete (m_nextTicket m) (<[ m_nextTicket m := t ]> (m_tickets m)) |> <| m_nextTicket ::= Z.succ |>).
Proof.
  intros Hm.
  constructor; cbn; [|intros p t' [Hp Hl]%lookup_delete_Some; rewrite lookup_insert_ne in Hl by done; destruct (ok_tickets _ Hm p t' Hl);
      lia|apply Hm..].
  eapply main_ok_agree; [apply Hm|done|]. intros i mm p Hi Hp. pose proof (next_free m p mm i Hm Hi Hp). cbn.
  by rewrite lookup_delete_ne, lookup_insert_ne.
Qed.
Lemma queued_ticket_ok t m : manager_ok m -> 0 <= mapId t < MAP_MAX -> 0 <= aggression t <= MAX_AGRESSION -> startTime t = m_now m ->
  isMatched t = false -> isValid t = true ->
  manager_ok (m <| m_tickets ::= <[ m_nextTicket m := t ]> |> <| m_nextTicket ::= Z.succ |>
                <| _matchmakers ::= alter (AddSingleMatchTicket (m_nextTicket m)) (Z.to_nat (mapId t)) |>).
Proof.
  intros Hm Hmap Ha Hs Hmt Hv. pose proof (new_ticket_main t m Hm) as [N1 N2]. set (p := m_nextTicket m) in *. cbn in N1, N2.
  assert (Hat : at_ (<[ p := t ]> (m_tickets m)) p = t) by (unfold at_; by rewrite lookup_insert_eq).
  constructor; cbn; [| |rewrite map_alter by done; apply Hm|apply Hm..].
  - assert (Hlook : forall i mm, alter (AddSingleMatchTicket p) (Z.to_nat (mapId t)) (_matchmakers m) !! i = Some mm ->
      exists mm0, _matchmakers m !! i = Some mm0 /\ (mm = mm0 \/ i = Z.to_nat (mapId t) /\ mm = AddSingleMatchTicket p mm0)).
    { intros i mm. destruct (decide (i = Z.to_nat (mapId t))) as [->|Hi].
      - rewrite list_lookup_alter_eq. intros (mm0 & H0 & ->)%fmap_Some. exists mm0. auto.
      - rewrite list_lookup_alter_ne by done. intros H0. exists mm. auto. }
    assert (Hnew : forall i mm, _matchmakers m !! i = Some mm -> ~ (p ∈ tickets_of mm)) by (intros i mm Hi Hp; by eapply next_free).
    assert (Hof : forall mm, tickets_of (AddSingleMatchTicket p mm) = tickets_of mm ++ [p]) by (intros mm; unfold tickets_of; cbn;
        by rewrite app_assoc).
    constructor; cbn.
    + intros i mm (mm0 & H0 & [->|[_ ->]])%Hlook; [by eapply N1|]. apply AddSingleMatchTicket_ok; [by eapply N1| | |by eapply Hnew|by rewrite Hat].
      * by rewrite lookup_insert_eq.
      * by rewrite Hat, (maps_max m i mm0 Hm H0).
    + intros i j mmi mmj q (mi & Hi & Hmi)%Hlook (mj & Hj & Hmj)%Hlook Hij Hq Hq'.
      assert (Hcase : forall k mk mmk, (mmk = mk \/ k = Z.to_nat (mapId t) /\ mmk = AddSingleMatchTicket p mk) -> q ∈ tickets_of mmk ->
        q ∈ tickets_of mk \/ k = Z.to_nat (mapId t) /\ q = p).
      { intros k mk mmk [->|[-> ->]]; [auto|]. rewrite Hof, elem_of_app, list_elem_of_singleton. intros []; auto. }
      destruct (Hcase i mi mmi Hmi Hq) as [Hqi|[-> ->]], (Hcase j mj mmj Hmj Hq') as [Hqj|[-> Hqj]]; [by eapply (N2 i j)|subst q|..].
      * exact (Hnew _ _ Hi Hqi).
      * exact (Hnew _ _ Hj Hqj).
      * done.
  - intros q t' [[<- <-]|[Hq Hl]]%lookup_insert_Some; [pose proof (ok_now _ Hm); rewrite Hs; lia|]. destruct (ok_tickets _ Hm q t' Hl). lia.
Qed.

(** *** Packets *)

Lemma hgetall_reads key (m : Mn) : exists o r, redis_hgetall key m = (o, m <| m_redis := r |>) /\ r_data r = r_data (m_redis m) /\
  (o = inl RedisError \/ o = inr (r_hgetall key (r_data (m_redis m)))).
Proof.
  unfold redis_hgetall, redis. destruct (call RedisError _ (m_redis m)) as [o r] eqn:Ec. exists o, r. split; [done|].
  apply call_data in Ec. destruct o as [e|val]; cbn in Ec; destruct Ec as [-> Hd]; (split; [tauto|auto]).
Qed.
Lemma other_redis_ok r m : r_data r = r_data (m_redis m) -> manager_ok m -> manager_ok (m <| m_redis := r |>).
Proof.
  intros Hr Hm. apply (steady_ok m); [|by apply (same_main m), Hm|done].
  constructor; cbn; try done; [intros p t' Ht; by exists t'|by rewrite Hr].
Qed.
Lemma MatchMake_packet_safe key : ~ is_lock key -> safe (Handle_H2M_MatchMake (M:=M) key).
Proof.
  intros Hk m Hm. unfold Handle_H2M_MatchMake, catch_redis, catch, mbind, EX_bind.
  destruct (hgetall_reads key m) as (o & r & -> & Hd & [-> | ->]); [by apply other_redis_ok|].
  pose proof (other_redis_ok r m Hd Hm) as H1. set (m1 := m <| m_redis := r |>) in *.
  pose proof (ok_rows _ Hm key) as Hrow. unfold r_hget, mbind in Hrow. set (val := r_hgetall key _) in *. case_decide; [done|].
  destruct (option_bind _ _ stoi (val !! "uid")) as [uid|]; [|intros [=]].
  destruct (option_bind _ _ stoi (val !! "aggression")) as [aggr|]; [|intros [=]].
  specialize (Hrow aggr Hk eq_refl). destruct (option_bind _ _ stoi (val !! "map_id")) as [mid|]; [|intros [=]].
  destruct (option_bind _ _ stoi (val !! "character_type")) as [ctype|]; [|intros [=]]. cbn [or_throw exget exmod].
  set (t := new_MatchTicket key uid aggr mid ctype (m_now m1)). unfold AddSingleMatchTicket_main.
  assert (Hat : mapId (at_ (m_tickets (m1 <| m_tickets ::= <[ m_nextTicket m1 := t ]> |> <| m_nextTicket ::= Z.succ |>)) (m_nextTicket m1)) = mid).
  { unfold at_. cbn. by rewrite lookup_insert_eq. }
  rewrite Hat. destruct ((0 <=? mid) && (mid <? MAP_MAX)) eqn:Eb; [|exact (refused_ticket_ok t m1 H1)].
  apply andb_true_iff in Eb as [H0%Z.leb_le Hmax%Z.ltb_lt]. by apply (queued_ticket_ok t m1 H1).
Qed.

(** What the peers send: messages that fit, tokens in full, tickets that are no locks. *)
Definition proper (m : IpcMessage) : Prop :=
  fits m /\ packet_id m <> 0 /\
  match m with
  | H2MMatchMake key => ~ is_lock key
  | D2MTokens p => consistent (TmEntryTokens p)
  | _ => True
  end.
Lemma quiet_register q : Quiet (RegisterDBRequest (R:=R) (M:=M) q).
Proof. by apply quiet_exmod. Qed.
Lemma steady_register q : Steady (RegisterDBRequest (R:=R) (M:=M) q).
Proof. apply steady_exmod. intros m. by apply steady_same. Qed.
#[local] Existing Instances quiet_register steady_register.
Lemma packet_safe peer msg : proper msg -> safe (handlers_main (M:=M) peer msg).
Proof.
  intros (_ & _ & Hp). destruct msg; cbn [handlers_main]; try (apply quiet_safe; apply _).
  - by apply MatchMake_packet_safe.
  - destruct peer; [|apply quiet_safe; apply _]. apply quiet_safe; apply _.
  - cbn in Hp. destruct Hp as (H1 & H2 & H3 & H4). intros m Hm. unfold Handle_D2M_UpdateEntryToken.
    rewrite H1, (proj2 (Z.eqb_neq _ _)), (proj2 (Z.ltb_ge _ _)), Nat2Z.id, H2, H3, H4, Nat.leb_refl by lia. cbn [andb].
    apply (quiet_safe (RegisterDBRequest _ ≫= fun _ => mret true) m Hm).
  - unfold Handle_D2M_NotifyRoomDestroyed. destruct (peer_pid peer) as [pid|]; [|apply quiet_safe; apply _].
    intros m Hm. apply (steady_ok m); [by apply steady_same|by apply (same_main m), Hm|done].
Qed.

(** *** Streams *)

(** The process runs with its queues in order, or has ended with an exception of its own. *)
Definition alive_ok (am : option Exn * Mn) : Prop :=
  match fst am with None => manager_ok (snd am) | Some e => e <> Undefined end.
Lemma in_main_ok {A} (x : EX Mn A) am : safe x -> alive_ok am -> alive_ok (snd (in_main x am)).
Proof.
  intros Hx. destruct am as [[e|] m]; [done|]. cbn. intros Hm. specialize (Hx m Hm). by destruct (x m) as [[e|a] m'].
Qed.

(** What has come on a stream: whole messages, and part of one. *)
Definition in_step (received : list Z) : Prop := exists ms partial next,
  Forall proper ms /\ received = wire ms ++ partial /\
  match next with None => partial = [] | Some m => proper m /\ exists rest, rest <> [] /\ MakeSendBuffer m = partial ++ rest end.
Lemma in_step_next partial next :
  match next with None => partial = [] | Some m => proper m /\ exists rest, rest <> [] /\ MakeSendBuffer m = partial ++ rest end ->
  match MakeSendBuffer <$> next with None => partial = []
    | Some f => Buffers.frame_ok f /\ (length partial < length f)%nat /\ exists y, f = partial ++ y end.
Proof.
  destruct next as [m|]; [|done]. intros ((Hf & _) & rest & Hr & Hm). cbn [fmap option_fmap option_map].
  split_and!; [by apply MakeSendBuffer_frame| |by exists rest].
  rewrite Hm, length_app. destruct rest; [done|cbn; lia].
Qed.
Lemma proper_frames ms : Forall proper ms -> Forall Buffers.frame_ok (map MakeSendBuffer ms).
Proof. intros H. apply Forall_fmap. eapply Forall_impl; [exact H|]. intros m [Hf _]. by apply MakeSendBuffer_frame. Qed.
Lemma frame_safe peer m am : proper m -> alive_ok am -> alive_ok (exec (read_main peer (MakeSendBuffer m)) am).
Proof.
  intros Hm Ha. unfold exec, read_main, in_process. destruct am as [[e|] mn]; [done|].
  pose proof Hm as (Hf & H0 & _). rewrite HandlePacket_sent by done. pose proof (packet_safe peer m Hm mn Ha) as Hs.
  by destruct (handlers_main peer m mn) as [[e|ok] m'].
Qed.
Lemma read_stream_safe peer bytes r am : recv_ok r -> in_step (pending_bytes r ++ bytes) -> alive_ok am ->
  recv_ok (fst (read_stream (OnReadComplete (read_main peer)) bytes r am)) /\
  alive_ok (snd (read_stream (OnReadComplete (read_main peer)) bytes r am)).
Proof.
  intros Hr (ms & partial & next & Hms & Hp & Hn) Ha. destruct bytes as [|b bytes]; [done|]. unfold read_stream.
  rewrite OnReadComplete_some by done. cbn [_recvBuffer s_app]. destruct (OnRead_ok (b :: bytes) r Hr) as (Hr1 & Hp1 & _). rewrite Hp in Hp1.
  pose proof (DataSize_pending _ Hr1) as Hd. rewrite Hp1, length_app in Hd. pose proof (frames_shorter _ (proper_frames ms Hms)) as Hlen.
  destruct (read_loop_inv (read_main peer) alive_ok (map MakeSendBuffer ms) partial (MakeSendBuffer <$> next)
    (S (Z.to_nat (DataSize (OnRead (b :: bytes) r)))) (OnRead (b :: bytes) r) am Hr1 (proper_frames ms Hms)) as (e & r' & am' & E1 & Hr' & Ha'); try done.
  - intros f am' (m & -> & Hm)%list_elem_of_fmap. rewrite Forall_forall in Hms. apply frame_safe. by apply Hms.
  - by apply in_step_next.
  - unfold wire in Hd. lia.
  - rewrite E1. by destruct e.
Qed.

(** The first message of a connection without a name. *)
Lemma finalize_safe pid fd : safe (fun m : Mn => let '(ok, m') := FinalizeConnection pid fd m in (inr ok, m')).
Proof.
  intros m Hm. unfold FinalizeConnection. destruct (_ && _); [|done]. apply (steady_ok m); [by apply steady_same|by apply (same_main m), Hm|done].
Qed.
Lemma temp_safe fd bytes r : recv_ok r -> in_step (pending_bytes r ++ bytes) ->
  triple manager_ok (Temp_OnReadComplete (M:=M) fd bytes r) (fun t m => manager_ok m /\ match t with TempReads r' => recv_ok r' | _ => True end).
Proof.
  intros Hr (ms & partial & next & Hms & Hp & Hn) m Hm. unfold Temp_OnReadComplete. destruct bytes as [|b bytes]; [done|].
  destruct (OnRead_ok (b :: bytes) r Hr) as (Hr1 & Hp1 & _). rewrite Hp in Hp1. set (r1 := OnRead _ _) in *. clearbody r1.
  pose proof (DataSize_pending _ Hr1) as Hd. destruct (DataSize r1 <? PACKET_HEADER_SIZE) eqn:E1; [done|]. apply Z.ltb_ge in E1.
  destruct (DataSize r1 <? ph_size (decode_header (pending_bytes r1))) eqn:E2; [done|]. apply Z.ltb_ge in E2.
  assert (Hsize : PACKET_HEADER_SIZE <= ph_size (decode_header (pending_bytes r1))).
  { rewrite Hd, Hp1 in E1, E2. rewrite Hp1. destruct ms as [|m0 ms].
    - change (wire [] ++ partial) with partial in *. apply in_step_next in Hn.
      destruct next as [m0|]; cbn [fmap option_fmap option_map] in Hn; [|rewrite Hn in E1; by destruct (E1 eq_refl)].
      destruct Hn as ([Hl Hs] & Hlt & y & Hy). rewrite (decode_header_prefix _ _ _ Hy E1) in Hs. lia.
    - apply Forall_cons in Hms as [[Hf _] _]. destruct (MakeSendBuffer_frame _ Hf) as [Hl Hs].
      unfold wire. cbn [map concat]. by rewrite <- app_assoc, (decode_header_prefix _ (MakeSendBuffer m0) _ eq_refl Hl), Hs. }
  rewrite (proj2 (Z.ltb_ge _ _) Hsize). destruct (ipc_parse 100 _) as [[]|]; try done.
  pose proof (finalize_safe pid fd m Hm) as Hs. cbn beta in Hs. destruct (FinalizeConnection pid fd m) as [ok m']. split; [done|by destruct ok].
Qed.

(** *** Runs *)

(** The peers speak the protocol: every stream is, so far, part of a sequence of proper messages. *)
Definition polite_cqe (c : CQE) (s : Server) : Prop :=
  match c with
  | CqHttpRead bytes => forall fd r, HttpSession s = Some (fd, r) -> in_step (pending_bytes r ++ bytes)
  | CqTempRead fd bytes => forall r, se_temps s !! fd = Some r -> in_step (pending_bytes r ++ bytes)
  | CqDediRead pid bytes => in_step (pending_bytes (stream_of pid s) ++ bytes)
  | _ => True
  end.
Fixpoint polite_cqes (cs : list CQE) (s : Server) : Prop :=
  match cs with [] => True | c :: cs' => polite_cqe c s /\ polite_cqes cs' (callback c s) end.

(** Time passes, within the limit of the clock, and the HTTP server keeps its rows in range. *)
Definition polite_turn (t : Turn R) (s : Server) : Prop :=
  0 <= tn_elapsed t /\ m_now (snd (se_main s)) + tn_elapsed t < CLOCK_LIMIT /\
  (forall d, rows_ok d -> rows_ok (tn_redis t d)) /\
  polite_cqes (tn_cqes t) (begin_turn t s).
Fixpoint polite (ts : list (Turn R)) (s : Server) : Prop :=
  match ts with [] => True | t :: ts' => polite_turn t s /\ polite ts' (turn t s) end.

Record server_ok (s : Server) : Prop := {
  sv_alive : alive_ok (se_main s);
  sv_http : forall fd r, HttpSession s = Some (fd, r) -> recv_ok r;
  sv_temps : map_Forall (fun _ => recv_ok) (se_temps s);
  sv_streams : map_Forall (fun _ => recv_ok) (se_streams s) }.

Lemma recv_init_ok : recv_ok recv_buffer_init.
Proof. done. Qed.
Lemma stream_of_ok pid s : server_ok s -> recv_ok (stream_of pid s).
Proof.
  intros Hs. unfold stream_of. destruct (se_streams s !! pid) as [r|] eqn:Er; [by eapply (sv_streams _ Hs)|apply recv_init_ok].
Qed.
Lemma callback_ok c s : server_ok s -> polite_cqe c s -> server_ok (callback c s).
Proof.
  intros Hs Hp. unfold callback. destruct (fst (se_main s)) as [e|] eqn:Ed; [done|].
  pose proof Hs as [Ha H1 H2 H3]. destruct (se_main s) as [d m] eqn:Em. cbn in Ed. subst d.
  destruct c as [res|res|bytes|fd bytes|pid bytes|]; cbn [polite_cqe] in Hp.
  - destruct (res <? 0); [done|]. destruct (HttpSession s) as [[]|]; [done|]. constructor; cbn; rewrite ?Em; try done.
    intros fd r [= _ <-]. apply recv_init_ok.
  - destruct (res <? 0); [done|]. constructor; cbn; rewrite ?Em; try done.
    + apply (steady_ok m); [by apply steady_same|by apply (same_main m), Ha|done].
    + by apply map_Forall_insert_2.
  - destruct (HttpSession s) as [[fd r]|] eqn:Eh; [|done]. unfold HttpIPCSession_OnReadComplete.
    destruct (read_stream_safe (HttpPeer fd) bytes r (None, m) (H1 fd r eq_refl) (Hp fd r eq_refl) Ha) as [Hr' Ha'].
    destruct (read_stream _ _ _ _) as [r' am']. constructor; cbn; try done. by intros fd' r0 [= _ <-].
  - destruct (se_temps s !! fd) as [r|] eqn:Er; [|done].
    pose proof (temp_safe fd bytes r (H2 _ _ Er) (Hp r eq_refl) m Ha) as Ht. cbn [in_main].
    destruct (Temp_OnReadComplete fd bytes r m) as [[e|t] m']; (constructor; cbn; try done).
    + by apply map_Forall_delete.
    + by destruct Ht.
    + destruct Ht as [_ Ht]. destruct t; [by apply map_Forall_insert_2|by apply map_Forall_delete..].
  - destruct (_dediSessions (snd (None, m)) !! pid) as [ses|]; [|done]. unfold M2DSession_OnReadComplete.
    destruct (read_stream_safe (DediPeer pid (_fd ses)) bytes (stream_of pid s) (None, m) (stream_of_ok pid s Hs) Hp Ha) as [Hr' Ha'].
    destruct (read_stream _ _ _ _) as [r' am']. constructor; cbn; try done. by apply map_Forall_insert_2.
  - done.
Qed.
Lemma ExecuteCQTask_ok cs s : server_ok s -> polite_cqes cs s -> server_ok (ExecuteCQTask cs s).
Proof.
  unfold ExecuteCQTask. revert s. induction cs as [|c cs IH]; intros s Hs Hp; [done|]. destruct Hp as [Hc Hp].
  apply IH; [|done]. by apply callback_ok.
Qed.

Lemma in_main_turn (x : EX Mn unit) m : triple in_time_ x (fun _ => in_time_) -> in_time_ m -> alive_ok (snd (in_main x (None, m))).
Proof. intros Hx Hm. cbn. specialize (Hx m Hm). destruct (x m) as [[e|a] m']; [done|apply Hx]. Qed.
Lemma wait_ok ns f m : 0 <= ns -> (forall d, rows_ok d -> rows_ok (f d)) -> manager_ok m -> manager_ok (wait ns f m).
Proof.
  intros Hns Hf [O1 O2 O3 O4 O5]. constructor; cbn; [by apply (same_main m)| |done|lia|by apply Hf].
  intros p t Ht. destruct (O2 p t Ht). lia.
Qed.
Lemma with_main_ok am s : alive_ok am -> server_ok s -> server_ok (s <| se_main := am |>).
Proof. intros Ha [_ H1 H2 H3]. by constructor. Qed.
Lemma begin_turn_ok t s : server_ok s -> 0 <= tn_elapsed t -> m_now (snd (se_main s)) + tn_elapsed t < CLOCK_LIMIT ->
  (forall d, rows_ok d -> rows_ok (tn_redis t d)) -> server_ok (begin_turn t s).
Proof.
  intros Hs H0 Hlim Hf. apply with_main_ok; [|done]. pose proof (sv_alive _ Hs) as Ha. destruct (se_main s) as [[e|] m]; [done|].
  apply (in_main_turn MatchMake); [apply MatchMake_safe|]. split; [by apply wait_ok|done].
Qed.
Lemma end_turn_ok b s : server_ok s -> server_ok (end_turn b s).
Proof.
  intros Hs. unfold end_turn. pose proof (in_main_ok ExecuteAll _ (quiet_safe _) (sv_alive _ Hs)) as Ha.
  destruct (in_main ExecuteAll (se_main s)) as [w am]. cbn [snd] in Ha. destruct (negb b && _); apply with_main_ok; try done.
  destruct am as [[e|] m]; [done|]. by apply wait_ok.
Qed.
Lemma loop_turn_ok t s : server_ok s -> polite_turn t s -> server_ok (turn t s).
Proof. intros Hs (H0 & Hlim & Hf & Hp). apply end_turn_ok, ExecuteCQTask_ok; [by apply begin_turn_ok|done]. Qed.
Lemma main_turns_ok ts s : server_ok s -> polite ts s -> server_ok (main_turns ts s).
Proof.
  unfold main_turns. revert s. induction ts as [|t ts IH]; intros s Hs Hp; [done|]. destruct Hp as [Ht Hp].
  apply IH; [by apply loop_turn_ok|done].
Qed.

Lemma start_ok redis db now : rows_ok (r_data redis) -> 0 <= now -> server_ok (start redis db now).
Proof.
  intros Hr Hn. constructor; cbn; try done. unfold alive_ok. cbn.
  assert (Hnew : manager_ok (new_DediManager redis db now)).
  { assert (Hmm : forall i mm, _matchmakers (new_DediManager redis db now) !! i = Some mm -> mm = new_MatchMaker (Z.of_nat i) MAX_AGRESSION).
    { intros [|[|i]] mm; [by intros [= <-]|by intros [= <-]|done]. }
    constructor; try done. constructor.
    - intros i mm ->%Hmm. by apply new_MatchMaker_ok.
    - intros i j mmi mmj p ->%Hmm _ _ Hp. by apply elem_of_nil in Hp. }
  unfold SpawnSingleServer. destruct (me_fork _ <? 0); (apply (steady_ok (new_DediManager redis db now)); [by apply steady_same| |done]);
    by apply (same_main (new_DediManager redis db now)), Hnew.
Qed.
End manager.

(** ** A concrete instance *)

#[local] Existing Instance sample_redis.
#[local] Existing Instance sample_mysql.

(** The row of a player who waits for a match, and an empty table. *)
Definition sample_ticket : gmap string string :=
  {[ "status" := "WAITING"; "uid" := "7"; "user_id" := "ana"; "rating" := "1000"; "aggression" := "4"; "map_id" := "0";
     "character_type" := "1"; "inventory_items" := "[]"; "equipment_items" := "[]" ]}.
Definition sample_table : Remote (Database (@db_state sample_mysql)) := mk_remote (mk_database [] [] true true) [].
