(* ===== verification/Startup.v ===== *)
(** * Starting the processes

    Models src/src/EnvSetter.cpp (the file with the environment), RedisHandler.cpp (what
    becomes of Redis when the server starts), [MysqlHandle::Init], src/src/main.cpp up to
    its loop, and the start of a dedicated process (DedicateMain.cpp, [Init] of
    DediServerService).

    The driver's parsing of an address and the making of the ring are libraries: they
    succeed or not; the sockets and the HTTP server's process are those of Sockets.  The environment variables must be there:
    [std::string] of a null pointer has no meaning. *)

From S2P Require Import Prelude Buffers Session Stores Sockets Main Matchmaker DBProxy Manager Service Process Tasks Ipc Server.
From Stdlib Require Import Ascii.
From stdpp Require Import strings.
Local Open Scope Z_scope.

(** ** The environment *)

Definition LF : ascii := char 10.
Definition CR : ascii := char 13.
Definition blank (c : ascii) : bool := Ascii.eqb c " " || Ascii.eqb c (char 9).
Definition quote : ascii := char 34.

(** [std::getline] until the end of the file; [acc] is the line so far, backwards. *)
Fixpoint getlines (acc s : chars) : list chars :=
  match s with
  | [] => match acc with [] => [] | _ => [rev acc] end
  | c :: s' => if Ascii.eqb c LF then rev acc :: getlines [] s' else getlines (c :: acc) s'
  end.
Fixpoint drop_blanks (s : chars) : chars := match s with c :: s' => if blank c then drop_blanks s' else s | [] => [] end.
(** The end first, then the front. *)
Definition trim (s : chars) : chars := drop_blanks (rev (drop_blanks (rev s))).
Definition unquote (s : chars) : chars :=
  match s, rev s with
  | c :: s', d :: _ => if (2 <=? length s)%nat && Ascii.eqb c quote && Ascii.eqb d quote then removelast s' else s
  | _, _ => s
  end.

Definition Env := gmap string string.
(** [setenv] refuses an empty name and one with an equals sign. *)
Definition setenv (name value : chars) (env : Env) : Env :=
  match c_str name with
  | [] => env
  | n => if existsb (fun c => Ascii.eqb c "=") n then env else <[ str n := str (c_str value) ]> env
  end.

(** Without a carriage return at its end. *)
Definition chomp (line : chars) : chars := match rev line with d :: r => if Ascii.eqb d CR then rev r else line | [] => line end.
Definition set_line (env : Env) (line : chars) : Env :=
  match line with
  | [] => env
  | c :: _ =>
      if Ascii.eqb c "#" then env
      else
        match split_at "=" (chomp line) with
        | None => env
        | Some (key, value) => setenv (trim key) (unquote (trim value)) env
        end
  end.
(** [None]: there is no file. *)
Definition SetEnv (file : option chars) (env : Env) : Env :=
  match file with None => env | Some content => foldl set_line env (getlines [] content) end.

(** ** The stores *)

Record ItemMeta := mk_item_meta { im_id : string; im_name : string; im_type : string; im_price : string; im_desc : string }.

(** What only the start asks of Redis and MySQL. *)
Class Admin (R : Redis) (M : Mysql) := {
  r_flushdb : r_state -> r_state;                        (* FLUSHDB *)
  r_set_key : string -> string -> r_state -> r_state;    (* SET key value *)
  r_keys : string -> r_state -> list string;             (* KEYS prefix* *)
  db_items : db_state -> list ItemMeta }.                (* SELECT ... FROM items *)
Class AdminLaws (R : Redis) (M : Mysql) (A : Admin R M) : Prop := {
  hgetall_flushdb k s : r_hgetall k (r_flushdb s) = ∅;
  get_flushdb k s : r_get k (r_flushdb s) = None;
  hgetall_set_key k k' v s : k <> k' -> r_hgetall k' (r_set_key k v s) = r_hgetall k' s;
  hgetall_set_key_eq k v s : r_hgetall k (r_set_key k v s) = ∅;
  get_set_key k v s : r_get k (r_set_key k v s) = Some v;
  get_set_key_ne k k' v s : k <> k' -> r_get k' (r_set_key k v s) = r_get k' s;
  keys_prefix p k s : k ∈ r_keys p s -> String.prefix p k = true;
  keys_all p k s : String.prefix p k = true -> r_hgetall k s <> ∅ -> k ∈ r_keys p s }.

Section start.
Context {R : Redis} {M : Mysql} {A : Admin R M} {E : MainEnv}.
Local Abbreviation Mn := (Main R M).

Definition GUEST_COUNTER : string := "guest_uid_counter".
Definition ITEM_META : string := "item_meta:".

(** The handler of an exception reports it and throws it on. *)
Definition ResetKeyspace : EX Mn unit :=
  guestCounter ← redis (fun s => (r_get GUEST_COUNTER s, s));
  _ ← redis (fun s => (tt, r_flushdb s));
  match guestCounter with
  | Some v => redis (fun s => (tt, r_set_key GUEST_COUNTER v s))
  | None => mret tt
  end.

Definition write_item (s : r_state) (i : ItemMeta) : r_state :=
  hset_all (ITEM_META +:+ im_id i) [("name", im_name i); ("type", im_type i); ("price", im_price i); ("desc", im_desc i)] s.
Definition select_items : EX Mn (list ItemMeta) := fun m =>
  let '(o, r) := call SqlError (fun d => (db_items (working d), d)) (m_db m) in (o, m <| m_db := r |>).
Definition InitializeItemCache (db_conn : bool) : EX Mn unit :=
  if negb db_conn then mret tt
  else catch_all (
    _ ← redis (fun s => (tt, r_del (r_keys ITEM_META s) s));
    rows ← select_items;
    match rows with
    | [] => mret tt
    | _ => redis (fun s => (tt, foldl write_item s rows))
    end) (mret tt).

(** ** The main process *)

(** How a start ends: with a code, in the loop, as a dedicated process ([DedicateMain]
    takes over), or without a meaning. *)
Inductive Started := Exits (code : Z) | Loops (s : @Server R M) | Dedicates | Crashes.

(** What the machine gives: whether the address of Redis is one, whether the ring can be
    made, the kernel, what [fork] will return for the HTTP server, the name of the executable and
    whether node is there. *)
Record Machine := mk_machine {
  mc_uri : string -> bool; mc_ring : bool; mc_kernel : Kernel; mc_fork : Z; mc_exe : option chars; mc_node : bool }.
Definition ears (mc : Machine) := open_ears (mc_fork mc) (mc_exe mc) (mc_node mc) (mc_kernel mc).

Definition NEEDED : list string :=
  ["REDIS_HOST"; "REDIS_PORT"; "MYSQL_HOST"; "MYSQL_PORT"; "MYSQL_USER"; "MYSQL_PASSWORD"; "MYSQL_DATABASE"].
Definition redis_url (env : Env) : option string :=
  host ← env !! "REDIS_HOST"; port ← env !! "REDIS_PORT"; Some ("tcp://" +:+ host +:+ ":" +:+ port).

(** From the connection to MySQL to the items in Redis: [m] is the manager just made. *)
Definition prepare (m : Mn) : option Mn :=
  match Get m with
  | (inr true, m1) =>
      match ResetKeyspace m1 with
      | (inr _, m2) =>
          match (conn ← Get; InitializeItemCache conn) m2 with
          | (inr _, m3) => Some m3
          | (inl _, _) => None
          end
      | (inl _, _) => None
      end
  | _ => None
  end.
(** The arguments behind the name of the program. *)
Definition is_dedicated (argv : list string) : bool := match argv with a :: _ => String.eqb a "--dedicated" | [] => false end.
Definition main (argv : list string) (file : option chars) (env : Env) (mc : Machine)
    (redis : Remote r_state) (db : Remote (Database db_state)) (now : Z) : Started :=
  let env := SetEnv file env in
  if is_dedicated argv then Dedicates
  else if negb (forallb (fun v => bool_decide (is_Some (env !! v))) NEEDED) then Crashes
  else if negb (mc_ring mc) then Exits 1
  else if negb (from_option (mc_uri mc) false (redis_url env)) then Exits 1
  else match prepare (new_DediManager redis db now) with
       | None => Exits 1
       | Some m =>
           match ears mc with
           | (inl _, _) => Exits 1
           | (inr _, _) => Loops (mk_server (None, snd (SpawnSingleServer m)) None ∅ ∅)
           end
       end.
End start.

(** ** A dedicated process *)

Section dedicated.
Context {Y : System}.

(** [InitMainIPC]: whether a socket can be made and the main process is there; the
    greeting of [SendIdentityPacket] goes out at once. *)
Definition SendIdentityPacket (pid : Z) : IpcMessage := D2MInitComplete pid.
Definition InitMainIPC (made reached : bool) (pid : Z) : bool * list IpcMessage :=
  if negb made then (false, []) else if negb reached then (false, []) else (true, [SendIdentityPacket pid]).
(** [Init] of the service: what it has sent, and the port and the receives if it succeeds. *)
Definition Init (made reached socket : bool) (pid : Z) : list IpcMessage * option (Z * Io) :=
  match InitMainIPC made reached pid with
  | (false, sent) => (sent, None)
  | (true, sent) => (sent, if negb socket then None else port ← InitUDP; Some (port, io_start))
  end.
(** [DedicateMain] up to its loop, for the process [pid] at time [now]; without a ring the
    process ends at once. *)
Definition DedicateMain (ring made reached socket : bool) (pid now : Z) : list IpcMessage * option (Service * Io) :=
  if negb ring then ([], None)
  else
    let '(sent, o) := Init made reached socket pid in
    (sent, '(port, io) ← o; Some (new_DediServerService now port, io)).

(** The first port that is free. *)
Lemma bind_loop_first fuel port : 0 <= port ->
  match bind_loop fuel port with
  | Some p => port <= p < port + Z.of_nat fuel /\ p <= MAX_PORT /\ sys_bind p = true /\ forall q, port <= q < p -> sys_bind q = false
  | None => forall q, port <= q < port + Z.of_nat fuel -> q <= MAX_PORT -> sys_bind q = false
  end.
Proof.
  revert port. induction fuel as [|fuel IH]; intros port Hp; cbn [bind_loop]; [lia|].
  destruct (Z.leb_spec port MAX_PORT); [|intros q; lia]. destruct (sys_bind port) eqn:Hb; [split_and!; lia || done|].
  specialize (IH (port + 1) ltac:(lia)). destruct (bind_loop fuel (port + 1)) as [p|].
  - destruct IH as (H1 & H2 & H3 & H4). split_and!; try done; try lia. intros q Hq.
    destruct (decide (q = port)) as [->|]; [done|]. apply H4. lia.
  - intros q Hq Hm. destruct (decide (q = port)) as [->|]; [done|]. apply IH; lia.
Qed.

(** A dedicated process that starts has greeted the main process, holds the first free
    port and all its ten receives, and its accounts are in order; one that does not
    start has nevertheless greeted it, unless it had no ring or did not reach it at all. *)
Theorem dedicated_starts ring made reached socket pid now :
  match DedicateMain ring made reached socket pid now with
  | (sent, Some (sv, io)) => sent = [D2MInitComplete pid] /\ service_ok sv /\ posted TD2CRecv io = 10%nat /\
      MIN_PORT <= _udpPort sv <= MAX_PORT /\ sys_bind (_udpPort sv) = true /\ forall q, MIN_PORT <= q < _udpPort sv -> sys_bind q = false
  | (sent, None) => if ring && made && reached then sent = [D2MInitComplete pid] /\
        (socket = false \/ forall q, MIN_PORT <= q <= MAX_PORT -> sys_bind q = false)
      else sent = []
  end.
Proof.
  unfold DedicateMain, Init, InitMainIPC. destruct ring, made, reached; cbn; try done. destruct socket; cbn; [|by split; [|left]].
  pose proof (bind_loop_first (Z.to_nat (MAX_PORT - MIN_PORT + 1)) MIN_PORT ltac:(unfold MIN_PORT; lia)) as H. fold InitUDP in H.
  unfold MIN_PORT, MAX_PORT in *. destruct InitUDP as [port|]; cbn.
  - destruct H as (H1 & H2 & H3 & H4). split_and!; try done; try lia. apply new_service_ok.
  - split; [done|]. right. intros q Hq. apply H; lia.
Qed.
End dedicated.

(** ** Lemmas: the file *)

Lemma getlines_line acc l rest : Forall (fun c => c <> LF) l -> getlines acc (l ++ LF :: rest) = (rev acc ++ l) :: getlines [] rest.
Proof.
  revert acc. induction l as [|c l IH]; intros acc H; cbn [app getlines].
  - by rewrite Ascii.eqb_refl, app_nil_r.
  - apply Forall_cons in H as [Hc H]. rewrite (proj2 (Ascii.eqb_neq _ _) Hc), IH by done. cbn [rev]. by rewrite <- app_assoc.
Qed.
Lemma drop_blanks_id s : match s with c :: _ => blank c = false | [] => True end -> drop_blanks s = s.
Proof. destruct s as [|c s]; [done|]. cbn. by intros ->. Qed.
Lemma trim_id s : match s with c :: _ => blank c = false | [] => True end -> match rev s with c :: _ => blank c = false | [] => True end -> trim s = s.
Proof. intros H1 H2. unfold trim. by rewrite (drop_blanks_id (rev s)), rev_involutive, drop_blanks_id. Qed.

(** A line of the file, in either style. *)
Record EnvLine := mk_env_line { el_name : chars; el_value : chars; el_quoted : bool; el_crlf : bool }.
Definition print_value (l : EnvLine) : chars := if el_quoted l then quote :: el_value l ++ [quote] else el_value l.
Definition print_line (l : EnvLine) : chars :=
  el_name l ++ "="%char :: print_value l ++ (if el_crlf l then [CR; LF] else [LF]).

(** A name without blanks, an equals sign or a hash in front; a value of one line, and
    unless it is quoted, without a blank, a quote or a carriage return at an end. *)
Definition name_char (c : ascii) : Prop := c <> "="%char /\ c <> LF /\ c <> NUL /\ blank c = false.
Definition edge (c : ascii) : Prop := blank c = false /\ c <> quote /\ c <> CR.
Record line_ok (l : EnvLine) : Prop := {
  lo_name : exists c n, el_name l = c :: n /\ c <> "#"%char /\ Forall name_char (c :: n);
  lo_value : Forall (fun c => c <> LF /\ c <> NUL) (el_value l);
  lo_edges : el_quoted l = false -> match el_value l with c :: _ => edge c | [] => True end /\
                                    match rev (el_value l) with c :: _ => edge c | [] => True end }.

Lemma unquote_quoted v : unquote (quote :: v ++ [quote]) = v.
Proof.
  unfold unquote. cbn [rev]. rewrite rev_unit. cbn [app]. rewrite length_cons, length_app. cbn [length].
  replace (2 <=? S (length v + 1))%nat with true by (symmetry; apply Nat.leb_le; lia).
  rewrite Ascii.eqb_refl. cbn [andb]. apply removelast_last.
Qed.
Lemma unquote_id v : match v with c :: _ => c <> quote | [] => True end -> unquote v = v.
Proof.
  destruct v as [|c v]; [done|]. intros H. unfold unquote. destruct (rev (c :: v)); [done|].
  by rewrite (proj2 (Ascii.eqb_neq _ _) H), andb_false_r.
Qed.
Lemma value_read l : line_ok l -> unquote (trim (print_value l)) = el_value l /\
  match rev (print_value l) with c :: _ => c <> CR | [] => True end.
Proof.
  intros [_ _ He]. unfold print_value. destruct (el_quoted l).
  - rewrite trim_id; [by rewrite unquote_quoted; cbn [rev]; rewrite rev_unit|done|cbn [rev]; by rewrite rev_unit].
  - destruct (He eq_refl) as [H1 H2]. split; [|destruct (rev (el_value l)); [done|apply H2]].
    rewrite trim_id, unquote_id; [done| | |]; [destruct (el_value l); [done|apply H1]..|destruct (rev (el_value l));
      [done|apply H2]].
Qed.
Lemma set_line_printed l env : line_ok l ->
  set_line env (el_name l ++ "="%char :: print_value l ++ (if el_crlf l then [CR] else [])) = <[ str (el_name l) := str (el_value l) ]> env.
Proof.
  intros Hl. destruct (value_read l Hl) as [Hv Hcr]. destruct Hl as [(c & n & En & Hc & Hn) Hval _].
  assert (Heq : Forall (fun c => c <> "="%char) (el_name l)) by (rewrite En; eapply Forall_impl; [exact Hn|]; by intros x []).
  assert (Hnul : Forall (fun c => c <> NUL) (el_name l)) by (rewrite En; eapply Forall_impl; [exact Hn|];
    by intros x (_ & _ & H & _)).
  assert (Hcut : chomp (el_name l ++ "="%char :: print_value l ++ (if el_crlf l then [CR] else [])) = el_name l ++ "="%char :: print_value l).
  { unfold chomp. destruct (el_crlf l).
    - rewrite app_comm_cons, app_assoc, rev_unit, Ascii.eqb_refl. by rewrite rev_involutive.
    - rewrite app_nil_r, rev_app_distr. cbn [rev]. destruct (rev (print_value l)) as [|d r] eqn:Er; cbn [app]; [done|].
      by rewrite (proj2 (Ascii.eqb_neq _ _) Hcr). }
  assert (Hfin : setenv (trim (el_name l)) (unquote (trim (print_value l))) env = <[ str (el_name l) := str (el_value l) ]> env).
  { rewrite Hv, trim_id.
    - unfold setenv. rewrite (c_str_id (el_name l)), (c_str_id (el_value l)) by (done || (eapply Forall_impl;
        [exact Hval|]; by intros x [])).
      rewrite En. rewrite <- En. destruct (existsb _ (el_name l)) eqn:Ex; [|done].
      apply existsb_exists in Ex as (x & Hx & ->%Ascii.eqb_eq).
      rewrite Forall_forall in Heq. exfalso. apply (Heq "="%char); [|done]. by apply list_elem_of_In.
    - rewrite En. apply Forall_cons in Hn as [(_ & _ & _ & Hb) _]. done.
    - destruct (rev (el_name l)) as [|x r] eqn:Er; [done|]. assert (Hx : x ∈ el_name l) by (apply list_elem_of_In, in_rev; rewrite Er; by left).
      rewrite En in Hx. rewrite Forall_forall in Hn. by destruct (Hn x Hx) as (_ & _ & _ & Hb). }
  unfold set_line. destruct (el_name l ++ _) as [|d line'] eqn:El; [by rewrite En in El|].
  assert (d = c) as -> by (rewrite En in El; by injection El). rewrite (proj2 (Ascii.eqb_neq _ _) Hc).
  rewrite Hcut, split_at_first by done. exact Hfin.
Qed.

(** ** Lemmas: the stores *)

Section stores.
Context {R : Redis} {LR : RedisLaws R} {M : Mysql} {A : Admin R M} {LA : AdminLaws R M A} {E : MainEnv}.
Local Abbreviation Mn := (Main R M).

(** Redis as a start leaves it: [g] is the counter of the guests it found. *)
Definition item_fields : list string := ["name"; "type"; "price"; "desc"].
Record fresh (g : option string) (s : r_state) : Prop := {
  fr_hash k : String.prefix ITEM_META k = false -> r_hgetall k s = ∅;
  fr_get k : String.prefix ITEM_META k = false -> r_get k s = if decide (k = GUEST_COUNTER) then g else None;
  fr_items k f : f ∉ item_fields -> r_hgetall k s !! f = None }.

Lemma fresh_reset s : fresh (r_get GUEST_COUNTER s)
  (match r_get GUEST_COUNTER s with Some v => r_set_key GUEST_COUNTER v (r_flushdb s) | None => r_flushdb s end).
Proof.
  assert (Hh : forall k, r_hgetall k (match r_get GUEST_COUNTER s with Some v => r_set_key GUEST_COUNTER v (r_flushdb s) | None => r_flushdb s end) = ∅).
  { intros k. destruct (r_get GUEST_COUNTER s) as [v|]; [|apply hgetall_flushdb].
    destruct (decide (GUEST_COUNTER = k)) as [<-|Hk].
    - apply hgetall_set_key_eq.
    - by rewrite hgetall_set_key, hgetall_flushdb. }
  constructor; intros k; [by rewrite Hh| |intros f _; rewrite Hh; apply lookup_empty].
  intros _. destruct (r_get GUEST_COUNTER s) as [v|]; case_decide as Hk; try subst k;
    [apply get_set_key|by rewrite get_set_key_ne, get_flushdb by congruence|apply get_flushdb..].
Qed.
Lemma item_prefix i : String.prefix ITEM_META (ITEM_META +:+ i) = true.
Proof. unfold ITEM_META. cbn. by destruct i. Qed.
Lemma fresh_hset g i f v s : f ∈ item_fields -> fresh g s -> fresh g (r_hset (ITEM_META +:+ i) f v s).
Proof.
  intros Hf [H1 H2 H3].
  assert (Hne : forall k, String.prefix ITEM_META k = false -> ITEM_META +:+ i <> k) by (intros k Hk <-;
    by rewrite item_prefix in Hk).
  constructor.
  - intros k Hk. rewrite hgetall_hset_ne by auto. by apply H1.
  - intros k Hk. rewrite get_hset_ne by auto. by apply H2.
  - intros k f' Hf'. destruct (decide (ITEM_META +:+ i = k)) as [<-|Hk].
    + rewrite hgetall_hset, lookup_insert_ne by congruence. by apply H3.
    + rewrite hgetall_hset_ne by done. by apply H3.
Qed.
Lemma fresh_item g s i : fresh g s -> fresh g (write_item s i).
Proof. intros H. unfold write_item, hset_all. cbn [foldl fst snd]. repeat (apply fresh_hset; [set_solver|]). exact H. Qed.
Lemma fresh_items g l s : fresh g s -> fresh g (foldl write_item s l).
Proof. revert s. induction l as [|i l IH]; intros s H; [done|]. cbn [foldl]. apply IH. by apply fresh_item. Qed.
Lemma fresh_del g s : fresh g s -> fresh g (r_del (r_keys ITEM_META s) s).
Proof.
  intros [H1 H2 H3].
  assert (Hn : forall k, String.prefix ITEM_META k = false -> k ∉ r_keys ITEM_META s) by (intros k Hk Hin%keys_prefix;
    congruence).
  constructor.
  - intros k Hk. rewrite hgetall_del_ne by auto. by apply H1.
  - intros k Hk. rewrite get_del_ne by auto. by apply H2.
  - intros k f Hf. destruct (decide (k ∈ r_keys ITEM_META s)) as [Hin|Hin]; [rewrite hgetall_del by done; apply lookup_empty|].
    rewrite hgetall_del_ne by done. by apply H3.
Qed.
Lemma fresh_rows g s : fresh g s -> rows_ok s.
Proof.
  intros [_ _ H] key a _. unfold r_hget. rewrite H; [done|]. apply (bool_decide_unpack _). vm_compute. exact I.
Qed.

(** A call touches the stores only. *)
Definition stores_only (m m' : Mn) : Prop := m' = m <| m_redis := m_redis m' |> <| m_db := m_db m' |>.
Lemma stores_trans m m1 m2 : stores_only m m1 -> stores_only m1 m2 -> stores_only m m2.
Proof. unfold stores_only. intros -> ->. by destruct m. Qed.

Lemma ResetKeyspace_spec (m m' : Mn) u : ResetKeyspace m = (inr u, m') ->
  stores_only m m' /\ m_db m' = m_db m /\ fresh (r_get GUEST_COUNTER (r_data (m_redis m))) (r_data (m_redis m')).
Proof.
  unfold ResetKeyspace, mbind, EX_bind, redis. destruct (call RedisError _ (m_redis m)) as [[e|g] r1] eqn:E1; [done|].
  apply call_data in E1 as [Eg E1]. cbn in Eg, E1. destruct (call RedisError _ (m_redis (m <| m_redis := r1 |>))) as [[e|[]] r2] eqn:E2; [done|].
  apply call_data in E2 as [_ E2]. cbn in E2. pose proof (fresh_reset (r_data (m_redis m))) as Hf. rewrite <- Eg in Hf.
  rewrite E1 in E2. subst g.
  destruct (r_get GUEST_COUNTER (r_data (m_redis m))) as [v|].
  - destruct (call RedisError _ (m_redis _)) as [[e|[]] r3] eqn:E3; [done|]. apply call_data in E3 as [_ E3]. cbn in E3.
    intros [= _ <-].
    split; [by destruct m|]. split; [done|]. cbn. rewrite E3, E2. exact Hf.
  - intros [= _ <-]. split; [by destruct m|]. split; [done|]. cbn. rewrite E2. exact Hf.
Qed.

Lemma InitializeItemCache_spec g conn (m : Mn) : fresh g (r_data (m_redis m)) ->
  exists u m', InitializeItemCache conn m = (inr u, m') /\ stores_only m m' /\
    committed (r_data (m_db m')) = committed (r_data (m_db m)) /\ fresh g (r_data (m_redis m')).
Proof.
  intros Hf. unfold InitializeItemCache. destruct conn; cbn [negb]; [|exists tt, m; split_and!; try done; by destruct m].
  unfold catch_all, catch, mbind, EX_bind, redis, select_items.
  destruct (call RedisError _ (m_redis m)) as [o1 r1] eqn:E1. apply call_data in E1.
  assert (H1 : fresh g (r_data r1)).
  { destruct o1 as [e|[]]; destruct E1 as [_ E1]; [destruct E1 as [-> | ->]; [done|by apply fresh_del]|rewrite E1;
      by apply fresh_del]. }
  destruct o1 as [e|[]]; [destruct E1 as [-> _]; exists tt, (m <| m_redis := r1 |>); split_and!; try done;
    by destruct m|]. cbn [m_db].
  destruct (call SqlError _ (m_db _)) as [o2 r2] eqn:E2. apply call_data in E2.
  assert (H2 : r_data r2 = r_data (m_db m)) by (destruct o2; cbn in E2;
    [destruct E2 as [_ [-> | ->]]|destruct E2 as [_ ->]]; done).
  destruct o2 as [e|items]; [destruct E2 as [-> _]; exists tt, (m <| m_redis := r1 |> <| m_db := r2 |>); (split_and!;
      [done|by destruct m|cbn; by rewrite H2|done])|].
  destruct items as [|i items]; [exists tt, (m <| m_redis := r1 |> <| m_db := r2 |>); (split_and!;
    [done|by destruct m|cbn; by rewrite H2|done])|].
  destruct (call RedisError _ (m_redis _)) as [o3 r3] eqn:E3. apply call_data in E3. cbn [m_redis] in E3.
  assert (H3 : fresh g (r_data r3)).
  { destruct o3 as [e|[]]; destruct E3 as [_ E3]; [destruct E3 as [-> | ->];
      [done|by apply (fresh_items g (i :: items))]|rewrite E3;
      by apply (fresh_items g (i :: items))]. }
  exists tt, (m <| m_redis := r1 |> <| m_db := r2 |> <| m_redis := r3 |>).
  destruct o3 as [e|[]]; [destruct E3 as [-> _]|]; (split_and!; [done|by destruct m|cbn; by rewrite H2|done]).
Qed.

Lemma prepare_spec (m m' : Mn) : prepare m = Some m' ->
  stores_only m m' /\ committed (r_data (m_db m')) = committed (r_data (m_db m)) /\
  fresh (r_get GUEST_COUNTER (r_data (m_redis m))) (r_data (m_redis m')).
Proof.
  unfold prepare. destruct (Get_total m) as (ok & r & -> & _ & Hc1). destruct ok; [|done].
  destruct (ResetKeyspace _) as [[e|u] m2] eqn:E2; [done|]. apply ResetKeyspace_spec in E2 as (S2 & D2 & F2). cbn in F2, D2.
  unfold mbind, EX_bind. destruct (Get_total m2) as (ok & r' & -> & _ & Hc2).
  destruct (InitializeItemCache_spec (r_get GUEST_COUNTER (r_data (m_redis m))) ok (m2 <| m_db := r' |>)) as (u' & m3 & -> & S3 & D3 & F3); [done|].
  intros [= <-]. cbn in D3. split; [|split; [|done]].
  - eapply stores_trans; [|exact S3]. eapply stores_trans; [|instantiate (1 := m2); by destruct m2].
    eapply stores_trans; [|exact S2]. by destruct m.
  - rewrite D3, Hc2, D2. exact Hc1.
Qed.

(** With answers to come, the preparation ends well. *)
Lemma ResetKeyspace_answered (m : Mn) : r_answers (m_redis m) = [] -> exists m', ResetKeyspace m = (inr tt, m').
Proof.
  intros Hr. unfold ResetKeyspace, mbind, EX_bind, redis, call. rewrite Hr. cbn. destruct (r_get _ _); cbn; by eexists.
Qed.
Lemma Get_answered (m : Mn) : r_answers (m_db m) = [] -> exists r, Get m = (inr true, m <| m_db := r |>).
Proof.
  intros Ha. unfold Get, catch_sql, catch, mbind, EX_bind, exget, probe. destruct (connected (r_data (m_db m))).
  - rewrite Ha. by eexists.
  - unfold setSchema, sql, drop_connection, exmod, mret, EX_ret. cbn. unfold call. cbn. rewrite Ha. by eexists.
Qed.
Lemma prepare_answered (m : Mn) : r_answers (m_redis m) = [] -> r_answers (m_db m) = [] -> exists m', prepare m = Some m'.
Proof.
  intros Hr Hd. unfold prepare. destruct (Get_answered m Hd) as (r & ->).
  set (m1 := m <| m_db := r |>). destruct (ResetKeyspace_answered m1 Hr) as (m2 & E2). rewrite E2.
  apply ResetKeyspace_spec in E2 as (_ & _ & Hf). unfold mbind, EX_bind.
  destruct (Get_total m2) as (ok & r2 & -> & _). cbn beta iota. set (m3 := m2 <| m_db := r2 |>).
  by destruct (InitializeItemCache_spec _ ok m3 Hf) as (u & m4 & -> & _); eexists.
Qed.
End stores.

(** ** Theorems *)

(** The file with the environment is read as it was written: every name gets the value
    of its last line, whether values are quoted or not and whichever way the lines
    end. *)
Theorem env_file_read ls env : Forall line_ok ls ->
  SetEnv (Some (concat (map print_line ls))) env = foldl (fun e l => <[ str (el_name l) := str (el_value l) ]> e) env ls.
Proof.
  intros Hls. unfold SetEnv. revert env. induction Hls as [|l ls Hl Hls IH]; intros env; [done|]. cbn [map concat].
  assert (El : print_line l = (el_name l ++ "="%char :: print_value l ++ (if el_crlf l then [CR] else [])) ++ [LF]).
  { unfold print_line. rewrite <- app_assoc. cbn [app]. rewrite <- app_assoc. by destruct (el_crlf l). }
  rewrite El, <- app_assoc. cbn [app]. rewrite getlines_line.
  - cbn [rev app foldl]. rewrite set_line_printed by done. apply IH.
  - destruct Hl as [(c & n & En & _ & Hn) Hv _]. apply Forall_app.
    split; [rewrite En; eapply Forall_impl; [exact Hn|]; by intros x (_ & H & _)|].
    constructor; [done|]. apply Forall_app. split; [|destruct (el_crlf l); by repeat constructor].
    assert (Hvl : Forall (fun c => c <> LF) (el_value l)) by (eapply Forall_impl; [exact Hv|]; by intros x []).
    unfold print_value. destruct (el_quoted l); [|done]. constructor; [done|]. apply Forall_app.
    split; [done|by repeat constructor].
Qed.

Section theorems.
Context {R : Redis} {LR : RedisLaws R} {M : Mysql} {A : Admin R M} {LA : AdminLaws R M A} {E : MainEnv}.

(** A main process in its loop has prepared the stores and opened its ears. *)
Lemma main_loops argv file env mc redis db now s : main (M:=M) argv file env mc redis db now = Loops s ->
  (exists m, prepare (new_DediManager redis db now) = Some m /\ s = start (m_redis m) (m_db m) now) /\
  exists r k', ears mc = (inr r, k').
Proof.
  unfold main. destruct (is_dedicated argv); [done|]. do 3 (destruct (negb _); [done|]).
  destruct (prepare _) as [m|] eqn:Ep; [|done].
  destruct (ears mc) as [[e|r] k']; [done|]. intros [= <-]. split; [|by eexists _, _]. exists m. split; [done|].
  apply prepare_spec in Ep as (Hs & _). unfold start. by rewrite Hs.
Qed.

(** What a start needs: the environment, a ring and sockets, Redis and MySQL answering. *)
Record favourable (argv : list string) (file : option chars) (env : Env) (mc : Machine)
    (redis : Remote r_state) (db : Remote (Database db_state)) : Prop := {
  fv_main : is_dedicated argv = false;
  fv_needed name : name ∈ NEEDED -> is_Some (SetEnv file env !! name);
  fv_uri : from_option (mc_uri mc) false (redis_url (SetEnv file env)) = true;
  fv_ring : mc_ring mc = true;
  fv_kernel : k_grants (mc_kernel mc) = [];
  fv_redis : r_answers redis = [];
  fv_db : r_answers db = [] }.

(** C15. The main process enters its loop only from a clean slate: of what an earlier run left in
    Redis - sessions, tickets, tokens, locks of players in a match - nothing is there but
    the counter of guests, with the value it had, and the rows of the items; MySQL is
    as it was, the queues are empty, one dedicated process is on its way, and both ears are
    open on their paths.  And when everything it needs answers, it does enter the loop,
    whatever an earlier run has left in Redis and in the file system. *)
Theorem main_starts_clean argv file env mc redis db now :
  (forall s, main (M:=M) argv file env mc redis db now = Loops s ->
   exists redis' db' https dedicate node k', s = start redis' db' now /\
     fresh (r_get GUEST_COUNTER (r_data redis)) (r_data redis') /\ committed (r_data db') = committed (r_data db) /\
     ears mc = (inr (https, dedicate, node), k') /\ ears_open (mc_kernel mc) https dedicate k') /\
  (favourable argv file env mc redis db -> exists s, main (M:=M) argv file env mc redis db now = Loops s).
Proof.
  destruct (open_ears_spec (mc_fork mc) (mc_exe mc) (mc_node mc) (mc_kernel mc)) as [Hears Hgrant].
  fold (ears mc) in Hears, Hgrant.
  split.
  - intros s ((m & Ep & ->) & ([[h d] [ok child]] & k' & Ee))%main_loops. rewrite Ee in Hears. destruct Hears as [Hears _].
    apply prepare_spec in Ep as (_ & Hc & Hf). by exists (m_redis m), (m_db m), h, d, (ok, child), k'.
  - intros [Hm Hn Hu Hring Hk Hr Hd]. unfold main. rewrite Hm, Hring. destruct (forallb _ _) eqn:Ef; cbn [negb].
    + rewrite Hu. destruct (prepare_answered (new_DediManager redis db now) Hr Hd) as [m ->].
      destruct (Hgrant Hk) as (r & k' & ->). by eexists.
    + exfalso. apply not_true_iff_false in Ef. apply Ef, forallb_forall. intros name Hin%list_elem_of_In.
      by apply bool_decide_eq_true, Hn.
Qed.

Context {I : Ipc} {LI : IpcLaws I}.

(** C13. From [main] on, whatever the stores held, whatever the kernel makes of the streams of
    its peers and whatever becomes of its commands to Redis and MySQL, the main process
    never leaves the bounds of its arrays nor follows a dangling ticket; as long as no
    exception has ended it, its queues are in order, and the tickets in them are live
    and waiting. *)
Theorem main_process_sound argv file env mc redis db now ts s :
  main (M:=M) argv file env mc redis db now = Loops s -> 0 <= now -> polite ts s ->
  match se_main (main_turns ts s) with
  | (None, m) => manager_ok m
  | (Some e, _) => e <> Undefined
  end.
Proof.
  intros Hmain Hn Hp.
  assert (Hs : server_ok s).
  { destruct (main_loops _ _ _ _ _ _ _ _ Hmain) as [(m & Ep & ->) _]. apply prepare_spec in Ep as (_ & _ & Hf).
    apply (start_ok (m_redis m) (m_db m) now); [by eapply fresh_rows|done]. }
  pose proof (sv_alive _ (main_turns_ok ts _ Hs Hp)) as Ha. by destruct (se_main (main_turns ts s)) as [[e|] m].
Qed.
End theorems.

(** ** Witnesses

    A start from a file, with a stale ticket and the counter of the guests in Redis; the
    HTTP server and a dedicated process connect, two players queue, and a minute later
    they are a group. *)

#[local] Existing Instance sample_ipc.
#[local] Existing Instance sample_ipc_laws.
#[local] Existing Instance sample_redis.
#[local] Existing Instance sample_redis_laws.
#[local] Existing Instance sample_mysql.
#[local] Existing Instance sample_env.

Definition sample_key_names (p : string) (s : gmap string (gmap string string) * gmap string string) : list string :=
  List.filter (String.prefix p) (map fst (map_to_list s.1)).
#[local] Instance sample_admin : Admin sample_redis sample_mysql := {|
  r_flushdb s := (∅, ∅);
  r_set_key k v s := (delete k s.1, <[ k := v ]> s.2);
  r_keys := sample_key_names;
  db_items d := [mk_item_meta "4" "apple" "1" "10" "red"] |}.
Lemma sample_admin_laws : AdminLaws sample_redis sample_mysql sample_admin.
Proof.
  constructor; cbn; intros; rewrite ?lookup_insert_eq, ?lookup_insert_ne, ?lookup_delete_eq, ?lookup_delete_ne by done; try done.
  - apply list_elem_of_In, filter_In in H. tauto.
  - apply list_elem_of_In, filter_In. split; [|done]. apply list_elem_of_In. destruct (s.1 !! k) as [row|] eqn:Er; [|done].
    apply list_elem_of_fmap. exists (k, row). split; [done|]. by apply elem_of_map_to_list.
Qed.
#[local] Existing Instance sample_admin_laws.

Definition line (name value : string) (quoted crlf : bool) : EnvLine :=
  mk_env_line (String.list_ascii_of_string name) (String.list_ascii_of_string value) quoted crlf.
Definition sample_lines : list EnvLine := [
  line "REDIS_HOST" "localhost" false false; line "REDIS_PORT" "6379" false true; line "MYSQL_HOST" "localhost" true false;
  line "MYSQL_PORT" "3306" true true; line "MYSQL_USER" "game" false false; line "MYSQL_PASSWORD" " a=b " true false;
  line "MYSQL_DATABASE" "raid" false false ].
Definition sample_file : option chars := Some (concat (map print_line sample_lines)).
Definition sample_left : Remote (@r_state sample_redis) :=
  mk_remote ({[ "ticket_old" := sample_ticket; "item_meta:4" := {[ "price" := "9" ]} ]}, {[ GUEST_COUNTER := "-42";
    "active_match:7" := "ticket_old" ]}) [].
(** The names of the sockets of an earlier run are still there. *)
Definition sample_machine : Machine :=
  mk_machine (fun _ => true) true (mk_kernel ∅ {[ HTTPS_SOCK; DEDICATE_SOCK ]} []) 50 (Some (chars_of "/srv/bin/server")) true.
Definition sample_boot : Started := main [] sample_file ∅ sample_machine sample_left sample_table 0.

Lemma env_file_read_witness : SetEnv sample_file ∅ !! "MYSQL_PASSWORD" = Some " a=b " /\ SetEnv sample_file ∅ !! "REDIS_PORT" = Some "6379".
Proof.
  pose proof (env_file_read sample_lines ∅) as H. unfold sample_file. rewrite H.
  - split; vm_compute; reflexivity.
  - repeat (apply Forall_cons; split; [constructor; cbn [el_name el_value el_quoted line];
      [eexists; eexists; split; [reflexivity|]; split; [discriminate|]; repeat constructor; discriminate
      |repeat (constructor; [split; discriminate|]); constructor
      |first [discriminate | intros _; vm_compute; repeat split; discriminate]]|]). constructor.
Defined.

Lemma main_starts_clean_witness : exists s redis' db' https dedicate node k', sample_boot = Loops s /\ s = start redis' db' 0 /\
  fresh (Some "-42") (r_data redis') /\ committed (r_data db') = [] /\
  ears sample_machine = (inr (https, dedicate, node), k') /\ listening https k' /\ listening dedicate k' /\
  node = (true, Some (mk_child ∅ SIGTERM (Some ("node", ["node"; "/srv/bin/../HTTPServer/index.js"])))).
Proof.
  destruct (main_starts_clean [] sample_file ∅ sample_machine sample_left sample_table 0) as [Hclean Hstart].
  destruct Hstart as [s Eb].
  - constructor; try reflexivity. apply Forall_forall. apply (bool_decide_unpack _). vm_compute. exact I.
  - destruct (Hclean s Eb) as (redis' & db' & h & d & node & k' & H1 & H2 & H3 & H4 & H5).
    exists s, redis', db', h, d, node, k'. split; [exact Eb|]. split; [exact H1|]. split; [exact H2|]. split; [exact H3|].
    split; [exact H4|]. destruct H5 as [[L1 _] [L2 _] _ _]. split; [exact L1|]. split; [exact L2|].
    assert (E : fst (ears sample_machine) = inr (h, d, node)) by (rewrite H4; reflexivity).
    vm_compute in E. injection E as _ _ <-. reflexivity.
Defined.

Definition sample_server : Server := match sample_boot with Loops s => s | _ => start sample_left sample_table 0 end.
(** What the HTTP server writes when the two queue. *)
Definition add_tickets (s : @r_state sample_redis) : @r_state sample_redis :=
  (<[ "t1" := sample_ticket ]> (<[ "t2" := sample_ticket ]> s.1), s.2).
Definition hello : list Z := MakeSendBuffer (D2MInitComplete 100).
Definition sample_turns : list (Turn sample_redis) := [
  mk_turn 1000000000 add_tickets [CqHttpAccept 5; CqDediAccept 7; CqTempRead 7 (take 3 hello); CqTempRead 7 (drop 3 hello);
    CqHttpRead (wire [H2MMatchMake "t1"; H2MMatchMake "t2"])];
  mk_turn 61000000000 id [] ].

Lemma sample_server_loops : sample_boot = Loops sample_server.
Proof.
  assert (H : match sample_boot with Loops _ => true | _ => false end = true) by (vm_compute; reflexivity).
  unfold sample_server. by destruct sample_boot.
Qed.
Lemma add_tickets_ok s : rows_ok s -> rows_ok (add_tickets s).
Proof.
  intros Hs key a Hl. unfold r_hget. cbn [r_hgetall sample_redis add_tickets fst].
  assert (Ht : forall row, row = sample_ticket -> row !! "aggression" ≫= stoi = Some a -> 0 <= a <= MAX_AGRESSION).
  { intros row -> H. vm_compute in H. injection H as <-. unfold MAX_AGRESSION. lia. }
  destruct (decide (key = "t1")) as [->|H1]; [rewrite lookup_insert_eq; by apply Ht|]. rewrite lookup_insert_ne by done.
  destruct (decide (key = "t2")) as [->|H2]; [rewrite lookup_insert_eq; by apply Ht|]. rewrite lookup_insert_ne by done.
  by apply Hs.
Qed.
Lemma proper_ticket key : fitsb (H2MMatchMake key) = true -> String.get 1 key <> Some "c"%char -> proper (H2MMatchMake key).
Proof.
  intros Hf Hc. split; [by apply fitsb_spec|]. split; [done|]. intros [u ->]. by apply Hc.
Qed.
Lemma main_process_sound_witness : exists m,
  se_main (main_turns sample_turns sample_server) = (None, m) /\ manager_ok m /\
  map (fun o => match o with OutMakeRoom pid pkt => Some (pid, length (mr_player_infos pkt)) | _ => None end) (m_out m) = [Some (100, 2%nat)].
Proof.
  assert (Hpid : proper (D2MInitComplete 100)) by (split; [apply fitsb_spec; vm_compute; reflexivity|split;
    [discriminate|exact I]]).
  assert (Hp : polite sample_turns sample_server).
  { assert (Ht : forall key, key = "t1" \/ key = "t2" -> proper (H2MMatchMake key))
      by (intros key [-> | ->]; (apply proper_ticket; [vm_compute; reflexivity|discriminate])).
    split; [|split; [|exact I]]; (split; [discriminate|split; [vm_compute; reflexivity|split;
      [first [exact add_tickets_ok | intros d Hd;
        exact Hd]|]]]); [|exact I].
    split; [exact I|]. split; [exact I|]. split; [|split; [|split; [|exact I]]].
    - intros r Hr. vm_compute in Hr. injection Hr as <-. exists [], (take 3 hello), (Some (D2MInitComplete 100)).
      split; [constructor|]. split; [reflexivity|]. split; [exact Hpid|]. exists (drop 3 hello). split; [discriminate|].
      symmetry. apply take_drop.
    - intros r Hr. vm_compute in Hr. injection Hr as <-. exists [D2MInitComplete 100], [], None.
      split; [constructor; [exact Hpid|constructor]|]. split; [vm_compute; reflexivity|reflexivity].
    - intros fd r Hr. vm_compute in Hr. injection Hr as <- <-. exists [H2MMatchMake "t1"; H2MMatchMake "t2"], [], None.
      split; [constructor; [apply Ht; left; reflexivity|constructor; [apply Ht; right; reflexivity|constructor]]|].
      split; [vm_compute; reflexivity|reflexivity]. }
  pose proof (main_process_sound [] sample_file ∅ sample_machine sample_left sample_table 0 sample_turns sample_server sample_server_loops
    (Z.le_refl 0) Hp) as H.
  assert (Hrun : match se_main (main_turns sample_turns sample_server) with
    | (None, m) => map (fun o => match o with OutMakeRoom pid pkt => Some (pid, length (mr_player_infos pkt)) | _ => None end) (m_out m)
    | _ => [] end = [Some (100, 2%nat)]) by (vm_compute; reflexivity).
  destruct (se_main (main_turns sample_turns sample_server)) as [[e|] m]; [discriminate Hrun|].
  exists m. split; [reflexivity|]. split; [exact H|exact Hrun].
Defined.
