(* ===== verification/Deployment.v ===== *)
(** * The main process and a dedicated one together

    Runs of both processes with the two directions of their connection as queues of
    messages (Ipc.v: a stream of bytes delivers exactly the messages, in order), in any
    interleaving: the main process goes on with the other processes, the HTTP server,
    matchmaking and the stores, the dedicated process with its rooms and clients, and
    either takes the next message of the other when it likes.

    What is proved is the accounts of places across the two: the main process counts
    the players it has given to a process (M2DSessions.cpp), the process holds them in
    rooms and reports the size of a room it destroys (DediServerService.cpp); messages
    of both kinds are under way, and groups wait for a process that is still starting. *)

From S2P Require Import Prelude Items Transport Geometry MapData Protocol Session Room Handlers Calm Safety Rooms Stores Main Matchmaker DBProxy Manager Service Process Ipc Server.
From stdpp Require Import strings.
Local Open Scope Z_scope.

(** ** The players a process has, and has reported gone *)

Definition guests (w : World) : Z := Z.of_nat (size (sess w)).
Definition hosted (rooms : gmap Z World) : Z := map_fold (fun _ n acc => n + acc) 0 (guests <$> rooms).
Definition returned (l : list ToMain) : Z := foldr (fun r n => default 0 (report_players r) + n) 0 l.

Lemma returned_app l k : returned (l ++ k) = returned l + returned k.
Proof. unfold returned. induction l as [|r l IH]; cbn [app foldr]; lia. Qed.
(** Nobody comes back twice. *)
Definition fair (r : ToMain) : Prop := 0 <= default 0 (report_players r).
Lemma returned_nonneg l : Forall fair l -> 0 <= returned l.
Proof. unfold returned, fair. induction 1; cbn [foldr]; lia. Qed.

Lemma guests_nonneg w : 0 <= guests w.
Proof. unfold guests. lia. Qed.
Lemma guests_kept w w' : kept w w' -> guests w' = guests w.
Proof.
  intros [_ H]. unfold guests. f_equal. rewrite <- !size_dom. f_equal. apply set_eq. intros sid. rewrite !elem_of_dom, <- !not_eq_None_Some.
  specialize (H sid). unfold own in H. destruct (sess w !! sid), (sess w' !! sid); cbn in H; split; intros; try done; intuition congruence.
Qed.

Lemma hosted_ext (rooms rooms' : gmap Z World) :
  (forall rid, match rooms !! rid, rooms' !! rid with
     Some w, Some w' => kept w w' | None, None => True | _, _ => False end) -> hosted rooms' = hosted rooms.
Proof.
  intros H. unfold hosted. f_equal. apply map_eq. intros rid. rewrite !lookup_fmap. specialize (H rid).
  destruct (rooms !! rid), (rooms' !! rid); try done. cbn. by rewrite (guests_kept _ _ H).
Qed.
Lemma hosted_insert rid w rooms : rooms !! rid = None -> hosted (<[ rid := w ]> rooms) = guests w + hosted rooms.
Proof.
  intros Hr. unfold hosted. rewrite fmap_insert, map_fold_insert_L; [done|intros; lia|]. by rewrite lookup_fmap, Hr.
Qed.
Lemma hosted_delete rid w rooms : rooms !! rid = Some w -> hosted rooms = guests w + hosted (delete rid rooms).
Proof. intros Hr. rewrite <- (hosted_insert rid) by apply lookup_delete_eq. by rewrite insert_delete_id. Qed.
Lemma hosted_nonneg rooms : 0 <= hosted rooms.
Proof.
  induction rooms as [|rid w rooms Hr IH] using map_ind; [done|]. rewrite hosted_insert by done. pose proof (guests_nonneg w). lia.
Qed.

Lemma size_within (X F : gset Z) : (size X <= size F + size (X ∖ F))%nat.
Proof. rewrite <- size_union_alt. apply subseteq_size. intros x Hx. apply elem_of_union. by right. Qed.
(** As many sessions as have different ids. *)
Lemma crowd (rooms : gmap Z World) (X : gset Z) :
  (forall sid, sid ∈ X -> exists rid w, rooms !! rid = Some w /\ is_Some (own sid w)) -> Z.of_nat (size X) <= hosted rooms.
Proof.
  revert X. induction rooms as [|rid w rooms Hr IH] using map_ind; intros X HX.
  { assert (X = ∅) as ->; [|done]. apply set_eq. intros sid. split; [|by intros []%elem_of_empty]. by intros (rid & w & Hw & _)%HX. }
  rewrite hosted_insert by done. set (D := dom (sess w)).
  pose proof (size_within X D) as H1. assert (Hd : size D = size (sess w)) by apply size_dom.
  assert (H2 : Z.of_nat (size (X ∖ D)) <= hosted rooms).
  { apply IH. intros sid [Hs Hn]%elem_of_difference. destruct (HX sid Hs) as (k & v & [[<- <-]|[_ Hv]]%lookup_insert_Some & Ho); [|by exists k, v].
    exfalso. apply Hn, elem_of_dom. unfold own in Ho. destruct (sess w !! sid); [by eexists|by destruct Ho]. }
  unfold guests. lia.
Qed.

Section process.
Context {E : External} {L : ExternalLaws E} {G : Rng} {Y : System} {LY : SystemLaws Y}.

(** From [sv] to [sv'] at most [k] players have come, and who is gone is reported at most once. *)
Record settles (k : Z) (sv sv' : Service) : Prop := {
  se_ok : service_ok sv';
  se_told : exists l, sv_toMain sv' = sv_toMain sv ++ l /\ Forall fair l /\
    hosted (_gameRooms sv') + returned l <= hosted (_gameRooms sv) + k;
  se_places : length (_players sv) = 51%nat -> hosted (_gameRooms sv) + k <= 50 -> length (_players sv') = 51%nat }.
Definition reasonable (sv : Service) : Prop := service_ok sv /\ hosted (_gameRooms sv) < 2 ^ 31.
Definition stays (sv sv' : Service) : Prop := reasonable sv -> settles 0 sv sv'.

Lemma settles_less sv sv' : settles 0 sv sv' -> hosted (_gameRooms sv') <= hosted (_gameRooms sv).
Proof. intros [_ (l & _ & Hl & H) _]. pose proof (returned_nonneg l Hl). lia. Qed.
Lemma settles_trans k j sv sv1 sv2 : 0 <= j -> settles k sv sv1 -> settles j sv1 sv2 -> settles (k + j) sv sv2.
Proof.
  intros Hj [_ (l1 & E1 & F1 & H1) P1] [H (l2 & E2 & F2 & H2) P2]. pose proof (returned_nonneg l1 F1). constructor; [done| |].
  - exists (l1 ++ l2). rewrite E2, E1, app_assoc, returned_app. split_and!; [done|by apply Forall_app|lia].
  - intros Hl Hb. apply P2; [apply P1; [done|lia]|lia].
Qed.
Lemma settles_same sv sv' : service_ok sv' -> hosted (_gameRooms sv') = hosted (_gameRooms sv) -> sv_toMain sv' = sv_toMain sv ->
  length (_players sv') = length (_players sv) -> settles 0 sv sv'.
Proof.
  intros Hok Hh Hm Hl. constructor; [done| |by rewrite Hl]. exists []. rewrite Hm, app_nil_r, Hh. split_and!; [done|constructor|cbn; lia].
Qed.
#[export] Instance stays_preorder : PreOrder stays.
Proof.
  split; [intros sv [Hok _]; by apply settles_same|]. intros a b c Hab Hbc Ha. specialize (Hab Ha).
  apply (settles_trans 0 0 a b c (Z.le_refl 0) Hab), Hbc. split; [apply Hab|]. pose proof (settles_less _ _ Hab). destruct Ha. lia.
Qed.
Lemma stays_frame sv sv' : _gameRooms sv' = _gameRooms sv -> _players sv' = _players sv -> _freePlayerIds sv' = _freePlayerIds sv ->
  sv_roomId sv' = sv_roomId sv -> sv_toMain sv' = sv_toMain sv -> stays sv sv'.
Proof. intros Hr Hp Hf Hi Hm [Hok _]. apply settles_same; [by apply (frame_ok sv)|by rewrite Hr|done|by rewrite Hp]. Qed.
Lemma stays_foldl {A} (f : Service -> A -> Service) xs sv : (forall sv x, stays sv (f sv x)) -> stays sv (foldl f sv xs).
Proof. intros Hf. revert sv. induction xs as [|x xs IH]; intros sv; [reflexivity|]. cbn [foldl]. etrans; [apply Hf|apply IH]. Qed.

(** What a room puts out is about players who leave it, not about the room. *)
Lemma act_told os sv : exists l, sv_toMain (foldl (fun sv o => act_on o sv) sv os) = sv_toMain sv ++ l /\ Forall (fun r => report_players r = None) l.
Proof.
  revert sv. induction os as [|o os IH]; intros sv; [exists []; by rewrite app_nil_r|]. cbn [foldl].
  destruct (IH (act_on o sv)) as (l & -> & F1). destruct o; try (exists l; done).
  exists (TmLeft m :: l). cbn. rewrite <- app_assoc. split; [done|]. by constructor.
Qed.
Lemma stays_in_room rid l sv : stays sv (in_room rid l sv).
Proof.
  intros [Hok _]. constructor; [by apply in_room_ok| |by rewrite (proj1 (in_room_frame rid l sv))].
  assert (Hh : hosted (_gameRooms (in_room rid l sv)) = hosted (_gameRooms sv)).
  { apply hosted_ext. intros k. rewrite in_room_rooms.
    destruct (_gameRooms sv !! k) as [w|] eqn:Hw; case_decide as Hk; try subst k; rewrite ?Hw; cbn; try done.
    - by apply step_kept, (ac_rooms _ _ Hok rid w).
    - by apply kept_refl, (ac_rooms _ _ Hok k w). }
  assert (Ht : exists l', sv_toMain (in_room rid l sv) = sv_toMain sv ++ l' /\ Forall (fun r => report_players r = None) l').
  { unfold in_room. destruct (_gameRooms sv !! rid) as [w|]; [|exists []; by rewrite app_nil_r].
    destruct (act_told (drop (length (w_out w)) (w_out (step l w))) (sv <| _gameRooms ::= <[ rid := step l w ]> |>)) as (x & E1 & F1). by exists x. }
  destruct Ht as (l' & -> & F1). exists l'. split; [done|]. rewrite Hh. clear Hh. induction F1 as [|r l' Hr F1 [IH1 IH2]]; [by split; [|cbn; lia]|].
  change (returned (r :: l')) with (default 0 (report_players r) + returned l'). split; [constructor; [unfold fair; by rewrite Hr|done]|].
  rewrite Hr. cbn [default from_option]. lia.
Qed.

Lemma stays_CheckRetransmits sv : stays sv (CheckRetransmits sv).
Proof.
  unfold CheckRetransmits. case_match; [reflexivity|]. etrans; [|apply stays_foldl]; [by apply stays_frame|].
  intros sv' i. unfold retransmit_turn. case_match; [apply stays_in_room|reflexivity].
Qed.
Lemma stays_UpdateGameRooms sv : stays sv (UpdateGameRooms sv).
Proof.
  unfold UpdateGameRooms. case_match; [reflexivity|].
  transitivity (foldl (update_turn (_updatePhase sv)) (sv <| _lastRoomUpdateTime := sv_now sv |>) (ext_keys _ (_gameRooms sv)));
      [|by apply stays_frame].
  etrans; [|apply stays_foldl]; [by apply stays_frame|]. intros sv' rid. unfold update_turn.
  repeat case_match; try reflexivity; try apply stays_in_room. etrans; apply stays_in_room.
Qed.
Lemma DestroyRoom_places sv rid : length (_players (DestroyRoom sv rid)) = length (_players sv).
Proof.
  unfold DestroyRoom. destruct (_gameRooms sv !! rid) as [w|]; [|done]. cbn. set (sv1 := to_main _ sv). change (_players sv) with (_players sv1).
  generalize (ext_keys _ (sess w)). intros ks. generalize sv1. clear. induction ks as [|k ks IH]; intros sv; [done|]. cbn [foldl]. rewrite IH.
  unfold release_session. destruct (_ !! k); [|done]. cbn. case_match; [apply length_insert|done].
Qed.
(** A room that is destroyed: its players are reported, all of them. *)
Lemma stays_DestroyRoom sv rid : stays sv (DestroyRoom sv rid).
Proof.
  intros [Hok Hb]. constructor; [by apply DestroyRoom_ok| |by rewrite DestroyRoom_places]. unfold DestroyRoom.
  destruct (_gameRooms sv !! rid) as [w|] eqn:Hw; [|exists []; rewrite app_nil_r; by split_and!; [|constructor|cbn; lia]].
  set (sv1 := to_main _ sv). destruct (release_rooms w (ext_keys _ (sess w)) sv1) as (Hr & _ & Hm). cbn. rewrite Hr, Hm.
  exists [TmRoomDestroyed rid (i32 (guests w))]. split; [done|].
  pose proof (hosted_delete rid w _ Hw) as Hd. pose proof (hosted_nonneg (delete rid (_gameRooms sv))). pose proof (guests_nonneg w).
  rewrite i32_id by (unfold is_i32; lia). split; [constructor; [done|constructor]|]. cbn. lia.
Qed.
Lemma stays_DestroyPendingRooms sv : stays sv (DestroyPendingRooms sv).
Proof.
  unfold DestroyPendingRooms. case_match; [reflexivity|].
  transitivity (foldl DestroyRoom (sv <| _lastRoomDestroyTime := sv_now sv |>) (_pendingDestroyRooms sv)); [|by apply stays_frame].
  etrans; [|apply stays_foldl, stays_DestroyRoom]. by apply stays_frame.
Qed.
Lemma stays_tick n sv : stays sv (tick_loop n sv).
Proof.
  revert sv. induction n as [|n IH]; intros sv; cbn [tick_loop]; [reflexivity|]. destruct (sh_pop _) as [[e h]|]; [|reflexivity].
  case_match; [|reflexivity]. etrans; [|apply IH]. etrans; [by apply (stays_frame sv (sv <| _heap := h |>))|].
  unfold timer_callback. case_match; [apply stays_in_room|reflexivity].
Qed.
Lemma stays_advance ms sv : stays sv (advance ms sv).
Proof.
  intros [Hok _]. apply settles_same; [by apply advance_ok| |done|done]. apply hosted_ext. intros rid. cbn. rewrite lookup_fmap.
  destruct (_gameRooms sv !! rid) as [w|] eqn:Hw; [|done]. by apply step_kept, (ac_rooms _ _ Hok rid w).
Qed.

(** A group brings at most its players. *)
Lemma seat_player_guests rid info w c sv w' c' sv' : seat_player rid info w c sv = Some (w', c', sv') -> guests w' <= guests w + 1.
Proof.
  unfold seat_player. destruct (GetUniqueToken sv) as [[token sv1]|]; [|done]. cbn. destruct (GetFreeSessionId sv1) as [sid sv2].
  intros [= <- _ _]. unfold guests, RegisterPlayerSession, upd_room, exec, modify, sess. cbn.
  destruct (_ !! sid) eqn:Es; cbn; [lia|]. rewrite map_size_insert_None by done. lia.
Qed.
Lemma seat_players_guests rid infos w c sv w' c' sv' : seat_players rid infos w c sv = Some (w', c', sv') ->
  guests w' <= guests w + Z.of_nat (length infos).
Proof.
  revert w c sv. induction infos as [|info infos IH]; intros w c sv; cbn [seat_players]; [intros [= <- _ _]; cbn; lia|].
  destruct (seat_player rid info w c sv) as [[[w1 c1] sv1]|] eqn:E1; [|done]. cbn. intros H%IH. apply seat_player_guests in E1. lia.
Qed.
(** While there are ids for them, no place is added. *)
Lemma seat_players_places rid infos w c sv w' c' sv' : seat_players rid infos w c sv = Some (w', c', sv') ->
  (length infos <= length (_freePlayerIds sv))%nat -> length (_players sv') = length (_players sv).
Proof.
  revert w c sv. induction infos as [|info infos IH]; intros w c sv; cbn [seat_players]; [by intros [= _ _ <-]|].
  destruct (seat_player rid info w c sv) as [[[w1 c1] sv1]|] eqn:E1; [|done]. intros H Hl. cbn [length] in Hl.
  assert (H1 : length (_players sv1) = length (_players sv) /\ length (_freePlayerIds sv) = S (length (_freePlayerIds sv1))).
  { revert E1. unfold seat_player, GetUniqueToken, GetFreeSessionId. destruct (find_token _ _ _) as [[t k]|]; [|done]. cbn.
    destruct (_freePlayerIds sv); cbn in *; [lia|]. intros [= _ _ <-]. cbn. by rewrite length_insert. }
  destruct H1 as [H1 H2]. rewrite <- H1. apply (IH _ _ _ H). lia.
Qed.
Lemma vacancies sv : service_ok sv -> length (_players sv) = 51%nat -> 50 <= Z.of_nat (length (_freePlayerIds sv)) + hosted (_gameRooms sv).
Proof.
  intros Hok Hl. set (X := list_to_set (map Z.of_nat (seq 0 50)) : gset Z). set (F := list_to_set (_freePlayerIds sv) : gset Z).
  assert (Hx : size X = 50%nat) by done.
  assert (Hf : (size F <= length (_freePlayerIds sv))%nat) by (unfold F; rewrite size_list_to_set by apply (ac_free _ _ Hok); done).
  assert (Hc : Z.of_nat (size (X ∖ F)) <= hosted (_gameRooms sv)).
  { apply crowd. intros sid [Hs Hd]%elem_of_difference. unfold X in Hs. rewrite elem_of_list_to_set in Hs.
    apply list_elem_of_fmap in Hs as (i & -> & Hi%elem_of_seq).
    destruct (lookup_lt_is_Some_2 (_players sv) i ltac:(lia)) as [[rid|] Hp].
    - exists rid. by apply (ac_seated _ _ Hok).
    - exfalso. apply Hd, elem_of_list_to_set, (ac_listed _ _ Hok i Hp). unfold SPARE. lia. }
  pose proof (size_within X F). lia.
Qed.
Lemma MakeRoom_settles pkt sv ok sv' : group_ok pkt -> service_ok sv -> MakeRoomForThisGroup pkt sv = Some (ok, sv') ->
  settles (Z.of_nat (length (mr_player_infos pkt))) sv sv'.
Proof.
  intros Hg Hok Em. constructor; [by eapply MakeRoom_ok| |].
  2: { intros Hl Hb. pose proof (vacancies sv Hok Hl) as Hv. revert Em. unfold MakeRoomForThisGroup.
    destruct (make_room _ _ _ _) as [[r draws]|]; [|by intros [= _ <-]].
    destruct (seat_players _ _ _ _ _) as [[[w c] sv2]|] eqn:Es; [|done]. intros [= _ <-]. cbn.
    rewrite (seat_players_places _ _ _ _ _ _ _ _ Es); [done|cbn; lia]. }
  revert Em. unfold MakeRoomForThisGroup. set (rid := sv_roomId sv + 1).
  destruct (make_room _ _ _ _) as [[r draws]|] eqn:Er.
  - destruct (seat_players _ _ _ _ _) as [[[w c] sv2]|] eqn:Es; [|done]. pose proof (seat_players_guests _ _ _ _ _ _ _ _ Es) as Hw.
    apply seat_players_rooms in Es as (Hr & _ & Hm & _). cbn in Hr, Hm. intros [= _ <-]. cbn. rewrite Hr, Hm.
    eexists. split; [reflexivity|]. split; [constructor; [done|constructor]|]. cbn.
    destruct (make_room_empty _ _ _ _ _ _ Er) as (He & _ & _). 
    replace (guests (mk_world r (sv_now sv) [] false)) with 0 in Hw by (unfold guests, sess; cbn; by rewrite He).
    rewrite hosted_insert; [lia|]. destruct (_gameRooms sv !! rid) as [v|] eqn:Hv; [|done]. destruct (ac_rooms _ _ Hok rid v Hv).
    unfold rid in *. lia.
  - intros [= _ <-]. exists []. rewrite app_nil_r. cbn. split_and!; [done|constructor|lia].
Qed.

(** A pass brings at most the players of its groups. *)
Definition comers (cs : list Completion) : Z :=
  players_of (omap (fun c => match c with CqMakeRoom pkt => Some pkt | _ => None end) cs).
Lemma comers_cons c cs : comers (c :: cs) =
  (match c with CqMakeRoom pkt => Z.of_nat (length (mr_player_infos pkt)) | _ => 0 end) + comers cs.
Proof. by destruct c. Qed.
Lemma settles_complete c sv sv' : completion_ok c -> reasonable sv -> complete sv c = Some sv' -> settles (comers [c]) sv sv'.
Proof.
  intros Hc Hsv. rewrite comers_cons, Z.add_0_r. destruct c as [pkt|token ip|bytes addr]; cbn [complete].
  - destruct (MakeRoomForThisGroup pkt sv) as [[ok sv1]|] eqn:Em; [|done]. intros [= <-]. eapply MakeRoom_settles; [done|apply Hsv|exact Em].
  - intros [= <-]. revert Hsv. change (stays sv (snd (Handle_H2M2D_BCITSpkt token ip sv))). unfold Handle_H2M2D_BCITSpkt.
    destruct (_ !! token) as [[rid sid]|]; [|reflexivity]. etrans; [apply stays_in_room|by apply stays_frame].
  - intros [= <-]. revert Hsv. change (stays sv (OnDatagram bytes addr sv)). unfold OnDatagram.
    do 2 (case_match; [reflexivity|]). case_match; [apply stays_in_room|reflexivity].
Qed.
Lemma settles_all cs sv sv' : Forall completion_ok cs -> service_ok sv -> hosted (_gameRooms sv) + comers cs < 2 ^ 31 ->
  complete_all cs sv = Some sv' -> settles (comers cs) sv sv'.
Proof.
  intros Hcs. revert sv. induction Hcs as [|c cs Hc Hcs IH]; intros sv Hok Hb; cbn [complete_all].
  { intros [= <-]. by apply settles_same. }
  destruct (complete sv c) as [sv1|] eqn:E1; [|done]. cbn [mbind option_bind]. intros H. rewrite comers_cons in Hb.
  pose proof (players_of_nonneg (omap (fun c => match c with CqMakeRoom pkt => Some pkt | _ => None end) cs)) as Hn. fold (comers cs) in Hn.
  assert (H1 : settles (comers [c]) sv sv1) by (apply settles_complete; [done|split; [done|destruct c; lia]|done]).
  replace (comers (c :: cs)) with (comers [c] + comers cs) by (rewrite !comers_cons; change (comers []) with 0; lia).
  eapply settles_trans; [done|exact H1|]. apply IH; [apply H1| |done]. destruct H1 as [_ (l & _ & Hl & Hh) _].
  pose proof (returned_nonneg l Hl). rewrite comers_cons in Hh. change (comers []) with 0 in Hh. lia.
Qed.
Lemma settles_pass ms cs sv sv' : Forall completion_ok cs -> service_ok sv -> hosted (_gameRooms sv) + comers cs < 2 ^ 31 ->
  main_pass ms cs sv = Some sv' -> settles (comers cs) sv sv'.
Proof.
  intros Hcs Hok Hb. unfold main_pass.
  pose proof (players_of_nonneg (omap (fun c => match c with CqMakeRoom pkt => Some pkt | _ => None end) cs)) as Hn. fold (comers cs) in Hn.
  assert (H0 : settles 0 sv (advance ms sv)) by (apply stays_advance; split; [done|lia]).
  destruct (complete_all cs (advance ms sv)) as [sv1|] eqn:E1; [|done]. intros [= <-].
  assert (H1 : settles (comers cs) sv sv1).
  { apply (settles_trans 0 (comers cs) _ _ _ Hn H0), settles_all; [done|apply H0| |done]. pose proof (settles_less _ _ H0). lia. }
  replace (comers cs) with (comers cs + 0) by lia. apply (settles_trans _ _ _ _ _ (Z.le_refl 0) H1).
  assert (Hs : stays sv1 (Tick (DestroyPendingRooms (UpdateGameRooms (CheckRetransmits sv1))))).
  { unfold Tick. etrans; [|apply stays_tick]. etrans; [|apply stays_DestroyPendingRooms]. etrans; [|apply stays_UpdateGameRooms].
    apply stays_CheckRetransmits. }
  apply Hs. split; [apply H1|]. destruct H1 as [_ (l & _ & Hl & Hh) _]. pose proof (returned_nonneg l Hl). lia.
Qed.
End process.

(** ** The two processes *)

(** What a pass of the process finds: the next command of the main process, or a datagram. *)
Inductive Arrival := ArCommand | ArDatagram (bytes : list Z) (addr : sockaddr_in).

Section system.
Context {R : Redis} {M : Mysql} {N : MainEnv} {E : External} {L : ExternalLaws E} {G : Rng} {Y : System} {LY : SystemLaws Y}.
Local Abbreviation Mn := (Main R M).

(** The dedicated process looked at. *)
Context (pid : Z).

Definition commands (m : Mn) : list MainOut :=
  List.filter (fun o => match o with OutMakeRoom p _ | OutBindIp p _ _ => p =? pid end) (m_out m).

(** What a pass reads, and how many commands that are. *)
Fixpoint arrive (arrivals : list Arrival) (cmds : list MainOut) : list Completion * nat :=
  match arrivals, cmds with
  | [], _ => ([], O)
  | ArDatagram bytes addr :: l, _ => let '(cs, n) := arrive l cmds in (CqDatagram bytes addr :: cs, n)
  | ArCommand :: l, o :: cmds' => let '(cs, n) := arrive l cmds' in (completion o :: cs, S n)
  | ArCommand :: l, [] => arrive l []
  end.

(** The processes, with the exception that ended either, and the messages that have been
    taken: commands by the process, reports by the main process. *)
Record Deployment := mk_deployment {
  dp_main : option Exn * Mn; dp_process : option Exn * Service; dp_commands : nat; dp_reports : nat }.
#[export] Instance eta_Deployment : Eta Deployment := fun d =>
  mk_deployment (dp_main d) (dp_process d) (dp_commands d) (dp_reports d).

Inductive Event :=
| EvWait (ns : Z) (redis : r_state -> r_state)
| EvMatchMake
| EvRequests
| EvAccept (fd : Z)
| EvConnect (p fd : Z)
| EvPacket (peer : Peer) (msg : IpcMessage)
| EvReport (fd : Z)
| EvPass (ms : Z) (arrivals : list Arrival).

Definition main_does {A} (x : EX Mn A) (d : Deployment) : Deployment := d <| dp_main ::= fun am => snd (in_main x am) |>.
Definition deploy_step (e : Event) (d : Deployment) : Deployment :=
  match e with
  | EvWait ns redis => main_does (exmod (wait ns redis)) d
  | EvMatchMake => main_does MatchMake d
  | EvRequests => main_does ExecuteAll d
  | EvAccept fd => main_does (exmod (OnAcceptDedi fd)) d
  | EvConnect p fd => main_does (fun m => let '(ok, m') := FinalizeConnection p fd m in (inr ok, m')) d
  | EvPacket peer msg => main_does (handlers_main peer msg) d
  | EvReport fd =>
      match fst (dp_main d), sv_toMain (snd (dp_process d)) !! dp_reports d with
      | None, Some r => (main_does (handlers_main (DediPeer pid fd) (to_ipc r)) d) <| dp_reports ::= S |>
      | _, _ => d
      end
  | EvPass ms arrivals =>
      match fst (dp_process d) with
      | Some _ => d
      | None =>
          let '(cs, n) := arrive arrivals (drop (dp_commands d) (commands (snd (dp_main d)))) in
          match main_pass ms cs (snd (dp_process d)) with
          | Some sv' => d <| dp_process := (None, sv') |> <| dp_commands ::= Nat.add n |>
          | None => d <| dp_process := (Some Undefined, snd (dp_process d)) |>
          end
      end
  end.
Definition deploy_run (es : list Event) (d : Deployment) : Deployment := foldl (fun d e => deploy_step e d) d es.

(** The others report what they had, and are others; and no player is twice in a group. *)
Definition other (e : Event) : Prop :=
  match e with
  | EvPacket peer msg => peer_pid peer <> Some pid /\ match msg with D2MRoomDestroyed _ n => 0 <= n | _ => True end
  | _ => True
  end.

Fixpoint fair_run (es : list Event) (d : Deployment) : Prop :=
  match es with
  | [] => True
  | e :: es' => other e /\ Forall group_ok (sent pid (snd (dp_main d))) /\ fair_run es' (deploy_step e d)
  end.

(** *** What the calls of the main process keep *)

Hypothesis Hfork : forall i j, me_fork i = me_fork j -> 0 <= me_fork i -> i = j.

Record keeps (m m' : Mn) : Prop := {
  ke_leads : leads m m';
  ke_cover : cover pid m <= cover pid m' }.
Lemma pays_keeps m m' : pays m m' -> keeps m m'.
Proof. intros [H1 H2]. by constructor. Qed.

#[export] Instance orderly_packet_register q : Orderly (RegisterDBRequest (R:=R) (M:=M) q).
Proof. apply orderly_exmod. intros m Hm. by apply pays_frame. Qed.
#[export] Instance orderly_packet_matchmake key : Orderly (Handle_H2M_MatchMake (R:=R) (M:=M) key).
Proof.
  unfold Handle_H2M_MatchMake, redis_hgetall. apply orderly_catch_redis; [|apply _]. apply orderly_bind; [apply _|]. intros val.
  case_decide; [apply _|]. do 5 (apply orderly_bind; [apply _|]; intros ?). apply orderly_bind.
  { apply orderly_exmod. intros m Hm. by apply pays_frame. }
  intros []. apply orderly_bind; [|intros []; [apply _|]].
  - intros m Hm. unfold AddSingleMatchTicket_main. destruct (_ && _); [by apply pays_frame|by apply pays_refl].
  - apply orderly_bind; [|intros []; apply _]. apply orderly_exmod. intros m Hm. by apply pays_frame.
Qed.
Lemma packet_keeps peer msg m : other (EvPacket peer msg) -> sound m -> keeps m (snd (handlers_main peer msg m)).
Proof.
  intros [Hp Hn] Hm. destruct msg as [z|z|key|key|token ip|p|pkt|pkt|pkt|r n]; cbn [handlers_main];
    try (apply pays_keeps; apply (orderly (x:=mret _)); done).
  - by apply pays_keeps, orderly.
  - destruct peer; by apply pays_keeps, (orderly (x:=_)).
  - apply pays_keeps. unfold Handle_D2M_UpdateEntryToken. do 2 (case_match; [by apply pays_refl|]).
    case_match; [|by apply pays_refl]. by apply (orderly (x:=RegisterDBRequest _ ≫= _)).
  - apply pays_keeps. by apply (orderly (x:=RegisterDBRequest _ ≫= _)).
  - destruct (peer_pid peer) as [p|]; [|by apply pays_keeps, pays_refl]. constructor; [by apply leads_release|].
    pose proof (cover_release p n m pid) as H. rewrite decide_False in H by congruence. rewrite Z.sub_0_r in H. exact H.
Qed.
Lemma report_keeps fd r m : fair r -> sound m -> let m' := snd (handlers_main (DediPeer pid fd) (to_ipc r) m) in
  leads m m' /\ cover pid m - default 0 (report_players r) <= cover pid m'.
Proof.
  unfold fair. intros Hr Hm. cbn zeta. destruct r as [p|p|rid n]; cbn [report_players default from_option] in *; rewrite ?Z.sub_0_r.
  - destruct (packet_keeps (HttpPeer fd) (D2MTokens p) m) as [H1 H2]; [done|done|]. by split.
  - destruct (packet_keeps (HttpPeer fd) (D2MLeft p) m) as [H1 H2]; [done|done|]. by split.
  - split; [by apply leads_release|]. pose proof (cover_release pid n m pid) as H. rewrite decide_True in H by done.
    change (default 0 (Some n)) with n in *. rewrite Z.max_l in H by done. exact H.
Qed.

(** *** The accounts *)

#[local] Arguments players_of : simpl never.
#[local] Arguments returned : simpl never.

Definition rooms_in (cmds : list MainOut) : list M2DMakeRoomForThisGroup :=
  omap (fun o => match o with OutMakeRoom _ pkt => Some pkt | _ => None end) cmds.
Lemma sent_commands m : sent pid m = rooms_in (commands m).
Proof.
  unfold sent, rooms_in, commands. induction (m_out m) as [|[p pkt|p t ip] l IH]; [done| |]; cbn; destruct (p =? pid); cbn; by rewrite ?IH.
Qed.
#[local] Arguments rooms_in : simpl never.
Lemma commands_prefix m m' : m_out m `prefix_of` m_out m' -> commands m `prefix_of` commands m'.
Proof. intros [l H]. unfold commands. rewrite H, List.filter_app. by apply prefix_app_r. Qed.

Lemma arrive_spec arrivals cmds cs n : arrive arrivals cmds = (cs, n) ->
  (n <= length cmds)%nat /\ comers cs = players_of (rooms_in (take n cmds)) /\
  (Forall group_ok (rooms_in (take n cmds)) -> Forall completion_ok cs).
Proof.
  revert cmds cs n. induction arrivals as [|[|bytes addr] l IH]; intros cmds cs n; cbn [arrive].
  - intros [= <- <-]. split_and!; [lia|done|by constructor].
  - destruct cmds as [|o cmds]; [apply IH|]. destruct (arrive l cmds) as [cs' n'] eqn:Ea. intros [= <- <-].
    destruct (IH _ _ _ Ea) as (H1 & H2 & H3). rewrite comers_cons, H2. split_and!; [cbn; lia|by destruct o|].
    destruct o; cbn; [|intros H; constructor; [exact I|auto]]. intros [Hg Hl]%Forall_cons. constructor; auto.
  - destruct (arrive l cmds) as [cs' n'] eqn:Ea. intros [= <- <-]. destruct (IH _ _ _ Ea) as (H1 & H2 & H3).
    split_and!; [done|exact H2|]. intros H. constructor; [exact I|auto].
Qed.

(** Who is in the rooms or reported gone has come with a command; whoever has been given
    to the process has a place, or has been reported gone. *)
Record accounted (d : Deployment) : Prop := {
  ad_main : sound (snd (dp_main d));
  ad_process : service_ok (snd (dp_process d));
  ad_fair : Forall fair (sv_toMain (snd (dp_process d)));
  ad_commands : (dp_commands d <= length (commands (snd (dp_main d))))%nat;
  ad_reports : (dp_reports d <= length (sv_toMain (snd (dp_process d))))%nat;
  ad_rooms : hosted (_gameRooms (snd (dp_process d))) + returned (sv_toMain (snd (dp_process d))) <=
    players_of (rooms_in (take (dp_commands d) (commands (snd (dp_main d)))));
  ad_seats : length (_players (snd (dp_process d))) = 51%nat;
  ad_places : 0 <= cover pid (snd (dp_main d)) + returned (take (dp_reports d) (sv_toMain (snd (dp_process d)))) }.

(** What is under way between the two. *)
Definition ordered (d : Deployment) : Z :=
  players_of (rooms_in (drop (dp_commands d) (commands (snd (dp_main d))))) + players_of (held pid (snd (dp_main d))).
Definition unheard (d : Deployment) : Z := returned (drop (dp_reports d) (sv_toMain (snd (dp_process d)))).

Lemma accounts d : accounted d ->
  hosted (_gameRooms (snd (dp_process d))) + unheard d + ordered d <= allocated pid (snd (dp_main d)) <= MAX_PLAYER_PER_PROCESS /\
  0 <= unheard d /\ 0 <= ordered d.
Proof.
  intros [H1 _ H3 _ _ H6 _ H7]. destruct d as [[dm m] [dp sv] c r]. unfold unheard, ordered. cbn in *.
  unfold cover, given in H7. rewrite sent_commands, <- (take_drop c (commands m)) in H7. unfold rooms_in in H7.
  rewrite omap_app, !players_of_app in H7. fold (rooms_in (take c (commands m))) (rooms_in (drop c (commands m))) in H7.
  rewrite <- (take_drop r (sv_toMain sv)), returned_app in H6. split_and!; [lia| | |].
  - unfold allocated. destruct (_dediSessions m !! pid) as [s|] eqn:Es; [apply (so_capacity m H1 pid s Es)|done].
  - apply returned_nonneg. by apply Forall_drop.
  - pose proof (players_of_nonneg (rooms_in (drop c (commands m)))). pose proof (players_of_nonneg (held pid m)). lia.
Qed.

Lemma accounted_main d am k : accounted d -> leads (snd (dp_main d)) (snd am) -> (k <= length (sv_toMain (snd (dp_process d))))%nat ->
  cover pid (snd (dp_main d)) + returned (take (dp_reports d) (sv_toMain (snd (dp_process d)))) <=
  cover pid (snd am) + returned (take k (sv_toMain (snd (dp_process d)))) ->
  accounted (d <| dp_main := am |> <| dp_reports := k |>).
Proof.
  intros [H1 H2 H3 H4 H5 H6 H8 H7] [L1 L2 L3] Hk Hc. destruct (commands_prefix _ _ L2) as [l El].
  constructor; cbn; try done; [rewrite El, length_app; lia|rewrite El, take_app_le by done; done|lia].
Qed.
Lemma accounted_does {A} (x : EX Mn A) d : (forall m, sound m -> keeps m (snd (x m))) -> accounted d -> accounted (main_does x d).
Proof.
  intros Hx Hd. assert (Hm : keeps (snd (dp_main d)) (snd (snd (in_main x (dp_main d))))).
  { pose proof (ad_main _ Hd) as Hs. destruct (dp_main d) as [[e|] m]; [by apply pays_keeps, pays_refl|]. specialize (Hx m Hs). cbn.
    by destruct (x m) as [[e|a] m']. }
  destruct Hm as [Hl Hc]. pose proof (accounted_main d (snd (in_main x (dp_main d))) (dp_reports d) Hd Hl (ad_reports _ Hd) ltac:(lia)) as H.
  by destruct d.
Qed.
Lemma accounted_report fd r m d : dp_main d = (None, m) -> sv_toMain (snd (dp_process d)) !! dp_reports d = Some r -> accounted d ->
  accounted ((main_does (handlers_main (DediPeer pid fd) (to_ipc r)) d) <| dp_reports ::= S |>).
Proof.
  intros Em Hr Hd. pose proof Hd as [H1 _ H3 _ _ _ _ _]. rewrite Em in H1. rewrite Forall_lookup in H3.
  destruct (report_keeps fd r m (H3 _ _ Hr) H1) as [Hl Hc].
  pose proof (accounted_main d (snd (in_main (handlers_main (DediPeer pid fd) (to_ipc r)) (dp_main d))) (S (dp_reports d)) Hd) as H.
  rewrite Em in H. cbn [in_main snd] in H, Hl, Hc. unfold main_does.
  replace (d <| dp_main ::= fun am => snd (in_main (handlers_main (DediPeer pid fd) (to_ipc r)) am) |> <| dp_reports ::= S |>) with (d <| dp_main := snd (in_main (handlers_main (DediPeer pid fd) (to_ipc r)) (dp_main d)) |> <| dp_reports := S (dp_reports d) |>)
    by by destruct d.
  rewrite Em. cbn [in_main]. destruct (handlers_main (DediPeer pid fd) (to_ipc r) m) as [[e|ok] m']; cbn [snd] in *;
    (apply H; [done|by apply lookup_lt_Some in Hr|]; rewrite (take_S_r _ _ r Hr), returned_app;
        change (returned [r]) with (default 0 (report_players r) + 0); lia).
Qed.
Lemma accounted_pass ms cs n arrivals d sv' : accounted d ->
  arrive arrivals (drop (dp_commands d) (commands (snd (dp_main d)))) = (cs, n) ->
  Forall group_ok (sent pid (snd (dp_main d))) ->
  main_pass ms cs (snd (dp_process d)) = Some sv' -> accounted (d <| dp_process := (None, sv') |> <| dp_commands ::= Nat.add n |>).
Proof.
  intros Hd Ea Hg Hp. destruct (arrive_spec _ _ _ _ Ea) as (Hn & Hc & Hok). destruct (accounts d Hd) as ([Hb Hmax] & Hu & _).
  pose proof Hd as [H1 H2 H3 H4 H5 H6 H8 H7]. rewrite length_drop in Hn.
  set (cmds := commands _) in *. assert (Et : take (n + dp_commands d) cmds = take (dp_commands d) cmds ++ take n (drop (dp_commands d) cmds)).
  { rewrite Nat.add_comm. symmetry. apply take_take_drop. }
  assert (Hcs : Forall completion_ok cs).
  { apply Hok. rewrite sent_commands in Hg. fold cmds in Hg. rewrite <- (take_drop (dp_commands d) cmds), <- (take_drop n (drop _ cmds)) in Hg.
    unfold rooms_in in Hg. rewrite !omap_app, !Forall_app in Hg. tauto. }
  assert (Hle : comers cs <= ordered d).
  { rewrite Hc. unfold ordered. fold cmds. rewrite <- (take_drop n (drop _ cmds)) at 2. unfold rooms_in. rewrite omap_app, players_of_app.
    pose proof (players_of_nonneg (omap (fun o => match o with OutMakeRoom _ pkt => Some pkt | _ => None end) (drop n (drop (dp_commands d) cmds)))).
    pose proof (players_of_nonneg (held pid (snd (dp_main d)))). lia. }
  destruct (settles_pass ms cs _ sv' Hcs H2) as [S1 (l & El & Fl & Hl) S2]; [unfold MAX_PLAYER_PER_PROCESS in *; lia|done|].
  constructor; cbn; try done; fold cmds.
  - rewrite El. by apply Forall_app.
  - lia.
  - rewrite El, length_app. lia.
  - rewrite El, returned_app, Et. unfold rooms_in in *. rewrite omap_app, players_of_app. lia.
  - apply S2; [done|]. unfold MAX_PLAYER_PER_PROCESS in *. lia.
  - by rewrite El, take_app_le.
Qed.

(** An event is a call that keeps the accounts, a report or a pass. *)
Lemma event_cases e : other e ->
  (exists A (x : EX Mn A), (forall m, sound m -> keeps m (snd (x m))) /\ forall d, deploy_step e d = main_does x d) \/
  (exists fd, e = EvReport fd) \/ (exists ms arrivals, e = EvPass ms arrivals).
Proof.
  assert (Hcall : forall A (x : EX Mn A), (forall m, sound m -> pays m (snd (x m))) ->
    exists B (y : EX Mn B), (forall m, sound m -> keeps m (snd (y m))) /\ forall d, main_does x d = main_does y d).
  { intros A x Hx. exists A, x. split; [|done]. intros m Hm. by apply pays_keeps, Hx. }
  intros He. destruct e as [ns f| | |fd|p fd|peer msg|fd|ms arrivals]; [left..|right; left; by exists fd|right; right; by exists ms, arrivals].
  - apply Hcall. intros m Hm. by apply pays_frame.
  - apply Hcall, (orderly_MatchMake Hfork).
  - apply Hcall, orderly_ExecuteAll.
  - apply Hcall. intros m Hm. by apply pays_accept.
  - apply Hcall. intros m Hm. pose proof (pays_finalize p fd m Hm) as H. by destruct (FinalizeConnection p fd m).
  - exists bool, (handlers_main peer msg). split; [|done]. intros m Hm. by apply packet_keeps.
Qed.
Lemma step_accounted e d : other e -> accounted d -> Forall group_ok (sent pid (snd (dp_main d))) -> accounted (deploy_step e d).
Proof.
  intros He Hd Hg. destruct (event_cases e He) as [(A & x & Hx & ->)|[[fd ->]|(ms & arrivals & ->)]].
  - by apply accounted_does.
  - cbn [deploy_step]. destruct (dp_main d) as [[e|] m] eqn:Em; [done|]. destruct (_ !! _) as [r|] eqn:Er; [|done].
    by apply (accounted_report fd r m).
  - cbn [deploy_step]. destruct (dp_process d) as [[e|] sv] eqn:Ep; [done|]. destruct (arrive _ _) as [cs n] eqn:Ea. cbn [snd].
    destruct (main_pass ms cs sv) as [sv'|] eqn:E1.
    + apply (accounted_pass ms cs n arrivals); try done. by rewrite Ep.
    + destruct Hd as [H1 H2 H3 H4 H5 H6 H7 H8]. rewrite Ep in *. by constructor.
Qed.
Lemma run_accounted es d : fair_run es d -> accounted d -> accounted (deploy_run es d).
Proof.
  unfold deploy_run. revert d. induction es as [|e es IH]; intros d; [done|]. intros (H1 & H2 & H3) Hd. apply IH; [done|]. by apply step_accounted.
Qed.
End system.

(** ** Theorems *)

Section theorems.
Context {R : Redis} {M : Mysql} {N : MainEnv} {E : External} {L : ExternalLaws E} {G : Rng} {Y : System} {LY : SystemLaws Y}.

(** A process that has just been started. *)
Definition deployed (m : Main R M) (now port : Z) : Deployment :=
  mk_deployment (None, m) (None, new_DediServerService now port) 0 0.
Lemma deployed_accounted pid m now port : sound m -> given pid m = [] -> accounted pid (deployed m now port).
Proof.
  intros Hm Hg. constructor; cbn; try done; [apply new_service_ok|lia..|].
  unfold cover, allocated. rewrite Hg. destruct (_dediSessions m !! pid) as [s|] eqn:Es; [|done]. cbn. destruct (so_capacity m Hm pid s Es). lia.
Qed.

(** C14. However the two processes get on with their work and with each other's messages, the
    places add up: the players in the rooms of the dedicated process, those it has
    reported gone and the main process has not heard of, and those of the groups under
    way to it or still held for it, are together at most the places the main process
    counts as taken, which are at most those a process has; so the process never
    hosts more players than that, and the ids of their sessions stay below that
    number. *)
Theorem places_accounted pid m now port es :
  (forall i j, me_fork i = me_fork j -> 0 <= me_fork i -> i = j) ->
  sound m -> given pid m = [] -> fair_run pid es (deployed m now port) ->
  let d := deploy_run pid es (deployed m now port) in
  let sv := snd (dp_process d) in
  hosted (_gameRooms sv) + unheard d + ordered pid d <= allocated pid (snd (dp_main d)) <= MAX_PLAYER_PER_PROCESS /\
  0 <= unheard d /\ 0 <= ordered pid d /\
  (forall sid rid, GetPlayerSession sid sv = Some rid -> 0 <= sid < MAX_PLAYER_PER_PROCESS).
Proof.
  intros Hfork Hm Hg Hrun. cbn zeta. pose proof (run_accounted pid Hfork es _ Hrun (deployed_accounted pid m now port Hm Hg)) as Hd.
  destruct (accounts pid _ Hd) as (H1 & H2 & H3). split_and!; [apply H1..|done|done|]. intros sid rid Hs.
  pose proof (ad_seats _ _ Hd) as Hl. pose proof (ad_process _ _ Hd) as [_ _ _ _ _ _ _ _ Hspare]. unfold MAX_PLAYER_PER_PROCESS.
  unfold GetPlayerSession in Hs. rewrite Hl in Hs. destruct (Z.leb_spec 0 sid); [|done]. destruct (Z.ltb_spec sid (Z.of_nat 51)); [|done].
  cbn [andb] in Hs.
  destruct (decide (sid = 50)) as [->|]; [|lia]. exfalso. apply (Hspare rid).
  destruct (lookup_lt_is_Some_2 (_players (snd (dp_process (deploy_run pid es (deployed m now port))))) SPARE) as [o Ho]; [rewrite Hl;
      unfold SPARE; lia|].
  rewrite Ho. f_equal. apply (nth_lookup_Some _ _ None) in Ho. change SPARE with (Z.to_nat 50) in Ho. congruence.
Qed.
End theorems.

(** ** Witnesses

    A process connects, two players are given to it in a group, it makes their room
    and reports their tokens. *)

#[local] Existing Instance sample_redis.
#[local] Existing Instance sample_mysql.
#[local] Existing Instance sample_env.
#[local] Existing Instance sample_external.
#[local] Existing Instance sample_laws.
#[local] Existing Instance sample_rng.
#[local] Existing Instance sample_system.
#[local] Existing Instance sample_system_laws.

Definition sample_row (uid : string) : gmap string string := <[ "uid" := uid ]> sample_ticket.
Definition sample_rows : Remote (@r_state sample_redis) := mk_remote ({[ "t1" := sample_row "7"; "t2" := sample_row "8" ]}, ∅) [].
Definition sample_first : Main sample_redis sample_mysql := snd (se_main (start sample_rows sample_table 0)).
Definition sample_events : list Event := [
  EvAccept 7; EvConnect 100 7; EvPacket (HttpPeer 5) (H2MMatchMake "t1"); EvPacket (HttpPeer 5) (H2MMatchMake "t2");
  EvWait 61000000000 id; EvMatchMake; EvPass 10 [ArDatagram [] (mk_sockaddr 1 2); ArCommand]; EvReport 7; EvRequests ].

Lemma grouped_by (l : list M2DMakeRoomForThisGroup) : forallb (fun p => bool_decide (NoDup (map pi_uid (mr_player_infos p)))) l = true -> Forall group_ok l.
Proof.
  induction l as [|p l IH]; cbn [forallb]; [constructor|]. intros [Hp Hl]%andb_true_iff. constructor; [by apply bool_decide_eq_true in Hp|auto].
Qed.
Lemma sample_first_sound : sound sample_first.
Proof.
  assert (Hd : _dediSessions sample_first = {[ 100 := new_M2DSession 100 ]}) by done.
  constructor; rewrite Hd.
  - intros p s [<- <-]%lookup_singleton_Some. cbn. unfold MAX_PLAYER_PER_PROCESS. lia.
  - intros n Hn _. apply lookup_singleton_ne. change (m_forks sample_first) with 1%nat in Hn. cbn. lia.
Qed.

Lemma places_accounted_witness : let d := deploy_run 100 sample_events (deployed sample_first 0 7000) in
  hosted (_gameRooms (snd (dp_process d))) = 2 /\ allocated 100 (snd (dp_main d)) = 2 /\ ordered 100 d = 0 /\
  hosted (_gameRooms (snd (dp_process d))) + unheard d + ordered 100 d <= allocated 100 (snd (dp_main d)) <= MAX_PLAYER_PER_PROCESS.
Proof.
  intros d. destruct (places_accounted 100 sample_first 0 7000 sample_events) as (H & _).
  - intros i j Hij _. cbn in Hij. lia.
  - exact sample_first_sound.
  - reflexivity.
  - cbn [fair_run sample_events].
    repeat (split; [first [exact I | split; [discriminate|exact I]]|split; [apply grouped_by; vm_compute; reflexivity|]]). exact I.
  - split; [vm_compute; reflexivity|]. split; [vm_compute; reflexivity|]. split; [vm_compute; reflexivity|exact H].
Defined.
