(* ===== verification/Entry.v ===== *)
(** * How a player gets in

    The whole way of the players of a group, over the components it goes through: the
    dedicated process seats them and reports their tokens (DediServerService.cpp), the main
    process writes the tokens to Redis (DBProxyRequest.cpp), where the HTTP server finds what it
    tells the client; the client's address goes back through the main process
    ([BindClientIpToSession]) to the dedicated one, and the client's first datagram is
    answered (ClientPacketHandler.cpp). *)

From S2P Require Import Prelude Items Transport Geometry MapData Buffers Protocol Session Room Handlers Calm Safety Rooms Stores Main Matchmaker DBProxy Manager Service Process Groups Ipc.
From stdpp Require Import strings.
Local Open Scope Z_scope.

(** ** The main process: the tokens written *)

Section written.
Context {R : Redis} {L : RedisLaws R} {M : Mysql} {E : MainEnv}.

Definition seat_entry (t : Seat) : Entry := mk_entry (pi_ticket_id (st_info t)) (st_sid t) (st_token t) (st_key t).

(** What the HTTP server reads in the row of the ticket, and in that of the token. *)
Record invited (port : Z) (t : Seat) (s : r_state) : Prop := {
  iv_status : r_hget (pi_ticket_id (st_info t)) "status" s = Some "SUCCESS";
  iv_token : r_hget (pi_ticket_id (st_info t)) "token" s = Some (st_token t);
  iv_ip : r_hget (st_token t) "udp_server_ip" s = Some serverIp;
  iv_port : r_hget (st_token t) "port" s = Some (to_string port);
  iv_session : r_hget (st_token t) "session_id" s = Some (to_string (st_sid t));
  iv_key : r_hget (st_token t) "security_key" s = Some (to_string (st_key t)) }.

(** The HTTP server makes ticket ids ["ticket_"] and a UUID. *)
Definition tickets_ok (infos : list PlayerInfo) : Prop :=
  NoDup (map pi_ticket_id infos) /\ forall i, i ∈ infos -> exists u, pi_ticket_id i = "ticket_" +:+ u.

Lemma entries_of ts : entries (map pi_ticket_id (map st_info ts)) (map st_sid ts) (map st_token ts) (map st_key ts) = map seat_entry ts.
Proof. unfold entries. induction ts as [|t ts IH]; [done|]. cbn. by rewrite IH. Qed.

Lemma entry_row fd port e w s : writes_of fd port e w -> en_ticket e <> en_token e ->
  r_hget (en_ticket e) "status" (w s) = Some "SUCCESS" /\ r_hget (en_ticket e) "token" (w s) = Some (en_token e) /\
  r_hget (en_token e) "udp_server_ip" (w s) = Some serverIp /\ r_hget (en_token e) "port" (w s) = Some (to_string port) /\
  r_hget (en_token e) "session_id" (w s) = Some (to_string (en_session e)) /\
  r_hget (en_token e) "security_key" (w s) = Some (to_string (en_key e)).
Proof.
  intros (lo & u & ->) Hne. unfold entry_commands, run_commands, r_hget. rewrite foldl_app. cbn [foldl]. rewrite !hgetall_expire.
  rewrite !(hset_all_other (en_token e) (en_ticket e)) by done. unfold hset_all. cbn [foldl fst snd]. rewrite !hgetall_hset.
  split_and!; by simplify_map_eq.
Qed.
End written.

Section main_side.
Context {R : Redis} {L : RedisLaws R} {M : Mysql} {E : MainEnv} {X : External} {LX : ExternalLaws X} {G : Rng} {Y : System} {LY : SystemLaws Y}.
Local Abbreviation Mn := (Main R M).

Lemma token_prefix k u : token_at k <> "active_match:" +:+ u /\ token_at k <> "ticket_" +:+ u.
Proof. by split. Qed.

Lemma NoDup_map_inj {A B} (f : A -> B) l a b : NoDup (map f l) -> a ∈ l -> b ∈ l -> f a = f b -> a = b.
Proof.
  intros Hd [i Hi]%list_elem_of_lookup [j Hj]%list_elem_of_lookup Hf. assert (i = j) as ->; [|congruence].
  apply (NoDup_lookup (map f l) i j (f a)); [done|..]; rewrite ?list_lookup_fmap, ?Hi, ?Hj; cbn; congruence.
Qed.

(** The message of a group is executed by the next pass. *)
Lemma tokens_executed pid fd port ts msg (m : Mn) : r_answers (m_redis m) = [] -> _requestQueue m = [] ->
  Handle_D2M_UpdateEntryToken fd msg m =
    (_ ← RegisterDBRequest (UpdateEntryTokenRequest fd (map pi_ticket_id (map st_info ts)) (map st_sid ts) (map st_token ts)
         (map st_key ts) port); mret true) m ->
  exists ws, Forall2 (writes_of fd port) (map seat_entry ts) ws /\
  (ok ← handlers_main (DediPeer pid fd) (D2MTokens msg); _ ← ExecuteAll; mret ok) m =
  (inr true, m <| m_redis := mk_remote (foldl (fun s (w : r_state -> r_state) => w s) (r_data (m_redis m)) ws) [] |>).
Proof.
  intros HaR Hq Hmsg. set (es := map seat_entry ts). destruct (tokens_written fd port es m HaR) as (ws & Hws & Ec).
  exists ws. split; [done|]. cbn [handlers_main GetFd].
  assert (He : (_ ← RegisterDBRequest (UpdateEntryTokenRequest fd (map pi_ticket_id (map st_info ts)) (map st_sid ts) (map st_token ts)
         (map st_key ts) port); ExecuteAll) m = (inr true, m <| m_redis := mk_remote (foldl (fun s (w : r_state -> r_state) => w s) (r_data (m_redis m)) ws) [] |>)).
  { rewrite execute_one by done. cbn [Execute]. rewrite entries_of. fold es.
    unfold mbind, EX_bind. by rewrite Ec. }
  unfold mbind at 1, EX_bind at 1. rewrite Hmsg. unfold mbind, EX_bind in He |- *.
  destruct (RegisterDBRequest _ m) as [[e|u] m1] eqn:Er; [done|]. cbn. by rewrite He.
Qed.

Lemma seats_invited fd port ts ws t s : Forall2 (writes_of fd port) (map seat_entry ts) ws -> t ∈ ts ->
  NoDup (map st_token ts) -> tickets_ok (map st_info ts) -> (forall t', t' ∈ ts -> exists k, st_token t' = token_at k) ->
  let s' := foldl (fun s (w : r_state -> r_state) => w s) s ws in
  invited port t s' /\ r_hget (st_token t) "fd" s' = Some (to_string fd) /\ r_hget (st_token t) "ticket" s' = Some (pi_ticket_id (st_info t)).
Proof.
  intros Hw Ht Hd [Hdt Hpre] Htok. cbn zeta.
  assert (Hpre' : forall t', t' ∈ ts -> exists u, pi_ticket_id (st_info t') = "ticket_" +:+ u)
    by (intros t' H; apply Hpre; by apply (list_elem_of_fmap_2 st_info)).
  assert (Hap : forall a b, a ∈ ts -> b ∈ ts -> pi_ticket_id (st_info a) <> st_token b).
  { intros a b Ha Hb Heq. destruct (Hpre' a Ha) as [u Hu], (Htok b Hb) as [k Hk]. apply (proj2 (token_prefix k u)). congruence. }
  assert (Hdt' : forall a b, a ∈ ts -> b ∈ ts -> st_token a <> st_token b -> pi_ticket_id (st_info a) <> pi_ticket_id (st_info b)).
  { intros a b Ha Hb Hne Heq. apply Hne. f_equal. rewrite map_map in Hdt. by apply (NoDup_map_inj (fun t => pi_ticket_id (st_info t)) ts). }
  assert (He : seat_entry t ∈ map seat_entry ts) by (by apply (list_elem_of_fmap_2 seat_entry)).
  assert (Hd' : NoDup (map en_token (map seat_entry ts))) by (by rewrite map_map).
  destruct (Htok t Ht) as [k Hk]. destruct (Hpre' t Ht) as [u Hu].
  destruct (writes_last fd port (map seat_entry ts) ws (seat_entry t) (st_token t) s Hw He Hd') as (w1 & s1 & Hw1 & E1).
  { intros e' (t' & -> & Ht')%list_elem_of_fmap Hne. split; [done|]. cbn. by apply Hap. }
  { intros v. rewrite Hk. apply (token_prefix k v). }
  destruct (writes_last fd port (map seat_entry ts) ws (seat_entry t) (pi_ticket_id (st_info t)) s Hw He Hd') as (w2 & s2 & Hw2 & E2).
  { intros e' (t' & -> & Ht')%list_elem_of_fmap Hne. cbn in Hne |- *. split; [intros Heq; by apply (Hap t t')|by apply Hdt']. }
  { intros v. by rewrite Hu. }
  destruct (entry_row fd port (seat_entry t) w1 s1 Hw1) as (_ & _ & A3 & A4 & A5 & A6); [by apply Hap|].
  destruct (entry_row fd port (seat_entry t) w2 s2 Hw2) as (A1 & A2 & _); [by apply Hap|].
  destruct (writes_self fd port (seat_entry t) w1 s1 Hw1) as [A7 A8]. unfold r_hget in *. rewrite E1. cbn in *.
  split_and!; [constructor; unfold r_hget; rewrite ?E1, ?E2|..]; done.
Qed.
End main_side.

(** ** The dedicated process: the first datagram *)

Section first.
Context {E : External} {L : ExternalLaws E} {G : Rng} {Y : System} {LY : SystemLaws Y}.

(** The client opens its channel under the session id and the key it has been told. *)
Record first_packet (t : Seat) (echo : string) (bytes : list Z) : Prop := {
  fp_long : UDP_HEADER_SIZE <= Z.of_nat (length bytes);
  fp_id : packetId (decode_udp bytes) = pkt_id PKT_ID_C2D_CHANNEL_OPEN;
  fp_session : i16 (h_sessionId (decode_udp bytes)) = st_sid t;
  fp_signed : check_signature bytes (st_key t) = true;
  fp_parse : ext_parse (packetId (decode_udp bytes)) (drop 35 bytes) = Some (C2DChannelOpen echo) }.

(** The session of a player whose address is known, and once it is connected. *)
Record connected_as (rid : Z) (t : Seat) (a port : Z) (s : PlayerSession) : Prop := {
  cn_state : _sessionState s = SS_CONNECTED;
  cn_addr : _clientAddr s = mk_sockaddr a port;
  cn_player : _player s = _player (seat_session rid t);
  cn_key : _securityKey s = st_key t }.

Lemma htons_bit p i : is_u16 p -> 0 <= i -> Z.testbit (htons p) i = if i <? 8 then Z.testbit p (i + 8) else if i <? 16 then Z.testbit p (i - 8) else false.
Proof.
  intros Hp Hi. unfold htons, u16. rewrite Z.testbit_mod_pow2 by lia. rewrite Z.lor_spec, Z.shiftl_spec, Z.shiftr_spec by lia.
  destruct (Z.ltb_spec i 16); cbn [andb]; [|by destruct (Z.ltb_spec i 8); [lia|]].
  destruct (Z.ltb_spec i 8); [by rewrite Z.testbit_neg_r by lia|].
  replace (Z.testbit p (i + 8)) with false; [by rewrite orb_false_r|]. unfold is_u16 in Hp.
  symmetry. rewrite <- (Z.mod_small p (2 ^ 16)) by lia. apply Z.mod_pow2_bits_high. lia.
Qed.
Lemma htons_twice p : is_u16 p -> htons (htons p) = p.
Proof.
  intros Hp. assert (Hh : is_u16 (htons p)) by (apply Z.mod_pos_bound; lia).
  apply Z.bits_inj'. intros i Hi. rewrite (htons_bit (htons p)) by done.
  destruct (Z.ltb_spec i 8); [rewrite htons_bit by (done || lia); destruct (Z.ltb_spec (i + 8) 8), (Z.ltb_spec (i + 8) 16); try lia; f_equal; lia|].
  destruct (Z.ltb_spec i 16); [rewrite htons_bit by (done || lia); destruct (Z.ltb_spec (i - 8) 8); try lia; f_equal; lia|].
  unfold is_u16 in Hp. rewrite <- (Z.mod_small p (2 ^ 16)) by lia. symmetry. apply Z.mod_pow2_bits_high. lia.
Qed.

Lemma upd_session_lookup sid f w s : sess w !! sid = Some s ->
  sess (exec (upd_session sid f) w) !! sid = Some (f s) /\ w_out (exec (upd_session sid f) w) = w_out w.
Proof. intros Hs. unfold sess, exec, upd_session, upd_room, modify in *. cbn. by rewrite lookup_alter_eq, Hs. Qed.
(** A packet that is not too large goes out, and changes the channel only. *)
Lemma Send_sends sid m w s : sess w !! sid = Some s -> payload_size m <= 1024 ->
  exists p ch, pk_msg p = m /\ sess (exec (Send sid m) w) !! sid = Some (s <| s_rudp := ch |>) /\
    w_out (exec (Send sid m) w) = w_out w ++ [OutUdp (_clientAddr s) p].
Proof.
  intros Hs Hm. unfold Send, exec, sess in *. rewrite Hs. unfold MakeD2CPacketImpl. destruct (packet_kind m) as [id reliable].
  assert (Hp : 0 <= payload_size m) by (apply Z.mod_pos_bound; lia).
  rewrite (proj2 (Z.ltb_ge _ _)) by (unfold UDP_HEADER_SIZE, SEND_BUFFER_CHUNK_SIZE, u32; rewrite Z.mod_small by lia; lia).
  destruct (if reliable then _ else _) as [[rSeq uSeq] ch]. destruct (GetAckState ch) as [ackRSeq ackBf]. cbn.
  eexists _, _. split; [|split; [by rewrite lookup_insert_eq|done]]. done.
Qed.
(** Nothing has been received: whatever comes first is new. *)
Lemma first_is_new now h : exists ch : Rudp Packet, receive_header now h rudp_init = (true, ch).
Proof. unfold receive_header. destruct (negb _) at 1; cbn; eexists; reflexivity. Qed.

Lemma channel_opened rid t a echo bytes addr w :
  sess w !! st_sid t = Some (SetIp (Some a) (seat_session rid t)) -> first_packet t echo bytes -> is_u16 (sin_port addr) ->
  payload_size (D2CResponseChannelOpen echo) <= 1024 ->
  let w' := exec (HandleClientPacket bytes addr) w in
  exists s p, sess w' !! st_sid t = Some s /\ connected_as rid t a (sin_port addr) s /\
    w_out w' = w_out w ++ [OutUdp (mk_sockaddr a (sin_port addr)) p] /\ pk_msg p = D2CResponseChannelOpen echo.
Proof.
  intros Hs [F1 F2 F3 F4 F5] Hport Hsize. unfold exec, HandleClientPacket. rewrite (proj2 (Z.ltb_ge _ _)) by done.
  rewrite F2, F3. change (PKT_ID_MAX <=? _) with false. unfold sess in Hs. rewrite Hs.
  change (_securityKey (SetIp _ _)) with (st_key t). rewrite F4. cbn [negb].
  change (s_rudp (SetIp _ _)) with (rudp_init (D:=Packet)).
  destruct (first_is_new (NowMs w) (decode_udp bytes)) as [ch ->]. cbn [negb]. rewrite F2 in F5. rewrite F5. cbn [handle_message].
  destruct (upd_session_lookup (st_sid t) (fun s0 => s0 <| s_rudp := ch |>) w _ Hs) as [H1 O1].
  set (w1 := exec (upd_session _ _) w) in *. unfold Handle_C2D_ChannelOpen. unfold sess in H1 at 1. rewrite H1.
  rewrite bool_decide_eq_true_2 by done. rewrite <- O1.
  change (snd (?f w1)) with (exec f w1). rewrite exec_bind.
  destruct (upd_session_lookup (st_sid t) (fun s => SetSessionState SS_CONNECTED (SetPort (htons (sin_port addr)) s)) w1 _ H1) as [H2 O2].
  set (w2 := exec (upd_session _ _) w1) in *. rewrite exec_bind.
  destruct (Send_sends (st_sid t) (D2CResponseChannelOpen echo) w2 _ H2 Hsize) as (p & ch' & Hp & H3 & O3).
  eexists _, p. split; [exact H3|]. split; [|split; [|done]].
  - constructor; try done. cbn. by rewrite htons_twice.
  - rewrite <- O2. etrans; [exact O3|]. cbn. by rewrite htons_twice.
Qed.

(** What a datagram to a session that is seated does. *)
Lemma OnDatagram_opens sv rid w t a echo bytes addr :
  GetPlayerSession (st_sid t) sv = Some rid -> _gameRooms sv !! rid = Some w ->
  sess w !! st_sid t = Some (SetIp (Some a) (seat_session rid t)) -> first_packet t echo bytes -> is_u16 (sin_port addr) ->
  payload_size (D2CResponseChannelOpen echo) <= 1024 ->
  exists w' s p, _gameRooms (OnDatagram bytes addr sv) !! rid = Some w' /\ sess w' !! st_sid t = Some s /\
    connected_as rid t a (sin_port addr) s /\
    w_out w' = w_out w ++ [OutUdp (mk_sockaddr a (sin_port addr)) p] /\ pk_msg p = D2CResponseChannelOpen echo.
Proof.
  intros Hpl Hw Hs Hf Hport Hsize. pose proof (channel_opened rid t a echo bytes addr w Hs Hf Hport Hsize) as (s & p & H).
  destruct Hf as [F1 F2 F3 _ _]. unfold OnDatagram. rewrite (proj2 (Z.ltb_ge _ _)) by done. rewrite F2, F3, Hpl.
  change (PKT_ID_MAX <=? _) with false. cbn iota. rewrite in_room_rooms, decide_True, Hw by done. by eexists _, s, p.
Qed.
End first.

(** ** Theorems *)

Section entry.
Context {E : External} {L : ExternalLaws E} {G : Rng} {Y : System} {LY : SystemLaws Y}.
Context {R : Redis} {LR : RedisLaws R} {M : Mysql} {N : MainEnv}.

(** C2. Every player of a group gets in: the room the main process asks for is made, with a seat
    for each; what the dedicated process reports of it is executed by the main process's
    next pass, after which Redis leads from the player's ticket to the token and from
    the token to the session's id, key and port; when the HTTP server passes on the address
    of who presents the token, the main process sends it to the dedicated process, once, and
    there it is bound, once; and the datagram that opens the channel under that id and key
    is answered to the address it came from, on a session with the player's rows that
    is connected from then on. *)
Theorem player_enters pkt sv (m : Main R M) pid fd hfd :
  let infos := mr_player_infos pkt in let rid := sv_roomId sv + 1 in
  service_ok sv -> group_ok pkt -> known_map (mr_map_id pkt) -> tokens_suffice (length infos) sv -> tickets_ok infos ->
  _sessionFd2pid m !! fd = Some pid -> is_Some (_dediSessions m !! pid) -> is_i32 fd ->
  r_answers (m_redis m) = [] -> _requestQueue m = [] ->
  exists ts sv' msg m1, map st_info ts = infos /\ NoDup (map st_sid ts) /\ NoDup (map st_token ts) /\
  handlers_dedi (M2DMakeRoom pkt) sv = (inr true, sv') /\ sv_toMain sv' = sv_toMain sv ++ [TmEntryTokens msg] /\
  (ok ← handlers_main (DediPeer pid fd) (to_ipc (TmEntryTokens msg)); _ ← ExecuteAll; mret ok) m = (inr true, m1) /\
  forall t, t ∈ ts ->
    GetPlayerSession (st_sid t) sv = None /\ GetPlayerSession (st_sid t) sv' = Some rid /\ invited (_udpPort sv) t (r_data (m_redis m1)) /\
    forall ip a, sys_inet ip = Some a ->
    let bind := H2M2DBindClientIpToSession (st_token t) ip in
    exists m2 sv2 w, handlers_main (HttpPeer hfd) bind m1 = (inr true, m2) /\
      m_out m2 = m_out m1 ++ [OutBindIp pid (st_token t) ip] /\
      (forall ip', handlers_main (HttpPeer hfd) (H2M2DBindClientIpToSession (st_token t) ip') m2 = (inr true, m2)) /\
      handlers_dedi (command (OutBindIp pid (st_token t) ip)) sv' = (inr true, sv2) /\
      (forall ip', Handle_H2M2D_BCITSpkt (st_token t) ip' sv2 = (false, sv2)) /\
      _gameRooms sv2 !! rid = Some w /\
      forall bytes addr echo, first_packet t echo bytes -> is_u16 (sin_port addr) ->
        payload_size (D2CResponseChannelOpen echo) <= 1024 ->
        exists w' s p, _gameRooms (OnDatagram bytes addr sv2) !! rid = Some w' /\ sess w' !! st_sid t = Some s /\
          connected_as rid t a (sin_port addr) s /\
          w_out w' = w_out w ++ [OutUdp (mk_sockaddr a (sin_port addr)) p] /\ pk_msg p = D2CResponseChannelOpen echo.
Proof.
  intros infos rid Hok Hg Hmap Hdraws Htk Hpid [ses Hses] Hfd HaR Hq.
  destruct (group_gets_room pkt sv fd m Hok Hg Hmap Hdraws) as (ts & w & sv' & Hts & Em & _ & Hr & _ & Hds & Hdt & Ht & msg & Hmsg & Hmain).
  fold infos rid in Hts, Hr, Hmain. rewrite <- Hts in Hmain, Htk.
  destruct (tokens_executed pid fd (_udpPort sv) ts msg m HaR Hq Hmain) as (ws & Hws & Hexec).
  exists ts, sv', msg. eexists. split_and!; [done|done|done|cbn [handlers_dedi]; by rewrite Em|done|exact Hexec|].
  intros t Hin. destruct (Ht t Hin) as (Hs & Hpl & Hnew & _ & _ & Hadm).
  destruct (seats_invited fd (_udpPort sv) ts ws t (r_data (m_redis m)) Hws Hin Hdt Htk) as (Hinv & Hf & Htt).
  { intros t' Ht'. by apply (Ht t' Ht'). }
  split; [done|]. split; [done|]. split; [exact Hinv|]. intros ip a Ha bind.
  match goal with |- context [m_out ?x ++ _] => set (m1 := x) end.
  pose proof (bind_calm fd pid ses (st_token t) (pi_ticket_id (st_info t)) ip m1 eq_refl Hfd Hf Htt Hpid Hses) as Hb.
  specialize (Hadm ip). destruct (Handle_H2M2D_BCITSpkt (st_token t) ip sv') as [ok sv2] eqn:Eb.
  destruct (Hadm ip) as (-> & _ & w1 & Hw1 & Hs1).
  eexists _, sv2, w1. split; [unfold bind; cbn [handlers_main]; unfold mbind, EX_bind; by rewrite Hb|]. split; [done|].
  split.
  { intros ip'. cbn [handlers_main]. unfold mbind at 1, EX_bind at 1. unfold BindClientIpToSession, catch_all, catch, mbind, EX_bind.
    rewrite redis_hget_calm by done. unfold r_hget. cbn. by rewrite hgetall_del by by left. }
  split; [cbn [handlers_dedi command]; by rewrite Eb|]. split; [intros ip'; apply (Hadm ip')|]. split; [exact Hw1|].
  intros bytes addr echo Hfp Hport Hsize. rewrite Ha in Hs1. apply OnDatagram_opens; [|done..].
  unfold Handle_H2M2D_BCITSpkt in Eb. destruct (_tokenToPlayerSession sv' !! st_token t) as [[rid' sid']|]; [|done]. injection Eb as <-.
  unfold GetPlayerSession in *. cbn. by rewrite (proj1 (in_room_frame rid' _ sv')).
Qed.
End entry.

(** ** Witnesses

    Two players and the first datagram of each, signed with the key of its session. *)

#[local] Existing Instance sample_external.
#[local] Existing Instance sample_laws.
#[local] Existing Instance sample_rng.
#[local] Existing Instance sample_system.
#[local] Existing Instance sample_system_laws.
#[local] Existing Instance sample_redis.
#[local] Existing Instance sample_redis_laws.
#[local] Existing Instance sample_mysql.
#[local] Existing Instance sample_env.

Definition two_players : M2DMakeRoomForThisGroup :=
  mk_make_room 0 [mk_info "ticket_a" 77 "ana" 1000 [] [] 1; mk_info "ticket_b" 78 "bo" 1010 [] [] 2].
Definition open_channel (sid key : Z) : list Z :=
  packet_bytes (signed key (mk_packet (mk_udp 0 0 (u16 sid) 1 0 2 0 0 5 0) D2CHeartBeat)).
Lemma open_channel_first t : 0 <= st_sid t < 2 ^ 15 -> first_packet t "" (open_channel (st_sid t) (st_key t)).
Proof.
  intros Hsid. set (h := mk_udp 0 0 (u16 (st_sid t)) 1 0 2 0 0 5 0).
  assert (Hu : is_u16 (u16 (st_sid t))) by (apply Z.mod_pos_bound; lia).
  assert (Hh : udp_ok h) by (constructor; cbn; try done; unfold is_u16, is_u32; lia).
  unfold open_channel. fold h.
  assert (Hd : exists s, decode_udp (packet_bytes (signed (st_key t) (mk_packet h D2CHeartBeat))) = h <| signature := s |>).
  { eexists. unfold packet_bytes, signed. cbn [pk_header pk_msg]. apply decode_encode_udp.
    destruct Hh.
    constructor; cbn [setf signature packetId h_sessionId rSeqNum uSeqNum flags ackRSeqNum ackBitfield timestamp timestampEcho]; try done.
    apply xxh64_range. }
  destruct Hd as [sg Hd]. constructor; rewrite ?Hd; [done|done| |by apply signed_checks|done].
  cbn. unfold u16, i16. rewrite (Z.mod_small (st_sid t)), Z.mod_small by lia. lia.
Qed.

Lemma player_enters_witness : exists ts sv' sv2 w' s p, map st_info ts = mr_player_infos two_players /\
  handlers_dedi (M2DMakeRoom two_players) (new_DediServerService 0 7000) = (inr true, sv') /\
  exists t, t ∈ ts /\ pi_uid (st_info t) = 77 /\
  handlers_dedi (H2M2DBindClientIpToSession (st_token t) "10.1.1.1") sv' = (inr true, sv2) /\
  _gameRooms (OnDatagram (open_channel (st_sid t) (st_key t)) (mk_sockaddr 1 9000) sv2) !! 1 = Some w' /\
  sess w' !! st_sid t = Some s /\ _sessionState s = SS_CONNECTED /\ _uid (_player s) = 77 /\
  last (w_out w') = Some (OutUdp (mk_sockaddr 167837953 9000) p) /\ pk_msg p = D2CResponseChannelOpen "".
Proof.
  destruct (player_enters two_players (new_DediServerService 0 7000) (sample_store []) 100 5 6) as
    (ts & sv' & msg & m1 & Hts & _ & _ & Hmake & _ & _ & Ht).
  - apply new_service_ok.
  - unfold group_ok. apply (bool_decide_unpack _). vm_compute. exact I.
  - left. reflexivity.
  - unfold tokens_suffice, distinct_draws. apply (bool_decide_unpack _). vm_compute. exact I.
  - split; [apply (bool_decide_unpack _); vm_compute; exact I|].
    intros i [->|[->|[]%elem_of_nil]%elem_of_cons]%elem_of_cons; eexists; reflexivity.
  - reflexivity.
  - eexists. reflexivity.
  - unfold is_i32. lia.
  - reflexivity.
  - reflexivity.
  - destruct ts as [|t ts]; [discriminate Hts|]. assert (Ei : st_info t = mk_info "ticket_a" 77 "ana" 1000 [] [] 1) by (by injection Hts).
    assert (Hin : t ∈ t :: ts) by (by left). destruct (Ht t Hin) as (_ & Hpl & _ & H).
    destruct (H "10.1.1.1" 167837953 eq_refl) as (m2 & sv2 & w & _ & _ & _ & Hbind & _ & _ & Hfirst).
    assert (Hlen : length (_players sv') = 51%nat).
    { change sv' with (snd (@inr Exn bool true, sv')). rewrite <- Hmake. vm_compute. reflexivity. }
    destruct (Hfirst (open_channel (st_sid t) (st_key t)) (mk_sockaddr 1 9000) "") as (w' & s & p & H1 & H2 & [C1 _ C3 _] & H4 & H5).
    + apply open_channel_first. unfold GetPlayerSession in Hpl. rewrite Hlen in Hpl.
      destruct (Z.leb_spec 0 (st_sid t)), (Z.ltb_spec (st_sid t) (Z.of_nat 51)); cbn in Hpl; try discriminate Hpl; lia.
    + unfold is_u16. cbn. lia.
    + vm_compute. discriminate.
    + exists (t :: ts), sv', sv2, w', s, p. split; [exact Hts|]. split; [exact Hmake|]. exists t. split; [exact Hin|].
      split; [by rewrite Ei|]. split; [exact Hbind|]. split; [exact H1|]. split; [exact H2|]. split; [exact C1|].
      split; [rewrite C3; cbn; by rewrite Ei|]. split; [by rewrite H4, last_snoc|exact H5].
Defined.
