(* ===== verification/Home.v ===== *)
(** * How a player gets home

    The other end of a player's way, over the components it goes through: the recall that
    ends well marks the session (ClientPacketHandler.cpp), the room's next update detaches it and
    reports what it carries (GameRoom.cpp, DediServerService.cpp), and the main process replaces the
    player's rows of the raid in MySQL and releases the lock (DBProxyRequest.cpp). *)

From S2P Require Import Prelude Items Inventory Transport Geometry MapData Combat Buffers Protocol Session Room Handlers Calm Safety Rooms.
From S2P Require Import Stores Main Matchmaker DBProxy Manager Service Process Groups Ipc.
From stdpp Require Import strings.
Local Open Scope Z_scope.

(** ** The room *)

Section room.
Context {E : External} {L : ExternalLaws E}.

(** The tick that completes a recall: nothing stands in its way. *)
Record going_home (sid : Z) (s : PlayerSession) (w : World) : Prop := {
  gh_there : sess w !! sid = Some s;
  gh_recalling : _isRecalling (s_recall s) = true;
  gh_last : RECALL_REQUIRED_PASS_COUNT <= fst (AddRecallPass s);
  gh_free : recall_obstacle s (w_room w) = None }.

(** The report of a player who made it. *)
Definition made_it (s : PlayerSession) : PlayerSession := s <| s_leave ::= fun l => l <| _leaveReason := LR_RECALLED |> |>.
Definition home (s : PlayerSession) : D2MNotifyPlayerLeft := NotifyPlayerLeftToMain (made_it s).

Record recalled (s s1 : PlayerSession) : Prop := {
  rc_state : _leaveState (s_leave s1) = LS_PENDING;
  rc_reason : _leaveReason (s_leave s1) = LR_RECALLED;
  rc_inventory : GetInventory s1 = GetInventory s;
  rc_uid : session_uid s1 = session_uid s }.

Lemma not_leaving s r : recall_obstacle s r = None -> _leaveState (s_leave s) = LS_NONE /\ IsInplay s = true.
Proof.
  unfold recall_obstacle, IsLeaving. destruct (IsInplay s); [|done]. cbn [negb]. case_bool_decide; [|done]. done.
Qed.
Lemma sess_of_upd sid f w : sess (exec (upd_session sid f) w) = alter f sid (sess w).
Proof. done. Qed.

Lemma RecallTick_last sid s w : going_home sid s w -> exists n w3,
  view w3 = view (exec (upd_session sid EndRecall) (exec (upd_session sid (fun _ => snd (AddRecallPass s))) w)) /\
  exec (RecallTick sid (session_uid s) (_recallGeneration (s_recall s))) w = exec (mark_leaving sid LR_RECALLED n) w3.
Proof.
  intros [Hs Hr Hlast Hfree]. unfold RecallTick, exec at 3. unfold sess in Hs. rewrite Hs, Hr, Z.eqb_refl. cbn [negb orb].
  unfold session_uid. rewrite Z.eqb_refl. cbn [negb]. rewrite Hfree.
  destruct (AddRecallPass s) as [passes s1]. cbn [fst snd] in *. rewrite (proj2 (Z.ltb_ge _ _)) by done.
  refold. set (w1 := exec (upd_session sid (fun _ => s1)) w). rewrite !exec_bind. set (w2 := exec (upd_session sid EndRecall) w1).
  match goal with |- context [SendRecallResult ?a ?b ?c ?d] => set (m := SendRecallResult a b c d) end.
  exists (eval m w2), (exec m w2). split; [|done]. unfold m, SendRecallResult. rewrite exec_bind. apply Send_view.
Qed.

Lemma recall_completes sid s w : going_home sid s w ->
  let w1 := exec (RecallTick sid (session_uid s) (_recallGeneration (s_recall s))) w in
  (exists s1, own sid w1 = Some s1 /\ recalled s s1) /\ forall uid, told uid (w_out w1) = told uid (w_out w).
Proof.
  intros Hg. cbn zeta. destruct (RecallTick_last sid s w Hg) as (n & w3 & Hv & ->). destruct Hg as [Hs _ _ Hfree].
  destruct (not_leaving s (w_room w) Hfree) as [Hst _]. set (s2 := EndRecall (strip (snd (AddRecallPass s)))).
  assert (Ho3 : own sid w3 = Some s2).
  { rewrite (view_own _ _ _ Hv), own_upd_session_eq by apply _. unfold own at 1. by rewrite sess_of_upd, lookup_alter_eq, Hs. }
  set (s4 := MarkLeaving LR_RECALLED n (w_now w3) s2). split.
  - exists s4. split.
    + change (own sid (exec (upd_session sid (MarkLeaving LR_RECALLED n (w_now w3))) w3) = Some s4).
      by rewrite own_upd_session_eq, Ho3 by apply _.
    + destruct (MarkLeaving_frame LR_RECALLED n (w_now w3) s2) as (F1 & _). fold s4 in F1.
      assert (Hm : s_leave s4 = mk_leave LS_PENDING LR_RECALLED (w_now w3)
                     (if negb (n =? 0) then n else _leaveNotifyRSeq (s_leave s)) (_leftNotified (s_leave s))).
      { unfold s4, MarkLeaving. change (s_leave s2) with (s_leave s). by rewrite Hst. }
      constructor; [by rewrite Hm..|unfold GetInventory; by rewrite F1|unfold session_uid; by rewrite F1].
  - intros uid. change (told uid (w_out w3) = told uid (w_out w)).
    by rewrite <- (told_side uid (w_out w3)), (view_side _ _ Hv), told_side.
Qed.

(** The next update detaches and reports. *)
Lemma marks_recalled now rs s : _leaveState (s_leave s) = LS_PENDING -> _leaveReason (s_leave s) = LR_RECALLED -> marks now rs s = s.
Proof.
  intros Hst Hr. induction rs as [|r rs IH]; [done|].
  change (marks now (r :: rs) s) with (marks now rs (MarkLeaving r 0 now s)).
  assert (Hm : MarkLeaving r 0 now s = s); [|by rewrite Hm].
  unfold MarkLeaving. rewrite Hst, Hr. by case_bool_decide.
Qed.

Lemma home_message s s1 : recalled s s1 -> NotifyPlayerLeftToMain (strip (detached_session false s1)) = home s.
Proof.
  intros [_ Hr Hi Hu]. unfold home, NotifyPlayerLeftToMain. destruct (detached_facts false s1) as (_ & H2 & _).
  change (s_leave (strip ?x)) with (s_leave x). rewrite H2, Hr. rewrite !bool_decide_eq_true_2 by done.
  assert (Hd : GetInventory (strip (detached_session false s1)) = GetInventory s /\ session_uid (strip (detached_session false s1)) = session_uid s).
  { rewrite <- Hi, <- Hu. unfold detached_session, exec. rewrite NotifyLeftOnce_eq. done. }
  destruct Hd as [Hd1 Hd2]. unfold session_uid in Hd2. rewrite Hd1, Hd2. done.
Qed.

Lemma departure_reported sid s s1 w : uids_distinct w -> session_inv s1 -> own sid w = Some s1 -> recalled s s1 ->
  let w' := exec room_update w in
  told (session_uid s) (w_out w') = told (session_uid s) (w_out w) ++ [OutLeft (home s)] /\
  exists s', own sid w' = Some s' /\ 2 <= leave_rank (_leaveState (s_leave s')).
Proof.
  intros Hu [Hl _] Hs Hr. cbn zeta. unfold room_update. rewrite exec_bind. set (w1 := exec ProcessLeaves w).
  pose proof (calm_Update w1) as Hc. destruct (ProcessLeaves_steps w Hu) as (_ & _ & Hsteps & _).
  destruct (Hsteps sid s1 Hs) as (es & Htold & [_ (rs & s' & _ & Hs' & Hdep & _)]).
  rewrite (marks_recalled _ rs s1 (rc_state _ _ Hr) (rc_reason _ _ Hr)) in Hdep. unfold depart in Hdep.
  rewrite (rc_state _ _ Hr) in Hdep. destruct Hdep as (cleared & es2 & Hcl & -> & Hset).
  assert (cleared = false) as ->.
  { destruct cleared; [|done]. specialize (Hcl eq_refl). by rewrite (rc_reason _ _ Hr) in Hcl. }
  pose proof (detached_inv false s1 Hl ltac:(by rewrite (rc_state _ _ Hr))) as Hd.
  destruct (settle_inv _ _ s' es2 Hd (proj1 (detached_facts false s1)) Hset) as (_ & -> & _ & _ & _ & Hcase).
  assert (Hn : _leftNotified (s_leave s1) = false).
  { apply not_true_iff_false. intros Hn. apply Hl in Hn. rewrite (rc_state _ _ Hr) in Hn. cbn in Hn. lia. }
  unfold left_unless in Htold. rewrite Hn, app_nil_r, (home_message s s1 Hr), (rc_uid _ _ Hr) in Htold. split.
  - by rewrite (cm_told _ _ Hc).
  - destruct (cm_some _ _ Hc sid s' Hs') as (s2 & Hs2 & Hcs). exists s2. split; [done|].
    rewrite (cs_state _ _ Hcs). destruct Hcase as [[-> _]|[-> _]]; cbn; lia.
Qed.
End room.

(** ** The dedicated process *)

Section process.
Context {E : External} {L : ExternalLaws E} {G : Rng} {Y : System} {LY : SystemLaws Y}.

Definition lefts (os : list Output) : list ToMain := omap (fun o => match o with OutLeft m => Some (TmLeft m) | _ => None end) os.
Definition of_user (uid : Z) (r : ToMain) : bool := match r with TmLeft m => pl_uid m =? uid | _ => false end.

Lemma lefts_told uid os : List.filter (of_user uid) (lefts os) = lefts (told uid os).
Proof.
  unfold told, lefts. induction os as [|o os IH]; [done|]. cbn. destruct o; cbn; try done.
  destruct (pl_uid m =? uid); cbn; by rewrite IH.
Qed.
Lemma act_lefts os sv : sv_toMain (foldl (fun sv o => act_on o sv) sv os) = sv_toMain sv ++ lefts os.
Proof.
  revert sv. induction os as [|o os IH]; intros sv; [by rewrite app_nil_r|]. cbn [foldl]. rewrite IH. destruct o; try done.
  cbn. by rewrite <- app_assoc.
Qed.

(** What a step of a room makes a process send about a user. *)
Lemma in_room_lefts rid l sv w : _gameRooms sv !! rid = Some w ->
  exists r : list ToMain, sv_toMain (in_room rid l sv) = sv_toMain sv ++ r /\
    forall uid os, told uid (w_out (step l w)) = told uid (w_out w) ++ os -> List.filter (of_user uid) r = lefts os.
Proof.
  intros Hw. unfold in_room. rewrite Hw. cbn zeta. rewrite act_lefts. destruct (extends_step l w) as (os & Eo & _).
  rewrite Eo, drop_app_length. exists (lefts os). split; [done|]. intros uid os'. rewrite told_app, lefts_told.
  by intros ->%app_inv_head.
Qed.
End process.

(** ** The main process *)

Section main_side.
Context {R : Redis} {M : Mysql} {LM : MysqlLaws M} {E : MainEnv}.

(** A working database between transactions, and nothing waiting. *)
Record at_rest (m : Main R M) : Prop := {
  ar_redis : r_answers (m_redis m) = [];
  ar_mysql : r_answers (m_db m) = [];
  ar_queue : _requestQueue m = [];
  ar_commit : autocommit (r_data (m_db m)) = true;
  ar_clean : working (r_data (m_db m)) = committed (r_data (m_db m)) }.

Lemma departure_executed pid fd s (m : Main R M) : let uid := session_uid s in
  0 <= uid -> length (_inventorySlots (GetInventory s)) = 25%nat -> accepts (M:=M) uid -> at_rest m ->
  exists r, (ok ← handlers_main (DediPeer pid fd) (to_ipc (TmLeft (home s))); _ ← ExecuteAll; mret ok) m =
    (inr true, m <| m_db := r |> <| m_redis := mk_remote (r_del [lock_key uid] (r_data (m_redis m))) [] |>) /\
    Permutation (db_rows (committed (r_data r))) (target_rows uid (left_slots (home s)) (db_rows (committed (r_data (m_db m))))).
Proof.
  intros uid Hu Hlen Hacc [HaR HaD Hq Hac Hw].
  destruct (left_slots_ok (made_it s) Hlen) as [Hs Hd].
  fold (home s) in Hs, Hd.
  destruct (left_executed uid (left_slots (home s)) m Hu Hs Hd Hacc HaR HaD Hac Hw) as (r & Ee & Hr). exists r. split; [|done].
  set (q := NotifyPlayerLeftRequest fd uid (leave_code (pl_leave_reason (home s))) (left_slots (home s))).
  assert (He : (_ ← RegisterDBRequest q; ExecuteAll) m =
    (inr true, m <| m_db := r |> <| m_redis := mk_remote (r_del [lock_key uid] (r_data (m_redis m))) [] |>)).
  { rewrite execute_one by done. cbn [q Execute]. unfold mbind, EX_bind. rewrite Ee. done. }
  cbn [handlers_main to_ipc GetFd]. unfold Handle_D2M_NotifyPlayerLeft.
  assert (Hpl : pl_uid (home s) = uid) by done. rewrite Hpl. fold (left_slots (home s)). fold q.
  unfold mbind, EX_bind in He |- *. destruct (RegisterDBRequest q m) as [[e|u] m1] eqn:Er; [done|]. cbn. by rewrite He.
Qed.
End main_side.

(** ** Theorems *)

Section home.
Context {E : External} {L : ExternalLaws E} {G : Rng} {Y : System} {LY : SystemLaws Y}.
Context {R : Redis} {LR : RedisLaws R} {M : Mysql} {LM : MysqlLaws M} {N : MainEnv}.

(** C3. A player who recalls gets home with bag and equipment: when the timer fires for the last
    tick of a recall that nothing obstructs and the room's turn to be updated comes, the
    dedicated process reports the player once, as recalled; the main process handles the
    report in its next pass, and then the player's rows of the raid in MySQL are
    exactly what the player carried - the bag from slot 80 on, the weapons and the
    armour from slot 105 on; the rounds in the magazines have no slot in the table and
    are lost, as the source notes - while the rest of the table is as it was, and the
    lock that kept the player from queueing again is released. *)
Theorem player_gets_home sv rid w sid s at_ (m : Main R M) pid fd :
  let uid := session_uid s in let inv := GetInventory s in
  GetPlayerSession (i16 sid) sv = Some rid -> _gameRooms sv !! rid = Some w -> leave_inv w -> going_home sid s w ->
  0 <= uid -> length (_inventorySlots inv) = 25%nat -> accepts (M:=M) uid -> at_rest m ->
  let sv' := update_turn (Z.rem rid 4) (timer_callback (mk_timer at_ sid uid (_recallGeneration (s_recall s))) sv) rid in
  exists r p w' s' m', sv_toMain sv' = sv_toMain sv ++ r /\ List.filter (of_user uid) r = [TmLeft p] /\
    pl_leave_reason p = LR_RECALLED /\ _gameRooms sv' !! rid = Some w' /\ own sid w' = Some s' /\
    2 <= leave_rank (_leaveState (s_leave s')) /\
    (ok ← handlers_main (DediPeer pid fd) (to_ipc (TmLeft p)); _ ← ExecuteAll; mret ok) m = (inr true, m') /\
    r_get (lock_key uid) (r_data (m_redis m')) = None /\
    Permutation (db_rows (committed (r_data (m_db m'))))
      (map (inv_row uid) (map (table_row 80) (ipc_slots 0 (_inventorySlots inv)) ++
                          map (table_row 105) (ipc_slots 0 [_primaryWeaponSlot inv; _secondaryWeaponSlot inv; _armorSlot inv]))
       ++ List.filter (untouched uid) (db_rows (committed (r_data (m_db m))))).
Proof.
  intros uid inv Hpl Hw Hl Hg Hu Hlen Hacc Hm sv'. set (e := mk_timer at_ sid uid _) in sv'.
  assert (H1 : timer_callback e sv = in_room rid (LRecallTimer sid uid (_recallGeneration (s_recall s))) sv).
  { unfold timer_callback. change (tm_session e) with sid. by rewrite Hpl. }
  set (l1 := LRecallTimer sid uid (_recallGeneration (s_recall s))) in H1. set (sv1 := in_room rid l1 sv) in H1.
  destruct (recall_completes sid s w Hg) as ((s1 & Hs1 & Hr1) & Ht1).
  change (exec (RecallTick sid (session_uid s) _) w) with (step l1 w) in Hs1, Ht1. set (w1 := step l1 w) in Hs1, Ht1.
  assert (Hw1 : _gameRooms sv1 !! rid = Some w1) by (unfold sv1; by rewrite in_room_rooms, decide_True, Hw).
  pose proof (proj1 (step_kept l1 w Hl)) as Hl1. fold w1 in Hl1.
  assert (H2 : sv' = in_room rid LUpdate sv1).
  { unfold sv'. rewrite H1. unfold update_turn. rewrite Z.eqb_refl.
    destruct (Z.eqb_spec (Z.rem rid 4) (Z.rem (Z.rem rid 4 + 2) 4)) as [Hx|]; [|done].
    exfalso. revert Hx. pose proof (Z.rem_bound_abs rid 4 ltac:(lia)). Z.to_euclidean_division_equations. lia. }
  destruct (departure_reported sid s s1 w1 (li_uids _ Hl1) (li_sessions _ Hl1 _ _ Hs1) Hs1 Hr1) as (Ht2 & s' & Hs' & Hrank).
  change (exec room_update w1) with (step LUpdate w1) in Ht2, Hs'.
  destruct (in_room_lefts rid l1 sv w Hw) as (r1 & E1 & F1). destruct (in_room_lefts rid LUpdate sv1 w1 Hw1) as (r2 & E2 & F2).
  destruct (departure_executed pid fd s m Hu Hlen Hacc Hm) as (r & Hx & Hrows).
  exists (r1 ++ r2), (home s), (step LUpdate w1), s'. eexists. split_and!.
  - rewrite H2, E2. fold sv1 in E1. by rewrite E1, app_assoc.
  - rewrite List.filter_app, (F1 uid []), (F2 uid [OutLeft (home s)]); [done|exact Ht2|]. by rewrite app_nil_r, Ht1.
  - unfold home, NotifyPlayerLeftToMain. by destruct (if bool_decide _ then _ else _).
  - by rewrite H2, in_room_rooms, decide_True, Hw1.
  - exact Hs'.
  - exact Hrank.
  - exact Hx.
  - apply get_del. by left.
  - exact Hrows.
Qed.
End home.

(** ** Witnesses

    The player of a room stands at the recall spot, one tick before the end; the table holds a
    row of the player's from before the raid, one from outside it and another player's. *)

#[local] Existing Instance sample_external.
#[local] Existing Instance sample_laws.
#[local] Existing Instance sample_rng.
#[local] Existing Instance sample_system.
#[local] Existing Instance sample_system_laws.
#[local] Existing Instance sample_redis.
#[local] Existing Instance sample_redis_laws.
#[local] Existing Instance sample_mysql.
#[local] Existing Instance sample_mysql_laws.
#[local] Existing Instance sample_env.

Definition homing : PlayerSession := SetObjectId 5 (player_at 0 7 "ana") <| s_recall := mk_recall true 3 4 0 |>.
Definition homing_object : PlayerObject :=
  new_PlayerObject 5 (mk_vector3 (f32_of_Z 0) (f32_of_Z 0) (f32_of_Z 70)) 1 "ana".
Definition homing_world : World :=
  mk_world ((new_GameRoom 1 1 0)
    <| _playerSessions := {[ 0 := homing ]} |> <| _playerObjects := {[ 5 := homing_object ]} |>) 1000 [] false.
Definition homing_service : Service :=
  (new_DediServerService 0 7000) <| _gameRooms := {[ 1 := homing_world ]} |> <| _players ::= <[ 0%nat := Some 1 ]> |>.

Lemma homing_world_own sid s : own sid homing_world = Some s -> sid = 0 /\ s = strip homing.
Proof.
  unfold own, sess. change (_playerSessions (w_room homing_world)) with ({[ 0 := homing ]} : gmap Z PlayerSession).
  rewrite fmap_Some. intros (t & Ht & ->). by apply lookup_singleton_Some in Ht as [<- <-].
Qed.

Lemma homing_world_inv : leave_inv homing_world.
Proof.
  assert (Hown := homing_world_own). constructor.
  - intros sid1 sid2 s1 s2 H1 H2. by destruct (Hown _ _ H1) as [-> ->], (Hown _ _ H2) as [-> ->].
  - intros sid s H. destruct (Hown _ _ H) as [-> ->].
    split; [split; vm_compute; [split; [done|intros []; done]|done]|vm_compute; intros []; done].
  - intros sid s H. by destruct (Hown _ _ H) as [-> ->].
  - reflexivity.
Qed.

Lemma player_gets_home_witness : exists r p m',
  sv_toMain (update_turn 1 (timer_callback (mk_timer 1000 0 7 3) homing_service) 1) = r /\
  List.filter (of_user 7) r = [TmLeft p] /\ pl_leave_reason p = LR_RECALLED /\
  (ok ← handlers_main (DediPeer 100 5) (to_ipc (TmLeft p)); _ ← ExecuteAll; mret ok) (sample_store []) = (inr true, m') /\
  Permutation (db_rows (committed (r_data (m_db m'))))
    [mk_row 7 5 80 10; mk_row 7 3 81 1; mk_row 7 4 82 1; mk_row 7 2 105 1; mk_row 7 1 2 5; mk_row 8 1 90 1].
Proof.
  destruct (player_gets_home homing_service 1 homing_world 0 homing 1000 (sample_store []) 100 5) as
    (r & p & w' & s' & m' & H1 & H2 & H3 & _ & _ & _ & H4 & _ & H5).
  - reflexivity.
  - reflexivity.
  - exact homing_world_inv.
  - constructor; [reflexivity|reflexivity|vm_compute; discriminate|vm_compute; reflexivity].
  - vm_compute. discriminate.
  - reflexivity.
  - apply sample_accepts.
  - constructor; reflexivity.
  - exists r, p, m'. split; [exact H1|]. split; [exact H2|]. split; [exact H3|]. split; [exact H4|].
    revert H5. vm_compute (map _ _ ++ _). exact id.
Defined.
